(* ===== verification/_CoqProject ===== *)
-Q . S2P
Prelude.v
Lir.v
Hamt.v
Jit.v
Queues.v
StackCache.v
Uxn.v
MicroOps.v
Opcodes.v
Compile.v
Concrete.v
Invariant.v
CacheSafety.v
OpcodeSafety.v
BlockSafety.v
JitSafety.v
Machine.v
StackSim.v
PopSim.v
DiscardSim.v
OperandSim.v
StepSim.v
OpcodeSim.v
MemSim.v
DivSim.v
FetchSim.v
OpcodeCorrect.v
ExitSim.v
UxnControl.v
UxnDevices.v
Emission.v
Flows.v
HostSim.v
JumpSim.v
ControlSim.v
ControlOps.v
DeviceSim.v
BlockFlow.v
LinkedRun.v
Trampoline.v
Session.v
SessionInv.v
JitRun.v
MapCorrect.v
BlockCorrect.v
SimCorrect.v
Console.v
ControlCorrect.v
JitCorrect.v
Findings.v
Bytes.v
Pointers.v
AddrMapping.v
LabelMap.v
CompositeHook.v
PerfHook.v
PerfCorrect.v
GdbHook.v
GdbCorrect.v
GdbReader.v
Cli.v
Boot.v
HostRun.v
HostCorrect.v
