(* ===== verification/Prelude.v ===== *)
(** * buxn-jit: a verification development

    buxn-jit compiles programs for the uxn virtual machine to native code, one
    block of opcodes at a time, through the code generator sljit.  This library
    models the repository's C code and proves what its parts guarantee.  The
    file at hand is the prelude: machine integers, the monad of the translation
    ([res], [M], its total-correctness rules [wp]), functional record update
    and arithmetic automation.

    ** The program and the files

    The compiler, src/src/jit.c:
    - Jit.v, Queues.v: the JIT ([buxn_jit_t]): block map, block store, compile,
      link and cleanup queues; [jit_ok], its invariant.  Pointers to blocks,
      queue entries' compilers and chunks are indices into stores.
    - Hamt.v: the hash trie of src/src/hamt.h and the hash function.
    - Lir.v: the calls jit.c makes on sljit, logged as [code]; the meaning
      [exec] of a log on a machine.  sljit is the interface [Sljit] with its
      documented behaviour [SljitSpec]; jumps bind to labels as in sljit.
    - StackCache.v: register allocation and the two stack caches (push, pop,
      discard, flush, spill, clear, retain), compile-time state and emitted
      code together, as in the source.
    - MicroOps.v, Opcodes.v, Compile.v: operands, memory accesses, jumps and
      immediates; the 36 opcode handlers; fetching and dispatching one opcode,
      compiling a block, linking, [buxn_jit], [buxn_jit_execute] and the
      trampoline's callback.  [buxn_jit_next_opcode] and the boolean jumps that
      call it back are tied by an argument.
    - Concrete.v: instances of all interfaces on which examples run.

    What is around it:
    - Bytes.v, Pointers.v: bytes and C strings; linked cells in a heap.
    - AddrMapping.v: src/src/addr_mapping.h and the list of address mappings
      that src/src/perf.c and src/src/gdb/hook.c both build, over any hook data
      that contains it (class [HasMaps]).
    - LabelMap.v: src/include/buxn/jit/label_map.h and the .sym reader of
      src/src/cli.c.
    - CompositeHook.v: src/include/buxn/jit/composite_hook.h.
    - PerfHook.v, PerfCorrect.v: src/src/perf.c; a reader of its format.
    - GdbHook.v, GdbCorrect.v: src/src/gdb/hook.c; doubly linked lists.
    - GdbReader.v: src/src/gdb/reader.c.
    - Cli.v, Boot.v: src/src/cli.c, the session and what surrounds it.
    - HostRun.v, HostCorrect.v: cli.c and jit.c together.

    ** What is proved

    Safety and termination of the compiler, for any program and opcode table:
    Invariant.v ([Inv]: every register's reference count is the number of its
    owners), CacheSafety.v, OpcodeSafety.v, BlockSafety.v, JitSafety.v.  Their
    results are in BlockCorrect.v (the allocator never fails with fewer than
    six registers held, no handler fails an assertion, every opcode makes
    progress) and JitCorrect.v ([buxn_jit] always returns, with everything it
    reached compiled, every jump patched and no work pending, and an address
    once compiled is not compiled again).  MapCorrect.v: the trie is a finite
    map with a bounded search.

    Correctness of the emitted code: Uxn.v specifies the straight-line opcodes
    on lists of bytes; Machine.v has the rules to execute what an operation
    emits; StackSim.v to OpcodeCorrect.v prove that the code of each handler,
    executed, does what the specification says, whatever part of the stacks is
    in registers; ExitSim.v that a block is left with both stacks in memory.
    SimCorrect.v composes them: one opcode, and a stretch of opcodes closed by
    BRK.  An operand may share its register with other cached cells, as after
    DUP or OVR, and is popped correctly when its size is that of the cell.  The
    hypothesis [poppable] excludes the opcodes that change a register in place
    while cells share one (INC, LDR, STR, and pops that split a short or join
    two bytes), and the pops compiled under register pressure; Findings.v shows
    programs that violate it and are compiled wrongly.

    Linked code at run time: UxnControl.v specifies jumps and calls,
    UxnDevices.v the device opcodes, for any model of the devices, and a
    whole program from an address to its BRK. Emission.v bounds what the
    compiler may add to the log, Flows.v and JumpSim.v execute the jumps
    bound inside a block, ControlSim.v and ControlOps.v the code of JMP,
    JCN, JSR, JCI, JMI and JSI up to the call or the jump it ends with;
    HostSim.v and DeviceSim.v execute DEI and DEO, which hand the whole
    state to the host and take it up again; BlockFlow.v goes from the body
    of a block to where it leaves ([loop_flow]). LinkedRun.v reads the code
    of all blocks after [link_of] has patched their jumps ([enter]: what the
    processor does from the entry of a block) and shows that it follows the
    specification; Trampoline.v is the function other code calls; Session.v
    and SessionInv.v show that successive calls of [buxn_jit] compile
    whatever their blocks reach, one block for each address, count them, and
    patch each link with the address of the entry that [link_of] names, for
    any opcodes; JitRun.v adds the blocks not compiled yet,
    which call back into the JIT. ControlCorrect.v has the results: on a JIT
    with any blocks compiled before, calling the function of a block runs
    the uxn program to its end, with its inputs and outputs; the witnesses
    run on the host of Console.v. HostRun.v puts the compiled code under the
    session of Cli.v: each console event calls [buxn_jit_execute] on what
    the calls before left compiled and in memory. HostCorrect.v: the session
    sends the same events, prints the same and exits with the same code as
    one that is run by the specification ([hosts_in_step] is the argument,
    for any two hosts whose calls return), and [buxn_jit_execute] does not
    reach its last assertion ([execute_leaves]). The hypotheses [plain_run] and [plain_execute] ask,
    for every opcode met, for [poppable] and that no jump takes the result
    of a comparison as its address.

    Debugging support and the host: the symbol lookup with a hint is the
    plain one; mapping chunks are reused and never lost; what the perf hook
    appends to a jitdump file reads back as the records of the block; gdb's
    list stays doubly linked and the reader describes a block completely;
    a composite hook calls its members in order and they share one mark per
    opcode; a .sym file reads back; a run sends the events of its arguments
    and input and ends when its calls of the JIT return; the ROM loader's
    bounds; on every path through [main] that ends what is acquired is
    released, after its last use (Boot.v). There a release also asks that
    nothing held points to what goes; two pointers are left dangling by
    cli.c and excepted by name, the hooks' to the label arrays and the
    virtual machine's to the JIT, neither of which is followed afterwards.
    Findings about these files are the theorems at the end of
    PerfCorrect.v, GdbCorrect.v, GdbReader.v, LabelMap.v and Cli.v.

    ** Fuel and bounds

    [alloc_loop] runs at most eight times (each iteration spills one of at most
    eight cached cells) and the loops on a cache at most four; [block_fuel] is
    65537, one more than the addresses a block can hold; [queue_fuel] is 65536,
    the blocks that can exist.  Loops over linked lists have the number of
    allocated cells as fuel, loops over files their length.  That the fuel is
    enough is part of the theorems: [wp] excludes [OutOfFuel].  A uxn program
    need not end, so its specification and the execution of linked code
    ([enter], [execute_fn]) take fuel; any fuel above the number of blocks the
    specification goes through is enough.  A ROM that loops makes a call of the
    JIT, and with it the host program, not return; in Cli.v and Boot.v such a
    call is [OutOfFuel].

    ** Interfaces

    [Sljit] and [CodeGen] (sljit), [VmLayout], [BuxnVm], [Host] and
    [Runtime] (buxn's virtual machine, opcode table and interpreter),
    [DbgSymtab] (its debug symbols), [PerfHost], [GdbTarget], [CliHost],
    [Front], [BootHost] and [Devices] (clock and memory, gdb, consoles,
    files and devices). Laws are stated where theorems need them, in
    [SljitSpec], [LayoutSpec], [HostSpec] (the host's devices keep to the
    state they are given and their own) and [FrontSpec] (so does its
    console), and are satisfied by the instances of Concrete.v,
    SimCorrect.v, Console.v and HostCorrect.v.

    ** Not modelled

    What the C library and the system do with files, the arena allocator, the
    reader of the .dbg file (buxn's library), the mutex (registration and
    cleanup are atomic steps), the ARM variants of the unwinder, verbose
    logging, and the test programs.  The native stack has no bound: a uxn call
    compiled to a native call (jit.c:1268-1290) that is never returned from
    keeps its frame, and a program that nests such calls without end would
    exhaust the stack of the host, while [enter] goes on as long as its fuel.
    Two things are proved safe to compile
    but have no theorem about their execution: jumps whose target is the
    result of a comparison, and opcodes that are not [poppable].
    The JIT reads a block from memory when it is first reached; the theorems
    on whole programs compile from the memory the ROM was loaded to.
    HostCorrect.v is about uxn as it is, reading its opcodes from memory,
    for runs in which no opcode reached has been overwritten; a program that
    overwrites its compiled opcodes behaves differently under the JIT, by
    design. *)
From stdpp Require Export base gmap list strings.
From Stdlib Require Export ZArith Lia.

Declare Scope jit_scope.
Delimit Scope jit_scope with jit.
#[global] Open Scope Z_scope.

(** ** Machine-width integers

    A [uintN_t] is a [Z] in [0, 2^N); every assignment to such a variable in
    the source goes through the corresponding truncation. *)

Definition u8 (x : Z) : Z := x mod 256.
Definition u16 (x : Z) : Z := x mod 65536.
Definition u32 (x : Z) : Z := x mod 4294967296.

(** [(int8_t)x], as a mathematical integer. *)
Definition s8 (x : Z) : Z := if u8 x <? 128 then u8 x else u8 x - 256.

Definition is_u8 (x : Z) : Prop := 0 <= x < 256.
Definition is_u16 (x : Z) : Prop := 0 <= x < 65536.
Definition is_u32 (x : Z) : Prop := 0 <= x < 4294967296.

(** [x & f] used as a C condition. *)
Definition has_bit (x f : Z) : bool := negb (Z.land x f =? 0).

(** ** The error/state monad of the translation

    A C function that mutates its context is a function [S -> res (A * S)].
    [AssertFailed] is a failed [BUXN_JIT_ASSERT]; [OutOfFuel] is a loop whose
    fuel ran out, which the development proves unreachable. *)

Inductive res (A : Type) : Type :=
  | Ok (a : A)
  | AssertFailed (msg : string)
  | OutOfFuel.
Arguments Ok {A} a.
Arguments AssertFailed {A} msg.
Arguments OutOfFuel {A}.

#[export] Instance res_fmap : FMap res := fun A B f r =>
  match r with Ok a => Ok (f a) | AssertFailed e => AssertFailed e | OutOfFuel => OutOfFuel end.

Definition M (S A : Type) : Type := S -> res (A * S).

Definition ret {S A : Type} (a : A) : M S A := fun s => Ok (a, s).

Definition bind {S A B : Type} (m : M S A) (k : A -> M S B) : M S B :=
  fun s =>
    match m s with
    | Ok (a, s') => k a s'
    | AssertFailed e => AssertFailed e
    | OutOfFuel => OutOfFuel
    end.

Definition gets {S A : Type} (f : S -> A) : M S A := fun s => Ok (f s, s).
Definition modify {S : Type} (f : S -> S) : M S unit := fun s => Ok (tt, f s).
Definition assert_that {S : Type} (b : bool) (msg : string) : M S unit :=
  fun s => if b then Ok (tt, s) else AssertFailed msg.
Definition out_of_fuel {S A : Type} : M S A := fun _ => OutOfFuel.
Definition when {S : Type} (b : bool) (m : M S unit) : M S unit :=
  if b then m else ret tt.

Notation "x <-- m ;; k" := (bind m (fun x => k))
  (at level 100, m at next level, right associativity) : jit_scope.
Notation "m ;;; k" := (bind m (fun _ => k))
  (at level 100, right associativity) : jit_scope.

(** Total correctness of a monadic computation from one state: it does not
    fail, does not run out of fuel, and its result satisfies [Q]. *)
Definition wp {S A : Type} (m : M S A) (Q : A -> S -> Prop) (s : S) : Prop :=
  match m s with
  | Ok (a, s') => Q a s'
  | _ => False
  end.

Section WpRules.
Context {S A B : Type}.

Lemma wp_ret (a : A) (Q : A -> S -> Prop) s : Q a s -> wp (ret a) Q s.
Proof. done. Qed.

Lemma wp_bind (m : M S A) (k : A -> M S B) Q s :
  wp m (fun a => wp (k a) Q) s -> wp (bind m k) Q s.
Proof. unfold wp, bind. destruct (m s) as [[a s']| |]; done. Qed.

Lemma wp_mono (m : M S A) (Q Q' : A -> S -> Prop) s :
  wp m Q s -> (forall a s', Q a s' -> Q' a s') -> wp m Q' s.
Proof. unfold wp. destruct (m s) as [[a s']| |]; naive_solver. Qed.

Lemma wp_gets (f : S -> A) (Q : A -> S -> Prop) s : Q (f s) s -> wp (gets f) Q s.
Proof. done. Qed.

Lemma wp_modify (f : S -> S) (Q : unit -> S -> Prop) s :
  Q tt (f s) -> wp (modify f) Q s.
Proof. done. Qed.

Lemma wp_assert b msg (Q : unit -> S -> Prop) s :
  b = true -> Q tt s -> wp (assert_that b msg) Q s.
Proof. intros ->. done. Qed.

(** The last operation of a sequence, as one followed by nothing. *)
Lemma wp_tail (m : M S A) (Q : A -> S -> Prop) s : wp (bind m ret) Q s -> wp m Q s.
Proof. unfold wp, bind, ret. destruct (m s) as [[a s']| |]; done. Qed.

Lemma wp_tail_tt (m : M S unit) (Q : unit -> S -> Prop) s :
  wp (bind m (fun _ => ret tt)) Q s -> wp m Q s.
Proof. unfold wp, bind, ret. destruct (m s) as [[[] s']| |]; done. Qed.

Lemma wp_elim (m : M S A) (Q : A -> S -> Prop) s :
  wp m Q s -> exists a s', m s = Ok (a, s') /\ Q a s'.
Proof. unfold wp. destruct (m s) as [[a s']| |]; naive_solver. Qed.
End WpRules.

Lemma wp_assoc {S A B C : Type} (m : M S A) (f : A -> M S B) (g : B -> M S C) Q s :
  wp (bind m (fun a => bind (f a) g)) Q s -> wp (bind (bind m f) g) Q s.
Proof. unfold wp, bind. destruct (m s) as [[a s']| |]; done. Qed.

(** ** Functional record update

    [record_set eta proj f r] builds, from the eta-expansion [eta] of a record
    type, the record [r] whose field [proj] is replaced by [f (proj r)]. *)
Ltac record_set eta proj f r :=
  let body := eval cbv beta delta [eta] in (eta r) in
  match eval pattern (proj r) in body with
  | ?g _ => let t := eval cbv beta in (g (f (proj r))) in exact t
  end.

(** ** Arithmetic automation *)

Create HintDb machine_int.
#[export] Hint Unfold u8 u16 u32 is_u8 is_u16 is_u32 : machine_int.

(** [lia] after unfolding the machine-width definitions and turning
    divisions and remainders by constants into equations. *)
Ltac mlia :=
  autounfold with machine_int in *;
  Z.div_mod_to_equations; lia.

Lemma u8_range x : is_u8 (u8 x).
Proof. mlia. Qed.
Lemma u16_range x : is_u16 (u16 x).
Proof. mlia. Qed.
Lemma u8_id x : is_u8 x -> u8 x = x.
Proof. mlia. Qed.
Lemma u16_id x : is_u16 x -> u16 x = x.
Proof. mlia. Qed.
Lemma u32_id x : is_u32 x -> u32 x = x.
Proof. mlia. Qed.
Lemma s8_range x : -128 <= s8 x < 128.
Proof. unfold s8. pose proof (u8_range x). destruct (Z.ltb_spec (u8 x) 128); mlia. Qed.

(** [uint16_t] built from two bytes, and its halves. *)
Lemma short_range hi lo : is_u8 hi -> is_u8 lo -> is_u16 (Z.lor (Z.shiftl hi 8) lo).
Proof.
  intros Hh Hl. rewrite Z.shiftl_mul_pow2 by lia.
  assert (Z.land (hi * 2 ^ 8) lo = 0) as E.
  { apply Z.bits_inj'. intros n Hn. rewrite Z.land_spec, Z.bits_0.
    destruct (Z.ltb_spec n 8).
    - rewrite Z.mul_pow2_bits_low by done. done.
    - rewrite (Z.bits_above_log2 lo n), Bool.andb_false_r; [done|mlia|].
      destruct (decide (lo = 0)) as [->|]; [simpl; lia|].
      apply Z.log2_lt_pow2; [mlia|]. apply Z.lt_le_trans with (2 ^ 8); [mlia|].
      apply Z.pow_le_mono_r; lia. }
  rewrite <- Z.lxor_lor, <- Z.add_nocarry_lxor by done. mlia.
Qed.

Lemma halves_range v : is_u16 v -> is_u8 (Z.shiftr v 8) /\ is_u8 (Z.land v 0xff).
Proof.
  intros. rewrite Z.shiftr_div_pow2 by lia. change 0xff with (Z.ones 8). rewrite Z.land_ones by lia.
  mlia.
Qed.

(** ** Lists *)

Lemma filter_all {A} (P : A -> Prop) `{forall x, Decision (P x)} (l : list A) :
  (forall x, x ∈ l -> P x) -> base.filter P l = l.
Proof.
  induction l as [|x l IH]; intros Hl; [done|]. rewrite filter_cons_True by (apply Hl; left).
  f_equal. apply IH. intros y Hy. apply Hl. by right.
Qed.

Lemma filter_none {A} (P : A -> Prop) `{forall x, Decision (P x)} (l : list A) :
  (forall x, x ∈ l -> ~ P x) -> base.filter P l = [].
Proof.
  induction l as [|x l IH]; intros Hl; [done|]. rewrite filter_cons_False by (apply Hl; left).
  apply IH. intros y Hy. apply Hl. by right.
Qed.

(** A result that exists is the default of itself. *)
Lemma some_default {A} (o : option A) (x : A) :
  match o with Some _ => true | None => false end = true -> o = Some (default x o).
Proof. by destruct o. Qed.
