(* ===== verification/Lir.v ===== *)
(** * The code generator interface: sljit's LIR

    jit.c drives the third-party library sljit through its [sljit_emit_*]
    calls.  This file gives the calls the source makes a datatype ([lir]), the
    state of one [struct sljit_compiler] as the log of the calls made on it
    ([compiler]), and the meaning of such a log on a machine state ([exec]).
    What sljit's operations compute is not in the repository: it is the
    interface [Sljit], with the documented behaviour stated by [SljitSpec];
    [sljit_ref] is one implementation of it, used to evaluate examples. *)
From S2P Require Import Prelude.

(** ** Registers, operands and instructions *)

(** [SLJIT_R(i)] and [SLJIT_S(i)]. *)
Inductive sreg := SR (i : nat) | SS (i : nat).

#[export] Instance sreg_eq_dec : EqDecision sreg.
Proof. solve_decision. Defined.

(** The [(src, srcw)] operand pairs used by the source: [reg, 0];
    [SLJIT_IMM, w]; [SLJIT_MEM1(b), off]; [SLJIT_MEM2(b, o), 0]. *)
Inductive arg :=
  | AReg (r : sreg)
  | AImm (w : Z)
  | AMem1 (b : sreg) (off : Z)
  | AMem2 (b o : sreg).

Inductive op0 := SLJIT_DIV_UW.
Inductive op1 :=
  SLJIT_MOV | SLJIT_MOV_U8 | SLJIT_MOV_S8 | SLJIT_MOV_U16 | SLJIT_MOV32
  | SLJIT_MOV_P | SLJIT_REV_U16.
Inductive op2 :=
  SLJIT_ADD | SLJIT_SUB | SLJIT_MUL | SLJIT_AND | SLJIT_OR | SLJIT_XOR
  | SLJIT_SHL | SLJIT_LSHR.
Inductive cond := SLJIT_EQUAL | SLJIT_NOT_EQUAL | SLJIT_LESS | SLJIT_GREATER.
Inductive setflag := SLJIT_SET_Z | SLJIT_SET_LESS | SLJIT_SET_GREATER.

(** The C functions the generated code calls. *)
Inductive callee :=
  | CDei | CDei2 | CDeo | CDeo2
  | CTranslateJumpAddr
  | CIndirect (r : sreg).

(** One constructor per [sljit_emit_*] call of the source.  [j] identifies the
    [struct sljit_jump] the call returns, [l] the [struct sljit_label]. *)
Inductive lir :=
  | LEnter (keep_saved : bool)
  | LOp0 (o : op0)
  | LOp1 (o : op1) (dst src : arg)
  | LOp2 (o : op2) (dst s1 s2 : arg)
  | LOp2u (o : op2) (f : setflag) (s1 s2 : arg)
  | LOpFlags (o : op1) (dst : arg) (c : cond)
  | LMemU16 (dst : sreg) (a : arg)
  | LLabel (l : nat)
  | LJump (j : nat) (rewritable : bool) (c : option cond)
  | LCmp (j : nat) (c : cond) (rewritable : bool) (a b : arg)
  | LCall (j : nat) (rewritable : bool)
  | LICall (f : callee)
  | LReturn (o : op1) (src : arg).

(** ** The compiler: a log of emitted instructions

    [binds] records [sljit_set_label(jump, label)]. *)
Record compiler := mkCompiler {
  code : list lir;
  next_label : nat;
  next_jump : nat;
  binds : gmap nat nat;
}.

Definition sljit_create_compiler : compiler := mkCompiler [] 0 0 ∅.

Definition emit (i : lir) (k : compiler) : compiler :=
  mkCompiler (code k ++ [i]) (next_label k) (next_jump k) (binds k).

(** [sljit_emit_label] and the three calls that return a jump. *)
Definition emit_label (k : compiler) : nat * compiler :=
  (next_label k,
   mkCompiler (code k ++ [LLabel (next_label k)]) (S (next_label k)) (next_jump k) (binds k)).

Definition emit_jump_site (i : nat -> lir) (k : compiler) : nat * compiler :=
  (next_jump k,
   mkCompiler (code k ++ [i (next_jump k)]) (next_label k) (S (next_jump k)) (binds k)).

Definition sljit_set_label (j l : nat) (k : compiler) : compiler :=
  mkCompiler (code k) (next_label k) (next_jump k) (<[j := l]> (binds k)).

(** ** The interface of sljit's arithmetic *)

Class Sljit := {
  word_bits : Z;
  little_endian : bool;
  sl_mov : op1 -> Z -> Z;
  sl_alu : op2 -> Z -> Z -> Z;
  sl_div_uw : Z -> Z -> Z;
  sl_test : cond -> Z -> Z -> bool;
  sl_load_u16 : Z -> Z -> Z;
}.

Definition wrap `{Sljit} (x : Z) : Z := x mod 2 ^ word_bits.
Definition is_word `{Sljit} (x : Z) : Prop := 0 <= x < 2 ^ word_bits.

(** The documented behaviour of the operations on machine words. *)
Class SljitSpec `{Sljit} : Prop := {
  sl_word_bits : word_bits = 32 \/ word_bits = 64;
  sl_mov_id a : is_word a -> sl_mov SLJIT_MOV a = a;
  sl_mov_p a : is_word a -> sl_mov SLJIT_MOV_P a = a;
  sl_mov_u8 a : is_word a -> sl_mov SLJIT_MOV_U8 a = a mod 2 ^ 8;
  sl_mov_u16 a : is_word a -> sl_mov SLJIT_MOV_U16 a = a mod 2 ^ 16;
  sl_mov_s8 a : is_word a -> sl_mov SLJIT_MOV_S8 a = wrap (s8 a);
  sl_mov_32 a : is_word a -> sl_mov SLJIT_MOV32 a mod 2 ^ 32 = a mod 2 ^ 32;
  sl_rev_u16 a : 0 <= a < 2 ^ 16 ->
    sl_mov SLJIT_REV_U16 a = (a mod 2 ^ 8) * 2 ^ 8 + a / 2 ^ 8;
  sl_add a b : is_word a -> is_word b -> sl_alu SLJIT_ADD a b = wrap (a + b);
  sl_sub a b : is_word a -> is_word b -> sl_alu SLJIT_SUB a b = wrap (a - b);
  sl_mul a b : is_word a -> is_word b -> sl_alu SLJIT_MUL a b = wrap (a * b);
  sl_and a b : is_word a -> is_word b -> sl_alu SLJIT_AND a b = Z.land a b;
  sl_or a b : is_word a -> is_word b -> sl_alu SLJIT_OR a b = Z.lor a b;
  sl_xor a b : is_word a -> is_word b -> sl_alu SLJIT_XOR a b = Z.lxor a b;
  sl_shl a n : is_word a -> 0 <= n < word_bits ->
    sl_alu SLJIT_SHL a n = wrap (Z.shiftl a n);
  sl_lshr a n : is_word a -> 0 <= n < word_bits ->
    sl_alu SLJIT_LSHR a n = Z.shiftr a n;
  sl_div a b : is_word a -> is_word b -> b <> 0 -> sl_div_uw a b = a / b;
  sl_equal a b : is_word a -> is_word b -> sl_test SLJIT_EQUAL a b = (a =? b);
  sl_not_equal a b : is_word a -> is_word b -> sl_test SLJIT_NOT_EQUAL a b = negb (a =? b);
  sl_less a b : is_word a -> is_word b -> sl_test SLJIT_LESS a b = (a <? b);
  sl_greater a b : is_word a -> is_word b -> sl_test SLJIT_GREATER a b = (b <? a);
  sl_load x y : is_u8 x -> is_u8 y ->
    sl_load_u16 x y = if little_endian then x + 2 ^ 8 * y else 2 ^ 8 * x + y;
}.

(** ** Machine states *)

Record mach := mkMach {
  regs : sreg -> Z;
  mem : Z -> Z;
  flags : Z * Z;
}.

Definition set_reg (r : sreg) (v : Z) (m : mach) : mach :=
  mkMach (fun r' => if decide (r' = r) then v else regs m r') (mem m) (flags m).
Definition store8 (a v : Z) (m : mach) : mach :=
  mkMach (regs m) (fun a' => if a' =? a then v else mem m a') (flags m).
Definition set_flags (a b : Z) (m : mach) : mach :=
  mkMach (regs m) (mem m) (a, b).

(** What the host program answers to a device access: [buxn_vm_dei] and
    [buxn_vm_deo] are provided by the program that links the JIT.  [clobber] is
    what a C call leaves in the scratch registers. *)
Class Host := {
  vm_dei : Z -> (Z -> Z) -> Z * (Z -> Z);
  vm_deo : Z -> (Z -> Z) -> (Z -> Z);
  clobber : sreg -> Z;
}.

(** The helpers of jit.c called by the generated code. *)
Definition buxn_jit_dei_helper `{Host} (addr : Z) (mm : Z -> Z) : Z * (Z -> Z) :=
  let '(v, mm1) := vm_dei (u8 addr) mm in (u8 v, mm1).

Definition buxn_jit_dei2_helper `{Host} (addr : Z) (mm : Z -> Z) : Z * (Z -> Z) :=
  let '(hi, mm1) := vm_dei (u8 (addr + 0)) mm in
  let '(lo, mm2) := vm_dei (u8 (addr + 1)) mm1 in
  (Z.lor (Z.shiftl (u8 hi) 8) (u8 lo), mm2).

Definition buxn_jit_deo_helper `{Host} (addr : Z) (mm : Z -> Z) : Z -> Z :=
  vm_deo (u8 addr) mm.

Definition buxn_jit_deo2_helper `{Host} (addr : Z) (mm : Z -> Z) : Z -> Z :=
  vm_deo (u8 (addr + 1)) (vm_deo (u8 (addr + 0)) mm).

(** ** Execution *)

(** Where control is after a prefix of the log.  [Skip l]: a taken forward
    jump, waiting for label [l]; [Leave j]: a taken patchable jump; [Calling j]:
    a patchable call; [Return v]: the function returned [v]. *)
Inductive flow :=
  | Run (m : mach)
  | Skip (l : nat) (m : mach)
  | Leave (j : nat) (m : mach)
  | Calling (j : nat) (m : mach)
  | Return (v : Z) (m : mach)
  | Stuck.

Section Exec.
Context `{Sljit} `{Host}.

Definition ea (m : mach) (a : arg) : option Z :=
  match a with
  | AMem1 b off => Some (wrap (regs m b + off))
  | AMem2 b o => Some (wrap (regs m b + regs m o))
  | _ => None
  end.

(** The value of a register or immediate operand. *)
Definition val (m : mach) (a : arg) : option Z :=
  match a with
  | AReg r => Some (regs m r)
  | AImm w => Some (wrap w)
  | _ => None
  end.

Definition exec_op1 (o : op1) (dst src : arg) (m : mach) : flow :=
  match dst, val m src with
  | AReg r, Some v => Run (set_reg r (sl_mov o v) m)
  | AReg r, None =>
      match o, ea m src with
      | SLJIT_MOV_U8, Some a => Run (set_reg r (mem m a) m)
      | _, _ => Stuck
      end
  | _, Some v =>
      match o, ea m dst with
      | SLJIT_MOV_U8, Some a => Run (store8 a (u8 v) m)
      | _, _ => Stuck
      end
  | _, None => Stuck
  end.

Definition exec_op2 (o : op2) (dst s1 s2 : arg) (m : mach) : flow :=
  match dst, val m s1, val m s2 with
  | AReg r, Some x, Some y => Run (set_reg r (sl_alu o x y) m)
  | _, _, _ => Stuck
  end.

(** [sljit_emit_op2u] only sets flags; the conditions tested afterwards are
    those of the comparison it stands for. *)
Definition exec_op2u (o : op2) (s1 s2 : arg) (m : mach) : flow :=
  match val m s1, val m s2 with
  | Some x, Some y =>
      match o with
      | SLJIT_SUB => Run (set_flags x y m)
      | _ => Run (set_flags (sl_alu o x y) 0 m)
      end
  | _, _ => Stuck
  end.

Definition jump_to (B : gmap nat nat) (j : nat) (rewritable : bool) (m : mach) : flow :=
  if rewritable then Leave j m
  else match B !! j with Some l => Skip l m | None => Stuck end.

Definition call_host (f : callee) (m : mach) : flow :=
  let scratch r v := match r with SR 0 => wrap v | SR _ => wrap (clobber r) | SS _ => regs m r end in
  let arg := regs m (SR 1) in
  match f with
  | CDei => let '(v, mm) := buxn_jit_dei_helper arg (mem m) in
      Run (mkMach (fun r => scratch r v) mm (flags m))
  | CDei2 => let '(v, mm) := buxn_jit_dei2_helper arg (mem m) in
      Run (mkMach (fun r => scratch r v) mm (flags m))
  | CDeo => Run (mkMach (fun r => scratch r (clobber (SR 0))) (buxn_jit_deo_helper arg (mem m)) (flags m))
  | CDeo2 => Run (mkMach (fun r => scratch r (clobber (SR 0))) (buxn_jit_deo2_helper arg (mem m)) (flags m))
  | CTranslateJumpAddr | CIndirect _ => Stuck
  end.

(** The value a function returns; jit.c returns a [sljit_u32] everywhere. *)
Definition returned_value (o : op1) (v : Z) : Z := match o with SLJIT_MOV32 => u32 v | _ => v end.

Definition exec_one (B : gmap nat nat) (i : lir) (m : mach) : flow :=
  match i with
  | LEnter _ => Run m
  | LOp0 SLJIT_DIV_UW =>
      Run (set_reg (SR 0) (sl_div_uw (regs m (SR 0)) (regs m (SR 1))) m)
  | LOp1 o dst src => exec_op1 o dst src m
  | LOp2 o dst s1 s2 => exec_op2 o dst s1 s2 m
  | LOp2u o _ s1 s2 => exec_op2u o s1 s2 m
  | LOpFlags _ (AReg r) c =>
      Run (set_reg r (if sl_test c (fst (flags m)) (snd (flags m)) then 1 else 0) m)
  | LOpFlags _ _ _ => Stuck
  | LMemU16 dst a =>
      match ea m a with
      | Some x => Run (set_reg dst (sl_load_u16 (mem m x) (mem m (wrap (x + 1)))) m)
      | None => Stuck
      end
  | LLabel _ => Run m
  | LJump j rw None => jump_to B j rw m
  | LJump j rw (Some c) =>
      if sl_test c (fst (flags m)) (snd (flags m)) then jump_to B j rw m else Run m
  | LCmp j c rw a b =>
      match val m a, val m b with
      | Some x, Some y => if sl_test c x y then jump_to B j rw m else Run m
      | _, _ => Stuck
      end
  | LCall j _ => Calling j m
  | LICall f => call_host f m
  | LReturn o src => match val m src with Some v => Return (returned_value o v) m | None => Stuck end
  end.

Definition exec_step (B : gmap nat nat) (f : flow) (i : lir) : flow :=
  match f with
  | Run m => exec_one B i m
  | Skip l m =>
      match i with
      | LLabel l' => if decide (l = l') then Run m else f
      | _ => f
      end
  | _ => f
  end.

(** Control flow inside a block only goes forward (the loop of the
    trampoline apart), so executing a log is a fold over it. *)
Definition exec (B : gmap nat nat) (c : list lir) (f : flow) : flow :=
  fold_left (exec_step B) c f.

Lemma exec_app B c1 c2 f : exec B (c1 ++ c2) f = exec B c2 (exec B c1 f).
Proof. apply fold_left_app. Qed.
End Exec.

(** ** A reference implementation of the interface: a 64-bit machine *)

Definition sljit_ref : Sljit := {|
  word_bits := 64;
  little_endian := true;
  sl_mov o a :=
    match o with
    | SLJIT_MOV | SLJIT_MOV_P => a
    | SLJIT_MOV_U8 => a mod 2 ^ 8
    | SLJIT_MOV_U16 => a mod 2 ^ 16
    | SLJIT_MOV_S8 => s8 a mod 2 ^ 64
    | SLJIT_MOV32 => a mod 2 ^ 32
    | SLJIT_REV_U16 => (a mod 2 ^ 8) * 2 ^ 8 + (a / 2 ^ 8) mod 2 ^ 8
    end;
  sl_alu o a b :=
    match o with
    | SLJIT_ADD => (a + b) mod 2 ^ 64
    | SLJIT_SUB => (a - b) mod 2 ^ 64
    | SLJIT_MUL => (a * b) mod 2 ^ 64
    | SLJIT_AND => Z.land a b
    | SLJIT_OR => Z.lor a b
    | SLJIT_XOR => Z.lxor a b
    | SLJIT_SHL => Z.shiftl a b mod 2 ^ 64
    | SLJIT_LSHR => Z.shiftr a b
    end;
  sl_div_uw a b := a / b;
  sl_test c a b :=
    match c with
    | SLJIT_EQUAL => a =? b
    | SLJIT_NOT_EQUAL => negb (a =? b)
    | SLJIT_LESS => a <? b
    | SLJIT_GREATER => b <? a
    end;
  sl_load_u16 x y := x + 2 ^ 8 * y;
|}.

Lemma sljit_ref_spec : SljitSpec (H := sljit_ref).
Proof.
  split; unfold wrap, is_word; simpl; intros; try reflexivity; try lia.
  - rewrite Zmod_mod. reflexivity.
  - rewrite (Z.mod_small (a / 2 ^ 8)); [reflexivity | Z.div_mod_to_equations; lia].
Qed.

(** A host without devices. *)
Definition host_ref : Host := {|
  vm_dei _ mm := (0, mm);
  vm_deo _ mm := mm;
  clobber _ := 0;
|}.
