(* ===== verification/Hamt.v ===== *)
(** * The block map: the hash trie of src/hamt.h and its hash function

    [BHAMT_SEARCH] walks an intrusive 4-ary trie, consuming two bits of the
    hash per level; jit.c inserts by writing through the cell the search ended
    on.  The trie is the inductive [hamt]; the cell is the path to it. *)
From S2P Require Import Prelude.

(** ** The hash: [buxn_jit_prospector32] of src/jit.c *)

Definition xorshift (n x : Z) : Z := Z.lxor x (Z.shiftr x n).

Definition buxn_jit_prospector32 (x : Z) : Z :=
  let x := xorshift 15 x in
  let x := u32 (x * 0x2c1b3c6d) in
  let x := xorshift 12 x in
  let x := u32 (x * 0x297a2d39) in
  let x := xorshift 15 x in
  x.

(** ** The trie *)

Section Trie.
Context {V : Type}.

(** A node is a [buxn_jit_block_t]: its key, what it is the block of, and
    its [children] array, indexed by 0, 1, 2, 3. *)
Inductive hamt :=
  | HNil
  | HNode (key : Z) (v : V) (children : Z -> hamt).

(** [BHAMT_NUM_BITS] and [BHAMT_MASK]. *)
Definition BHAMT_NUM_BITS : Z := 2.
Definition BHAMT_MASK : Z := Z.shiftl 1 BHAMT_NUM_BITS - 1.

(** The loop of [BHAMT_SEARCH]: [*ITR] is the subtrie, the result is the
    path of the cell [ITR] ends on, and the node found in it. *)
Fixpoint BHAMT_SEARCH (t : hamt) (hash key : Z) : list Z * option V :=
  match t with
  | HNil => ([], None)
  | HNode k v children =>
      if k =? key then ([], Some v)
      else
        let i := Z.land hash BHAMT_MASK in
        let '(p, r) := BHAMT_SEARCH (children i) (Z.shiftr hash BHAMT_NUM_BITS) key in
        (i :: p, r)
  end.

Definition BHAMT_GET (t : hamt) (hash key : Z) : option V :=
  snd (BHAMT_SEARCH t hash key).

(** [*itr = node] *)
Fixpoint hamt_write (t : hamt) (itr : list Z) (node : hamt) : hamt :=
  match itr, t with
  | i :: p, HNode k v children =>
      HNode k v (fun i' => if i' =? i then hamt_write (children i') p node else children i')
  | _, _ => node
  end.

(** The use of the search in [buxn_jit_queue_block]: insert when absent. *)
Definition hamt_add (t : hamt) (hash key : Z) (v : V) : hamt :=
  match BHAMT_SEARCH t hash key with
  | (_, Some _) => t
  | (itr, None) => hamt_write t itr (HNode key v (fun _ => HNil))
  end.

(** The number of iterations of the search loop on [key]. *)
Fixpoint search_steps (t : hamt) (hash key : Z) : nat :=
  match t with
  | HNil => 0
  | HNode k _ children =>
      if k =? key then 1
      else S (search_steps (children (Z.land hash BHAMT_MASK)) (Z.shiftr hash BHAMT_NUM_BITS) key)
  end.
End Trie.
Arguments hamt V : clear implicits.

(** ** The hash function is a permutation of the 32-bit integers *)

Lemma is_u32_testbit x : 0 <= x -> (is_u32 x <-> forall n, 32 <= n -> Z.testbit x n = false).
Proof.
  intros Hx. split.
  - intros [_ H] n Hn. rewrite <- (Z.mod_small x (2 ^ 32)) by lia.
    apply Z.mod_pow2_bits_high. lia.
  - intros H. split; [done|]. change 4294967296 with (2 ^ 32).
    replace x with (x mod 2 ^ 32); [apply Z.mod_pos_bound; lia|].
    apply Z.bits_inj'. intros n Hn. destruct (Z.lt_ge_cases n 32).
    + apply Z.mod_pow2_bits_low. lia.
    + rewrite Z.mod_pow2_bits_high, H by lia. done.
Qed.

Lemma xorshift_range n x : 0 <= n -> is_u32 x -> is_u32 (xorshift n x).
Proof.
  intros Hn Hx. pose proof Hx as [H0 _]. unfold xorshift.
  assert (0 <= Z.lxor x (Z.shiftr x n))
    by (apply Z.lxor_nonneg; rewrite Z.shiftr_nonneg; tauto).
  apply is_u32_testbit; [done|]. intros i Hi.
  apply (proj1 (is_u32_testbit x H0)) with (n := i) in Hx as Hx'; [|done].
  rewrite Z.lxor_spec, Z.shiftr_spec, Hx' by lia.
  rewrite (proj1 (is_u32_testbit x H0) Hx) by lia. done.
Qed.

Lemma shiftr_u32_0 n x : 32 <= n -> is_u32 x -> Z.shiftr x n = 0.
Proof.
  intros Hn [H0 H1]. rewrite Z.shiftr_div_pow2 by lia. apply Z.div_small. split; [done|].
  apply Z.lt_le_trans with (2 ^ 32); [exact H1|]. apply Z.pow_le_mono_r; lia.
Qed.

(** Three shifted copies undo an xorshift of at least eleven bits. *)
Lemma xorshift_inverse n x :
  11 <= n -> is_u32 x ->
  Z.lxor (xorshift n x)
    (Z.lxor (Z.shiftr (xorshift n x) n) (Z.shiftr (xorshift n x) (n + n))) = x.
Proof.
  intros Hn Hx. unfold xorshift.
  rewrite !Z.shiftr_lxor, !Z.shiftr_shiftr by lia.
  rewrite (shiftr_u32_0 (n + (n + n))) by (lia || done). rewrite Z.lxor_0_r.
  rewrite !Z.lxor_assoc. rewrite <- (Z.lxor_assoc (Z.shiftr x n) (Z.shiftr x n)).
  rewrite Z.lxor_nilpotent, Z.lxor_0_l, Z.lxor_nilpotent. apply Z.lxor_0_r.
Qed.

Lemma xorshift_inj n x y :
  11 <= n -> is_u32 x -> is_u32 y -> xorshift n x = xorshift n y -> x = y.
Proof.
  intros Hn Hx Hy E.
  rewrite <- (xorshift_inverse n x), <- (xorshift_inverse n y), E by done. done.
Qed.

(** Multiplication by a constant with an inverse modulo 2^32. *)
Lemma mul_u32_inj c d x y :
  (c * d) mod 4294967296 = 1 -> is_u32 x -> is_u32 y ->
  u32 (x * c) = u32 (y * c) -> x = y.
Proof.
  unfold is_u32, u32. intros Hd Hx Hy E.
  rewrite <- (Z.mod_small x 4294967296), <- (Z.mod_small y 4294967296) by lia.
  replace (x mod 4294967296) with (((x * c) mod 4294967296 * d) mod 4294967296).
  - rewrite E, Zmult_mod_idemp_l, <- Z.mul_assoc, <- Zmult_mod_idemp_r, Hd, Z.mul_1_r. done.
  - rewrite Zmult_mod_idemp_l, <- Z.mul_assoc, <- Zmult_mod_idemp_r, Hd, Z.mul_1_r. done.
Qed.

Lemma u32_range x : is_u32 (u32 x).
Proof. mlia. Qed.

Lemma prospector32_range x : is_u32 x -> is_u32 (buxn_jit_prospector32 x).
Proof. intros Hx. unfold buxn_jit_prospector32. apply xorshift_range; [lia|apply u32_range]. Qed.

Lemma prospector32_inj x y :
  is_u32 x -> is_u32 y ->
  buxn_jit_prospector32 x = buxn_jit_prospector32 y -> x = y.
Proof.
  intros Hx Hy E. unfold buxn_jit_prospector32 in E.
  apply xorshift_inj in E; [|lia|apply u32_range..].
  apply (mul_u32_inj _ 0xcf0b109) in E; [| reflexivity | apply xorshift_range; (lia || apply u32_range)..].
  apply xorshift_inj in E; [|lia|apply u32_range..].
  apply (mul_u32_inj _ 0x64ea2d65) in E; [| reflexivity | apply xorshift_range; (lia || done)..].
  apply xorshift_inj in E; [done|lia|done..].
Qed.

(** ** Lookup after insertion *)

Section TrieProofs.
Context {V : Type}.
Implicit Types (t : hamt V) (v : V).

Lemma get_node k v children hash key :
  BHAMT_GET (HNode k v children) hash key =
  if k =? key then Some v
  else BHAMT_GET (children (Z.land hash BHAMT_MASK)) (Z.shiftr hash BHAMT_NUM_BITS) key.
Proof.
  unfold BHAMT_GET. cbn [BHAMT_SEARCH]. destruct (k =? key); [done|].
  destruct (BHAMT_SEARCH _ _ _). done.
Qed.

(** The write through the cell of [k]'s search makes [k] visible and leaves
    every other key's search result unchanged, whatever the hashes. *)
Lemma get_add t : forall (hash key : Z) v hash' key',
  (key = key' -> hash = hash') ->
  BHAMT_GET t hash key = None ->
  BHAMT_GET (hamt_add t hash key v) hash' key' =
  if key =? key' then Some v else BHAMT_GET t hash' key'.
Proof.
  unfold hamt_add.
  induction t as [|k w children IH]; intros hash key v hash' key' Hh Hnone.
  - cbn [BHAMT_SEARCH hamt_write]. rewrite get_node. done.
  - rewrite get_node in Hnone |- *. cbn [BHAMT_SEARCH].
    destruct (Z.eqb_spec k key) as [->|Hne]; [done|].
    specialize (IH (Z.land hash BHAMT_MASK) (Z.shiftr hash BHAMT_NUM_BITS) key v
                   (Z.shiftr hash' BHAMT_NUM_BITS) key').
    unfold BHAMT_GET in Hnone, IH at 1.
    destruct (BHAMT_SEARCH _ (Z.shiftr hash _) key) as [p [r|]]; [done|].
    cbn [hamt_write]. rewrite get_node.
    destruct (Z.eqb_spec k key') as [->|Hne'].
    { destruct (Z.eqb_spec key key'); congruence. }
    destruct (Z.eqb_spec (Z.land hash' BHAMT_MASK) (Z.land hash BHAMT_MASK)) as [->|Hslot].
    + apply IH; [|done]. intros Hk. rewrite Hh; done.
    + destruct (Z.eqb_spec key key') as [->|]; [|done]. rewrite Hh in Hslot; done.
Qed.
End TrieProofs.

(** ** The trie as a finite map from addresses

    [hamt_rep t m]: searching [t] for an address with its hash finds exactly
    what [m] holds.  This is the contract the block queue relies on. *)
Section Representation.
Context {V : Type}.
Implicit Types (t : hamt V) (m : gmap Z V).

Definition blocks_get t (pc : Z) : option V := BHAMT_GET t (buxn_jit_prospector32 pc) pc.
Definition blocks_add t (pc : Z) (v : V) : hamt V :=
  hamt_add t (buxn_jit_prospector32 pc) pc v.

Definition hamt_rep t m : Prop := forall pc, blocks_get t pc = m !! pc.

Lemma rep_empty : hamt_rep HNil ∅.
Proof. intros pc. rewrite lookup_empty. done. Qed.

Lemma rep_add t m pc v :
  hamt_rep t m -> m !! pc = None -> hamt_rep (blocks_add t pc v) (<[pc := v]> m).
Proof.
  intros Hr Hnone pc'. unfold blocks_get, blocks_add.
  rewrite get_add; [|congruence|].
  - rewrite lookup_insert. destruct (Z.eqb_spec pc pc'), (decide (pc = pc')); try done.
    apply Hr.
  - rewrite <- Hnone. apply Hr.
Qed.

Lemma rep_add_present t m pc v w :
  hamt_rep t m -> m !! pc = Some w -> blocks_add t pc v = t.
Proof.
  intros Hr Hs. specialize (Hr pc). rewrite Hs in Hr.
  unfold blocks_get, BHAMT_GET, blocks_add, hamt_add in *.
  destruct (BHAMT_SEARCH _ _ _) as [p r]. cbn in Hr. subst. done.
Qed.

(** *** The shape of the trie: how deep a search can go

    [hamt_wf P d t]: every key of [t], found at depth [d] or deeper, satisfies
    [P], differs from the keys above it and sits below the child its hash
    selects. *)
Definition digit (d : nat) (k : Z) : Z :=
  Z.land (Z.shiftr (buxn_jit_prospector32 k) (2 * Z.of_nat d)) BHAMT_MASK.

Fixpoint hamt_wf (P : Z -> Prop) (d : nat) t : Prop :=
  match t with
  | HNil => True
  | HNode k _ children =>
      P k /\ forall i, hamt_wf (fun k' => P k' /\ k' <> k /\ digit d k' = i) (S d) (children i)
  end.

Lemma shiftr_digit d x :
  Z.shiftr (Z.shiftr x (2 * Z.of_nat d)) BHAMT_NUM_BITS = Z.shiftr x (2 * Z.of_nat (S d)).
Proof. rewrite Z.shiftr_shiftr by (unfold BHAMT_NUM_BITS; lia). f_equal. unfold BHAMT_NUM_BITS. lia. Qed.

Lemma wf_add t : forall (P : Z -> Prop) d key v,
  P key -> hamt_wf P d t ->
  hamt_wf P d (hamt_add t (Z.shiftr (buxn_jit_prospector32 key) (2 * Z.of_nat d)) key v).
Proof.
  unfold hamt_add. induction t as [|k w children IH]; intros P d key v HP Hwf.
  { cbn. auto. }
  cbn [BHAMT_SEARCH]. destruct (Z.eqb_spec k key) as [|Hne]; [done|].
  destruct Hwf as [Hk Hc].
  set (i := Z.land _ BHAMT_MASK).
  specialize (IH i _ (S d) key v (conj HP (conj (not_eq_sym Hne) eq_refl)) (Hc i)).
  rewrite shiftr_digit. destruct (BHAMT_SEARCH _ _ _) as [p [r|]]; [done|].
  cbn [hamt_write hamt_wf]. split; [done|]. intros i'.
  destruct (Z.eqb_spec i' i) as [->|]; auto.
Qed.

(** Two hashes that agree on their first [d] digits and on the next one. *)
Lemma agree_step d x y :
  x mod 2 ^ (2 * Z.of_nat d) = y mod 2 ^ (2 * Z.of_nat d) ->
  Z.land (Z.shiftr x (2 * Z.of_nat d)) BHAMT_MASK = Z.land (Z.shiftr y (2 * Z.of_nat d)) BHAMT_MASK ->
  x mod 2 ^ (2 * Z.of_nat (S d)) = y mod 2 ^ (2 * Z.of_nat (S d)).
Proof.
  intros E D. change BHAMT_MASK with (Z.ones 2) in D.
  rewrite !Z.land_ones, !Z.shiftr_div_pow2 in D by lia.
  replace (2 * Z.of_nat (S d)) with (2 * Z.of_nat d + 2) by lia.
  rewrite Z.pow_add_r, !Z.rem_mul_r by lia. congruence.
Qed.

(** A search for a 16-bit address runs its loop at most 17 times: sixteen
    levels use up the 32 bits of a hash that is injective. *)
Lemma search_steps_bound t : forall (P : Z -> Prop) d key,
  is_u16 key -> (d <= 16)%nat -> hamt_wf P d t ->
  (forall k, P k -> is_u16 k /\
     buxn_jit_prospector32 k mod 2 ^ (2 * Z.of_nat d) =
     buxn_jit_prospector32 key mod 2 ^ (2 * Z.of_nat d)) ->
  (search_steps t (Z.shiftr (buxn_jit_prospector32 key) (2 * Z.of_nat d)) key <= 17 - d)%nat.
Proof.
  induction t as [|k w children IH]; intros P d key Hkey Hd Hwf HP; cbn [search_steps]; [lia|].
  destruct (Z.eqb_spec k key) as [|Hne]; [lia|]. destruct Hwf as [Hk Hc].
  destruct (HP _ Hk) as [Hku Hkh].
  assert (Hu16 : forall x, is_u16 x -> is_u32 x) by mlia.
  assert (d <> 16%nat).
  { intros ->. apply Hne, prospector32_inj; auto.
    change (2 * Z.of_nat 16) with 32 in Hkh.
    pose proof (prospector32_range k (Hu16 _ Hku)) as Rk.
    pose proof (prospector32_range key (Hu16 _ Hkey)) as Rkey.
    rewrite !Z.mod_small in Hkh by (exact Rk || exact Rkey). done. }
  set (i := Z.land _ BHAMT_MASK). rewrite shiftr_digit.
  specialize (IH i _ (S d) key Hkey ltac:(lia) (Hc i)). enough (search_steps (children i)
    (Z.shiftr (buxn_jit_prospector32 key) (2 * Z.of_nat (S d))) key <= 17 - S d)%nat by lia.
  apply IH. intros k' (HP' & _ & Hdig). destruct (HP _ HP') as [? ?].
  split; [done|]. apply agree_step; done.
Qed.

Definition blocks_wf t : Prop := hamt_wf is_u16 0 t.

Lemma blocks_wf_add t pc v : is_u16 pc -> blocks_wf t -> blocks_wf (blocks_add t pc v).
Proof.
  intros Hpc Hwf. unfold blocks_wf, blocks_add.
  rewrite <- (Z.shiftr_0_r (buxn_jit_prospector32 pc)).
  apply (wf_add t is_u16 0); done.
Qed.

Lemma blocks_search_bound t pc :
  is_u16 pc -> blocks_wf t -> (search_steps t (buxn_jit_prospector32 pc) pc <= 17)%nat.
Proof.
  intros Hpc Hwf. rewrite <- (Z.shiftr_0_r (buxn_jit_prospector32 pc)).
  apply (search_steps_bound t is_u16 0 pc); [done|lia|done|].
  intros k Hk. split; [done|]. cbn. rewrite !Z.mod_1_r. done.
Qed.
End Representation.
