(* ===== verification/Jit.v ===== *)
(** * The state of the compiler of src/jit.c

    Operands, the two stack caches, the per-block compilation context
    ([buxn_jit_ctx_t]) and the JIT itself ([buxn_jit_t]) with its block map and
    queues.  Pointers to blocks and compilers are indices into the stores
    [block_store] and [compilers]; everything reached through a pointer lives
    in one store, so updates through one alias are seen through the others. *)
From S2P Require Import Prelude Lir Hamt.

(** ** Constants *)

Definition BUXN_JIT_CACHE_SIZE : nat := 4.

Definition BUXN_JIT_OP_K : Z := 0x80.
Definition BUXN_JIT_OP_R : Z := 0x40.
Definition BUXN_JIT_OP_2 : Z := 0x20.

(** Saved registers. *)
Definition BUXN_JIT_S_VM : sreg := SS 0.
Definition BUXN_JIT_S_WSP : sreg := SS 1.
Definition BUXN_JIT_S_RSP : sreg := SS 2.

(** Scratch registers: three fixed ones and [BUXN_JIT_R_OP_0 .. _5]. *)
Definition BUXN_JIT_R_MEM_BASE : sreg := SR 0.
Definition BUXN_JIT_R_MEM_OFFSET : sreg := SR 1.
Definition BUXN_JIT_R_TMP : sreg := SR 2.
Definition BUXN_JIT_R_OP_MIN : nat := 3.
Definition BUXN_JIT_R_OP_MAX : nat := 8.
Definition NUM_OP_REGS : nat := BUXN_JIT_R_OP_MAX - BUXN_JIT_R_OP_MIN + 1.

Definition BUXN_JIT_MEM : arg := AMem2 BUXN_JIT_R_MEM_BASE BUXN_JIT_R_MEM_OFFSET.
Definition BUXN_JIT_MEM_OFFSET : arg := AReg BUXN_JIT_R_MEM_OFFSET.
Definition BUXN_JIT_TMP : arg := AReg BUXN_JIT_R_TMP.

Definition BUXN_JIT_SEM_CONST : Z := 1.
Definition BUXN_JIT_SEM_BOOLEAN : Z := 2.
Definition BUXN_JIT_SEM_IMM_JMP : Z := 4.

(** ** What buxn provides

    [buxn_vm_t] is declared by the buxn dependency: the offsets of its fields
    are an interface.  Offset 0 cannot be one of them (the configuration comes
    first), which [mem_base == 0] relies on; a field ends before the next. *)
Class VmLayout := {
  off_ws : Z;
  off_rs : Z;
  off_wsp : Z;
  off_rsp : Z;
  off_device : Z;
  off_memory : Z;
}.

(** The opcode names of buxn's opcode table. *)
Inductive opname :=
  | BRK | INC | POP | NIP | SWP | ROT | DUP | OVR
  | EQU | NEQ | GTH | LTH | JMP | JCN | JSR | STH
  | LDZ | STZ | LDR | STR | LDA | STA | DEI | DEO
  | ADD | SUB | MUL | DIV | AND | ORA | EOR | SFT
  | JCI | JMI | JSI | LIT.

#[export] Instance opname_eq_dec : EqDecision opname.
Proof. solve_decision. Defined.

(** [BUXN_OPCODE_DISPATCH], [BUXN_RESET_VECTOR], and the address of the
    [buxn_jit_t] the generated code passes to its callback. *)
Class BuxnVm := {
  opcode_name : Z -> opname;
  BUXN_RESET_VECTOR : Z;
  jit_ptr : Z;
}.

(** ** Values, operands, caches *)

Record buxn_jit_value_t := mkValue {
  v_semantics : Z;
  v_const_value : Z;
}.

Record buxn_jit_operand_t := mkOperand {
  semantics : Z;
  is_short : bool;
  const_value : Z;
  reg : sreg;
}.

Record buxn_jit_stack_cache_cell_t := mkCell {
  value : buxn_jit_operand_t;
  need_flush : bool;
}.

(** [cells] is the whole C array: the entries at [len] and beyond are stale,
    and a pointer into the array can still read and write them. *)
Record buxn_jit_stack_cache_t := mkCache {
  cells : list buxn_jit_stack_cache_cell_t;
  len : nat;
}.

Definition zero_operand : buxn_jit_operand_t := mkOperand 0 false 0 (SR 0).
Definition zero_cell : buxn_jit_stack_cache_cell_t := mkCell zero_operand false.
Definition zero_cache : buxn_jit_stack_cache_t :=
  mkCache (replicate BUXN_JIT_CACHE_SIZE zero_cell) 0.

Definition cell_at (k : buxn_jit_stack_cache_t) (i : nat) : buxn_jit_stack_cache_cell_t :=
  nth i (cells k) zero_cell.

(** The cells in use, bottom first. *)
Definition live (k : buxn_jit_stack_cache_t) : list buxn_jit_stack_cache_cell_t :=
  take (len k) (cells k).

(** ** Blocks, queue entries, the JIT *)

Record buxn_jit_block_t := mkBlock {
  key : Z;
  fn : Z;
  head_addr : Z;
  body_addr : Z;
  executable_offset : Z;
}.

Inductive buxn_jit_link_type_t := BUXN_JIT_LINK_TO_HEAD | BUXN_JIT_LINK_TO_BODY.

(** The [union { jump; pc; }] of an entry. *)
Inductive entry_union := UJump (j : nat) | UPc (pc : Z).

Record buxn_jit_entry_t := mkEntry {
  link_type : buxn_jit_link_type_t;
  e_block : nat;
  e_compiler : nat;
  e_union : entry_union;
}.

(** A rewritten jump site: [sljit_set_jump_addr(site, target, offset)]. *)
Record patch := mkPatch {
  p_compiler : nat;
  p_jump : nat;
  p_target : Z;
  p_offset : Z;
}.

Record buxn_jit_stats_t := mkStats {
  code_size : Z;
  num_blocks : Z;
  num_bounces : Z;
}.

(** The hook: which callbacks are set, and whether [jit_opcode], called with
    the entry address, the pc and the opcode, marks the current address. *)
Record buxn_jit_hook_t := mkHook {
  begin_block : bool;
  jit_opcode : option (Z -> Z -> Z -> bool);
  end_block : bool;
}.

(** The calls made on the hook. *)
Inductive hook_event :=
  | HBegin (entry : Z)
  | HOpcode (entry pc opcode : Z) (mark : option nat)
  | HEnd (entry start size : Z).

Record buxn_jit_t := mkJit {
  vm_memory : Z -> Z;
  hook : option buxn_jit_hook_t;
  stats : buxn_jit_stats_t;
  blocks_root : hamt nat;
  blocks_first : list nat;
  compile_queue : list buxn_jit_entry_t;
  link_queue : list buxn_jit_entry_t;
  cleanup_queue : list buxn_jit_entry_t;
  entry_pool : list buxn_jit_entry_t;
  block_store : list buxn_jit_block_t;
  compilers : list (option compiler);
  patches : list patch;
  hook_log : list hook_event;
}.

Definition eta_jit (s : buxn_jit_t) : buxn_jit_t :=
  mkJit (vm_memory s) (hook s) (stats s) (blocks_root s) (blocks_first s)
    (compile_queue s) (link_queue s) (cleanup_queue s) (entry_pool s)
    (block_store s) (compilers s) (patches s) (hook_log s).

Definition set_stats f s : buxn_jit_t := ltac:(record_set eta_jit stats f s).
Definition set_blocks_root f s : buxn_jit_t := ltac:(record_set eta_jit blocks_root f s).
Definition set_blocks_first f s : buxn_jit_t := ltac:(record_set eta_jit blocks_first f s).
Definition set_compile_queue f s : buxn_jit_t := ltac:(record_set eta_jit compile_queue f s).
Definition set_link_queue f s : buxn_jit_t := ltac:(record_set eta_jit link_queue f s).
Definition set_cleanup_queue f s : buxn_jit_t := ltac:(record_set eta_jit cleanup_queue f s).
Definition set_entry_pool f s : buxn_jit_t := ltac:(record_set eta_jit entry_pool f s).
Definition set_block_store f s : buxn_jit_t := ltac:(record_set eta_jit block_store f s).
Definition set_compilers f s : buxn_jit_t := ltac:(record_set eta_jit compilers f s).
Definition set_patches f s : buxn_jit_t := ltac:(record_set eta_jit patches f s).
Definition set_hook_log f s : buxn_jit_t := ltac:(record_set eta_jit hook_log f s).

(** [buxn_jit_init] *)
Definition buxn_jit_init (vm_mem : Z -> Z) (h : option buxn_jit_hook_t) : buxn_jit_t :=
  mkJit vm_mem h (mkStats 0 0 0) HNil [] [] [] [] [] [] [] [] [].

(** ** The compilation context *)

(** [ctx->ewsp] points to [ctx->wsp] or to the local [shadow_wsp]. *)
Inductive sp_target := PMain | PShadow.

Record buxn_jit_ctx_t := mkCtx {
  jit : buxn_jit_t;
  block : nat;
  compiler_ptr : option nat;
  comp : compiler;
  head_label : nat;
  body_label : nat;
  call_fallback : nat;
  entry_pc : Z;
  pc : Z;
  current_opcode : Z;
  mem_base : Z;
  wst : list buxn_jit_value_t;
  rst : list buxn_jit_value_t;
  wsp : Z;
  rsp : Z;
  shadow_wsp : Z;
  shadow_rsp : Z;
  ewsp : sp_target;
  ersp : sp_target;
  wsp_reg : sreg;
  rsp_reg : sreg;
  reg_ref_counts : list Z;
  wst_cache : buxn_jit_stack_cache_t;
  rst_cache : buxn_jit_stack_cache_t;
}.

Definition eta_ctx (c : buxn_jit_ctx_t) : buxn_jit_ctx_t :=
  mkCtx (jit c) (block c) (compiler_ptr c) (comp c) (head_label c) (body_label c)
    (call_fallback c) (entry_pc c) (pc c) (current_opcode c) (mem_base c)
    (wst c) (rst c) (wsp c) (rsp c) (shadow_wsp c) (shadow_rsp c) (ewsp c) (ersp c)
    (wsp_reg c) (rsp_reg c) (reg_ref_counts c) (wst_cache c) (rst_cache c).

Definition set_jit f c : buxn_jit_ctx_t := ltac:(record_set eta_ctx jit f c).
Definition set_compiler_ptr f c : buxn_jit_ctx_t := ltac:(record_set eta_ctx compiler_ptr f c).
Definition set_comp f c : buxn_jit_ctx_t := ltac:(record_set eta_ctx comp f c).
Definition set_head_label f c : buxn_jit_ctx_t := ltac:(record_set eta_ctx head_label f c).
Definition set_body_label f c : buxn_jit_ctx_t := ltac:(record_set eta_ctx body_label f c).
Definition set_call_fallback f c : buxn_jit_ctx_t := ltac:(record_set eta_ctx call_fallback f c).
Definition set_pc f c : buxn_jit_ctx_t := ltac:(record_set eta_ctx pc f c).
Definition set_current_opcode f c : buxn_jit_ctx_t := ltac:(record_set eta_ctx current_opcode f c).
Definition set_mem_base f c : buxn_jit_ctx_t := ltac:(record_set eta_ctx mem_base f c).
Definition set_wst f c : buxn_jit_ctx_t := ltac:(record_set eta_ctx wst f c).
Definition set_rst f c : buxn_jit_ctx_t := ltac:(record_set eta_ctx rst f c).
Definition set_wsp f c : buxn_jit_ctx_t := ltac:(record_set eta_ctx wsp f c).
Definition set_rsp f c : buxn_jit_ctx_t := ltac:(record_set eta_ctx rsp f c).
Definition set_shadow_wsp f c : buxn_jit_ctx_t := ltac:(record_set eta_ctx shadow_wsp f c).
Definition set_shadow_rsp f c : buxn_jit_ctx_t := ltac:(record_set eta_ctx shadow_rsp f c).
Definition set_ewsp f c : buxn_jit_ctx_t := ltac:(record_set eta_ctx ewsp f c).
Definition set_ersp f c : buxn_jit_ctx_t := ltac:(record_set eta_ctx ersp f c).
Definition set_wsp_reg f c : buxn_jit_ctx_t := ltac:(record_set eta_ctx wsp_reg f c).
Definition set_rsp_reg f c : buxn_jit_ctx_t := ltac:(record_set eta_ctx rsp_reg f c).
Definition set_reg_ref_counts f c : buxn_jit_ctx_t := ltac:(record_set eta_ctx reg_ref_counts f c).
Definition set_wst_cache f c : buxn_jit_ctx_t := ltac:(record_set eta_ctx wst_cache f c).
Definition set_rst_cache f c : buxn_jit_ctx_t := ltac:(record_set eta_ctx rst_cache f c).

(** A [buxn_jit_stack_cache_t*] is one of the two caches of the context; the
    source recovers which one by [cache == &ctx->rst_cache]. *)
Definition get_cache (flag_r : bool) (c : buxn_jit_ctx_t) : buxn_jit_stack_cache_t :=
  if flag_r then rst_cache c else wst_cache c.
Definition set_cache (flag_r : bool) (f : buxn_jit_stack_cache_t -> buxn_jit_stack_cache_t)
    (c : buxn_jit_ctx_t) : buxn_jit_ctx_t :=
  if flag_r then set_rst_cache f c else set_wst_cache f c.

Abbreviation J := (M buxn_jit_ctx_t).

(** ** The queues *)

Definition buxn_jit_dequeue (queue : list buxn_jit_entry_t) :
    option buxn_jit_entry_t * list buxn_jit_entry_t :=
  match queue with
  | [] => (None, [])
  | entry :: next => (Some entry, next)
  end.

Definition buxn_jit_enqueue (entry : buxn_jit_entry_t) (queue : list buxn_jit_entry_t) :
    list buxn_jit_entry_t := entry :: queue.

(** Freshly allocated memory; every field that is read is written first. *)
Definition fresh_entry : buxn_jit_entry_t := mkEntry BUXN_JIT_LINK_TO_HEAD 0 0 (UPc 0).

Definition buxn_jit_alloc_entry (s : buxn_jit_t) : buxn_jit_entry_t * buxn_jit_t :=
  match buxn_jit_dequeue (entry_pool s) with
  | (Some entry, pool) => (entry, set_entry_pool (fun _ => pool) s)
  | (None, _) => (fresh_entry, s)
  end.

Definition buxn_jit_queue_block (s : buxn_jit_t) (pc : Z) : nat * buxn_jit_t :=
  match blocks_get (blocks_root s) pc with
  | Some block => (block, s)
  | None =>
      let block := length (block_store s) in
      let s := set_block_store (fun l => l ++ [mkBlock pc 0 0 0 0]) s in
      let s := set_blocks_root (fun t => blocks_add t pc block) s in
      let s := set_blocks_first (fun l => block :: l) s in
      let s := set_stats (fun t => mkStats (code_size t) (num_blocks t + 1) (num_bounces t)) s in
      let compiler := length (compilers s) in
      let s := set_compilers (fun l => l ++ [Some sljit_create_compiler]) s in
      let '(compile_entry, s) := buxn_jit_alloc_entry s in
      let s := set_compile_queue
        (buxn_jit_enqueue (mkEntry (link_type compile_entry) block compiler (UPc pc))) s in
      let '(cleanup_entry, s) := buxn_jit_alloc_entry s in
      let s := set_cleanup_queue
        (buxn_jit_enqueue (mkEntry (link_type cleanup_entry) (e_block cleanup_entry)
                             compiler (e_union cleanup_entry))) s in
      (block, s)
  end.

(** Run an operation on [ctx->jit]. *)
Definition on_jit {A} (f : buxn_jit_t -> A * buxn_jit_t) : J A :=
  fun c => let '(a, s) := f (jit c) in Ok (a, set_jit (fun _ => s) c).

(** ** Emission: the [sljit_emit_*] calls on [ctx->compiler] *)

Definition with_compiler {A} (f : compiler -> A * compiler) : J A :=
  fun c =>
    match compiler_ptr c with
    | Some _ => let '(a, k) := f (comp c) in Ok (a, set_comp (fun _ => k) c)
    | None => AssertFailed "NULL compiler"
    end.

Definition emit_lir (i : lir) : J unit := with_compiler (fun k => (tt, emit i k)).
Definition sljit_emit_op1 (o : op1) (dst src : arg) : J unit := emit_lir (LOp1 o dst src).
Definition sljit_emit_op2 (o : op2) (dst s1 s2 : arg) : J unit := emit_lir (LOp2 o dst s1 s2).
Definition sljit_emit_return (o : op1) (src : arg) : J unit := emit_lir (LReturn o src).
Definition sljit_emit_label : J nat := with_compiler emit_label.
Definition sljit_emit_jump (rewritable : bool) (c : option cond) : J nat :=
  with_compiler (emit_jump_site (fun j => LJump j rewritable c)).
Definition sljit_emit_cmp (c : cond) (rewritable : bool) (a b : arg) : J nat :=
  with_compiler (emit_jump_site (fun j => LCmp j c rewritable a b)).
Definition sljit_emit_call (rewritable : bool) : J nat :=
  with_compiler (emit_jump_site (fun j => LCall j rewritable)).
Definition set_label (j l : nat) : J unit :=
  with_compiler (fun k => (tt, sljit_set_label j l k)).
(** [sljit_set_label(jump, sljit_emit_label(compiler))] *)
Definition set_label_here (j : nat) : J unit :=
  (l <-- sljit_emit_label ;; set_label j l)%jit.
