(* ===== verification/Queues.v ===== *)
(** * The block map and the queues of the JIT

    [jit_ok s]: the hash trie and the store of blocks describe the same finite
    map from addresses to blocks, and the entries of the queues refer to
    existing blocks and compilers.  Queueing a block keeps it and never
    creates a second block for an address. *)
From S2P Require Import Prelude Lir Hamt Jit.
From Stdlib Require Import Permutation.

(** ** The invariant *)

Definition rom_ok (s : buxn_jit_t) : Prop := forall a, is_u8 (vm_memory s a).

Definition key_at (s : buxn_jit_t) (b : nat) : option Z := key <$> block_store s !! b.

(** A compile entry names a block, its address and a compiler not yet used. *)
Definition compile_entry_ok (s : buxn_jit_t) (e : buxn_jit_entry_t) : Prop :=
  exists pc, e_union e = UPc pc /\ key_at s (e_block e) = Some pc /\
    compilers s !! e_compiler e = Some (Some sljit_create_compiler).

Definition link_entry_ok (s : buxn_jit_t) (e : buxn_jit_entry_t) : Prop :=
  (exists j, e_union e = UJump j) /\ is_Some (key_at s (e_block e)).

Record jit_ok (s : buxn_jit_t) : Prop := {
  ok_rom : rom_ok s;
  ok_wf : blocks_wf (blocks_root s);
  ok_map : forall pc b, blocks_get (blocks_root s) pc = Some b <-> key_at s b = Some pc;
  ok_keys : forall b pc, key_at s b = Some pc -> is_u16 pc;
  ok_count : num_blocks (stats s) = Z.of_nat (length (block_store s));
  ok_compile : Forall (compile_entry_ok s) (compile_queue s);
  ok_fresh : NoDup (e_compiler <$> compile_queue s);
  ok_link : Forall (link_entry_ok s) (link_queue s);
  ok_cleanup : forall i k, compilers s !! i = Some (Some k) ->
    i ∈ e_compiler <$> cleanup_queue s;
}.

(** [done_or P s]: a block is compiled, waits in the queue, or is in [P]. *)
Definition done_or (P : nat -> Prop) (s : buxn_jit_t) : Prop :=
  forall b B, block_store s !! b = Some B ->
    fn B <> 0 \/ b ∈ e_block <$> compile_queue s \/ P b.

(** Each block waits once. *)
Definition queued_once (s : buxn_jit_t) : Prop :=
  NoDup (e_block <$> compile_queue s) /\
  forall b, b ∈ e_block <$> compile_queue s -> (b < length (block_store s))%nat.

(** What happens to the JIT while one block is compiled. *)
Record grows (s s' : buxn_jit_t) : Prop := {
  gr_rom : vm_memory s' = vm_memory s;
  gr_hook : hook s' = hook s;
  gr_blocks : block_store s `prefix_of` block_store s';
  gr_compilers : compilers s `prefix_of` compilers s';
  gr_ledger : (length (block_store s') + length (compile_queue s) =
               length (block_store s) + length (compile_queue s'))%nat;
  gr_queue : compile_queue s `suffix_of` compile_queue s';
  gr_own : forall i, i ∈ e_compiler <$> compile_queue s' ->
    i ∈ e_compiler <$> compile_queue s \/ (length (compilers s) <= i)%nat;
  gr_done : forall P, done_or P s -> done_or P s';
  gr_link : link_queue s `suffix_of` link_queue s';
  gr_code : code_size (stats s') = code_size (stats s);
  gr_queued : forall b, (length (block_store s) <= b < length (block_store s'))%nat ->
    b ∈ e_block <$> compile_queue s';
  gr_patches : patches s' = patches s;
  gr_new : forall b, b ∈ e_block <$> compile_queue s' ->
    b ∈ e_block <$> compile_queue s \/ (length (block_store s) <= b)%nat;
  gr_once : queued_once s -> queued_once s';
}.

Lemma grows_refl s : grows s s.
Proof. split; auto. lia. Qed.

Lemma grows_trans s1 s2 s3 : grows s1 s2 -> grows s2 s3 -> grows s1 s3.
Proof.
  intros [] []. split; try congruence; try (by etrans); [lia| |auto| | |auto].
  - intros i Hi. destruct (gr_own1 i Hi) as [Hi2|]; [auto|]. right.
    apply prefix_length in gr_compilers0. lia.
  - intros b Hb. destruct (decide (b < length (block_store s2))%nat); [|apply gr_queued1; lia].
    destruct gr_queue1 as [q ->]. rewrite fmap_app, elem_of_app. right. apply gr_queued0. lia.
  - intros b Hb. destruct (gr_new1 b Hb) as [Hb2|]; [auto|]. right.
    apply prefix_length in gr_blocks0. lia.
Qed.

(** ** At most one block per 16-bit address *)

Lemma key_at_inj s b b' pc :
  jit_ok s -> key_at s b = Some pc -> key_at s b' = Some pc -> b = b'.
Proof. intros Hok Hb Hb'. apply (ok_map s Hok) in Hb, Hb'. congruence. Qed.

Lemma block_bound s : jit_ok s -> (length (block_store s) <= Z.to_nat 65536)%nat.
Proof.
  intros Hok. rewrite <- (length_fmap (fun B => Z.to_nat (key B))), <- (length_seq (Z.to_nat 65536) 0).
  apply submseteq_length, NoDup_submseteq.
  - apply NoDup_alt. intros i j x Hi Hj.
    rewrite list_lookup_fmap in Hi, Hj.
    destruct (block_store s !! i) as [B|] eqn:Ei, (block_store s !! j) as [B'|] eqn:Ej; simplify_eq/=.
    assert (key_at s i = Some (key B)) as Ki by (unfold key_at; rewrite Ei; done).
    assert (key_at s j = Some (key B')) as Kj by (unfold key_at; rewrite Ej; done).
    pose proof (ok_keys s Hok _ _ Ki). pose proof (ok_keys s Hok _ _ Kj).
    apply (key_at_inj s i j (key B)); [done..|]. rewrite Kj. f_equal. mlia.
  - intros x (B & -> & (i & Ei)%list_elem_of_lookup)%list_elem_of_fmap. apply elem_of_seq.
    assert (key_at s i = Some (key B)) as Ki by (unfold key_at; rewrite Ei; done).
    pose proof (ok_keys s Hok _ _ Ki). mlia.
Qed.

(** ** Growing the store and the queues *)

Lemma key_at_app l1 l2 (b : nat) pc :
  key <$> l1 !! b = Some pc -> key <$> (l1 ++ l2) !! b = Some pc.
Proof.
  destruct (l1 !! b) as [B|] eqn:E; [|done]. rewrite (lookup_app_l_Some _ _ _ _ E). done.
Qed.

Lemma key_at_prefix s s' b pc :
  block_store s `prefix_of` block_store s' -> key_at s b = Some pc -> key_at s' b = Some pc.
Proof. unfold key_at. intros [l ->]. apply key_at_app. Qed.

Lemma compile_entry_mono s s' e :
  block_store s `prefix_of` block_store s' -> compilers s `prefix_of` compilers s' ->
  compile_entry_ok s e -> compile_entry_ok s' e.
Proof.
  intros Hb [l Hc] (pc & ? & ? & Hk). exists pc. split; [done|]. split; [by eapply key_at_prefix|].
  rewrite Hc. by apply lookup_app_l_Some.
Qed.

Lemma link_entry_mono s s' e :
  block_store s `prefix_of` block_store s' -> link_entry_ok s e -> link_entry_ok s' e.
Proof.
  intros Hb [? [pc Hk]]. split; [done|]. exists pc. by eapply key_at_prefix.
Qed.

(** Taking an entry off the pool touches nothing else. *)
Lemma alloc_entry_pool s :
  exists pool, snd (buxn_jit_alloc_entry s) = set_entry_pool (fun _ => pool) s.
Proof.
  unfold buxn_jit_alloc_entry. destruct (entry_pool s) as [|e l] eqn:E; simpl; [|by eexists].
  exists []. rewrite <- E. destruct s. done.
Qed.

Lemma jit_ok_pool s pool : jit_ok s -> jit_ok (set_entry_pool (fun _ => pool) s).
Proof. intros []. split; done. Qed.

Lemma grows_pool s pool : grows s (set_entry_pool (fun _ => pool) s).
Proof. split; try done; auto. cbn. lia. Qed.

(** What [buxn_jit_queue_block] does for an address without a block. *)
Lemma queue_block_new s pc :
  blocks_get (blocks_root s) pc = None ->
  let b := length (block_store s) in
  exists s' t, buxn_jit_queue_block s pc = (b, s') /\
    vm_memory s' = vm_memory s /\ hook s' = hook s /\
    stats s' = mkStats (code_size (stats s)) (num_blocks (stats s) + 1) (num_bounces (stats s)) /\
    blocks_root s' = blocks_add (blocks_root s) pc b /\
    block_store s' = block_store s ++ [mkBlock pc 0 0 0 0] /\
    compilers s' = compilers s ++ [Some sljit_create_compiler] /\
    compile_queue s' = mkEntry t b (length (compilers s)) (UPc pc) :: compile_queue s /\
    link_queue s' = link_queue s /\
    e_compiler <$> cleanup_queue s' = length (compilers s) :: (e_compiler <$> cleanup_queue s) /\
    patches s' = patches s.
Proof.
  intros Hn b. unfold buxn_jit_queue_block, buxn_jit_alloc_entry. rewrite Hn.
  destruct s as [? ? ? ? ? ? ? ? [|e1 [|e2 l]]]; cbn -[blocks_add];
    do 2 eexists; repeat split.
Qed.

Lemma jit_ok_queue_new s s' pc t :
  let b := length (block_store s) in
  jit_ok s -> is_u16 pc -> blocks_get (blocks_root s) pc = None ->
  vm_memory s' = vm_memory s ->
  stats s' = mkStats (code_size (stats s)) (num_blocks (stats s) + 1) (num_bounces (stats s)) ->
  blocks_root s' = blocks_add (blocks_root s) pc b ->
  block_store s' = block_store s ++ [mkBlock pc 0 0 0 0] ->
  compilers s' = compilers s ++ [Some sljit_create_compiler] ->
  compile_queue s' = mkEntry t b (length (compilers s)) (UPc pc) :: compile_queue s ->
  link_queue s' = link_queue s ->
  e_compiler <$> cleanup_queue s' = length (compilers s) :: (e_compiler <$> cleanup_queue s) ->
  jit_ok s'.
Proof.
  intros b Hok Hpc Hn Hm Hst Hr Hs Hc Hq Hl Hcl.
  assert (Hpre : block_store s `prefix_of` block_store s') by (rewrite Hs; by eexists).
  assert (Hcpre : compilers s `prefix_of` compilers s') by (rewrite Hc; by eexists).
  assert (Hkey : forall i k, key_at s' i = Some k <-> key_at s i = Some k \/ (i = b /\ k = pc)).
  { intros i k. unfold key_at. rewrite Hs. destruct (decide (i < b)%nat).
    - rewrite lookup_app_l by done. split; [auto|]. intros [?|[-> _]]; [done|lia].
    - rewrite lookup_app_r by (fold b; lia). fold b.
      rewrite (lookup_ge_None_2 (block_store s) i) by (fold b; lia).
      destruct (decide (i = b)) as [->|].
      + rewrite Nat.sub_diag. simpl. split; [intros [= ->]; auto|]. intros [?|[_ ->]]; done.
      + rewrite lookup_ge_None_2 by (simpl; lia). split; [done|]. intros [?|[? _]]; done. }
  split.
  - unfold rom_ok. rewrite Hm. apply (ok_rom s Hok).
  - rewrite Hr. apply blocks_wf_add; [done|]. apply (ok_wf s Hok).
  - intros p i. rewrite Hkey, Hr. unfold blocks_get, blocks_add.
    rewrite get_add; [|congruence|exact Hn].
    destruct (Z.eqb_spec pc p) as [->|].
    + split; [intros [= ->]; auto|]. intros [Hk|[-> _]]; [|done].
      apply (ok_map s Hok) in Hk. congruence.
    + fold (blocks_get (blocks_root s) p). rewrite (ok_map s Hok).
      split; [auto|]. intros [?|[_ ->]]; done.
  - intros i p [Hk|[-> ->]]%Hkey; [|done]. by eapply (ok_keys s Hok).
  - rewrite Hst, Hs, length_app, (ok_count s Hok). simpl. lia.
  - rewrite Hq. constructor.
    + exists pc. cbn. rewrite Hc, lookup_app_r, Nat.sub_diag by done.
      split; [done|]. split; [apply Hkey; auto|done].
    + eapply Forall_impl; [apply (ok_compile s Hok)|]. intros e. by apply compile_entry_mono.
  - rewrite Hq. cbn. constructor; [|apply (ok_fresh s Hok)].
    intros (e & He & Hin)%list_elem_of_fmap.
    pose proof (ok_compile s Hok) as Hf. rewrite Forall_forall in Hf.
    destruct (Hf e Hin) as (? & _ & _ & Hlk). apply lookup_lt_Some in Hlk. lia.
  - rewrite Hl. eapply Forall_impl; [apply (ok_link s Hok)|]. intros e. by apply link_entry_mono.
  - intros i k. rewrite Hcl, Hc, elem_of_cons. destruct (decide (i < length (compilers s))%nat).
    + rewrite lookup_app_l by done. right. by eapply (ok_cleanup s Hok).
    + intros Hi%lookup_lt_Some. rewrite length_app in Hi. simpl in Hi. left. lia.
Qed.

(** Queueing an address finds its block or creates the only one. *)
Lemma queue_block_spec s pc :
  jit_ok s -> is_u16 pc ->
  exists b s', buxn_jit_queue_block s pc = (b, s') /\
    jit_ok s' /\ grows s s' /\ key_at s' b = Some pc.
Proof.
  intros Hok Hpc. destruct (blocks_get (blocks_root s) pc) as [b|] eqn:E.
  - exists b, s. unfold buxn_jit_queue_block. rewrite E. split; [done|].
    split; [done|]. split; [apply grows_refl|]. by apply (ok_map s Hok).
  - destruct (queue_block_new s pc E) as (s' & t & Heq & Hm & Hh & Hst & Hr & Hs & Hc & Hq & Hl & Hcl & Hpa).
    exists (length (block_store s)), s'. split; [done|].
    assert (jit_ok s') by (eapply (jit_ok_queue_new s s' pc t); eauto).
    split; [done|]. split.
    + split; try (congruence || done).
      * rewrite Hs. by eexists.
      * rewrite Hc. by eexists.
      * rewrite Hs, Hq, length_app. simpl. lia.
      * rewrite Hq. by eexists [_].
      * rewrite Hq. cbn. intros i [->|]%elem_of_cons; auto.
      * intros P Hd b B Hb. rewrite Hs in Hb. rewrite Hq. cbn.
        rewrite elem_of_cons. destruct (decide (b < length (block_store s))%nat) as [Hlt|].
        -- rewrite lookup_app_l in Hb by done. destruct (Hd b B Hb) as [|[|]]; auto.
        -- apply lookup_lt_Some in Hb. rewrite length_app in Hb. simpl in Hb.
           right. left. left. lia.
      * rewrite Hl. done.
      * rewrite Hst. done.
      * intros b. rewrite Hs, Hq, length_app. cbn. intros Hb. rewrite elem_of_cons. left. lia.
      * rewrite Hq. cbn. intros b [->|]%elem_of_cons; auto.
      * unfold queued_once. rewrite Hs, Hq, length_app. cbn. intros [Hnd Hlt]. split.
        -- constructor; [|done]. intros Hin%Hlt. lia.
        -- intros b [->|Hin%Hlt]%elem_of_cons; simpl; lia.
    + unfold key_at. rewrite Hs, lookup_app_r, Nat.sub_diag by done. done.
Qed.

Lemma jit_ok_link s t b k j :
  jit_ok s -> is_Some (key_at s b) ->
  let s' := set_link_queue (buxn_jit_enqueue (mkEntry t b k (UJump j))) s in
  jit_ok s' /\ grows s s'.
Proof.
  intros [] Hb s'. split; [split; try done|split; try done; auto].
  - cbn. constructor; [|done]. split; [by eexists|done].
  - by eexists [_].
  - cbn. lia.
Qed.

Lemma jit_ok_hook_log s f : jit_ok s -> jit_ok (set_hook_log f s).
Proof. intros []. split; done. Qed.

Lemma grows_hook_log s f : grows s (set_hook_log f s).
Proof. split; try done; auto. cbn. lia. Qed.
