(* ===== verification/StackCache.v ===== *)
(** * Register allocation and the stack caches of src/jit.c

    The top of each uxn stack is kept in registers: pushes are deferred to a
    cache of at most four cells, spilled to the stack in memory from the
    bottom, and a pop only reads memory when the cache is empty. *)
From S2P Require Import Prelude Lir Hamt Jit.
Local Open Scope jit_scope.

(** ** Opcode flags *)

Definition is_imm_jump (op : Z) : bool := (op =? 0x20) || (op =? 0x40) || (op =? 0x60).

Definition buxn_jit_op_flag_2 (c : buxn_jit_ctx_t) : bool :=
  has_bit (current_opcode c) BUXN_JIT_OP_2 && negb (is_imm_jump (current_opcode c)).

Definition buxn_jit_op_flag_k (c : buxn_jit_ctx_t) : bool :=
  has_bit (current_opcode c) BUXN_JIT_OP_K && negb (is_imm_jump (current_opcode c))
  && negb (current_opcode c =? 0x80) && negb (current_opcode c =? 0xa0)
  && negb (current_opcode c =? 0xc0) && negb (current_opcode c =? 0xe0).

Definition buxn_jit_op_flag_r (c : buxn_jit_ctx_t) : bool :=
  has_bit (current_opcode c) BUXN_JIT_OP_R && negb (is_imm_jump (current_opcode c)).

(** ** Registers and their reference counts *)

(** [SLJIT_R(BUXN_JIT_R_OP_MIN + i)] and back. *)
Definition op_reg (i : nat) : sreg := SR (BUXN_JIT_R_OP_MIN + i).
Definition op_index (r : sreg) : option nat :=
  match r with
  | SR n => if ((BUXN_JIT_R_OP_MIN <=? n) && (n <=? BUXN_JIT_R_OP_MAX))%nat
            then Some (n - BUXN_JIT_R_OP_MIN)%nat else None
  | SS _ => None
  end.

(** The scan of [buxn_jit_find_free_reg]; C's [0] is [None]. *)
Fixpoint first_zero (l : list Z) (i : nat) : option nat :=
  match l with
  | [] => None
  | n :: l => if n =? 0 then Some i else first_zero l (S i)
  end.

Definition buxn_jit_find_free_reg (c : buxn_jit_ctx_t) : option sreg :=
  op_reg <$> first_zero (reg_ref_counts c) 0.

Definition ref_count (c : buxn_jit_ctx_t) (i : nat) : Z := nth i (reg_ref_counts c) 0.

Definition set_ref_count (i : nat) (n : Z) (c : buxn_jit_ctx_t) : buxn_jit_ctx_t :=
  set_reg_ref_counts (fun l => <[i := n]> l) c.

Definition buxn_jit_retain_reg (r : sreg) : J unit :=
  fun c =>
    match op_index r with
    | None => AssertFailed "Invalid register"
    | Some i => Ok (tt, set_ref_count i (u8 (ref_count c i + 1)) c)
    end.

Definition buxn_jit_release_reg (r : sreg) : J unit :=
  fun c =>
    match op_index r with
    | None => AssertFailed "Invalid register"
    | Some i =>
        if 0 <? ref_count c i then Ok (tt, set_ref_count i (ref_count c i - 1) c)
        else AssertFailed "Releasing unused register"
    end.

Section WithLayout.
Context `{VmLayout}.

(** ** Writing to the stack in memory *)

Definition buxn_jit_set_mem_base (base : Z) : J unit :=
  b <-- gets mem_base ;;
  when (negb (b =? base))
    (sljit_emit_op2 SLJIT_ADD (AReg BUXN_JIT_R_MEM_BASE) (AReg BUXN_JIT_S_VM) (AImm base) ;;;
     modify (set_mem_base (fun _ => base))).

Definition stack_offset (flag_r : bool) : Z := if flag_r then off_rs else off_ws.

Definition buxn_jit_do_push (operand : buxn_jit_operand_t) (flag_r : bool) : J unit :=
  buxn_jit_set_mem_base (stack_offset flag_r) ;;;
  let stack_ptr_reg := AReg (if flag_r then BUXN_JIT_S_RSP else BUXN_JIT_S_WSP) in
  if is_short operand then
    sljit_emit_op1 SLJIT_MOV_U8 BUXN_JIT_MEM_OFFSET stack_ptr_reg ;;;
    sljit_emit_op2 SLJIT_LSHR BUXN_JIT_TMP (AReg (reg operand)) (AImm 8) ;;;
    sljit_emit_op1 SLJIT_MOV_U8 BUXN_JIT_MEM BUXN_JIT_TMP ;;;
    sljit_emit_op2 SLJIT_ADD stack_ptr_reg stack_ptr_reg (AImm 1) ;;;
    sljit_emit_op1 SLJIT_MOV_U8 BUXN_JIT_MEM_OFFSET stack_ptr_reg ;;;
    sljit_emit_op2 SLJIT_AND BUXN_JIT_TMP (AReg (reg operand)) (AImm 0xff) ;;;
    sljit_emit_op1 SLJIT_MOV_U8 BUXN_JIT_MEM BUXN_JIT_TMP ;;;
    sljit_emit_op2 SLJIT_ADD stack_ptr_reg stack_ptr_reg (AImm 1)
  else
    sljit_emit_op1 SLJIT_MOV_U8 BUXN_JIT_MEM_OFFSET stack_ptr_reg ;;;
    sljit_emit_op1 SLJIT_MOV_U8 BUXN_JIT_MEM (AReg (reg operand)) ;;;
    sljit_emit_op2 SLJIT_ADD stack_ptr_reg stack_ptr_reg (AImm 1).

(** [cell->need_flush = false] for the cell at index [i]. *)
Definition set_cell (i : nat) (x : buxn_jit_stack_cache_cell_t) (k : buxn_jit_stack_cache_t) :
    buxn_jit_stack_cache_t :=
  mkCache (<[i := x]> (cells k)) (len k).

Definition buxn_jit_flush_cell (i : nat) (flag_r : bool) : J unit :=
  cell <-- gets (fun c => cell_at (get_cache flag_r c) i) ;;
  buxn_jit_do_push (value cell) flag_r ;;;
  modify (set_cache flag_r (set_cell i (mkCell (value cell) false))).

(** [memmove(&cells[0], &cells[n], len * sizeof(cell))] after [len -= n]. *)
Definition cache_shift (n : nat) (k : buxn_jit_stack_cache_t) : buxn_jit_stack_cache_t :=
  let len' := (len k - n)%nat in
  mkCache (take len' (drop n (cells k)) ++ drop len' (cells k)) len'.

Definition buxn_jit_stack_cache_spill (flag_r : bool) : J bool :=
  k <-- gets (get_cache flag_r) ;;
  if (len k =? 0)%nat then ret false
  else
    when (need_flush (cell_at k 0)) (buxn_jit_flush_cell 0 flag_r) ;;;
    buxn_jit_release_reg (reg (value (cell_at k 0))) ;;;
    modify (set_cache flag_r (cache_shift 1)) ;;;
    ret true.

(** The loop of [buxn_jit_alloc_reg]; each iteration spills a cell, so eight
    are enough. *)
Fixpoint alloc_loop (fuel : nat) : J (option sreg) :=
  r <-- gets buxn_jit_find_free_reg ;;
  cached <-- gets (fun c => (len (wst_cache c) + len (rst_cache c))%nat) ;;
  match r with
  | Some r => ret (Some r)
  | None =>
      if (cached =? 0)%nat then ret None
      else
        match fuel with
        | O => out_of_fuel
        | S fuel =>
            flag_r <-- gets buxn_jit_op_flag_r ;;
            ok <-- buxn_jit_stack_cache_spill flag_r ;;
            when (negb ok) (buxn_jit_stack_cache_spill (negb flag_r) ;;; ret tt) ;;;
            alloc_loop fuel
        end
  end.

Definition buxn_jit_alloc_reg : J sreg :=
  r <-- alloc_loop 8 ;;
  match r with
  | None => fun _ => AssertFailed "Out of registers"
  | Some r => buxn_jit_retain_reg r ;;; ret r
  end.

(** ** The cache operations *)

Definition buxn_jit_stack_cache_push (flag_r : bool) (v : buxn_jit_operand_t) : J unit :=
  k <-- gets (get_cache flag_r) ;;
  when (BUXN_JIT_CACHE_SIZE <=? len k)%nat (buxn_jit_stack_cache_spill flag_r ;;; ret tt) ;;;
  modify (set_cache flag_r (fun k =>
    mkCache (<[len k := mkCell v true]> (cells k)) (S (len k)))) ;;;
  buxn_jit_retain_reg (reg v).

Definition stack_ptr_reg (flag_r : bool) (c : buxn_jit_ctx_t) : sreg :=
  if flag_r then rsp_reg c else wsp_reg c.

Definition buxn_jit_pop_from_mem (flag_2 flag_r : bool) : J sreg :=
  buxn_jit_set_mem_base (stack_offset flag_r) ;;;
  sp <-- gets (stack_ptr_reg flag_r) ;;
  r <-- buxn_jit_alloc_reg ;;
  if flag_2 then
    sljit_emit_op2 SLJIT_SUB (AReg sp) (AReg sp) (AImm 1) ;;;
    sljit_emit_op1 SLJIT_MOV_U8 BUXN_JIT_MEM_OFFSET (AReg sp) ;;;
    sljit_emit_op1 SLJIT_MOV_U8 (AReg r) BUXN_JIT_MEM ;;;
    sljit_emit_op2 SLJIT_SUB (AReg sp) (AReg sp) (AImm 1) ;;;
    sljit_emit_op1 SLJIT_MOV_U8 BUXN_JIT_MEM_OFFSET (AReg sp) ;;;
    sljit_emit_op1 SLJIT_MOV_U8 BUXN_JIT_TMP BUXN_JIT_MEM ;;;
    sljit_emit_op2 SLJIT_SHL BUXN_JIT_TMP BUXN_JIT_TMP (AImm 8) ;;;
    sljit_emit_op2 SLJIT_OR (AReg r) (AReg r) BUXN_JIT_TMP ;;;
    ret r
  else
    sljit_emit_op2 SLJIT_SUB (AReg sp) (AReg sp) (AImm 1) ;;;
    sljit_emit_op1 SLJIT_MOV_U8 BUXN_JIT_MEM_OFFSET (AReg sp) ;;;
    sljit_emit_op1 SLJIT_MOV_U8 (AReg r) BUXN_JIT_MEM ;;;
    ret r.

Definition set_is_short (b : bool) (v : buxn_jit_operand_t) : buxn_jit_operand_t :=
  mkOperand (semantics v) b (const_value v) (reg v).

(** [top->value.is_short = false] through the pointer to slot [i]. *)
Definition narrow_cell (flag_r : bool) (i : nat) : J unit :=
  modify (set_cache flag_r (fun k =>
    set_cell i (mkCell (set_is_short false (value (cell_at k i))) (need_flush (cell_at k i))) k)).

Definition set_len (f : nat -> nat) (k : buxn_jit_stack_cache_t) : buxn_jit_stack_cache_t :=
  mkCache (cells k) (f (len k)).

(** [buxn_jit_stack_cache_pop] with [flag_2 = false].  [top] is the slot
    index the C pointer was computed from: a spill in between moves the
    cells, not the pointer. *)
Definition stack_cache_pop_byte (flag_r : bool) : J sreg :=
  k <-- gets (get_cache flag_r) ;;
  if (len k =? 0)%nat then buxn_jit_pop_from_mem false flag_r
  else
    let top := (len k - 1)%nat in
    if is_short (value (cell_at k top)) then
      r <-- buxn_jit_alloc_reg ;;
      k' <-- gets (get_cache flag_r) ;;
      if (len k' =? 0)%nat then
        buxn_jit_release_reg r ;;;
        buxn_jit_pop_from_mem false flag_r
      else
        let top_reg := AReg (reg (value (cell_at k' top))) in
        sljit_emit_op1 SLJIT_MOV_U8 (AReg r) top_reg ;;;
        sljit_emit_op2 SLJIT_LSHR top_reg top_reg (AImm 8) ;;;
        narrow_cell flag_r top ;;;
        ret r
    else
      modify (set_cache flag_r (set_len (fun n => n - 1)%nat)) ;;;
      ret (reg (value (cell_at k top))).

Definition buxn_jit_stack_cache_pop (flag_r flag_2 : bool) : J sreg :=
  if flag_2 then
    k <-- gets (get_cache flag_r) ;;
    if (len k =? 0)%nat then buxn_jit_pop_from_mem flag_2 flag_r
    else
      modify (set_cache flag_r (set_len (fun n => n - 1)%nat)) ;;;
      let top := (len k - 1)%nat in
      if is_short (value (cell_at k top)) then ret (reg (value (cell_at k top)))
      else
        hi <-- stack_cache_pop_byte flag_r ;;
        top_reg <-- gets (fun c => reg (value (cell_at (get_cache flag_r c) top))) ;;
        sljit_emit_op2 SLJIT_SHL (AReg hi) (AReg hi) (AImm 8) ;;;
        sljit_emit_op2 SLJIT_OR (AReg hi) (AReg hi) (AReg top_reg) ;;;
        buxn_jit_release_reg top_reg ;;;
        ret hi
  else stack_cache_pop_byte flag_r.

Definition buxn_jit_discard_from_mem (flag_2 flag_r : bool) : J unit :=
  sp <-- gets (stack_ptr_reg flag_r) ;;
  sljit_emit_op2 SLJIT_SUB (AReg sp) (AReg sp) (AImm (if flag_2 then 2 else 1)).

(** [buxn_jit_stack_cache_discard] with [flag_2 = false]. *)
Definition stack_cache_discard_byte (flag_r : bool) : J unit :=
  k <-- gets (get_cache flag_r) ;;
  if (len k =? 0)%nat then buxn_jit_discard_from_mem false flag_r
  else
    let top := (len k - 1)%nat in
    let top_reg := reg (value (cell_at k top)) in
    if is_short (value (cell_at k top)) then
      sljit_emit_op2 SLJIT_LSHR (AReg top_reg) (AReg top_reg) (AImm 8) ;;;
      narrow_cell flag_r top
    else
      modify (set_cache flag_r (set_len (fun n => n - 1)%nat)) ;;;
      buxn_jit_release_reg top_reg.

Definition buxn_jit_stack_cache_discard (flag_r flag_2 : bool) : J unit :=
  if flag_2 then
    k <-- gets (get_cache flag_r) ;;
    if (len k =? 0)%nat then buxn_jit_discard_from_mem flag_2 flag_r
    else
      let top := value (cell_at k (len k - 1)) in
      modify (set_cache flag_r (set_len (fun n => n - 1)%nat)) ;;;
      buxn_jit_release_reg (reg top) ;;;
      when (negb (is_short top)) (stack_cache_discard_byte flag_r)
  else stack_cache_discard_byte flag_r.

(** The loop of [buxn_jit_stack_cache_flush] over the indices. *)
Fixpoint flush_loop (idx : list nat) (flag_r : bool) : J unit :=
  match idx with
  | [] => ret tt
  | i :: idx =>
      cell <-- gets (fun c => cell_at (get_cache flag_r c) i) ;;
      when (need_flush cell) (buxn_jit_flush_cell i flag_r) ;;;
      flush_loop idx flag_r
  end.

Definition buxn_jit_stack_cache_flush (flag_r : bool) : J unit :=
  k <-- gets (get_cache flag_r) ;;
  flush_loop (seq 0 (len k)) flag_r.

(** [while (spill) {}]; a cache holds at most [BUXN_JIT_CACHE_SIZE] cells. *)
Fixpoint clear_loop (fuel : nat) (flag_r : bool) : J unit :=
  ok <-- buxn_jit_stack_cache_spill flag_r ;;
  if (ok : bool) then
    match fuel with O => out_of_fuel | S fuel => clear_loop fuel flag_r end
  else ret tt.

Definition buxn_jit_stack_cache_clear (flag_r : bool) : J unit :=
  clear_loop BUXN_JIT_CACHE_SIZE flag_r.

Definition buxn_jit_clear_stack_caches : J unit :=
  buxn_jit_stack_cache_clear false ;;;
  buxn_jit_stack_cache_clear true.

Fixpoint retain_all (l : list buxn_jit_stack_cache_cell_t) : J unit :=
  match l with
  | [] => ret tt
  | cell :: l => buxn_jit_retain_reg (reg (value cell)) ;;; retain_all l
  end.

Definition buxn_jit_stack_cache_retain (flag_r : bool) : J unit :=
  k <-- gets (get_cache flag_r) ;;
  let num_flushed := length (filter (fun x => need_flush x = false) (live k)) in
  modify (set_cache flag_r (cache_shift num_flushed)) ;;;
  k <-- gets (get_cache flag_r) ;;
  retain_all (live k).
End WithLayout.
