(* ===== verification/Uxn.v ===== *)
(** * An abstract specification of uxn's straight-line opcodes

    The stacks are lists of bytes, top first; an opcode with the flags short,
    return and keep pops its operands from one of them and pushes its results.
    [None] is a stack underflow.  Nothing here mentions registers, caches or
    the representation of the stacks in memory. *)
From S2P Require Import Prelude Jit StackCache.

(** ** Operands *)

Definition to_bytes (short : bool) (v : Z) : list Z :=
  if short then [v mod 256; v / 256] else [v].

Definition size_mask (short : bool) (v : Z) : Z := if short then u16 v else u8 v.

Definition pop1 (short : bool) (l : list Z) : option (Z * list Z) :=
  match short, l with
  | true, lo :: hi :: l => Some (hi * 256 + lo, l)
  | false, v :: l => Some (v, l)
  | _, _ => None
  end.

(** ** Operations on values *)

Definition compare_spec (n : opname) (a b : Z) : option bool :=
  match n with
  | EQU => Some (a =? b)
  | NEQ => Some (negb (a =? b))
  | GTH => Some (b <? a)
  | LTH => Some (a <? b)
  | _ => None
  end.

(** [ADD] ... [EOR], before truncation to the operand size. *)
Definition binary_spec (n : opname) (a b : Z) : option Z :=
  match n with
  | ADD => Some (a + b)
  | SUB => Some (a - b)
  | MUL => Some (a * b)
  | DIV => Some (if b =? 0 then 0 else a / b)
  | AND => Some (Z.land a b)
  | ORA => Some (Z.lor a b)
  | EOR => Some (Z.lxor a b)
  | _ => None
  end.

(** [SFT]: the low four bits of the second operand shift right, the high
    four left. *)
Definition shift_spec (a b : Z) : Z := Z.shiftl (Z.shiftr a (b mod 16)) (b / 16).

(** ** Opcodes that only change the current stack

    The bytes pushed, top first, and the stack below the operands. *)
Definition stack_spec (n : opname) (short : bool) (l : list Z) : option (list Z * list Z) :=
  match n with
  | INC => '(a, l) ← pop1 short l; Some (to_bytes short (size_mask short (a + 1)), l)
  | POP => '(_, l) ← pop1 short l; Some ([], l)
  | NIP => '(b, l) ← pop1 short l; '(_, l) ← pop1 short l; Some (to_bytes short b, l)
  | SWP =>
      '(b, l) ← pop1 short l; '(a, l) ← pop1 short l;
      Some (to_bytes short a ++ to_bytes short b, l)
  | ROT =>
      '(c, l) ← pop1 short l; '(b, l) ← pop1 short l; '(a, l) ← pop1 short l;
      Some (to_bytes short a ++ to_bytes short c ++ to_bytes short b, l)
  | DUP => '(a, l) ← pop1 short l; Some (to_bytes short a ++ to_bytes short a, l)
  | OVR =>
      '(b, l) ← pop1 short l; '(a, l) ← pop1 short l;
      Some (to_bytes short a ++ to_bytes short b ++ to_bytes short a, l)
  | EQU | NEQ | GTH | LTH =>
      '(b, l) ← pop1 short l; '(a, l) ← pop1 short l;
      r ← compare_spec n a b; Some ([if r : bool then 1 else 0], l)
  | ADD | SUB | MUL | DIV | AND | ORA | EOR =>
      '(b, l) ← pop1 short l; '(a, l) ← pop1 short l;
      r ← binary_spec n a b; Some (to_bytes short (size_mask short r), l)
  | SFT =>
      '(b, l) ← pop1 false l; '(a, l) ← pop1 short l;
      Some (to_bytes short (size_mask short (shift_spec a b)), l)
  | _ => None
  end.

(** ** Memory operands *)

(** A value at [addr]; the second byte of a short wraps within [wrap]. *)
Definition ram_read (short : bool) (wrap : Z -> Z) (ram : Z -> Z) (addr : Z) : Z :=
  if short then ram addr * 256 + ram (wrap (addr + 1)) else ram addr.

Definition ram_write (short : bool) (wrap : Z -> Z) (addr v : Z) (ram : Z -> Z) (a : Z) : Z :=
  if short then
    if a =? wrap (addr + 1) then v mod 256 else if a =? addr then v / 256 else ram a
  else if a =? addr then v else ram a.

(** ** The flags of an opcode byte

    The immediate jumps 0x20, 0x40 and 0x60 have no flags and the four LIT
    opcodes do not keep. *)
Definition op_immediate (op : Z) : bool := op mod 32 =? 0.
Definition op_short (op : Z) : bool := Z.testbit op 5 && negb (op_immediate op && (op <? 128)).
Definition op_return (op : Z) : bool := Z.testbit op 6 && negb (op_immediate op && (op <? 128)).
Definition op_keep (op : Z) : bool := Z.testbit op 7 && negb (op_immediate op).

(** The checks of the source and the bits of the opcode, for one byte. *)
Definition flags_agree (op : Z) : bool :=
  Bool.eqb (has_bit op BUXN_JIT_OP_2 && negb (is_imm_jump op)) (op_short op) &&
  Bool.eqb (has_bit op BUXN_JIT_OP_R && negb (is_imm_jump op)) (op_return op) &&
  Bool.eqb (has_bit op BUXN_JIT_OP_K && negb (is_imm_jump op)
      && negb (op =? 0x80) && negb (op =? 0xa0) && negb (op =? 0xc0) && negb (op =? 0xe0))
    (op_keep op).

Lemma flags_agree_all : forallb flags_agree (map Z.of_nat (seq 0 256)) = true.
Proof. vm_compute. reflexivity. Qed.

Lemma flags_bits c :
  is_u8 (current_opcode c) ->
  buxn_jit_op_flag_2 c = op_short (current_opcode c) /\
  buxn_jit_op_flag_r c = op_return (current_opcode c) /\
  buxn_jit_op_flag_k c = op_keep (current_opcode c).
Proof.
  intros Hop. set (op := current_opcode c) in *.
  unfold buxn_jit_op_flag_2, buxn_jit_op_flag_r, buxn_jit_op_flag_k. fold op.
  assert (In op (map Z.of_nat (seq 0 256))) as Hin.
  { replace op with (Z.of_nat (Z.to_nat op)) by mlia. apply in_map, in_seq. mlia. }
  clearbody op. pose proof (proj1 (forallb_forall flags_agree _) flags_agree_all op Hin) as Hb.
  unfold flags_agree in Hb. rewrite !andb_true_iff, !Bool.eqb_true_iff in Hb. tauto.
Qed.

(** ** The machine of the specification

    [false] is the working stack and [true] the return stack; [vm_pc] is the
    address after the opcode byte.  [vm_step] is [None] for a stack underflow
    or overflow and for the opcodes that leave the straight line. *)

Definition set_stack (flag_r : bool) (l : list Z) (st : bool -> list Z) (r : bool) : list Z :=
  if Bool.eqb r flag_r then l else st r.

Lemma set_stack_eq flag_r l st : set_stack flag_r l st flag_r = l.
Proof. unfold set_stack. by rewrite Bool.eqb_reflx. Qed.

Lemma set_stack_ne flag_r r l st : r <> flag_r -> set_stack flag_r l st r = st r.
Proof. intros Hne. unfold set_stack. by destruct r, flag_r. Qed.

Record vm := mkVm {
  vm_stacks : bool -> list Z;
  vm_ram : Z -> Z;
  vm_pc : Z;
}.

Definition put (flag : bool) (l : list Z) (s : vm) : option vm :=
  if (length l <=? 256)%nat then Some (mkVm (set_stack flag l (vm_stacks s)) (vm_ram s) (vm_pc s))
  else None.

Definition vm_step (n : opname) (op : Z) (s : vm) : option vm :=
  let short := op_short op in
  let flag := op_return op in
  let l := vm_stacks s flag in
  let below rest := if op_keep op then l else rest in
  let load short_addr wrap addr :=
    '(a, rest) ← pop1 short_addr l;
    put flag (to_bytes short (ram_read short wrap (vm_ram s) (addr a)) ++ below rest) s in
  let store short_addr wrap addr :=
    '(a, rest) ← pop1 short_addr l; '(v, rest) ← pop1 short rest;
    Some (mkVm (set_stack flag (below rest) (vm_stacks s)) (ram_write short wrap (addr a) v (vm_ram s)) (vm_pc s)) in
  let relative a := u16 (vm_pc s + s8 a) in
  match n with
  | STH =>
      '(a, rest) ← pop1 short l;
      put (negb flag) (to_bytes short a ++ vm_stacks s (negb flag))
        (mkVm (set_stack flag (below rest) (vm_stacks s)) (vm_ram s) (vm_pc s))
  | LDZ => load false u8 id
  | LDR => load false u16 relative
  | LDA => load true u16 id
  | STZ => store false u8 id
  | STR => store false u16 relative
  | STA => store true u16 id
  | LIT =>
      put flag (to_bytes short (ram_read short u16 (vm_ram s) (vm_pc s)) ++ l)
        (mkVm (vm_stacks s) (vm_ram s) (u16 (vm_pc s + (if short then 2 else 1))))
  | BRK | JMP | JCN | JSR | DEI | DEO | JCI | JMI | JSI => None
  | _ => '(new, rest) ← stack_spec n short l; put flag (new ++ below rest) s
  end.

(** The sizes of the operands an opcode pops, in the order of the pops. *)
Definition op_sizes (n : opname) (short : bool) : list bool :=
  match n with
  | BRK | LIT | JMI | JSI => []
  | INC | POP | DUP | STH | JMP | JSR => [short]
  | LDZ | LDR | DEI | JCI => [false]
  | LDA => [true]
  | JCN => [short; false]
  | STZ | STR | DEO | SFT => [false; short]
  | STA => [true; short]
  | ROT => [short; short; short]
  | _ => [short; short]
  end.

Lemma op_sizes_le n short : (length (op_sizes n short) <= 3)%nat.
Proof. destruct n; simpl; lia. Qed.

