(* ===== verification/MicroOps.v ===== *)
(** * The micro operations of src/jit.c

    Pushing and popping operands with their compile-time knowledge, memory
    access, jumps between blocks, immediates. *)
From S2P Require Import Prelude Lir Hamt Jit StackCache.
Local Open Scope jit_scope.

Definition value_at (l : list buxn_jit_value_t) (i : Z) : buxn_jit_value_t :=
  nth (Z.to_nat (u8 i)) l (mkValue 0 0).

Definition set_value (i : Z) (v : buxn_jit_value_t) (l : list buxn_jit_value_t) :
    list buxn_jit_value_t := <[Z.to_nat (u8 i) := v]> l.

Section WithLayout.
Context `{VmLayout} `{Sljit}.

(** ** Operands and the compile-time stacks *)

(** [stack[( *stack_ptr)++] = v] on the main stack pointer. *)
Definition push_value (flag_r : bool) (v : buxn_jit_value_t) : J unit :=
  if flag_r then
    modify (fun c => set_rsp (fun n => u8 (n + 1)) (set_rst (set_value (rsp c) v) c))
  else
    modify (fun c => set_wsp (fun n => u8 (n + 1)) (set_wst (set_value (wsp c) v) c)).

Definition buxn_jit_push_ex (operand : buxn_jit_operand_t) (flag_r : bool) : J unit :=
  n <-- gets (fun c => match op_index (reg operand) with
                       | Some i => ref_count c i | None => 0 end) ;;
  assert_that (negb (n =? 0)) "Pushing operand with unused register" ;;;
  buxn_jit_stack_cache_push flag_r operand ;;;
  if is_short operand then
    push_value flag_r (mkValue (semantics operand) (Z.shiftr (const_value operand) 8)) ;;;
    push_value flag_r (mkValue (semantics operand) (Z.land (const_value operand) 0xff))
  else
    push_value flag_r (mkValue (semantics operand) (u8 (const_value operand))).

(** [stack[--( *stack_ptr)]] through [ctx->ewsp] or [ctx->ersp]. *)
Definition pop_value (flag_r : bool) : J buxn_jit_value_t :=
  (if flag_r then
     modify (fun c => match ersp c with
       | PMain => set_rsp (fun n => u8 (n - 1)) c
       | PShadow => set_shadow_rsp (fun n => u8 (n - 1)) c end) ;;;
     gets (fun c => value_at (rst c) (match ersp c with PMain => rsp c | PShadow => shadow_rsp c end))
   else
     modify (fun c => match ewsp c with
       | PMain => set_wsp (fun n => u8 (n - 1)) c
       | PShadow => set_shadow_wsp (fun n => u8 (n - 1)) c end) ;;;
     gets (fun c => value_at (wst c) (match ewsp c with PMain => wsp c | PShadow => shadow_wsp c end))).

Definition buxn_jit_pop_ex (flag_2 flag_r : bool) : J buxn_jit_operand_t :=
  sem_const <--
    (if flag_2 then
       lo <-- pop_value flag_r ;;
       hi <-- pop_value flag_r ;;
       ret (if has_bit (v_semantics hi) BUXN_JIT_SEM_CONST
               && has_bit (v_semantics lo) BUXN_JIT_SEM_CONST
            then (BUXN_JIT_SEM_CONST,
                  Z.lor (Z.shiftl (v_const_value hi) 8) (v_const_value lo))
            else (0, 0))
     else
       v <-- pop_value flag_r ;;
       ret (v_semantics v, v_const_value v)) ;;
  r <-- buxn_jit_stack_cache_pop flag_r flag_2 ;;
  ret (mkOperand (fst sem_const) flag_2 (snd sem_const) r).

Definition buxn_jit_push (operand : buxn_jit_operand_t) : J unit :=
  flag_r <-- gets buxn_jit_op_flag_r ;;
  buxn_jit_push_ex operand flag_r.

Definition buxn_jit_pop : J buxn_jit_operand_t :=
  flag_2 <-- gets buxn_jit_op_flag_2 ;;
  flag_r <-- gets buxn_jit_op_flag_r ;;
  buxn_jit_pop_ex flag_2 flag_r.

(** ** Memory *)

Definition buxn_jit_load (r : sreg) (addr : buxn_jit_operand_t) : J buxn_jit_operand_t :=
  flag_2 <-- gets buxn_jit_op_flag_2 ;;
  buxn_jit_set_mem_base off_memory ;;;
  sljit_emit_op1 SLJIT_MOV_U16 BUXN_JIT_MEM_OFFSET (AReg (reg addr)) ;;;
  sljit_emit_op1 SLJIT_MOV_U8 (AReg r) BUXN_JIT_MEM ;;;
  when flag_2
    (sljit_emit_op2 SLJIT_SHL (AReg r) (AReg r) (AImm 8) ;;;
     sljit_emit_op2 SLJIT_ADD BUXN_JIT_MEM_OFFSET BUXN_JIT_MEM_OFFSET (AImm 1) ;;;
     sljit_emit_op2 SLJIT_AND BUXN_JIT_MEM_OFFSET BUXN_JIT_MEM_OFFSET
       (AImm (if is_short addr then 0xffff else 0x00ff)) ;;;
     sljit_emit_op1 SLJIT_MOV_U8 BUXN_JIT_TMP BUXN_JIT_MEM ;;;
     sljit_emit_op2 SLJIT_OR (AReg r) (AReg r) BUXN_JIT_TMP) ;;;
  ret (mkOperand 0 flag_2 0 r).

Definition buxn_jit_store (addr v : buxn_jit_operand_t) : J unit :=
  buxn_jit_set_mem_base off_memory ;;;
  if is_short v then
    sljit_emit_op1 SLJIT_MOV_U16 BUXN_JIT_MEM_OFFSET (AReg (reg addr)) ;;;
    sljit_emit_op2 SLJIT_LSHR BUXN_JIT_TMP (AReg (reg v)) (AImm 8) ;;;
    sljit_emit_op1 SLJIT_MOV_U8 BUXN_JIT_MEM BUXN_JIT_TMP ;;;
    sljit_emit_op2 SLJIT_ADD BUXN_JIT_MEM_OFFSET BUXN_JIT_MEM_OFFSET (AImm 1) ;;;
    sljit_emit_op2 SLJIT_AND BUXN_JIT_MEM_OFFSET BUXN_JIT_MEM_OFFSET
      (AImm (if is_short addr then 0xffff else 0x00ff)) ;;;
    sljit_emit_op1 SLJIT_MOV_U8 BUXN_JIT_MEM (AReg (reg v))
  else
    sljit_emit_op1 SLJIT_MOV_U16 BUXN_JIT_MEM_OFFSET (AReg (reg addr)) ;;;
    sljit_emit_op1 SLJIT_MOV_U8 BUXN_JIT_MEM (AReg (reg v)).

(** ** Saving and reloading the stack pointers *)

Definition buxn_jit_load_state : J unit :=
  sljit_emit_op1 SLJIT_MOV_U8 (AReg BUXN_JIT_S_WSP) (AMem1 BUXN_JIT_S_VM off_wsp) ;;;
  sljit_emit_op1 SLJIT_MOV_U8 (AReg BUXN_JIT_S_RSP) (AMem1 BUXN_JIT_S_VM off_rsp).

Definition buxn_jit_save_state : J unit :=
  sljit_emit_op1 SLJIT_MOV_U8 (AMem1 BUXN_JIT_S_VM off_wsp) (AReg BUXN_JIT_S_WSP) ;;;
  sljit_emit_op1 SLJIT_MOV_U8 (AMem1 BUXN_JIT_S_VM off_rsp) (AReg BUXN_JIT_S_RSP).

(** ** Jumps *)

(** Queue the patching of jump [j] to the block of address [target]. *)
Definition queue_link (t : buxn_jit_link_type_t) (target : Z) (j : nat) : J unit :=
  on_jit buxn_jit_alloc_entry ;;;
  block <-- on_jit (fun s => buxn_jit_queue_block s target) ;;
  compiler <-- gets compiler_ptr ;;
  modify (set_jit (set_link_queue
    (buxn_jit_enqueue (mkEntry t block (default 0%nat compiler) (UJump j))))).

Definition buxn_jit_jump_abs (target : buxn_jit_operand_t) (return_addr : Z) : J unit :=
  exit <--
    (if has_bit (semantics target) BUXN_JIT_SEM_CONST then
       if return_addr =? 0 then
         jump <--
           (if has_bit (semantics target) BUXN_JIT_SEM_IMM_JMP
            then sljit_emit_jump true None
            else sljit_emit_cmp SLJIT_EQUAL true (AReg (reg target)) (AImm (const_value target))) ;;
         set_label_here jump ;;;
         queue_link BUXN_JIT_LINK_TO_BODY (const_value target) jump ;;;
         ret None
       else
         skip_call <--
           (if has_bit (semantics target) BUXN_JIT_SEM_IMM_JMP then ret None
            else
              j <-- sljit_emit_cmp SLJIT_NOT_EQUAL false (AReg (reg target)) (AImm (const_value target)) ;;
              ret (Some j)) ;;
         modify (set_mem_base (fun _ => 0)) ;;;
         call <-- sljit_emit_call true ;;
         fallback <-- gets call_fallback ;;
         set_label call fallback ;;;
         exit <-- sljit_emit_cmp SLJIT_EQUAL false (AReg (SR 0)) (AImm return_addr) ;;
         sljit_emit_return SLJIT_MOV32 (AReg (SR 0)) ;;;
         (match skip_call with Some j => set_label_here j | None => ret tt end) ;;;
         queue_link BUXN_JIT_LINK_TO_HEAD (const_value target) call ;;;
         ret (Some exit)
     else ret None) ;;
  sljit_emit_return SLJIT_MOV32 (AReg (reg target)) ;;;
  match exit with Some e => set_label_here e | None => ret tt end.

(** [buxn_jit_jump]; [next] is [buxn_jit_next_opcode], with which it is
    mutually recursive. *)
Definition buxn_jit_jump (next : J unit) (target : buxn_jit_operand_t) (return_addr : Z) : J unit :=
  buxn_jit_clear_stack_caches ;;;
  if is_short target then buxn_jit_jump_abs target return_addr
  else if has_bit (semantics target) BUXN_JIT_SEM_BOOLEAN then
    compiler <-- gets compiler_ptr ;;
    skip_next_opcode <-- sljit_emit_cmp SLJIT_NOT_EQUAL false (AReg (reg target)) (AImm 0) ;;
    next ;;;
    modify (set_compiler_ptr (fun _ => compiler)) ;;;
    buxn_jit_clear_stack_caches ;;;
    set_label_here skip_next_opcode
  else
    pc <-- gets pc ;;
    sljit_emit_op1 SLJIT_MOV_S8 (AReg (reg target)) (AReg (reg target)) ;;;
    sljit_emit_op2 SLJIT_ADD (AReg (reg target)) (AReg (reg target)) (AImm pc) ;;;
    buxn_jit_jump_abs
      (mkOperand (semantics target) (is_short target)
         (u16 (pc + s8 (const_value target))) (reg target)) return_addr.

Definition buxn_jit_conditional_jump (next : J unit)
    (condition target : buxn_jit_operand_t) : J unit :=
  buxn_jit_clear_stack_caches ;;;
  emit_lir (LOp2u SLJIT_AND SLJIT_SET_Z (AReg (reg condition)) (AImm 0xff)) ;;;
  skip_jump <-- sljit_emit_jump false (Some SLJIT_EQUAL) ;;
  buxn_jit_jump next target 0 ;;;
  set_label_here skip_jump.

Definition buxn_jit_finalize : J unit := modify (set_compiler_ptr (fun _ => None)).

(** ** Immediates *)

Definition read_memory (c : buxn_jit_ctx_t) (a : Z) : Z := vm_memory (jit c) (u16 a).

Definition advance_pc (n : Z) : J unit := modify (set_pc (fun p => u16 (p + n))).

Definition buxn_jit_immediate (short : bool) : J buxn_jit_operand_t :=
  r <-- buxn_jit_alloc_reg ;;
  pc <-- gets pc ;;
  if short then
    hi <-- gets (fun c => read_memory c (pc + 0)) ;;
    lo <-- gets (fun c => read_memory c (pc + 1)) ;;
    buxn_jit_set_mem_base off_memory ;;;
    (if pc <? 0xffff then
       sljit_emit_op1 SLJIT_MOV_U16 BUXN_JIT_MEM_OFFSET (AImm pc) ;;;
       emit_lir (LMemU16 r BUXN_JIT_MEM) ;;;
       when little_endian (sljit_emit_op1 SLJIT_REV_U16 (AReg r) (AReg r))
     else
       sljit_emit_op1 SLJIT_MOV_U16 BUXN_JIT_MEM_OFFSET (AImm pc) ;;;
       sljit_emit_op1 SLJIT_MOV_U8 (AReg r) BUXN_JIT_MEM ;;;
       sljit_emit_op2 SLJIT_SHL (AReg r) (AReg r) (AImm 8) ;;;
       sljit_emit_op1 SLJIT_MOV_U16 BUXN_JIT_MEM_OFFSET (AImm (pc + 1)) ;;;
       sljit_emit_op1 SLJIT_MOV_U8 BUXN_JIT_TMP BUXN_JIT_MEM ;;;
       sljit_emit_op2 SLJIT_OR (AReg r) (AReg r) BUXN_JIT_TMP) ;;;
    advance_pc 2 ;;;
    ret (mkOperand BUXN_JIT_SEM_CONST short (Z.lor (Z.shiftl hi 8) lo) r)
  else
    v <-- gets (fun c => read_memory c pc) ;;
    buxn_jit_set_mem_base off_memory ;;;
    sljit_emit_op1 SLJIT_MOV_U16 BUXN_JIT_MEM_OFFSET (AImm pc) ;;;
    sljit_emit_op1 SLJIT_MOV_U8 (AReg r) BUXN_JIT_MEM ;;;
    advance_pc 1 ;;;
    ret (mkOperand BUXN_JIT_SEM_CONST short v r).

Definition buxn_jit_immediate_jump_target : J buxn_jit_operand_t :=
  pc0 <-- gets pc ;;
  hi <-- gets (fun c => read_memory c (pc0 + 0)) ;;
  lo <-- gets (fun c => read_memory c (pc0 + 1)) ;;
  advance_pc 2 ;;;
  pc <-- gets pc ;;
  let target := u16 (Z.lor (Z.shiftl hi 8) lo + pc) in
  sljit_emit_op1 SLJIT_MOV_U16 BUXN_JIT_TMP (AImm target) ;;;
  ret (mkOperand (Z.lor BUXN_JIT_SEM_CONST BUXN_JIT_SEM_IMM_JMP) true target BUXN_JIT_R_TMP).

Definition buxn_jit_wrap_around (operand : buxn_jit_operand_t) : J unit :=
  flag_2 <-- gets buxn_jit_op_flag_2 ;;
  sljit_emit_op2 SLJIT_AND (AReg (reg operand)) (AReg (reg operand))
    (AImm (if flag_2 then 0xffff else 0x00ff)).
End WithLayout.
