(* ===== verification/Opcodes.v ===== *)
(** * The opcode handlers of src/jit.c *)
From S2P Require Import Prelude Lir Hamt Jit StackCache MicroOps.
Local Open Scope jit_scope.

(** The constant-folding flag of a binary result. *)
Definition both_const (a b : buxn_jit_operand_t) : Z :=
  if has_bit (semantics a) BUXN_JIT_SEM_CONST && has_bit (semantics b) BUXN_JIT_SEM_CONST
  then BUXN_JIT_SEM_CONST else 0.

Section WithLayout.
Context `{VmLayout} `{Sljit}.

Definition buxn_jit_BRK : J unit :=
  buxn_jit_clear_stack_caches ;;;
  sljit_emit_return SLJIT_MOV32 (AImm 0x10000) ;;;
  buxn_jit_finalize.

(** ** Stack operations *)

Definition buxn_jit_INC : J unit :=
  o <-- buxn_jit_pop ;;
  let sem := Z.land (semantics o) (Z.lnot BUXN_JIT_SEM_BOOLEAN) in
  let const := if has_bit sem BUXN_JIT_SEM_CONST then u16 (const_value o + 1) else const_value o in
  let operand := mkOperand sem (is_short o) const (reg o) in
  sljit_emit_op2 SLJIT_ADD (AReg (reg operand)) (AReg (reg operand)) (AImm 1) ;;;
  buxn_jit_wrap_around operand ;;;
  buxn_jit_push operand.

Definition buxn_jit_POP : J unit :=
  flag_k <-- gets buxn_jit_op_flag_k ;;
  if flag_k then ret tt
  else
    flag_2 <-- gets buxn_jit_op_flag_2 ;;
    flag_r <-- gets buxn_jit_op_flag_r ;;
    let size := if flag_2 then 2 else 1 in
    if flag_r then
      modify (set_rsp (fun n => u8 (n - size))) ;;;
      buxn_jit_stack_cache_discard true flag_2
    else
      modify (set_wsp (fun n => u8 (n - size))) ;;;
      buxn_jit_stack_cache_discard false flag_2.

Definition buxn_jit_NIP : J unit :=
  b <-- buxn_jit_pop ;;
  buxn_jit_POP ;;;
  buxn_jit_push b.

Definition buxn_jit_SWP : J unit :=
  b <-- buxn_jit_pop ;;
  a <-- buxn_jit_pop ;;
  buxn_jit_push b ;;;
  buxn_jit_push a.

Definition buxn_jit_ROT : J unit :=
  c <-- buxn_jit_pop ;;
  b <-- buxn_jit_pop ;;
  a <-- buxn_jit_pop ;;
  buxn_jit_push b ;;;
  buxn_jit_push c ;;;
  buxn_jit_push a.

Definition buxn_jit_DUP : J unit :=
  a <-- buxn_jit_pop ;;
  buxn_jit_push a ;;;
  buxn_jit_push a.

Definition buxn_jit_OVR : J unit :=
  b <-- buxn_jit_pop ;;
  a <-- buxn_jit_pop ;;
  buxn_jit_push a ;;;
  buxn_jit_push b ;;;
  buxn_jit_push a.

(** ** Comparisons: [EQU], [NEQ], [GTH] and [LTH] differ in the flag only *)

Definition compare_op (f : setflag) (cc : cond) : J unit :=
  b <-- buxn_jit_pop ;;
  a <-- buxn_jit_pop ;;
  r <-- buxn_jit_alloc_reg ;;
  emit_lir (LOp2u SLJIT_SUB f (AReg (reg a)) (AReg (reg b))) ;;;
  emit_lir (LOpFlags SLJIT_MOV (AReg r) cc) ;;;
  buxn_jit_push (mkOperand BUXN_JIT_SEM_BOOLEAN false 0 r).

Definition buxn_jit_EQU : J unit := compare_op SLJIT_SET_Z SLJIT_EQUAL.
Definition buxn_jit_NEQ : J unit := compare_op SLJIT_SET_Z SLJIT_NOT_EQUAL.
Definition buxn_jit_GTH : J unit := compare_op SLJIT_SET_GREATER SLJIT_GREATER.
Definition buxn_jit_LTH : J unit := compare_op SLJIT_SET_LESS SLJIT_LESS.

(** ** Jumps and calls *)

Definition buxn_jit_JMP (next : J unit) : J unit :=
  target <-- buxn_jit_pop ;;
  buxn_jit_jump next target 0 ;;;
  when (negb (has_bit (semantics target) BUXN_JIT_SEM_BOOLEAN)) buxn_jit_finalize.

Definition buxn_jit_JCN (next : J unit) : J unit :=
  target <-- buxn_jit_pop ;;
  flag_r <-- gets buxn_jit_op_flag_r ;;
  condition <-- buxn_jit_pop_ex false flag_r ;;
  buxn_jit_conditional_jump next condition target.

(** Push the return address on the stack selected by [flag_r]. *)
Definition push_return_addr (flag_r : bool) : J unit :=
  r <-- buxn_jit_alloc_reg ;;
  pc <-- gets pc ;;
  sljit_emit_op1 SLJIT_MOV_U16 (AReg r) (AImm pc) ;;;
  buxn_jit_push_ex (mkOperand 0 true 0 r) flag_r.

Definition buxn_jit_JSR (next : J unit) : J unit :=
  target <-- buxn_jit_pop ;;
  flag_r <-- gets buxn_jit_op_flag_r ;;
  push_return_addr (negb flag_r) ;;;
  return_addr <-- gets pc ;;
  buxn_jit_jump next target return_addr.

Definition buxn_jit_STH : J unit :=
  a <-- buxn_jit_pop ;;
  flag_r <-- gets buxn_jit_op_flag_r ;;
  buxn_jit_push_ex a (negb flag_r).

(** ** Memory *)

Definition buxn_jit_LDZ : J unit :=
  flag_r <-- gets buxn_jit_op_flag_r ;;
  addr <-- buxn_jit_pop_ex false flag_r ;;
  r <-- buxn_jit_alloc_reg ;;
  v <-- buxn_jit_load r addr ;;
  buxn_jit_push v.

Definition buxn_jit_STZ : J unit :=
  flag_r <-- gets buxn_jit_op_flag_r ;;
  addr <-- buxn_jit_pop_ex false flag_r ;;
  v <-- buxn_jit_pop ;;
  buxn_jit_store addr v.

(** [addr.reg = pc + (int8_t)addr.reg; addr.is_short = true] *)
Definition relative_addr (addr : buxn_jit_operand_t) : J buxn_jit_operand_t :=
  pc <-- gets pc ;;
  sljit_emit_op1 SLJIT_MOV_S8 (AReg (reg addr)) (AReg (reg addr)) ;;;
  sljit_emit_op2 SLJIT_ADD (AReg (reg addr)) (AReg (reg addr)) (AImm pc) ;;;
  ret (set_is_short true addr).

Definition buxn_jit_LDR : J unit :=
  flag_r <-- gets buxn_jit_op_flag_r ;;
  addr <-- buxn_jit_pop_ex false flag_r ;;
  addr <-- relative_addr addr ;;
  r <-- buxn_jit_alloc_reg ;;
  v <-- buxn_jit_load r addr ;;
  buxn_jit_push v.

Definition buxn_jit_STR : J unit :=
  flag_r <-- gets buxn_jit_op_flag_r ;;
  addr <-- buxn_jit_pop_ex false flag_r ;;
  v <-- buxn_jit_pop ;;
  addr <-- relative_addr addr ;;
  buxn_jit_store addr v.

Definition buxn_jit_LDA : J unit :=
  flag_r <-- gets buxn_jit_op_flag_r ;;
  addr <-- buxn_jit_pop_ex true flag_r ;;
  r <-- buxn_jit_alloc_reg ;;
  v <-- buxn_jit_load r addr ;;
  buxn_jit_push v.

Definition buxn_jit_STA : J unit :=
  flag_r <-- gets buxn_jit_op_flag_r ;;
  addr <-- buxn_jit_pop_ex true flag_r ;;
  v <-- buxn_jit_pop ;;
  buxn_jit_store addr v.

(** ** Devices *)

(** The part [DEI] and [DEO] share: everything in memory, then the call. *)
Definition device_call (addr : buxn_jit_operand_t) (f : callee) : J unit :=
  buxn_jit_clear_stack_caches ;;;
  buxn_jit_save_state ;;;
  modify (set_mem_base (fun _ => 0)) ;;;
  sljit_emit_op1 SLJIT_MOV_P (AReg (SR 0)) (AReg BUXN_JIT_S_VM) ;;;
  sljit_emit_op1 SLJIT_MOV (AReg (SR 1)) (AReg (reg addr)) ;;;
  emit_lir (LICall f).

Definition buxn_jit_DEI : J unit :=
  flag_r <-- gets buxn_jit_op_flag_r ;;
  addr <-- buxn_jit_pop_ex false flag_r ;;
  flag_2 <-- gets buxn_jit_op_flag_2 ;;
  r <-- buxn_jit_alloc_reg ;;
  device_call addr (if flag_2 then CDei2 else CDei) ;;;
  sljit_emit_op1 SLJIT_MOV (AReg r) (AReg (SR 0)) ;;;
  buxn_jit_load_state ;;;
  buxn_jit_push (mkOperand 0 flag_2 0 r).

(** The operand, stored in the device page before the device is called. *)
Definition store_device_page (addr v : buxn_jit_operand_t) : J unit :=
  buxn_jit_set_mem_base off_device ;;;
  if is_short v then
    sljit_emit_op1 SLJIT_MOV_U8 BUXN_JIT_MEM_OFFSET (AReg (reg addr)) ;;;
    sljit_emit_op2 SLJIT_LSHR BUXN_JIT_TMP (AReg (reg v)) (AImm 8) ;;;
    sljit_emit_op1 SLJIT_MOV_U8 BUXN_JIT_MEM BUXN_JIT_TMP ;;;
    sljit_emit_op2 SLJIT_ADD BUXN_JIT_MEM_OFFSET BUXN_JIT_MEM_OFFSET (AImm 1) ;;;
    sljit_emit_op2 SLJIT_AND BUXN_JIT_MEM_OFFSET BUXN_JIT_MEM_OFFSET (AImm 0xff) ;;;
    sljit_emit_op1 SLJIT_MOV_U8 BUXN_JIT_MEM (AReg (reg v))
  else
    sljit_emit_op1 SLJIT_MOV_U8 BUXN_JIT_MEM_OFFSET (AReg (reg addr)) ;;;
    sljit_emit_op1 SLJIT_MOV_U8 BUXN_JIT_MEM (AReg (reg v)).

Definition buxn_jit_DEO : J unit :=
  flag_r <-- gets buxn_jit_op_flag_r ;;
  addr <-- buxn_jit_pop_ex false flag_r ;;
  v <-- buxn_jit_pop ;;
  store_device_page addr v ;;;
  device_call addr (if is_short v then CDeo2 else CDeo) ;;;
  buxn_jit_load_state.

(** ** Arithmetic *)

(** [ADD], [SUB], [MUL] (followed by the wrap-around) and [AND], [ORA],
    [EOR] (not): [fold] computes the compile-time constant. *)
Definition arith_op (o : op2) (fold : Z -> Z -> Z) (wraps : bool) : J unit :=
  b <-- buxn_jit_pop ;;
  a <-- buxn_jit_pop ;;
  r <-- buxn_jit_alloc_reg ;;
  let c := mkOperand (both_const a b) (is_short b)
             (u16 (fold (const_value a) (const_value b))) r in
  sljit_emit_op2 o (AReg r) (AReg (reg a)) (AReg (reg b)) ;;;
  when wraps (buxn_jit_wrap_around c) ;;;
  buxn_jit_push c.

Definition buxn_jit_ADD : J unit := arith_op SLJIT_ADD Z.add true.
Definition buxn_jit_SUB : J unit := arith_op SLJIT_SUB Z.sub true.
Definition buxn_jit_MUL : J unit := arith_op SLJIT_MUL Z.mul true.
Definition buxn_jit_AND : J unit := arith_op SLJIT_AND Z.land false.
Definition buxn_jit_ORA : J unit := arith_op SLJIT_OR Z.lor false.
Definition buxn_jit_EOR : J unit := arith_op SLJIT_XOR Z.lxor false.

Definition buxn_jit_DIV : J unit :=
  b <-- buxn_jit_pop ;;
  a <-- buxn_jit_pop ;;
  r <-- buxn_jit_alloc_reg ;;
  let sem := both_const a b in
  let const := if has_bit sem BUXN_JIT_SEM_CONST && negb (const_value b =? 0)
               then const_value a / const_value b else 0 in
  set_zero <-- sljit_emit_cmp SLJIT_EQUAL false (AReg (reg b)) (AImm 0) ;;
  sljit_emit_op1 SLJIT_MOV BUXN_JIT_TMP (AReg (SR 0)) ;;;
  sljit_emit_op1 SLJIT_MOV (AReg (SR 0)) (AReg (reg a)) ;;;
  sljit_emit_op1 SLJIT_MOV (AReg (SR 1)) (AReg (reg b)) ;;;
  emit_lir (LOp0 SLJIT_DIV_UW) ;;;
  sljit_emit_op1 SLJIT_MOV (AReg r) (AReg (SR 0)) ;;;
  sljit_emit_op1 SLJIT_MOV (AReg (SR 0)) BUXN_JIT_TMP ;;;
  end_ <-- sljit_emit_jump false None ;;
  set_label_here set_zero ;;;
  sljit_emit_op1 SLJIT_MOV (AReg r) (AImm 0) ;;;
  set_label_here end_ ;;;
  buxn_jit_push (mkOperand sem (is_short b) const r).

Definition buxn_jit_SFT : J unit :=
  flag_r <-- gets buxn_jit_op_flag_r ;;
  b <-- buxn_jit_pop_ex false flag_r ;;
  a <-- buxn_jit_pop ;;
  r <-- buxn_jit_alloc_reg ;;
  let c := mkOperand (both_const a b) (is_short a)
    (u16 (Z.shiftl (Z.shiftr (const_value a) (Z.land (const_value b) 0x0f))
                   (Z.shiftr (Z.land (const_value b) 0xf0) 4))) r in
  sljit_emit_op2 SLJIT_AND BUXN_JIT_TMP (AReg (reg b)) (AImm 0x0f) ;;;
  sljit_emit_op2 SLJIT_LSHR (AReg r) (AReg (reg a)) BUXN_JIT_TMP ;;;
  sljit_emit_op2 SLJIT_LSHR BUXN_JIT_TMP (AReg (reg b)) (AImm 4) ;;;
  sljit_emit_op2 SLJIT_SHL (AReg r) (AReg r) BUXN_JIT_TMP ;;;
  buxn_jit_wrap_around c ;;;
  buxn_jit_push c.

(** ** Immediate opcodes *)

Definition buxn_jit_JCI (next : J unit) : J unit :=
  condition <-- buxn_jit_pop_ex false false ;;
  target <-- buxn_jit_immediate_jump_target ;;
  buxn_jit_conditional_jump next condition target.

Definition buxn_jit_JMI (next : J unit) : J unit :=
  target <-- buxn_jit_immediate_jump_target ;;
  buxn_jit_jump next target 0 ;;;
  buxn_jit_finalize.

Definition buxn_jit_JSI (next : J unit) : J unit :=
  target <-- buxn_jit_immediate_jump_target ;;
  push_return_addr true ;;;
  return_addr <-- gets pc ;;
  buxn_jit_jump next target return_addr.

Definition buxn_jit_LIT : J unit :=
  flag_2 <-- gets buxn_jit_op_flag_2 ;;
  lit <-- buxn_jit_immediate flag_2 ;;
  buxn_jit_push lit.

(** [BUXN_OPCODE_DISPATCH(BUXN_JIT_DISPATCH)] *)
Definition dispatch (next : J unit) (n : opname) : J unit :=
  match n with
  | BRK => buxn_jit_BRK | INC => buxn_jit_INC | POP => buxn_jit_POP | NIP => buxn_jit_NIP
  | SWP => buxn_jit_SWP | ROT => buxn_jit_ROT | DUP => buxn_jit_DUP | OVR => buxn_jit_OVR
  | EQU => buxn_jit_EQU | NEQ => buxn_jit_NEQ | GTH => buxn_jit_GTH | LTH => buxn_jit_LTH
  | JMP => buxn_jit_JMP next | JCN => buxn_jit_JCN next | JSR => buxn_jit_JSR next
  | STH => buxn_jit_STH
  | LDZ => buxn_jit_LDZ | STZ => buxn_jit_STZ | LDR => buxn_jit_LDR | STR => buxn_jit_STR
  | LDA => buxn_jit_LDA | STA => buxn_jit_STA | DEI => buxn_jit_DEI | DEO => buxn_jit_DEO
  | ADD => buxn_jit_ADD | SUB => buxn_jit_SUB | MUL => buxn_jit_MUL | DIV => buxn_jit_DIV
  | AND => buxn_jit_AND | ORA => buxn_jit_ORA | EOR => buxn_jit_EOR | SFT => buxn_jit_SFT
  | JCI => buxn_jit_JCI next | JMI => buxn_jit_JMI next | JSI => buxn_jit_JSI next
  | LIT => buxn_jit_LIT
  end.
End WithLayout.
