(* ===== verification/Compile.v ===== *)
(** * Compiling blocks: [buxn_jit_next_opcode], [buxn_jit_compile], [buxn_jit]
    and [buxn_jit_execute] of src/jit.c *)
From S2P Require Import Prelude Lir Hamt Jit StackCache MicroOps Opcodes.
Local Open Scope jit_scope.

(** What [sljit_generate_code] gives for a finished compiler: the entry point
    (0 is NULL), the address of each label, the executable offset, the size. *)
Record generated := mkGenerated {
  gen_fn : Z;
  gen_label_addr : nat -> Z;
  gen_executable_offset : Z;
  gen_code_size : Z;
}.

Class CodeGen := sljit_generate_code : compiler -> generated.

(** Running generated code and the interpreter of buxn; both may change the
    virtual machine, and the code may call back into the JIT. *)
Class Runtime := {
  run_fn : Z -> buxn_jit_t -> Z * buxn_jit_t;
  buxn_vm_execute : Z -> buxn_jit_t -> buxn_jit_t;
}.

Section WithInterfaces.
Context `{VmLayout} `{Sljit} `{BuxnVm}.

(** ** One opcode *)

(** [buxn_jit_hook_mark_addr]: one label per hook context. *)
Definition buxn_jit_hook_mark_addr : J nat := sljit_emit_label.

(** The [jit_opcode] callback. *)
Definition call_jit_opcode : J unit :=
  h <-- gets (fun c => hook (jit c)) ;;
  match h with
  | None => ret tt
  | Some h =>
      match jit_opcode h with
      | None => ret tt
      | Some marks =>
          entry <-- gets entry_pc ;;
          pc <-- gets pc ;;
          op <-- gets current_opcode ;;
          mark <-- (if marks entry (u16 (pc - 1)) op
                    then l <-- buxn_jit_hook_mark_addr ;; ret (Some l)
                    else ret None) ;;
          modify (set_jit (set_hook_log (fun l => l ++ [HOpcode entry (u16 (pc - 1)) op mark])))
      end
  end.

(** The set-up of [wsp_reg], [rsp_reg], [ewsp] and [ersp] before dispatch. *)
Definition shadow_stack : J unit :=
  flag_k <-- gets buxn_jit_op_flag_k ;;
  if flag_k then
    modify (fun c => set_shadow_rsp (fun _ => rsp c) (set_shadow_wsp (fun _ => wsp c) c)) ;;;
    modify (set_ewsp (fun _ => PShadow)) ;;;
    modify (set_ersp (fun _ => PShadow)) ;;;
    swsp_reg <-- buxn_jit_alloc_reg ;;
    srsp_reg <-- buxn_jit_alloc_reg ;;
    sljit_emit_op1 SLJIT_MOV_U8 (AReg swsp_reg) (AReg BUXN_JIT_S_WSP) ;;;
    sljit_emit_op1 SLJIT_MOV_U8 (AReg srsp_reg) (AReg BUXN_JIT_S_RSP) ;;;
    modify (set_wsp_reg (fun _ => swsp_reg)) ;;;
    modify (set_rsp_reg (fun _ => srsp_reg)) ;;;
    flag_r <-- gets buxn_jit_op_flag_r ;;
    buxn_jit_stack_cache_flush flag_r
  else
    modify (set_ewsp (fun _ => PMain)) ;;;
    modify (set_ersp (fun _ => PMain)) ;;;
    modify (set_wsp_reg (fun _ => BUXN_JIT_S_WSP)) ;;;
    modify (set_rsp_reg (fun _ => BUXN_JIT_S_RSP)).

(** Everything of [buxn_jit_next_opcode] before the dispatch, when the pc is
    outside of the zero page. *)
Definition fetch_opcode : J unit :=
  modify (set_reg_ref_counts (fun _ => replicate NUM_OP_REGS 0)) ;;;
  buxn_jit_stack_cache_retain false ;;;
  buxn_jit_stack_cache_retain true ;;;
  modify (fun c => set_current_opcode (fun _ => read_memory c (pc c)) c) ;;;
  advance_pc 1 ;;;
  call_jit_opcode ;;;
  shadow_stack.

(** The case [ctx->pc < 256]. *)
Definition zero_page_exit : J unit :=
  buxn_jit_clear_stack_caches ;;;
  pc <-- gets pc ;;
  sljit_emit_return SLJIT_MOV32 (AImm pc) ;;;
  buxn_jit_finalize.

Definition opcode_step (next : J unit) : J unit :=
  pc <-- gets pc ;;
  if pc <? 256 then zero_page_exit
  else
    fetch_opcode ;;;
    op <-- gets current_opcode ;;
    dispatch next (opcode_name op).

(** The fuel bounds the nesting of boolean jumps inside one another. *)
Fixpoint buxn_jit_next_opcode (fuel : nat) : J unit :=
  match fuel with
  | O => out_of_fuel
  | S fuel => opcode_step (buxn_jit_next_opcode fuel)
  end.

(** [while (ctx.compiler != NULL) { buxn_jit_next_opcode(&ctx); }] *)
Fixpoint compile_loop (fuel : nat) : J unit :=
  k <-- gets compiler_ptr ;;
  match k with
  | None => ret tt
  | Some _ =>
      match fuel with
      | O => out_of_fuel
      | S fuel' => buxn_jit_next_opcode fuel ;;; compile_loop fuel'
      end
  end.

(** Every opcode advances the pc, so a block has at most 65536 of them. *)
Definition block_fuel : nat := Z.to_nat 65537.

(** ** One block *)

Definition prologue : J unit :=
  emit_lir (LEnter false) ;;;
  buxn_jit_load_state ;;;
  call <-- sljit_emit_call false ;;
  lbl_trampoline <-- sljit_emit_label ;;
  jmp_brk <-- sljit_emit_cmp SLJIT_GREATER false (AReg (SR 0)) (AImm 0xffff) ;;
  jmp_zero_page <-- sljit_emit_cmp SLJIT_LESS false (AReg (SR 0)) (AImm BUXN_RESET_VECTOR) ;;
  sljit_emit_op1 SLJIT_MOV32 (AReg (SR 1)) (AReg (SR 0)) ;;;
  sljit_emit_op1 SLJIT_MOV_P (AReg (SR 0)) (AImm jit_ptr) ;;;
  emit_lir (LICall CTranslateJumpAddr) ;;;
  emit_lir (LICall (CIndirect (SR 0))) ;;;
  loop <-- sljit_emit_jump false None ;;
  set_label loop lbl_trampoline ;;;
  lbl_return <-- sljit_emit_label ;;
  set_label jmp_brk lbl_return ;;;
  set_label jmp_zero_page lbl_return ;;;
  buxn_jit_save_state ;;;
  sljit_emit_return SLJIT_MOV32 (AReg (SR 0)) ;;;
  fallback <-- sljit_emit_label ;;
  modify (set_call_fallback (fun _ => fallback)) ;;;
  emit_lir (LEnter true) ;;;
  sljit_emit_return SLJIT_MOV32 (AImm 0x10000) ;;;
  head <-- sljit_emit_label ;;
  modify (set_head_label (fun _ => head)) ;;;
  set_label call head ;;;
  emit_lir (LEnter true) ;;;
  body <-- sljit_emit_label ;;
  modify (set_body_label (fun _ => body)).

Definition log_hook (enabled : buxn_jit_hook_t -> bool) (e : Z -> hook_event) : J unit :=
  h <-- gets (fun c => hook (jit c)) ;;
  entry <-- gets entry_pc ;;
  match h with
  | Some h => when (enabled h) (modify (set_jit (set_hook_log (fun l => l ++ [e entry]))))
  | None => ret tt
  end.

(** [buxn_jit_ctx_t ctx = { ... }] of [buxn_jit_compile]. *)
Definition initial_ctx (s : buxn_jit_t) (block compiler_id : nat) (k : compiler) (pc : Z) :
    buxn_jit_ctx_t :=
  mkCtx s block (Some compiler_id) k 0 0 0 pc pc 0 0
    (replicate 256 (mkValue 0 0)) (replicate 256 (mkValue 0 0)) 0 0 0 0 PMain PMain
    (SR 0) (SR 0) (replicate NUM_OP_REGS 0) zero_cache zero_cache.

Context `{CodeGen}.

Definition set_block (b : nat) (f : buxn_jit_block_t -> buxn_jit_block_t) :
    buxn_jit_t -> buxn_jit_t := set_block_store (alter f b).

(** The end of [buxn_jit_compile]: generate the code, record its addresses. *)
Definition finish_block (block compiler_id : nat) : J unit :=
  k <-- gets comp ;;
  head <-- gets head_label ;;
  body <-- gets body_label ;;
  let g := sljit_generate_code k in
  modify (set_jit (set_compilers (fun l => <[compiler_id := Some k]> l))) ;;;
  modify (set_jit (set_block block (fun b =>
    mkBlock (key b) (gen_fn g) (gen_label_addr g head) (gen_label_addr g body)
      (gen_executable_offset g)))) ;;;
  modify (set_jit (set_stats (fun t =>
    mkStats (code_size t + gen_code_size g) (num_blocks t) (num_bounces t)))) ;;;
  log_hook end_block (fun entry => HEnd entry (gen_fn g) (gen_code_size g)).

Definition buxn_jit_compile (entry : buxn_jit_entry_t) (s : buxn_jit_t) : res buxn_jit_t :=
  match e_union entry, compilers s !! e_compiler entry with
  | UPc pc, Some (Some k) =>
      let body : J unit :=
        prologue ;;;
        log_hook begin_block HBegin ;;;
        compile_loop block_fuel ;;;
        finish_block (e_block entry) (e_compiler entry) in
      match body (initial_ctx s (e_block entry) (e_compiler entry) k pc) with
      | Ok (_, c) => Ok (jit c)
      | AssertFailed e => AssertFailed e
      | OutOfFuel => OutOfFuel
      end
  | _, _ => AssertFailed "stale compile entry"
  end.

(** ** The three queues *)

Definition recycle (entry : buxn_jit_entry_t) : buxn_jit_t -> buxn_jit_t :=
  set_entry_pool (buxn_jit_enqueue entry).

Fixpoint compile_all (fuel : nat) (s : buxn_jit_t) : res buxn_jit_t :=
  match buxn_jit_dequeue (compile_queue s) with
  | (None, _) => Ok s
  | (Some entry, queue) =>
      match fuel with
      | O => OutOfFuel
      | S fuel =>
          match buxn_jit_compile entry (set_compile_queue (fun _ => queue) s) with
          | Ok s => compile_all fuel (recycle entry s)
          | AssertFailed e => AssertFailed e
          | OutOfFuel => OutOfFuel
          end
      end
  end.

Definition block_at (s : buxn_jit_t) (b : nat) : buxn_jit_block_t :=
  nth b (block_store s) (mkBlock 0 0 0 0 0).

(** One iteration of the link loop. *)
Definition link_one (entry : buxn_jit_entry_t) (s : buxn_jit_t) : buxn_jit_t :=
  let b := block_at s (e_block entry) in
  let target := match link_type entry with
                | BUXN_JIT_LINK_TO_HEAD => head_addr b
                | BUXN_JIT_LINK_TO_BODY => body_addr b
                end in
  let s := match e_union entry with
           | UJump j =>
               if negb (target =? 0) then
                 set_patches (fun l => l ++ [mkPatch (e_compiler entry) j target
                                               (executable_offset b)]) s
               else s
           | UPc _ => s
           end in
  recycle entry s.

Fixpoint link_all (queue : list buxn_jit_entry_t) (s : buxn_jit_t) : buxn_jit_t :=
  match queue with
  | [] => set_link_queue (fun _ => []) s
  | entry :: queue => link_all queue (link_one entry s)
  end.

Fixpoint cleanup_all (queue : list buxn_jit_entry_t) (s : buxn_jit_t) : buxn_jit_t :=
  match queue with
  | [] => set_cleanup_queue (fun _ => []) s
  | entry :: queue =>
      cleanup_all queue
        (recycle entry (set_compilers (fun l => <[e_compiler entry := None]> l) s))
  end.

(** At most one block per 16-bit address. *)
Definition queue_fuel : nat := Z.to_nat 65536.

Definition buxn_jit (s : buxn_jit_t) (pc : Z) : res (nat * buxn_jit_t) :=
  let '(block, s) := buxn_jit_queue_block s pc in
  if negb (fn (block_at s block) =? 0) then Ok (block, s)
  else
    match compile_all queue_fuel s with
    | Ok s =>
        let s := link_all (link_queue s) s in
        let s := cleanup_all (cleanup_queue s) s in
        Ok (block, s)
    | AssertFailed e => AssertFailed e
    | OutOfFuel => OutOfFuel
    end.

(** The callback of the trampoline. *)
Definition buxn_jit_translate_jump_addr (s : buxn_jit_t) (target : Z) : res (Z * buxn_jit_t) :=
  match buxn_jit s (u16 target) with
  | Ok (block, s) => Ok (head_addr (block_at s block), s)
  | AssertFailed e => AssertFailed e
  | OutOfFuel => OutOfFuel
  end.

Definition buxn_jit_execute `{Runtime} (s : buxn_jit_t) (pc : Z) : res buxn_jit_t :=
  match buxn_jit s pc with
  | Ok (block, s) =>
      let '(next, s) := run_fn (fn (block_at s block)) s in
      if 0xffff <? next then Ok s
      else
        let pc := u16 next in
        let s := set_stats (fun t =>
          mkStats (code_size t) (num_blocks t) (num_bounces t + 1)) s in
        if pc <=? 0xff then Ok (buxn_vm_execute pc s)
        else AssertFailed "Trampoline failed"
  | AssertFailed e => AssertFailed e
  | OutOfFuel => OutOfFuel
  end.

(** [buxn_jit_cleanup]: the code freed, in the order of the block list. *)
Definition buxn_jit_cleanup (s : buxn_jit_t) : list Z :=
  base.filter (fun f => f <> 0) ((fun b => fn (block_at s b)) <$> blocks_first s).
End WithInterfaces.
