(* ===== verification/Concrete.v ===== *)
(** * Concrete instances of the interfaces

    One layout of the virtual machine, the opcode encoding of uxn, a code
    generator that always succeeds and a 64-bit machine: enough to evaluate
    the model on programs.  [start_jit rom] is the JIT right after
    initialisation on a program, [run_block] compiles the block of address
    0x100 and executes the log of its emitted instructions from the body. *)
From S2P Require Import Prelude Lir Hamt Jit StackCache MicroOps Opcodes Compile.

Definition layout_ref : VmLayout := {|
  off_ws := 64; off_rs := 320; off_wsp := 576; off_rsp := 577;
  off_device := 592; off_memory := 848;
|}.

(** The low five bits name the operation; the byte 0 and the modes of it are
    the immediate operations. *)
Definition opcode_name_ref (op : Z) : opname :=
  if op =? 0x20 then JCI else if op =? 0x40 then JMI else if op =? 0x60 then JSI
  else if Z.land op 0x1f =? 0 then (if op <? 128 then BRK else LIT)
  else nth (Z.to_nat (Z.land op 0x1f))
    [BRK; INC; POP; NIP; SWP; ROT; DUP; OVR; EQU; NEQ; GTH; LTH; JMP; JCN; JSR; STH;
     LDZ; STZ; LDR; STR; LDA; STA; DEI; DEO; ADD; SUB; MUL; DIV; AND; ORA; EOR; SFT] BRK.

Definition vm_ref : BuxnVm := {|
  opcode_name := opcode_name_ref; BUXN_RESET_VECTOR := 256; jit_ptr := 4660;
|}.

Definition codegen_ref : CodeGen := fun k =>
  mkGenerated 1 (fun l => Z.of_nat l + 1) 0 (Z.of_nat (length (code k))).

(** A program loaded at the reset vector. *)
Definition rom (l : list Z) (a : Z) : Z := if a <? 256 then 0 else u8 (nth (Z.to_nat (a - 256)) l 0).

Lemma rom_byte l a : is_u8 (rom l a).
Proof. unfold rom. destruct (a <? 256); [mlia|apply u8_range]. Qed.

Definition start_jit (l : list Z) : buxn_jit_t := buxn_jit_init (rom l) None.

(** The machine at the entry of a block: the vm at address 4096, the working
    stack [ws] (bottom first) in memory. *)
Definition start_mach (l ws : list Z) : mach :=
  mkMach
    (fun r => match r with SS 0 => 4096 | SS 1 => Z.of_nat (length ws) | _ => 0 end)
    (fun a => let o := a - 4096 in
       if o <? 64 then 0
       else if o <? 320 then nth (Z.to_nat (o - 64)) ws 0
       else if o <? 848 then 0
       else rom l (o - 848))
    (0, 0).

(** The result of a block: what it returned and the two stacks, bottom first. *)
Definition stacks (m : mach) : list Z * list Z :=
  (map (fun i => mem m (4096 + 64 + Z.of_nat i)) (seq 0 (Z.to_nat (regs m (SS 1)))),
   map (fun i => mem m (4096 + 320 + Z.of_nat i)) (seq 0 (Z.to_nat (regs m (SS 2))))).

#[local] Existing Instances layout_ref vm_ref codegen_ref sljit_ref host_ref.

Definition compile_ref (l : list Z) : res (list lir * gmap nat nat) :=
  let '(b, s) := buxn_jit_queue_block (start_jit l) 256 in
  match compile_queue s with
  | e :: q =>
      match buxn_jit_compile e (set_compile_queue (fun _ => q) s) with
      | Ok s =>
          match compilers s !! e_compiler e with
          | Some (Some k) => Ok (code k, binds k)
          | _ => OutOfFuel
          end
      | AssertFailed x => AssertFailed x
      | OutOfFuel => OutOfFuel
      end
  | [] => OutOfFuel
  end.

(** The body label of a block compiled without hook is label 4. *)
Definition run_block (l ws : list Z) : option (Z * (list Z * list Z)) :=
  match compile_ref l with
  | Ok (k, B) =>
      match exec B k (Skip 4 (start_mach l ws)) with
      | Return v m => Some (v, stacks m)
      | _ => None
      end
  | _ => None
  end.
