(* ===== verification/Invariant.v ===== *)
(** * The invariant of the compilation context and the safety of its operations

    [Inv c H]: both caches are within their arrays, and the reference count of
    every operand register is exactly the number of its owners - cells of the
    two caches and the registers [H] the running opcode holds.  Every operation
    of the stack cache keeps it, never fails an assertion and, with at most
    five registers held, never runs out of registers. *)
From S2P Require Import Prelude Lir Hamt Jit StackCache.
From Stdlib Require Import Permutation.
Local Open Scope jit_scope.

Definition occ (r : sreg) (l : list sreg) : nat := count_occ sreg_eq_dec l r.

Definition regs_of (k : buxn_jit_stack_cache_t) : list sreg :=
  (fun x => reg (value x)) <$> live k.

Definition owned (c : buxn_jit_ctx_t) (H : list sreg) : list sreg :=
  regs_of (wst_cache c) ++ regs_of (rst_cache c) ++ H.

Definition is_op (r : sreg) : Prop := exists i, (i < NUM_OP_REGS)%nat /\ r = op_reg i.

Definition cache_ok (k : buxn_jit_stack_cache_t) : Prop :=
  length (cells k) = BUXN_JIT_CACHE_SIZE /\ (len k <= BUXN_JIT_CACHE_SIZE)%nat.

(** [Counted c L]: [L] lists the owners of the registers, with multiplicity. *)
Record Counted (c : buxn_jit_ctx_t) (L : list sreg) : Prop := {
  inv_compiler : is_Some (compiler_ptr c);
  inv_cache : forall flag_r, cache_ok (get_cache flag_r c);
  inv_nregs : length (reg_ref_counts c) = NUM_OP_REGS;
  inv_counts : forall i, (i < NUM_OP_REGS)%nat ->
    ref_count c i = Z.of_nat (occ (op_reg i) L);
  inv_op : Forall is_op L;
}.

Definition Inv (c : buxn_jit_ctx_t) (H : list sreg) : Prop :=
  Counted c (owned c H) /\ (length H <= 32)%nat.

(** The part of the context the stack cache operations leave alone. *)
Definition frame (c : buxn_jit_ctx_t) :=
  (jit c, block c, compiler_ptr c, head_label c, body_label c, call_fallback c,
   entry_pc c, pc c, current_opcode c,
   (wst c, rst c, wsp c, rsp c, shadow_wsp c, shadow_rsp c, ewsp c, ersp c,
    wsp_reg c, rsp_reg c)).

Create HintDb jit.
#[export] Hint Resolve inv_compiler inv_cache inv_nregs inv_op : jit.

(** ** Lists, occurrences, registers *)

Lemma occ_app r l1 l2 : occ r (l1 ++ l2) = (occ r l1 + occ r l2)%nat.
Proof. apply count_occ_app. Qed.

Lemma occ_cons r x l : occ r (x :: l) = ((if decide (x = r) then 1 else 0) + occ r l)%nat.
Proof.
  unfold occ. destruct (decide (x = r)) as [->|Hn].
  - rewrite count_occ_cons_eq by done. done.
  - rewrite count_occ_cons_neq by done. done.
Qed.

Lemma occ_perm r l1 l2 : Permutation l1 l2 -> occ r l1 = occ r l2.
Proof. intros Hp. apply (Permutation_count_occ sreg_eq_dec). done. Qed.

Lemma occ_zero r l : occ r l = 0%nat <-> r ∉ l.
Proof. unfold occ. rewrite <- count_occ_not_In, list_elem_of_In. done. Qed.

Lemma occ_length r l : (occ r l <= length l)%nat.
Proof. induction l as [|x l IH]; [done|]. rewrite occ_cons. simpl. case_decide; lia. Qed.

Lemma op_index_op i : (i < NUM_OP_REGS)%nat -> op_index (op_reg i) = Some i.
Proof. intros. do 6 (destruct i as [|i]; [done|]). unfold NUM_OP_REGS, BUXN_JIT_R_OP_MAX, BUXN_JIT_R_OP_MIN in *. lia. Qed.

Lemma op_reg_inj i j : op_reg i = op_reg j -> i = j.
Proof. unfold op_reg. intros [=]. lia. Qed.

Lemma first_zero_spec l : forall i j,
  first_zero l i = Some j -> (i <= j < i + length l)%nat /\ nth (j - i) l 0 = 0.
Proof.
  induction l as [|n l IH]; simpl; intros i j Hz; [done|].
  destruct (Z.eqb_spec n 0) as [->|]; simplify_eq.
  - rewrite Nat.sub_diag. split; [lia|done].
  - apply IH in Hz as [? Hn]. split; [lia|].
    replace (j - i)%nat with (S (j - S i)) by lia. done.
Qed.

Lemma first_zero_none l : forall i, first_zero l i = None -> Forall (fun n => n <> 0) l.
Proof.
  induction l as [|n l IH]; simpl; intros i Hz; [done|].
  destruct (Z.eqb_spec n 0); [done|]. constructor; eauto.
Qed.

Lemma find_free_reg_spec c r :
  buxn_jit_find_free_reg c = Some r -> length (reg_ref_counts c) = NUM_OP_REGS ->
  exists i, (i < NUM_OP_REGS)%nat /\ r = op_reg i /\ ref_count c i = 0.
Proof.
  unfold buxn_jit_find_free_reg. intros Hf Hl.
  destruct (first_zero _ _) as [i|] eqn:E; simplify_eq/=.
  apply first_zero_spec in E as [? Hn]. exists i. rewrite Nat.sub_0_r in Hn.
  split; [lia|done].
Qed.

(** ** Caches *)

Lemma live_length k : cache_ok k -> length (live k) = len k.
Proof. intros [Hl Hn]. unfold live. rewrite length_take. lia. Qed.

Lemma live_lookup k i : (i < len k)%nat -> live k !! i = cells k !! i.
Proof. intros. unfold live. apply lookup_take_lt. done. Qed.

Lemma cell_at_lookup k i :
  cache_ok k -> (i < BUXN_JIT_CACHE_SIZE)%nat -> cells k !! i = Some (cell_at k i).
Proof.
  intros [Hl _] Hi. unfold cell_at.
  destruct (lookup_lt_is_Some_2 (cells k) i) as [x Hx]; [lia|].
  rewrite Hx. f_equal. symmetry. apply nth_lookup_Some. done.
Qed.

(** The live cells, from the top: [len - 1] and the rest. *)
Lemma live_snoc k :
  cache_ok k -> (len k <> 0)%nat ->
  live k = take (len k - 1) (cells k) ++ [cell_at k (len k - 1)].
Proof.
  intros Hk Hn. unfold live. replace (len k) with (S (len k - 1)) at 1 by lia.
  apply take_S_r. apply cell_at_lookup; [done|]. destruct Hk. lia.
Qed.

Lemma live_set_len k n : (n <= len k)%nat -> live (set_len (fun _ => n) k) = take n (live k).
Proof. intros. unfold live, set_len. simpl. rewrite take_take. f_equal. lia. Qed.

(** The live cells, from the bottom. *)
Lemma live_cons k :
  cache_ok k -> (len k <> 0)%nat ->
  live k = cell_at k 0 :: live (cache_shift 1 k).
Proof.
  intros [Hl Hn] H0. unfold live, cache_shift, cell_at. simpl.
  destruct (cells k) as [|x l] eqn:E; [unfold BUXN_JIT_CACHE_SIZE in *; simpl in *; lia|].
  destruct (len k) as [|n]; [done|]. simpl in *. rewrite Nat.sub_0_r. f_equal.
  rewrite drop_0. rewrite take_app_length'; [done|]. rewrite length_take. lia.
Qed.

Lemma cache_shift_ok n k : cache_ok k -> cache_ok (cache_shift n k).
Proof.
  intros [Hl Hn]. unfold cache_shift. split; simpl; [|lia].
  rewrite length_app, length_take, !length_drop. lia.
Qed.

(** A shift leaves the stale slots where they are. *)
Lemma cache_shift_stale n k i :
  cache_ok k -> (len k <= i)%nat -> cell_at (cache_shift n k) i = cell_at k i.
Proof.
  intros [Hl Hn] Hi. unfold cell_at, cache_shift. cbn [cells].
  rewrite !nth_lookup, lookup_app_r; rewrite length_take, length_drop; [|lia].
  rewrite lookup_drop. do 2 f_equal. lia.
Qed.

Lemma set_cell_ok i x k : cache_ok k -> cache_ok (set_cell i x k).
Proof. intros [??]. split; simpl; rewrite ?length_insert; done. Qed.

Lemma cell_at_set_ne i j x k : i <> j -> cell_at (set_cell i x k) j = cell_at k j.
Proof.
  intros. unfold cell_at, set_cell. cbn [cells].
  rewrite !nth_lookup, list_lookup_insert_ne by done. done.
Qed.

Lemma cell_at_set_eq i x k :
  cache_ok k -> (i < BUXN_JIT_CACHE_SIZE)%nat -> cell_at (set_cell i x k) i = x.
Proof.
  intros [Hl _] Hi. unfold cell_at, set_cell. cbn [cells].
  rewrite nth_lookup, list_lookup_insert_eq by lia. done.
Qed.

Lemma regs_of_set_cell i x k :
  cache_ok k -> (i < BUXN_JIT_CACHE_SIZE)%nat -> reg (value x) = reg (value (cell_at k i)) ->
  regs_of (set_cell i x k) = regs_of k.
Proof.
  intros Hk Hi Hr. unfold regs_of, live, set_cell. cbn [cells len].
  apply list_eq. intros j. rewrite !list_lookup_fmap.
  destruct (decide (j < len k)%nat); [|rewrite !lookup_take_ge by lia; done].
  rewrite !lookup_take_lt by lia. destruct (decide (i = j)) as [<-|].
  - rewrite list_lookup_insert_eq, (cell_at_lookup k i) by (done || destruct Hk; lia).
    simpl. congruence.
  - rewrite list_lookup_insert_ne by done. done.
Qed.

(** ** Owners *)

Lemma counted_perm c L L' : Permutation L L' -> Counted c L -> Counted c L'.
Proof.
  intros Hp [? ? ? Hc Ho]. split; try done.
  - intros i Hi. rewrite Hc by done. f_equal. apply occ_perm. done.
  - rewrite <- Hp. done.
Qed.

Lemma owned_length c H L : Counted c L -> (length (owned c H) <= 8 + length H)%nat.
Proof.
  intros Hc. pose proof (inv_cache _ _ Hc false) as Hw. pose proof (inv_cache _ _ Hc true) as Hr.
  unfold owned, regs_of. cbn [get_cache] in *. rewrite !length_app, !length_fmap, !live_length by done.
  destruct Hw, Hr. unfold BUXN_JIT_CACHE_SIZE in *. lia.
Qed.

(** The owners seen from one cache: its cells, then the rest. *)
Definition others (flag_r : bool) (c : buxn_jit_ctx_t) (H : list sreg) : list sreg :=
  regs_of (get_cache (negb flag_r) c) ++ H.

Lemma owned_split flag_r c H :
  Permutation (owned c H) (regs_of (get_cache flag_r c) ++ others flag_r c H).
Proof.
  unfold owned, others. destruct flag_r; cbn [get_cache negb]; [|done].
  rewrite !app_assoc. apply Permutation_app_tail, Permutation_app_comm.
Qed.

Lemma get_set_cache_eq flag_r f c : get_cache flag_r (set_cache flag_r f c) = f (get_cache flag_r c).
Proof. destruct flag_r; done. Qed.

Lemma get_set_cache_ne flag_r f c :
  get_cache (negb flag_r) (set_cache flag_r f c) = get_cache (negb flag_r) c.
Proof. destruct flag_r; done. Qed.

Lemma others_set_cache flag_r f c H : others flag_r (set_cache flag_r f c) H = others flag_r c H.
Proof. unfold others. rewrite get_set_cache_ne. done. Qed.

Lemma counted_set_cache flag_r f c L :
  Counted c L -> cache_ok (f (get_cache flag_r c)) -> Counted (set_cache flag_r f c) L.
Proof.
  intros [? Hk ? ? ?] Hok. split; destruct flag_r; try done;
    intros [|]; try apply (Hk true); try apply (Hk false); done.
Qed.

Lemma frame_set_cache flag_r f c : frame (set_cache flag_r f c) = frame c.
Proof. destruct flag_r; done. Qed.

Lemma get_cache_ref_count flag_r i n c : get_cache flag_r (set_ref_count i n c) = get_cache flag_r c.
Proof. destruct flag_r; done. Qed.

(** ** Retain and release *)

Lemma ref_count_set i j n c :
  length (reg_ref_counts c) = NUM_OP_REGS -> (i < NUM_OP_REGS)%nat ->
  ref_count (set_ref_count i n c) j = if decide (i = j) then n else ref_count c j.
Proof.
  intros Hl Hi. unfold ref_count, set_ref_count. cbn [reg_ref_counts set_reg_ref_counts].
  rewrite !nth_lookup. case_decide as E; [subst|].
  - rewrite list_lookup_insert_eq by lia. done.
  - rewrite list_lookup_insert_ne by done. done.
Qed.

Definition recounted (c c' : buxn_jit_ctx_t) : Prop := exists i n, c' = set_ref_count i n c.

Lemma wp_retain r c L :
  Counted c L -> is_op r -> (length L <= 100)%nat ->
  wp (buxn_jit_retain_reg r) (fun _ c' => Counted c' (r :: L) /\ recounted c c') c.
Proof.
  intros [? Hk Hn Hc Ho] Hr Hlen. pose proof Hr as (i & Hi & ->).
  unfold wp, buxn_jit_retain_reg. rewrite op_index_op by done.
  split; [|by do 2 eexists]. split; try done.
  - simpl. rewrite length_insert. done.
  - intros j Hj. rewrite ref_count_set, occ_cons, !Hc by done.
    pose proof (occ_length (op_reg i) L). case_decide as E.
    + subst. rewrite decide_True by done. unfold u8. rewrite Z.mod_small; lia.
    + rewrite decide_False by (intros ?%op_reg_inj; done). done.
  - by constructor.
Qed.

Lemma wp_release r c L :
  Counted c (r :: L) ->
  wp (buxn_jit_release_reg r) (fun _ c' => Counted c' L /\ recounted c c') c.
Proof.
  intros [? Hk Hn Hc Ho]. apply Forall_cons in Ho as [(i & Hi & ->) Ho].
  unfold wp, buxn_jit_release_reg. rewrite op_index_op by done.
  pose proof (Hc i Hi) as Hci. rewrite occ_cons, decide_True in Hci by done.
  destruct (Z.ltb_spec 0 (ref_count c i)); [|lia].
  split; [|by do 2 eexists]. split; try done.
  - simpl. rewrite length_insert. done.
  - intros j Hj. rewrite ref_count_set by done. case_decide as E; [subst; lia|].
    rewrite Hc, occ_cons, decide_False by (done || intros ?%op_reg_inj; done). done.
Qed.

(** ** Operations that only emit code *)

Definition shape (c : buxn_jit_ctx_t) := (frame c, wst_cache c, rst_cache c, reg_ref_counts c).

Definition Emits {A} (m : J A) : Prop := forall c,
  is_Some (compiler_ptr c) -> wp m (fun _ c' => shape c' = shape c) c.

Lemma shape_compiler c c' : shape c' = shape c -> compiler_ptr c' = compiler_ptr c.
Proof. unfold shape, frame. congruence. Qed.

Lemma emits_ret {A} (a : A) : Emits (ret a).
Proof. intros c ?. apply wp_ret. done. Qed.

Lemma emits_bind {A B} (m : J A) (k : A -> J B) :
  Emits m -> (forall a, Emits (k a)) -> Emits (bind m k).
Proof.
  intros Hm Hk c Hp. apply wp_bind. eapply wp_mono; [apply Hm; done|].
  intros a c' Hs. eapply wp_mono; [apply Hk; by rewrite (shape_compiler _ _ Hs)|].
  intros b c'' Hs'. congruence.
Qed.

Lemma emits_gets {A} (f : buxn_jit_ctx_t -> A) : Emits (gets f).
Proof. intros c ?. apply wp_gets. done. Qed.

Lemma emits_when b (m : J unit) : Emits m -> Emits (when b m).
Proof. intros Hm. destruct b; [done|apply emits_ret]. Qed.

Lemma emits_mem_base f : Emits (modify (set_mem_base f)).
Proof. intros c ?. apply wp_modify. done. Qed.

Lemma emits_with_compiler {A} (f : compiler -> A * compiler) : Emits (with_compiler f).
Proof. intros c [x Hx]. unfold wp, with_compiler. rewrite Hx. destruct (f (comp c)). done. Qed.

Lemma emits_lir i : Emits (emit_lir i).
Proof. apply emits_with_compiler. Qed.
Lemma emits_op1 o d s : Emits (sljit_emit_op1 o d s).
Proof. apply emits_with_compiler. Qed.
Lemma emits_op2 o d s1 s2 : Emits (sljit_emit_op2 o d s1 s2).
Proof. apply emits_with_compiler. Qed.
Lemma emits_return o s : Emits (sljit_emit_return o s).
Proof. apply emits_with_compiler. Qed.
Lemma emits_label : Emits sljit_emit_label.
Proof. apply emits_with_compiler. Qed.
Lemma emits_jump b c : Emits (sljit_emit_jump b c).
Proof. apply emits_with_compiler. Qed.
Lemma emits_cmp c b x y : Emits (sljit_emit_cmp c b x y).
Proof. apply emits_with_compiler. Qed.
Lemma emits_call b : Emits (sljit_emit_call b).
Proof. apply emits_with_compiler. Qed.
Lemma emits_set_label j l : Emits (set_label j l).
Proof. apply emits_with_compiler. Qed.

#[export] Hint Resolve emits_ret emits_gets emits_mem_base emits_lir emits_op1 emits_op2
  emits_return emits_label emits_jump emits_cmp emits_call emits_set_label : jit.

(** Decide that an operation only emits. *)
Ltac solve_emits :=
  repeat lazymatch goal with
    | |- forall _, _ => intros
    | |- Emits (bind _ _) => apply emits_bind
    | |- Emits (when _ _) => apply emits_when
    | |- Emits (if ?b then _ else _) => destruct b
    | |- Emits (match ?b with _ => _ end) => destruct b
    | |- Emits _ => solve [eauto 2 with jit]
    end.

Lemma emits_set_label_here j : Emits (set_label_here j).
Proof. unfold set_label_here. solve_emits. Qed.

#[export] Hint Resolve emits_set_label_here : jit.

Section WithLayout.
Context {Lay : VmLayout}.

Lemma emits_set_mem_base b : Emits (buxn_jit_set_mem_base b).
Proof. unfold buxn_jit_set_mem_base. solve_emits. Qed.
#[local] Hint Resolve emits_set_mem_base : jit.

Lemma emits_do_push o flag_r : Emits (buxn_jit_do_push o flag_r).
Proof. unfold buxn_jit_do_push. solve_emits. Qed.
End WithLayout.

#[export] Hint Resolve emits_set_mem_base emits_do_push : jit.

(** [m] run where only emission happens keeps the owners. *)
Lemma wp_emits {A} (m : J A) c L :
  Emits m -> Counted c L ->
  wp m (fun _ c' => Counted c' L /\ shape c' = shape c) c.
Proof.
  intros Hm Hc. eapply wp_mono; [apply Hm; eauto with jit|].
  intros a c' Hs. split; [|done]. destruct Hc as [Hp Hk Hn Hcount ?].
  unfold shape, frame in Hs. split; try done; try congruence.
  - intros [|]; [specialize (Hk true)|specialize (Hk false)]; cbn [get_cache] in *; congruence.
  - unfold ref_count in *. intros i Hi. rewrite <- Hcount by done. congruence.
Qed.

(** ** Spilling and allocating *)

(** What an operation that may spill leaves alone: the frame, and the slots of
    the arrays beyond the cells in use; the caches do not grow. *)
Definition quiet (c c' : buxn_jit_ctx_t) : Prop :=
  frame c' = frame c /\
  forall flag_r, (len (get_cache flag_r c') <= len (get_cache flag_r c))%nat /\
    forall i, (len (get_cache flag_r c) <= i)%nat ->
      cell_at (get_cache flag_r c') i = cell_at (get_cache flag_r c) i.

Lemma quiet_refl c : quiet c c.
Proof. done. Qed.

Lemma quiet_trans c1 c2 c3 : quiet c1 c2 -> quiet c2 c3 -> quiet c1 c3.
Proof.
  intros [Hf1 H1] [Hf2 H2]. split; [congruence|]. intros flag_r.
  destruct (H1 flag_r) as [? Hs1], (H2 flag_r) as [? Hs2]. split; [lia|].
  intros i Hi. rewrite Hs2, Hs1 by lia. done.
Qed.

Lemma quiet_shape c c' : shape c' = shape c -> quiet c c'.
Proof.
  unfold shape. intros Hs. split; [congruence|].
  assert (forall flag_r, get_cache flag_r c' = get_cache flag_r c) as E
    by (intros [|]; cbn [get_cache]; congruence).
  intros flag_r. rewrite E. done.
Qed.

Lemma quiet_recounted c c' : recounted c c' -> quiet c c'.
Proof. intros (i & n & ->). split; [done|]. intros flag_r. rewrite get_cache_ref_count. done. Qed.

Lemma owned_shape c c' H : shape c' = shape c -> owned c' H = owned c H.
Proof. unfold shape, owned. congruence. Qed.

Lemma owned_recounted c c' H : recounted c c' -> owned c' H = owned c H.
Proof. intros (i & n & ->). done. Qed.

#[export] Hint Resolve quiet_refl quiet_shape quiet_recounted : jit.

Section Safety.
Context {Lay : VmLayout}.

Lemma wp_flush_cell i flag_r c L :
  Counted c L -> (i < len (get_cache flag_r c))%nat ->
  wp (buxn_jit_flush_cell i flag_r)
    (fun _ c' => Counted c' L /\ frame c' = frame c /\
       get_cache (negb flag_r) c' = get_cache (negb flag_r) c /\
       get_cache flag_r c' =
         set_cell i (mkCell (value (cell_at (get_cache flag_r c) i)) false) (get_cache flag_r c)) c.
Proof.
  intros Hc Hi. unfold buxn_jit_flush_cell.
  apply wp_bind, wp_gets, wp_bind. eapply wp_mono; [apply wp_emits, Hc; apply emits_do_push|].
  intros _ c1 [Hc1 Hs]. apply wp_modify.
  assert (forall flag_r, get_cache flag_r c1 = get_cache flag_r c) as E
    by (unfold shape in Hs; intros [|]; cbn [get_cache]; congruence).
  rewrite get_set_cache_eq, get_set_cache_ne, frame_set_cache, !E.
  split; [|split; [unfold shape in Hs; congruence|done]].
  apply counted_set_cache; [done|]. rewrite E. apply set_cell_ok. eauto with jit.
Qed.

Lemma regs_of_cons k :
  cache_ok k -> (len k <> 0)%nat ->
  regs_of k = reg (value (cell_at k 0)) :: regs_of (cache_shift 1 k).
Proof. intros. unfold regs_of. rewrite live_cons by done. done. Qed.

(** A cell can be flushed first or not: neither its register nor the stale
    slots depend on it. *)
Lemma flush_slots k x :
  cache_ok k -> (len k <> 0)%nat -> x = k \/ x = set_cell 0 (mkCell (value (cell_at k 0)) false) k ->
  cache_ok x /\ len x = len k /\ regs_of x = regs_of k /\
  cell_at x 0 = mkCell (value (cell_at k 0)) (need_flush (cell_at x 0)) /\
  forall i, (len k <= i)%nat -> cell_at x i = cell_at k i.
Proof.
  intros Hk H0 [->| ->].
  - repeat split; try apply Hk. destruct (cell_at k 0); done.
  - assert ((0 < BUXN_JIT_CACHE_SIZE)%nat) by (unfold BUXN_JIT_CACHE_SIZE; lia).
    split; [by apply set_cell_ok|]. split; [done|].
    rewrite regs_of_set_cell, cell_at_set_eq by done. split; [done|]. split; [done|].
    intros i Hi. apply cell_at_set_ne. lia.
Qed.

Lemma wp_spill flag_r c H :
  Inv c H ->
  wp (buxn_jit_stack_cache_spill flag_r)
    (fun b c' => Inv c' H /\ quiet c c' /\
       get_cache (negb flag_r) c' = get_cache (negb flag_r) c /\
       len (get_cache flag_r c') = (len (get_cache flag_r c) - 1)%nat /\
       b = negb (len (get_cache flag_r c) =? 0)%nat) c.
Proof.
  intros [Hc HH]. unfold buxn_jit_stack_cache_spill. apply wp_bind, wp_gets.
  destruct (Nat.eqb_spec (len (get_cache flag_r c)) 0) as [H0|H0].
  { apply wp_ret. rewrite H0. done. }
  set (k := get_cache flag_r c) in *. assert (cache_ok k) as Hk by eauto with jit.
  apply wp_bind.
  assert (wp (when (need_flush (cell_at k 0)) (buxn_jit_flush_cell 0 flag_r))
    (fun _ c' => Counted c' (owned c H) /\ frame c' = frame c /\
       get_cache (negb flag_r) c' = get_cache (negb flag_r) c /\
       (get_cache flag_r c' = k \/
        get_cache flag_r c' = set_cell 0 (mkCell (value (cell_at k 0)) false) k)) c) as Hw.
  { destruct (need_flush _); cbn [when]; [|apply wp_ret; auto].
    eapply wp_mono; [apply wp_flush_cell; [done|]; fold k; lia|]. intros [] c'. fold k. intuition. }
  eapply wp_mono; [exact Hw|]. intros _ c1 (Hc1 & Hf & Ho & Hcases).
  apply flush_slots in Hcases as (Hok1 & Hl1 & Hr1 & H01 & Hst); [|done..].
  apply wp_bind.
  eapply wp_mono; [apply wp_release; eapply counted_perm; [|exact Hc1]|].
  { rewrite (owned_split flag_r c H). fold k. rewrite <- Hr1, regs_of_cons, H01 by (done || lia). cbn [app]. reflexivity. }
  intros _ c2 [Hc2 (i & n & ->)]. apply wp_bind, wp_modify, wp_ret.
  assert (forall r, get_cache r (set_ref_count i n c1) = get_cache r c1) as E
    by (intros r; apply get_cache_ref_count).
  split; [|split; [|split; [|split]]].
  - split; [|done]. eapply counted_perm; [|apply counted_set_cache; [exact Hc2|]].
    + rewrite (owned_split flag_r (set_cache _ _ _)), others_set_cache, get_set_cache_eq.
      unfold others. rewrite !E, Ho. done.
    + rewrite E. apply cache_shift_ok. done.
  - split; [rewrite frame_set_cache; done|]. intros r. destruct (decide (r = flag_r)) as [->|Hr].
    + rewrite get_set_cache_eq, E. cbn [cache_shift len]. fold k. split; [lia|].
      intros j Hj. rewrite cache_shift_stale by (done || lia). apply Hst. done.
    + replace r with (negb flag_r) by (destruct r, flag_r; done).
      rewrite get_set_cache_ne, E, Ho. done.
  - rewrite get_set_cache_ne, E. done.
  - rewrite get_set_cache_eq, E. cbn [cache_shift len]. fold k. lia.
  - done.
Qed.

(** One spill by the policy of [buxn_jit_alloc_reg]: the current stack's
    cache first, the other one when it is empty. *)
Lemma wp_spill_any c H :
  Inv c H -> (len (wst_cache c) + len (rst_cache c) <> 0)%nat ->
  let policy (flag_r : bool) : J unit :=
    (ok <-- buxn_jit_stack_cache_spill flag_r ;;
     when (negb ok) (buxn_jit_stack_cache_spill (negb flag_r) ;;; ret tt)) in
  forall flag_r,
  wp (policy flag_r)
    (fun _ c' => Inv c' H /\ quiet c c' /\
       (S (len (wst_cache c') + len (rst_cache c')) = len (wst_cache c) + len (rst_cache c))%nat) c.
Proof.
  intros Hi Hn policy flag_r. apply wp_bind. eapply wp_mono; [apply wp_spill; done|].
  intros b c1 (Hi1 & Hq1 & Ho1 & Hl1 & ->).
  destruct (Nat.eqb_spec (len (get_cache flag_r c)) 0) as [H0|H0]; cbn [negb when].
  - apply wp_bind. eapply wp_mono; [apply wp_spill; done|].
    intros b c2 (Hi2 & Hq2 & Ho2 & Hl2 & _). apply wp_ret.
    split; [done|]. split; [eapply quiet_trans; done|].
    rewrite Bool.negb_involutive in Ho2. destruct flag_r; cbn [negb get_cache] in *; rewrite ?Ho2, ?Hl2, ?Ho1, ?Hl1; lia.
  - apply wp_ret. split; [done|]. split; [done|].
    destruct flag_r; cbn [negb get_cache] in *; rewrite ?Ho1, ?Hl1; lia.
Qed.
End Safety.
