(* ===== verification/CacheSafety.v ===== *)
(** * Safety of the stack cache operations

    Each operation of StackCache.v, from a context that satisfies the
    invariant of Invariant.v: no assertion fails, no fuel runs out, the
    invariant holds afterwards with the registers the caller then holds. *)
From S2P Require Import Prelude Lir Hamt Jit StackCache Invariant.
From Stdlib Require Import Permutation.
Local Open Scope jit_scope.

(** ** Registers held and owned *)

Lemma owned_perm c H H' : Permutation H H' -> Permutation (owned c H) (owned c H').
Proof. unfold owned. intros ->. done. Qed.

Lemma owned_cons c r H : Permutation (owned c (r :: H)) (r :: owned c H).
Proof. unfold owned. rewrite !app_assoc. symmetry. apply Permutation_middle. Qed.

Lemma inv_perm c H H' : Permutation H H' -> Inv c H -> Inv c H'.
Proof.
  intros Hp [Hc Hl]. split; [|by rewrite <- Hp].
  eapply counted_perm; [by apply owned_perm|done].
Qed.

Lemma inv_cache_ok c H flag_r : Inv c H -> cache_ok (get_cache flag_r c).
Proof. intros [Hc _]. eauto with jit. Qed.

Lemma inv_held_op c H r : Inv c H -> r ∈ H -> is_op r.
Proof.
  intros [Hc _] Hr. pose proof (inv_op _ _ Hc) as Ho. unfold owned in Ho.
  rewrite Forall_forall in Ho. apply Ho. rewrite !elem_of_app. auto.
Qed.

Lemma inv_shape c c' H :
  shape c' = shape c -> Inv c H -> Inv c' H.
Proof.
  intros Hs [Hc Hl]. split; [|done]. rewrite (owned_shape _ _ _ Hs).
  unfold shape, frame in Hs. destruct Hc as [? Hk ? Hn ?]. split; try done; try congruence.
  - intros [|]; [specialize (Hk true)|specialize (Hk false)]; cbn [get_cache] in *; congruence.
  - unfold ref_count in *. intros i Hi. rewrite <- Hn by done. congruence.
Qed.

#[export] Hint Resolve inv_cache_ok inv_held_op : jit.

(** A register that is free when nothing is cached leaves at most five held. *)
Lemma all_held H :
  (forall i, (i < NUM_OP_REGS)%nat -> op_reg i ∈ H) -> (NUM_OP_REGS <= length H)%nat.
Proof.
  intros Hall. assert (length (op_reg <$> seq 0 NUM_OP_REGS) = NUM_OP_REGS) as <-
    by (rewrite length_fmap, length_seq; done).
  apply submseteq_length, NoDup_submseteq.
  - apply NoDup_fmap_2; [|apply NoDup_seq]. intros ???. apply op_reg_inj. done.
  - intros r (i & -> & Hi)%list_elem_of_fmap. apply elem_of_seq in Hi. apply Hall. lia.
Qed.

Lemma find_free_none_held c H :
  Inv c H -> buxn_jit_find_free_reg c = None ->
  (len (wst_cache c) + len (rst_cache c) = 0)%nat -> (NUM_OP_REGS <= length H)%nat.
Proof.
  intros [Hc _] Hf H0. apply all_held. intros i Hi.
  unfold buxn_jit_find_free_reg in Hf. apply fmap_None, first_zero_none in Hf.
  pose proof (inv_counts _ _ Hc i Hi) as Hn. destruct (decide (op_reg i ∈ H)) as [|Hni]; [done|].
  exfalso. apply occ_zero in Hni.
  assert (owned c H = H) as Ho.
  { unfold owned, regs_of, live. replace (len (wst_cache c)) with 0%nat by lia.
    replace (len (rst_cache c)) with 0%nat by lia. done. }
  rewrite Ho, Hni in Hn. rewrite Forall_forall in Hf. apply (Hf (ref_count c i)); [|done].
  unfold ref_count. apply list_elem_of_In, nth_In. rewrite (inv_nregs _ _ Hc). done.
Qed.

(** Compose the specification of the first operation with the rest. *)
Tactic Notation "wp_op" uconstr(lem) := apply wp_bind; eapply wp_mono; [eapply lem|].

Section Safety.
Context {Lay : VmLayout}.

Lemma inv_emits {A} (m : J A) c H :
  Emits m -> Inv c H -> wp m (fun _ c' => Inv c' H /\ shape c' = shape c) c.
Proof.
  intros Hm Hi. eapply wp_mono; [apply Hm; destruct Hi as [Hc _]; by eapply inv_compiler|].
  intros a c' Hs. split; [exact (inv_shape _ _ _ Hs Hi)|done].
Qed.

Lemma wp_alloc_loop fuel : forall c H,
  Inv c H -> (length H < NUM_OP_REGS)%nat ->
  (len (wst_cache c) + len (rst_cache c) <= fuel)%nat ->
  wp (alloc_loop fuel)
    (fun o c' => Inv c' H /\ quiet c c' /\ exists i, (i < NUM_OP_REGS)%nat /\
       o = Some (op_reg i) /\ ref_count c' i = 0) c.
Proof.
  induction fuel as [|fuel IH]; intros c H Hi HH Hlen; cbn [alloc_loop];
    apply wp_bind, wp_gets, wp_bind, wp_gets;
    destruct (buxn_jit_find_free_reg c) as [r|] eqn:Ef;
    try (apply find_free_reg_spec in Ef as (i & ? & -> & ?); [|apply Hi];
         apply wp_ret; eauto 10 with jit);
    destruct (Nat.eqb_spec (len (wst_cache c) + len (rst_cache c)) 0) as [H0|H0];
    try (pose proof (find_free_none_held c H Hi Ef H0); lia); [lia|].
  apply wp_bind, wp_gets. set (flag_r := buxn_jit_op_flag_r c).
  pose proof (wp_spill_any c H Hi H0 flag_r) as Hs. cbn zeta in Hs.
  apply wp_elim in Hs as ([] & c1 & Hrun & Hi1 & Hq1 & Hl1).
  assert (wp (alloc_loop fuel) (fun o c' => Inv c' H /\ quiet c c' /\ exists i,
    (i < NUM_OP_REGS)%nat /\ o = Some (op_reg i) /\ ref_count c' i = 0) c1) as Hrest.
  { eapply wp_mono; [apply IH; [done..|lia]|].
    intros o c2 (? & ? & ?). split; [done|]. split; [by eapply quiet_trans|done]. }
  unfold wp, bind in *. destruct (buxn_jit_stack_cache_spill flag_r c) as [[ok c0]| |]; try done.
  rewrite Hrun. done.
Qed.

(** Allocation never fails while at most five registers are held; the
    register it returns has no other owner. *)
Lemma wp_alloc c H :
  Inv c H -> (length H < NUM_OP_REGS)%nat ->
  wp buxn_jit_alloc_reg
    (fun r c' => Inv c' (r :: H) /\ quiet c c' /\ r ∉ owned c' H) c.
Proof.
  intros Hi HH. unfold buxn_jit_alloc_reg. apply wp_bind.
  pose proof (inv_cache_ok _ _ false Hi) as [_ ?]. pose proof (inv_cache_ok _ _ true Hi) as [_ ?].
  cbn [get_cache] in *.
  eapply wp_mono; [apply wp_alloc_loop; [done..|unfold BUXN_JIT_CACHE_SIZE in *; lia]|].
  intros o c1 ([Hc1 Hl1] & Hq1 & i & Hlt & -> & Hz).
  pose proof (owned_length c1 H _ Hc1).
  wp_op wp_retain; [done|by exists i| unfold NUM_OP_REGS, BUXN_JIT_R_OP_MAX, BUXN_JIT_R_OP_MIN in *; lia|].
  intros [] c2 [Hc2 Hr2]. apply wp_ret. split; [|split].
  - split; [|cbn [length]; unfold NUM_OP_REGS, BUXN_JIT_R_OP_MAX, BUXN_JIT_R_OP_MIN in *; lia].
    eapply counted_perm; [|exact Hc2]. rewrite owned_cons, (owned_recounted _ _ _ Hr2). done.
  - eauto using quiet_trans with jit.
  - rewrite (owned_recounted _ _ _ Hr2). apply occ_zero.
    rewrite (inv_counts _ _ Hc1) in Hz by done. lia.
Qed.

Lemma inv_release c r H :
  Inv c (r :: H) ->
  wp (buxn_jit_release_reg r) (fun _ c' => Inv c' H /\ recounted c c') c.
Proof.
  intros [Hc HH]. eapply wp_mono; [apply wp_release; eapply counted_perm; [apply owned_cons|done]|].
  intros _ c' [Hc' Hr]. split; [|done]. split; [|simpl in *; lia].
  rewrite (owned_recounted _ _ _ Hr). done.
Qed.

(** ** Growing and shrinking a cache at the top *)

Lemma inv_set_cache flag_r f c L H :
  Counted c L -> cache_ok (f (get_cache flag_r c)) ->
  Permutation L (owned (set_cache flag_r f c) H) -> (length H <= 32)%nat ->
  Inv (set_cache flag_r f c) H.
Proof.
  intros Hc Hok Hp HH. split; [|done].
  eapply counted_perm; [exact Hp|]. by apply counted_set_cache.
Qed.

Lemma regs_of_pop k :
  cache_ok k -> (len k <> 0)%nat ->
  regs_of k = regs_of (set_len (fun n => n - 1)%nat k) ++ [reg (value (cell_at k (len k - 1)))].
Proof.
  intros. unfold regs_of at 1. rewrite live_snoc, fmap_app by done. done.
Qed.

Lemma cache_ok_set_len k n : cache_ok k -> (n <= len k)%nat -> cache_ok (set_len (fun _ => n) k).
Proof. intros [??] ?. split; simpl; [done|lia]. Qed.

(** Taking the top cell off makes the caller an owner of its register. *)
Lemma inv_pop flag_r c H :
  Inv c H -> (len (get_cache flag_r c) <> 0)%nat -> (length H < NUM_OP_REGS)%nat ->
  Inv (set_cache flag_r (set_len (fun n => n - 1)%nat) c)
    (reg (value (cell_at (get_cache flag_r c) (len (get_cache flag_r c) - 1))) :: H).
Proof.
  intros Hi Hn HH. pose proof (inv_cache_ok _ _ flag_r Hi) as Hk. destruct Hi as [Hc _].
  eapply inv_set_cache; [exact Hc|destruct Hk; split; simpl; [done|lia]| |simpl;
    unfold NUM_OP_REGS, BUXN_JIT_R_OP_MAX, BUXN_JIT_R_OP_MIN in *; lia].
  rewrite !(owned_split flag_r), others_set_cache, get_set_cache_eq, regs_of_pop by done.
  rewrite <- app_assoc. apply Permutation_app_head. unfold others. cbn [app].
  apply Permutation_middle.
Qed.

Lemma quiet_set_len flag_r c :
  quiet c (set_cache flag_r (set_len (fun n => n - 1)%nat) c).
Proof.
  split; [apply frame_set_cache|]. intros r. destruct (decide (r = flag_r)) as [->|Hr].
  - rewrite get_set_cache_eq. simpl. split; [lia|done].
  - replace r with (negb flag_r) by (destruct r, flag_r; done).
    rewrite get_set_cache_ne. done.
Qed.

Lemma regs_of_push v k :
  cache_ok k -> (len k < BUXN_JIT_CACHE_SIZE)%nat ->
  regs_of (mkCache (<[len k := mkCell v true]> (cells k)) (S (len k))) = regs_of k ++ [reg v].
Proof.
  intros [Hl Hn] Hlt. unfold regs_of, live. cbn [len cells].
  rewrite (take_S_r _ _ (mkCell v true)) by (rewrite list_lookup_insert_eq by lia; done).
  rewrite take_insert_ge, fmap_app by lia. done.
Qed.

Lemma wp_cache_push flag_r v c H :
  Inv c H -> reg v ∈ H ->
  wp (buxn_jit_stack_cache_push flag_r v) (fun _ c' => Inv c' H /\ frame c' = frame c) c.
Proof.
  intros Hi Hv. unfold buxn_jit_stack_cache_push. apply wp_bind, wp_gets, wp_bind.
  assert (wp (when (BUXN_JIT_CACHE_SIZE <=? len (get_cache flag_r c))%nat
                (buxn_jit_stack_cache_spill flag_r ;;; ret tt))
    (fun _ c' => Inv c' H /\ frame c' = frame c /\ (len (get_cache flag_r c') < BUXN_JIT_CACHE_SIZE)%nat) c)
    as Hw.
  { destruct (Nat.leb_spec BUXN_JIT_CACHE_SIZE (len (get_cache flag_r c))); cbn [when];
      [|by apply wp_ret].
    wp_op wp_spill; [done|]. intros b c1 (Hi1 & [Hf _] & _ & Hl & _). apply wp_ret.
    pose proof (inv_cache_ok _ _ flag_r Hi) as [_ ?]. unfold BUXN_JIT_CACHE_SIZE in *.
    repeat split; [apply Hi1..|done|lia]. }
  eapply wp_mono; [exact Hw|]. intros _ c1 (Hi1 & Hf & Hlt).
  pose proof (inv_cache_ok _ _ flag_r Hi1) as Hk. destruct Hi1 as [Hc1 HH].
  apply wp_bind, wp_modify.
  eapply wp_mono; [eapply wp_retain; [apply counted_set_cache; [exact Hc1|]|..]|].
  - destruct Hk. split; simpl; [rewrite length_insert; done|lia].
  - eapply inv_held_op; done.
  - pose proof (owned_length c1 H _ Hc1). lia.
  - intros _ c2 [Hc2 Hr2]. split; [split; [|done]|].
    + eapply counted_perm; [|exact Hc2]. rewrite (owned_recounted _ _ _ Hr2).
      rewrite !(owned_split flag_r), others_set_cache, get_set_cache_eq, regs_of_push by done.
      rewrite <- app_assoc. apply Permutation_middle.
    + destruct Hr2 as (i & n & ->). rewrite <- Hf. apply (frame_set_cache flag_r).
Qed.

(** ** Popping *)

(** One step of a sequence of emissions: the context keeps its shape. *)
Lemma wp_emit {A B} c0 H (m : J A) (k : A -> J B) Q c :
  Emits m -> Inv c H /\ shape c = shape c0 ->
  (forall a c', Inv c' H /\ shape c' = shape c0 -> wp (k a) Q c') ->
  wp (bind m k) Q c.
Proof.
  intros Hm [Hi Hs] Hk. apply wp_bind. eapply wp_mono; [apply inv_emits; done|].
  intros a c' [Hi' Hs']. apply Hk. split; [done|congruence].
Qed.

Lemma wp_pop_from_mem flag_2 flag_r c H :
  Inv c H -> (length H < NUM_OP_REGS)%nat ->
  wp (buxn_jit_pop_from_mem flag_2 flag_r) (fun r c' => Inv c' (r :: H) /\ quiet c c') c.
Proof.
  intros Hi HH. unfold buxn_jit_pop_from_mem.
  eapply (wp_emit c H); [solve_emits|done|]. intros _ c1 [Hi1 Hs1].
  apply wp_bind, wp_gets. wp_op wp_alloc; [done..|]. intros r c2 (Hi2 & Hq2 & _).
  assert (Inv c2 (r :: H) /\ shape c2 = shape c2) as Hi2' by done.
  assert (forall c', Inv c' (r :: H) /\ shape c' = shape c2 -> Inv c' (r :: H) /\ quiet c c') as Hend.
  { intros c' [Hi' Hs']. split; [done|].
    eapply quiet_trans; [by apply quiet_shape|]. eapply quiet_trans; [done|]. by apply quiet_shape. }
  destruct flag_2;
    repeat (eapply wp_emit; [solve_emits|done|clear Hi2'; intros _ ? Hi2']);
    apply wp_ret; auto.
Qed.

Lemma regs_of_narrow flag_r i c :
  regs_of (set_cell i (mkCell (set_is_short false (value (cell_at (get_cache flag_r c) i)))
                         (need_flush (cell_at (get_cache flag_r c) i))) (get_cache flag_r c)) =
  regs_of (get_cache flag_r c).
Proof.
  set (k := get_cache flag_r c). unfold regs_of, live, set_cell. cbn [cells len].
  apply list_eq. intros j. rewrite !list_lookup_fmap.
  destruct (decide (j < len k)%nat); [|rewrite !lookup_take_ge by lia; done].
  rewrite !lookup_take_lt by lia. destruct (decide (i = j)) as [<-|];
    [|rewrite list_lookup_insert_ne by done; done].
  destruct (cells k !! i) as [x|] eqn:E.
  - rewrite list_lookup_insert_eq by (eapply lookup_lt_Some; done).
    unfold cell_at. rewrite (nth_lookup_Some _ _ _ _ E). done.
  - rewrite list_insert_ge by (apply lookup_ge_None; done). rewrite E. done.
Qed.

(** Narrowing a cell through a pointer into the array, stale or not. *)
Lemma wp_narrow flag_r i c H :
  Inv c H ->
  wp (narrow_cell flag_r i)
    (fun _ c' => Inv c' H /\ frame c' = frame c /\
       get_cache (negb flag_r) c' = get_cache (negb flag_r) c /\
       len (get_cache flag_r c') = len (get_cache flag_r c) /\
       forall j, i <> j -> cell_at (get_cache flag_r c') j = cell_at (get_cache flag_r c) j) c.
Proof.
  intros Hi. pose proof (inv_cache_ok _ _ flag_r Hi). destruct Hi as [Hc HH].
  unfold narrow_cell. apply wp_modify. rewrite frame_set_cache, get_set_cache_eq, get_set_cache_ne.
  split; [|split; [done|split; [done|split; [done|]]]].
  - eapply inv_set_cache; [exact Hc|by apply set_cell_ok| |done].
    rewrite !(owned_split flag_r), others_set_cache, get_set_cache_eq, regs_of_narrow. done.
  - intros j Hj. apply cell_at_set_ne. done.
Qed.

(** The slots a narrowing changes are below the old length. *)
Lemma quiet_narrow flag_r i c c' :
  (i < len (get_cache flag_r c))%nat -> quiet c c' -> forall c'',
  frame c'' = frame c' -> get_cache (negb flag_r) c'' = get_cache (negb flag_r) c' ->
  len (get_cache flag_r c'') = len (get_cache flag_r c') ->
  (forall j, i <> j -> cell_at (get_cache flag_r c'') j = cell_at (get_cache flag_r c') j) ->
  quiet c c''.
Proof.
  intros Hlt [Hf Hq] c'' Hf' Ho Hl Hs. split; [congruence|]. intros r.
  destruct (Hq r) as [Hl1 Hs1]. destruct (decide (r = flag_r)) as [->|Hr].
  - split; [lia|]. intros j Hj. rewrite Hs by lia. auto.
  - replace r with (negb flag_r) in * by (destruct r, flag_r; done). rewrite Ho. done.
Qed.

Lemma wp_pop_byte flag_r c H :
  Inv c H -> (length H < NUM_OP_REGS)%nat ->
  wp (stack_cache_pop_byte flag_r) (fun r c' => Inv c' (r :: H) /\ quiet c c') c.
Proof.
  intros Hi HH. unfold stack_cache_pop_byte.
  apply wp_bind, wp_gets. set (k := get_cache flag_r c).
  destruct (Nat.eqb_spec (len k) 0) as [H0|H0]; [by apply wp_pop_from_mem|].
  destruct (is_short _).
  - wp_op wp_alloc; [done..|]. intros r c1 (Hi1 & Hq1 & _). apply wp_bind, wp_gets.
    destruct (Nat.eqb_spec (len (get_cache flag_r c1)) 0) as [H1|H1].
    + wp_op inv_release; [done|]. intros _ c2 [Hi2 Hr2].
      eapply wp_mono; [by apply wp_pop_from_mem|]. intros r' c3 [Hi3 Hq3].
      split; [done|]. eauto using quiet_trans with jit.
    + eapply (wp_emit c1); [solve_emits|done|]. intros _ c2 Hi2.
      eapply wp_emit; [solve_emits|done|]. clear c2 Hi2. intros _ c2 [Hi2 Hs2].
      wp_op wp_narrow; [done|]. intros _ c3 (Hi3 & Hf3 & Ho3 & Hl3 & Hc3). apply wp_ret.
      split; [done|]. eapply (quiet_narrow flag_r (len k - 1) c c2); fold k; [lia| |done..].
      eapply quiet_trans; [done|]. by apply quiet_shape.
  - apply wp_bind, wp_modify, wp_ret. split; [by apply inv_pop|apply quiet_set_len].
Qed.

Lemma wp_cache_pop flag_r flag_2 c H :
  Inv c H -> (length H < NUM_OP_REGS - 1)%nat ->
  wp (buxn_jit_stack_cache_pop flag_r flag_2) (fun r c' => Inv c' (r :: H) /\ quiet c c') c.
Proof.
  intros Hi HH. unfold buxn_jit_stack_cache_pop.
  destruct flag_2; [|apply wp_pop_byte; [done|lia]].
  apply wp_bind, wp_gets. set (k := get_cache flag_r c).
  destruct (Nat.eqb_spec (len k) 0) as [H0|H0]; [apply wp_pop_from_mem; [done|lia]|].
  apply wp_bind, wp_modify. set (top := reg (value (cell_at k (len k - 1)))).
  assert (Inv (set_cache flag_r (set_len (fun n => n - 1)%nat) c) (top :: H)) as Hi1
    by (apply inv_pop; [done..|lia]).
  pose proof (quiet_set_len flag_r c) as Hq1.
  destruct (is_short _); [by apply wp_ret|].
  set (c1 := set_cache _ _ c) in *.
  wp_op wp_pop_byte; [done|simpl; lia|]. intros hi c2 [Hi2 Hq2]. apply wp_bind, wp_gets.
  assert (reg (value (cell_at (get_cache flag_r c2) (len k - 1))) = top) as ->.
  { destruct Hq2 as [_ Hq2]. destruct (Hq2 flag_r) as [_ Hs]. unfold c1 in Hs.
    rewrite get_set_cache_eq in Hs. cbn [set_len len] in Hs. rewrite Hs by (fold k; lia). done. }
  eapply (wp_emit c2); [solve_emits|split; [|done]|].
  { eapply inv_perm; [apply perm_swap|done]. }
  intros _ c3 Hi3. eapply wp_emit; [solve_emits|done|]. clear c3 Hi3. intros _ c3 [Hi3 Hs3].
  wp_op inv_release; [done|]. intros _ c4 [Hi4 Hr4]. apply wp_ret.
  split; [done|]. eauto 10 using quiet_trans with jit.
Qed.

(** ** Discarding, flushing, clearing *)

Lemma wp_discard_mem flag_2 flag_r c H :
  Inv c H -> wp (buxn_jit_discard_from_mem flag_2 flag_r) (fun _ c' => Inv c' H /\ quiet c c') c.
Proof.
  intros Hi. unfold buxn_jit_discard_from_mem. apply wp_bind, wp_gets.
  eapply wp_mono; [apply inv_emits; [solve_emits|done]|]. intros _ c' [? ?].
  split; [done|by apply quiet_shape].
Qed.

Lemma wp_discard_byte flag_r c H :
  Inv c H -> (length H < NUM_OP_REGS)%nat ->
  wp (stack_cache_discard_byte flag_r) (fun _ c' => Inv c' H /\ quiet c c') c.
Proof.
  intros Hi HH. unfold stack_cache_discard_byte. apply wp_bind, wp_gets.
  set (k := get_cache flag_r c).
  destruct (Nat.eqb_spec (len k) 0) as [H0|H0]; [by apply wp_discard_mem|].
  destruct (is_short _).
  - eapply (wp_emit c); [solve_emits|done|]. intros _ c1 [Hi1 Hs1].
    eapply wp_mono; [by apply wp_narrow|]. intros _ c2 (Hi2 & Hf2 & Ho2 & Hl2 & Hc2).
    split; [done|]. eapply (quiet_narrow flag_r (len k - 1) c c1); fold k; [lia| |done..].
    by apply quiet_shape.
  - apply wp_bind, wp_modify. eapply wp_mono; [apply inv_release; by apply inv_pop|].
    intros _ c2 [Hi2 Hr2]. split; [done|].
    eapply quiet_trans; [apply quiet_set_len|]. by apply quiet_recounted.
Qed.

Lemma wp_discard flag_r flag_2 c H :
  Inv c H -> (length H < NUM_OP_REGS)%nat ->
  wp (buxn_jit_stack_cache_discard flag_r flag_2) (fun _ c' => Inv c' H /\ quiet c c') c.
Proof.
  intros Hi HH. unfold buxn_jit_stack_cache_discard. destruct flag_2; [|by apply wp_discard_byte].
  apply wp_bind, wp_gets. set (k := get_cache flag_r c).
  destruct (Nat.eqb_spec (len k) 0) as [H0|H0]; [by apply wp_discard_mem|].
  apply wp_bind, wp_modify. wp_op inv_release; [by apply inv_pop|]. intros _ c1 [Hi1 Hr1].
  pose proof (quiet_trans _ _ _ (quiet_set_len flag_r c) (quiet_recounted _ _ Hr1)) as Hq1.
  destruct (is_short _); cbn [negb when]; [by apply wp_ret|].
  eapply wp_mono; [by apply wp_discard_byte|]. intros _ c2 [Hi2 Hq2].
  split; [done|by eapply quiet_trans].
Qed.

Lemma wp_clear_loop flag_r fuel : forall c H,
  Inv c H -> (len (get_cache flag_r c) <= fuel)%nat ->
  wp (clear_loop fuel flag_r)
    (fun _ c' => Inv c' H /\ quiet c c' /\ len (get_cache flag_r c') = 0%nat /\
       get_cache (negb flag_r) c' = get_cache (negb flag_r) c) c.
Proof.
  induction fuel as [|fuel IH]; intros c H Hi Hl; cbn [clear_loop];
    wp_op wp_spill; try done; intros b c1 (Hi1 & Hq1 & Ho1 & Hl1 & ->);
    destruct (Nat.eqb_spec (len (get_cache flag_r c)) 0) as [H0|H0]; cbn [negb];
    try (apply wp_ret; split; [done|split; [done|split; [lia|done]]]); [lia|].
  eapply wp_mono; [apply (IH c1 H); [done|lia]|]. intros _ c2 (Hi2 & Hq2 & Hl2 & Ho2).
  split; [done|]. split; [by eapply quiet_trans|]. split; [done|congruence].
Qed.

Lemma wp_clear c H :
  Inv c H ->
  wp buxn_jit_clear_stack_caches
    (fun _ c' => Inv c' H /\ quiet c c' /\ len (wst_cache c') = 0%nat /\ len (rst_cache c') = 0%nat) c.
Proof.
  intros Hi. unfold buxn_jit_clear_stack_caches, buxn_jit_stack_cache_clear.
  wp_op wp_clear_loop; [done|apply (inv_cache_ok _ _ _ Hi)|]. intros _ c1 (Hi1 & Hq1 & Hl1 & Ho1).
  eapply wp_mono; [apply wp_clear_loop; [done|apply (inv_cache_ok _ _ _ Hi1)]|].
  intros _ c2 (Hi2 & Hq2 & Hl2 & Ho2). cbn [negb get_cache] in *.
  split; [done|]. split; [by eapply quiet_trans|]. split; congruence.
Qed.

Lemma wp_flush_loop flag_r idx : forall c H,
  Inv c H -> Forall (fun i => (i < len (get_cache flag_r c))%nat) idx ->
  wp (flush_loop idx flag_r) (fun _ c' => Inv c' H /\ frame c' = frame c) c.
Proof.
  induction idx as [|i idx IH]; intros c H Hi Hidx; cbn [flush_loop]; [by apply wp_ret|].
  apply Forall_cons in Hidx as [Hlt Hidx]. apply wp_bind, wp_gets, wp_bind.
  assert (wp (when (need_flush (cell_at (get_cache flag_r c) i)) (buxn_jit_flush_cell i flag_r))
    (fun _ c' => Inv c' H /\ frame c' = frame c /\ len (get_cache flag_r c') = len (get_cache flag_r c)) c) as Hw.
  { destruct (need_flush _); [|by apply wp_ret]. pose proof (inv_cache_ok _ _ flag_r Hi) as Hk.
    destruct Hi as [Hc HH]. eapply wp_mono; [by apply wp_flush_cell|].
    intros _ c1 (Hc1 & Hf1 & Ho1 & He1). rewrite He1. split; [split; [|done]|done].
    eapply counted_perm; [|exact Hc1].
    rewrite !(owned_split flag_r), He1, regs_of_set_cell by (done || destruct Hk; lia).
    unfold others. rewrite Ho1. done. }
  eapply wp_mono; [exact Hw|]. intros _ c1 (Hi1 & Hf1 & Hl1).
  eapply wp_mono; [apply IH; [done|by rewrite Hl1]|]. intros _ c2 [Hi2 Hf2].
  split; [done|congruence].
Qed.

Lemma wp_cache_flush flag_r c H :
  Inv c H ->
  wp (buxn_jit_stack_cache_flush flag_r) (fun _ c' => Inv c' H /\ frame c' = frame c) c.
Proof.
  intros Hi. unfold buxn_jit_stack_cache_flush. apply wp_bind, wp_gets, wp_flush_loop; [done|].
  apply Forall_forall. intros i Hin%elem_of_seq. lia.
Qed.

(** ** The registers of the cached cells, retained at the next opcode *)

Lemma live_shift n k : cache_ok k -> live (cache_shift n k) = drop n (live k).
Proof.
  intros [Hl Hn]. unfold live, cache_shift. cbn [cells len].
  rewrite take_app_length' by (rewrite length_take, length_drop; lia).
  destruct (decide (n <= len k)%nat).
  - rewrite take_drop_commute. f_equal. f_equal. lia.
  - replace (len k - n)%nat with 0%nat by lia. rewrite (drop_ge (take _ _)); [done|].
    rewrite length_take. lia.
Qed.

Definition cell_regs (l : list buxn_jit_stack_cache_cell_t) : list sreg :=
  (fun x => reg (value x)) <$> l.

Lemma wp_retain_all l : forall c L,
  Counted c L -> Forall is_op (cell_regs l) -> (length L + length l <= 100)%nat ->
  wp (retain_all l)
    (fun _ c' => Counted c' (cell_regs l ++ L) /\ frame c' = frame c /\
       forall r, get_cache r c' = get_cache r c) c.
Proof.
  induction l as [|x l IH]; intros c L Hc Ho Hl; cbn [retain_all]; [by apply wp_ret|].
  apply Forall_cons in Ho as [Hx Ho]. simpl in Hl.
  wp_op wp_retain; [done|exact Hx|lia|]. intros [] c1 [Hc1 (i & n & ->)].
  eapply wp_mono; [eapply IH; [exact Hc1|done|simpl; lia]|].
  intros [] c2 (Hc2 & Hf2 & Hk2). split; [|split; [done|]].
  - eapply counted_perm; [|exact Hc2]. simpl. symmetry. apply Permutation_middle.
  - intros r. rewrite Hk2. apply get_cache_ref_count.
Qed.

Lemma wp_cache_retain flag_r c L :
  Counted c L -> Forall is_op (regs_of (get_cache flag_r c)) -> (length L <= 50)%nat ->
  wp (buxn_jit_stack_cache_retain flag_r)
    (fun _ c' => Counted c' (regs_of (get_cache flag_r c') ++ L) /\ frame c' = frame c /\
       get_cache (negb flag_r) c' = get_cache (negb flag_r) c) c.
Proof.
  intros Hc Ho Hl. unfold buxn_jit_stack_cache_retain. apply wp_bind, wp_gets. cbv zeta.
  pose proof (inv_cache _ _ Hc flag_r) as Hk. set (n := length _).
  apply wp_bind, wp_modify, wp_bind, wp_gets. rewrite get_set_cache_eq.
  eapply wp_mono; [eapply wp_retain_all|].
  - apply counted_set_cache; [exact Hc|]. by apply cache_shift_ok.
  - unfold cell_regs. rewrite live_shift, fmap_drop by done. by apply Forall_drop.
  - rewrite live_length by by apply cache_shift_ok. destruct Hk as [? Hn].
    unfold BUXN_JIT_CACHE_SIZE in *. simpl. lia.
  - intros [] c' (Hc' & Hf' & Hk'). rewrite !Hk', get_set_cache_eq, get_set_cache_ne.
    split; [done|]. split; [|done]. rewrite Hf'. apply frame_set_cache.
Qed.
End Safety.
