(* ===== verification/OpcodeSafety.v ===== *)
(** * Safety of the opcode handlers

    From a well-formed context every opcode handler of Opcodes.v finishes: no
    assertion fails, and the context it leaves is well formed.  The handlers
    that compile the next opcode themselves (boolean jumps) are verified
    against the contract [NextOk] of [buxn_jit_next_opcode]. *)
From S2P Require Import Prelude Lir Hamt Jit Queues StackCache MicroOps Opcodes Invariant CacheSafety.
From Stdlib Require Import Permutation.
Local Open Scope jit_scope.

(** ** Well-formed contexts *)

Definition val_ok (v : buxn_jit_value_t) : Prop := is_u8 (v_const_value v).

Record vals_ok (c : buxn_jit_ctx_t) : Prop := {
  vo_wst : Forall val_ok (wst c);
  vo_rst : Forall val_ok (rst c);
  vo_pc : is_u16 (pc c);
}.

Definition Good (c : buxn_jit_ctx_t) (H : list sreg) : Prop :=
  Inv c H /\ vals_ok c /\ jit_ok (jit c).

(** A well-formed context whose compiler may be finished: [ctx->compiler] is
    put back. *)
Definition GoodX (c : buxn_jit_ctx_t) (H : list sreg) : Prop :=
  forall k, Good (set_compiler_ptr (fun _ => Some k) c) H.

(** Reached from [c0] within one opcode, holding [H]. *)
Definition At (c0 : buxn_jit_ctx_t) (H : list sreg) (c : buxn_jit_ctx_t) : Prop :=
  Good c H /\ grows (jit c0) (jit c) /\ pc c = pc c0 /\
  block c = block c0 /\ entry_pc c = entry_pc c0.

Lemma at_refl c H : Good c H -> At c H c.
Proof. intros. split; [done|]. split; [apply grows_refl|done]. Qed.

Lemma at_good c0 H c : At c0 H c -> Good c H.
Proof. intros [? _]. done. Qed.

Lemma at_frame c0 H c H' c' : At c0 H c -> Inv c' H' -> frame c' = frame c -> At c0 H' c'.
Proof.
  intros ((_ & [] & ?) & ? & ? & ? & ?) Hi Hf. unfold frame in Hf.
  split; [split; [done|split; [split; congruence|congruence]]|].
  split; [congruence|]. split; [congruence|]. split; congruence.
Qed.

Lemma at_perm c0 H H' c : Permutation H H' -> At c0 H c -> At c0 H' c.
Proof. intros Hp [[Hi ?] ?]. split; [|done]. split; [|done]. by eapply inv_perm. Qed.

Lemma good_x c H : Good c H -> GoodX c H.
Proof.
  intros ([[Hp Hk Hn Hc Ho] HH] & Hv & Hj) k. split; [|split; [by destruct Hv|done]].
  split; [|done]. by split.
Qed.

Lemma value_at_ok l i : Forall val_ok l -> val_ok (value_at l i).
Proof.
  intros Hl. unfold value_at. rewrite nth_lookup.
  destruct (l !! _) as [v|] eqn:E; simpl; [|unfold val_ok; simpl; mlia].
  by eapply Forall_lookup_1.
Qed.

Lemma set_value_ok l i v : Forall val_ok l -> val_ok v -> Forall val_ok (set_value i v l).
Proof. intros. unfold set_value. by apply Forall_insert. Qed.

Lemma div_range a b : is_u16 a -> is_u16 b -> b <> 0 -> is_u16 (a / b).
Proof.
  unfold is_u16. intros. split; [apply Z.div_pos; lia|].
  apply Z.le_lt_trans with a; [apply Z.div_le_upper_bound; nia|lia].
Qed.

Section Handlers.
Context {Lay : VmLayout} {SL : Sljit}.

(** ** The steps of a handler

    Each lemma runs one operation at the head of a sequence. *)
Section Steps.
Context {B : Type} (c0 : buxn_jit_ctx_t) (H : list sreg) (Q : B -> buxn_jit_ctx_t -> Prop)
  (c : buxn_jit_ctx_t).

Lemma at_emit {A} (m : J A) (k : A -> J B) :
  Emits m -> At c0 H c -> (forall a c', At c0 H c' -> wp (k a) Q c') -> wp (bind m k) Q c.
Proof.
  intros Hm Hat Hk. apply wp_bind. eapply wp_mono; [apply inv_emits; [done|apply Hat]|].
  intros a c' [Hi Hs]. apply Hk. eapply at_frame; [done|done|]. unfold shape in Hs. congruence.
Qed.

Lemma at_quiet {A} H' (m : J A) (k : A -> J B) P :
  At c0 H c -> wp m (fun a c' => Inv c' (H' a) /\ quiet c c' /\ P a c') c ->
  (forall a c', At c0 (H' a) c' -> P a c' -> wp (k a) Q c') -> wp (bind m k) Q c.
Proof.
  intros Hat Hm Hk. apply wp_bind. eapply wp_mono; [exact Hm|].
  intros a c' (Hi & [Hf _] & HP). apply Hk; [|done]. by eapply at_frame.
Qed.

Lemma at_alloc (k : sreg -> J B) :
  (length H < NUM_OP_REGS)%nat -> At c0 H c ->
  (forall r c', At c0 (r :: H) c' -> wp (k r) Q c') -> wp (bind buxn_jit_alloc_reg k) Q c.
Proof.
  intros HH Hat Hk. apply (at_quiet (fun r => r :: H) _ _ (fun _ _ => True)); [exact Hat| |eauto].
  eapply wp_mono; [apply wp_alloc; [apply Hat|done]|]. intros r c' (? & ? & _). done.
Qed.

Lemma at_discard flag_r flag_2 (k : unit -> J B) :
  (length H < NUM_OP_REGS)%nat -> At c0 H c ->
  (forall c', At c0 H c' -> wp (k tt) Q c') ->
  wp (bind (buxn_jit_stack_cache_discard flag_r flag_2) k) Q c.
Proof.
  intros HH Hat Hk. eapply (at_quiet (fun _ => H) _ _ (fun _ _ => True)); [exact Hat| |].
  - eapply wp_mono; [apply wp_discard; [apply Hat|done]|]. intros [] c' [? ?]. done.
  - intros [] c' ? _. auto.
Qed.

Lemma at_clear (k : unit -> J B) :
  At c0 H c -> (forall c', At c0 H c' -> wp (k tt) Q c') ->
  wp (bind buxn_jit_clear_stack_caches k) Q c.
Proof.
  intros Hat Hk. eapply (at_quiet (fun _ => H) _ _ (fun _ _ => True)); [exact Hat| |].
  - eapply wp_mono; [apply wp_clear; apply Hat|]. intros [] c' (? & ? & _). done.
  - intros [] c' ? _. auto.
Qed.
End Steps.

(** Changes of the compile-time stacks. *)
Lemma at_vals c0 H c c' :
  At c0 H c ->
  (forall L, Counted c L -> Counted c' L) -> owned c' H = owned c H ->
  jit c' = jit c -> pc c' = pc c -> block c' = block c -> entry_pc c' = entry_pc c ->
  Forall val_ok (wst c') -> Forall val_ok (rst c') -> At c0 H c'.
Proof.
  intros (([Hc HH] & [] & ?) & ? & ? & ? & ?) HC Ho Hj Hp Hb He Hw Hr.
  split; [split; [split; [rewrite Ho; auto|done]|]|].
  - split; [split; try done; congruence|congruence].
  - rewrite Hj, Hp, Hb, He. done.
Qed.

Lemma counted_same c c' L :
  compiler_ptr c' = compiler_ptr c ->
  wst_cache c' = wst_cache c -> rst_cache c' = rst_cache c ->
  reg_ref_counts c' = reg_ref_counts c -> Counted c L -> Counted c' L.
Proof.
  intros Hp Hw Hr Hn [? Hc ? Hcnt ?]. split; try congruence.
  - intros [|]; [specialize (Hc true)|specialize (Hc false)]; cbn [get_cache] in *; congruence.
  - unfold ref_count in *. rewrite Hn. done.
Qed.

Lemma good_wst c0 H c : At c0 H c -> Forall val_ok (wst c).
Proof. intros [(_ & [] & _) _]. done. Qed.
Lemma good_rst c0 H c : At c0 H c -> Forall val_ok (rst c).
Proof. intros [(_ & [] & _) _]. done. Qed.

Lemma at_push_value c0 H flag_r v c :
  At c0 H c -> val_ok v -> wp (push_value flag_r v) (fun _ c' => At c0 H c') c.
Proof.
  intros Hat Hv. pose proof (good_wst _ _ _ Hat). pose proof (good_rst _ _ _ Hat).
  unfold push_value. destruct flag_r; apply wp_modify;
    (eapply at_vals; [exact Hat|intros L; by apply counted_same|done..| |];
     simpl; try apply set_value_ok; done).
Qed.

Lemma at_pop_value c0 H flag_r c :
  At c0 H c -> wp (pop_value flag_r) (fun v c' => At c0 H c' /\ val_ok v) c.
Proof.
  intros Hat. pose proof (good_wst _ _ _ Hat). pose proof (good_rst _ _ _ Hat).
  unfold pop_value. destruct flag_r; apply wp_bind, wp_modify, wp_gets.
  - destruct (ersp c); (split; [eapply at_vals; [exact Hat|intros L; by apply counted_same|done..]|]);
      by apply value_at_ok.
  - destruct (ewsp c); (split; [eapply at_vals; [exact Hat|intros L; by apply counted_same|done..]|]);
      by apply value_at_ok.
Qed.

(** What a popped operand promises. *)
Definition operand_ok (flag_2 : bool) (o : buxn_jit_operand_t) : Prop :=
  is_u16 (const_value o) /\ is_short o = flag_2.

Lemma at_pop_ex {B} c0 H (Q : B -> _ -> Prop) c flag_2 flag_r (k : _ -> J B) :
  (length H < NUM_OP_REGS - 1)%nat -> At c0 H c ->
  (forall o c', At c0 (reg o :: H) c' -> operand_ok flag_2 o -> wp (k o) Q c') ->
  wp (bind (buxn_jit_pop_ex flag_2 flag_r) k) Q c.
Proof.
  intros HH Hat Hk. apply wp_bind. unfold buxn_jit_pop_ex. apply wp_bind.
  match goal with |- wp ?m _ c =>
    assert (wp m (fun sc c' => At c0 H c' /\ is_u16 (snd sc)) c) as Hw end.
  { destruct flag_2.
    - wp_op at_pop_value; [done|]. intros lo c1 [Hat1 Hlo].
      wp_op at_pop_value; [done|]. intros hi c2 [Hat2 Hhi]. apply wp_ret. split; [done|].
      destruct (has_bit _ _ && has_bit _ _); [by apply short_range|simpl; mlia].
    - wp_op at_pop_value; [done|]. intros v c1 [Hat1 Hv]. apply wp_ret. split; [done|].
      unfold val_ok in Hv. simpl. mlia. }
  eapply wp_mono; [exact Hw|]. intros [sem const] c1 [Hat1 Hconst].
  apply (at_quiet c0 H _ _ (fun r => r :: H) _ _ (fun _ _ => True)); [done| |].
  - eapply wp_mono; [apply wp_cache_pop; [apply Hat1|done]|]. intros r c' [? ?]. done.
  - intros r c2 Hat2 _. apply wp_ret. apply Hk; [exact Hat2|split; done].
Qed.

Lemma at_pop {B} c0 H (Q : B -> _ -> Prop) c (k : _ -> J B) :
  (length H < NUM_OP_REGS - 1)%nat -> At c0 H c ->
  (forall flag_2 o c', At c0 (reg o :: H) c' -> operand_ok flag_2 o -> wp (k o) Q c') ->
  wp (bind buxn_jit_pop k) Q c.
Proof.
  intros HH Hat Hk. apply wp_bind. unfold buxn_jit_pop. apply wp_bind, wp_gets, wp_bind, wp_gets.
  apply wp_tail, at_pop_ex with c0 H; [done..|]. intros o c' ??. apply wp_ret. eauto.
Qed.

(** A held register is in use. *)
Lemma held_ref_count c H r :
  Inv c H -> r ∈ H ->
  match op_index r with Some i => ref_count c i | None => 0 end <> 0.
Proof.
  intros [Hc HH] Hr. destruct (inv_held_op c H r) as (i & Hi & ->); [done..|].
  rewrite op_index_op, (inv_counts _ _ Hc) by done.
  assert (occ (op_reg i) (owned c H) <> 0%nat); [|lia].
  rewrite occ_zero. unfold owned. rewrite !elem_of_app. intros Hn. apply Hn. auto.
Qed.

Lemma at_push_ex c0 H c o flag_r :
  At c0 H c -> reg o ∈ H -> is_u16 (const_value o) ->
  wp (buxn_jit_push_ex o flag_r) (fun _ c' => At c0 H c') c.
Proof.
  intros Hat Hr Hv. unfold buxn_jit_push_ex. apply wp_bind, wp_gets, wp_bind, wp_assert.
  { apply Bool.negb_true_iff, Z.eqb_neq. eapply held_ref_count; [apply Hat|done]. }
  wp_op wp_cache_push; [apply Hat|done|]. intros [] c1 [Hi1 Hf1].
  pose proof (at_frame _ _ _ _ _ Hat Hi1 Hf1) as Hat1.
  destruct (halves_range (const_value o) Hv) as [Hhi Hlo].
  destruct (is_short o).
  - wp_op at_push_value; [done..|]. intros [] c2 Hat2. by apply at_push_value.
  - apply at_push_value; [done|apply u8_range].
Qed.

Lemma at_push {B} c0 H (Q : B -> _ -> Prop) c o (k : unit -> J B) :
  reg o ∈ H -> is_u16 (const_value o) -> At c0 H c ->
  (forall c', At c0 H c' -> wp (k tt) Q c') -> wp (bind (buxn_jit_push o) k) Q c.
Proof.
  intros Hr Hv Hat Hk. apply wp_bind. unfold buxn_jit_push. apply wp_bind, wp_gets.
  eapply wp_mono; [by apply at_push_ex|]. intros [] c' ?. auto.
Qed.

Lemma at_push_r {B} c0 H (Q : B -> _ -> Prop) c o flag_r (k : unit -> J B) :
  reg o ∈ H -> is_u16 (const_value o) -> At c0 H c ->
  (forall c', At c0 H c' -> wp (k tt) Q c') -> wp (bind (buxn_jit_push_ex o flag_r) k) Q c.
Proof.
  intros Hr Hv Hat Hk. apply wp_bind.
  eapply wp_mono; [by apply at_push_ex|]. intros [] c' ?. auto.
Qed.

(** ** Emissions the handlers make *)

Lemma emits_load r addr : Emits (buxn_jit_load r addr).
Proof. unfold buxn_jit_load. solve_emits. Qed.

Lemma emits_store addr v : Emits (buxn_jit_store addr v).
Proof. unfold buxn_jit_store. solve_emits. Qed.

Lemma emits_wrap o : Emits (buxn_jit_wrap_around o).
Proof. unfold buxn_jit_wrap_around. solve_emits. Qed.

Lemma emits_relative addr : Emits (relative_addr addr).
Proof. unfold relative_addr. solve_emits. Qed.

Lemma emits_load_state : Emits buxn_jit_load_state.
Proof. unfold buxn_jit_load_state. solve_emits. Qed.

Lemma emits_save_state : Emits buxn_jit_save_state.
Proof. unfold buxn_jit_save_state. solve_emits. Qed.

Lemma at_load {B} c0 H (Q : B -> _ -> Prop) c r addr (k : _ -> J B) :
  At c0 H c ->
  (forall o c', At c0 H c' -> reg o = r -> is_u16 (const_value o) -> wp (k o) Q c') ->
  wp (bind (buxn_jit_load r addr) k) Q c.
Proof.
  intros Hat Hk. unfold buxn_jit_load. apply wp_assoc, wp_bind, wp_gets.
  do 4 (apply wp_assoc; eapply at_emit; [|eassumption|]; [solve [solve_emits]|clear Hat; intros _ ? Hat]).
  apply wp_bind, wp_ret. eapply Hk; [eassumption|done|simpl; mlia].
Qed.

End Handlers.

#[export] Hint Resolve emits_load emits_store emits_wrap emits_relative emits_load_state
  emits_save_state : jit.

(** A handler that runs without compiling another opcode. *)
Definition Safe (h : J unit) : Prop := forall c H,
  Good c H -> (length H <= 2)%nat -> wp h (fun _ c' => exists H', At c H' c') c.

Lemma safe_ret c0 H c : At c0 H c -> wp (ret tt) (fun _ c' => exists H', At c0 H' c') c.
Proof. intros. apply wp_ret. eauto. Qed.

(** ** Automation: one step of a handler *)

Ltac held := solve [rewrite ?elem_of_cons; auto 10].
Ltac room := solve [cbn [length] in *; change NUM_OP_REGS with 6%nat in *; lia].
Ltac is_const := solve [assumption | apply u16_range | simpl; mlia].

(** Run the next operation of a handler. *)
Ltac jstep :=
  cbv zeta;
  lazymatch goal with
  | |- wp (ret tt) _ _ => eapply safe_ret; eassumption
  | |- wp (bind (gets _) _) _ _ => apply wp_bind, wp_gets
  | |- wp (bind (bind _ _) _) _ _ => apply wp_assoc
  | |- wp (bind buxn_jit_pop _) _ _ =>
      eapply at_pop; [|eassumption|]; [room|intros ???? [??]]
  | |- wp (bind (buxn_jit_pop_ex _ _) _) _ _ =>
      eapply at_pop_ex; [|eassumption|]; [room|intros ??? [??]]
  | |- wp (bind buxn_jit_alloc_reg _) _ _ =>
      eapply at_alloc; [|eassumption|]; [room|intros ???]
  | |- wp (bind (buxn_jit_load _ _) _) _ _ =>
      eapply at_load; [eassumption|intros ??? <- ?]
  | |- wp (bind (buxn_jit_push _) _) _ _ =>
      eapply at_push; [..|eassumption|]; [simpl; held|cbn [const_value]; is_const|intros ??]
  | |- wp (bind (buxn_jit_push_ex _ _) _) _ _ =>
      eapply at_push_r; [..|eassumption|]; [simpl; held|cbn [const_value]; is_const|intros ??]
  | |- wp (bind (buxn_jit_stack_cache_discard _ _) _) _ _ =>
      eapply at_discard; [|eassumption|]; [room|intros ??]
  | |- wp (bind buxn_jit_clear_stack_caches _) _ _ =>
      eapply at_clear; [eassumption|intros ??]
  | |- wp (bind _ _) _ _ => eapply at_emit; [|eassumption|]; [solve [solve_emits]|intros ???]
  end.

Ltac safe_start := intros ? ? ? ?; pose proof (at_refl _ _ ltac:(eassumption));
  apply wp_tail_tt.
Ltac safe := safe_start; repeat jstep.

Section HandlersSafe.
Context {Lay : VmLayout} {SL : Sljit}.

Lemma safe_compare f cc : Safe (compare_op f cc).
Proof. unfold compare_op. safe. Qed.

Lemma safe_arith o fold wraps : Safe (arith_op o fold wraps).
Proof. unfold arith_op. safe. Qed.

Lemma safe_INC : Safe buxn_jit_INC.
Proof.
  unfold buxn_jit_INC. safe.
  eapply at_push; [..|eassumption|]; [simpl; held| |intros ??; repeat jstep].
  cbn [const_value]. destruct (has_bit _ _); is_const.
Qed.

(** [ctx->wsp -= size] *)
Lemma at_drop {B} c0 H (Q : B -> _ -> Prop) c f (k : unit -> J B) :
  (f = set_wsp \/ f = set_rsp) -> At c0 H c -> forall g,
  (forall c', At c0 H c' -> wp (k tt) Q c') -> wp (bind (modify (f g)) k) Q c.
Proof.
  intros Hf Hat g Hk. apply wp_bind, wp_modify, Hk.
  pose proof (good_wst _ _ _ Hat). pose proof (good_rst _ _ _ Hat).
  destruct Hf as [-> | ->];
    (eapply at_vals; [exact Hat|intros L; by apply counted_same|done..]).
Qed.

Lemma at_POP {B} c0 H (Q : B -> _ -> Prop) c (k : unit -> J B) :
  (length H < NUM_OP_REGS)%nat -> At c0 H c ->
  (forall c', At c0 H c' -> wp (k tt) Q c') -> wp (bind buxn_jit_POP k) Q c.
Proof.
  intros HH Hat Hk. unfold buxn_jit_POP. apply wp_assoc, wp_bind, wp_gets.
  destruct (buxn_jit_op_flag_k c); [apply wp_bind, wp_ret; auto|].
  apply wp_assoc, wp_bind, wp_gets, wp_assoc, wp_bind, wp_gets.
  destruct (buxn_jit_op_flag_r c); apply wp_assoc;
    (eapply at_drop; [auto|exact Hat|]; intros c1 Hat1;
     eapply at_discard; [done|exact Hat1|auto]).
Qed.

Lemma safe_POP : Safe buxn_jit_POP.
Proof.
  safe. eapply at_POP; [|eassumption|]; [room|intros ??; repeat jstep].
Qed.

Lemma safe_NIP : Safe buxn_jit_NIP.
Proof.
  unfold buxn_jit_NIP. safe.
  eapply at_POP; [|eassumption|]; [room|intros ??; repeat jstep].
Qed.

Lemma safe_SWP : Safe buxn_jit_SWP.
Proof. unfold buxn_jit_SWP. safe. Qed.
Lemma safe_ROT : Safe buxn_jit_ROT.
Proof. unfold buxn_jit_ROT. safe. Qed.
Lemma safe_DUP : Safe buxn_jit_DUP.
Proof. unfold buxn_jit_DUP. safe. Qed.
Lemma safe_OVR : Safe buxn_jit_OVR.
Proof. unfold buxn_jit_OVR. safe. Qed.
Lemma safe_STH : Safe buxn_jit_STH.
Proof. unfold buxn_jit_STH. safe. Qed.
Lemma safe_DIV : Safe buxn_jit_DIV.
Proof.
  unfold buxn_jit_DIV. safe.
  eapply at_push; [..|eassumption|]; [simpl; held| |intros ??; repeat jstep].
  cbn [const_value]. destruct (has_bit _ _ && _) eqn:E; [|simpl; mlia].
  apply andb_prop in E as [_ Hnz%Bool.negb_true_iff%Z.eqb_neq]. by apply div_range.
Qed.

Lemma safe_SFT : Safe buxn_jit_SFT.
Proof. unfold buxn_jit_SFT. safe. Qed.

Lemma safe_LDZ : Safe buxn_jit_LDZ.
Proof. unfold buxn_jit_LDZ. safe. Qed.
Lemma safe_LDR : Safe buxn_jit_LDR.
Proof. unfold buxn_jit_LDR. safe. Qed.
Lemma safe_LDA : Safe buxn_jit_LDA.
Proof. unfold buxn_jit_LDA. safe. Qed.
Lemma safe_STZ : Safe buxn_jit_STZ.
Proof. unfold buxn_jit_STZ. safe. Qed.
Lemma safe_STR : Safe buxn_jit_STR.
Proof. unfold buxn_jit_STR. safe. Qed.
Lemma safe_STA : Safe buxn_jit_STA.
Proof. unfold buxn_jit_STA. safe. Qed.
Lemma safe_DEI : Safe buxn_jit_DEI.
Proof. unfold buxn_jit_DEI, device_call. safe. Qed.
Lemma safe_DEO : Safe buxn_jit_DEO.
Proof. unfold buxn_jit_DEO, store_device_page, device_call. safe. Qed.
End HandlersSafe.
