(* ===== verification/BlockSafety.v ===== *)
(** * Safety and termination of compiling a block

    Jumps, immediates, [buxn_jit_next_opcode] and [buxn_jit_compile]: for any
    program and any opcode table the compilation of a block finishes, without
    a failed assertion, after at most one opcode per address. *)
From S2P Require Import Prelude Lir Hamt Jit Queues StackCache MicroOps Opcodes Compile Invariant CacheSafety OpcodeSafety.
From Stdlib Require Import Permutation.
Local Open Scope jit_scope.

(** ** Progress of the program counter

    [meas pc] bounds the opcodes left before the block ends: the zero page,
    where the counter wraps to, ends it. *)
Definition meas (p : Z) : Z := if p <? 256 then 0 else 65536 - p.

(** The program counter right after an opcode was fetched. *)
Definition fetched (p : Z) : Prop := p = 0 \/ 257 <= p < 65536.

Lemma meas_fetch p : is_u16 p -> 256 <= p -> fetched (u16 (p + 1)) /\ meas (u16 (p + 1)) < meas p.
Proof.
  intros Hu Hp. unfold fetched, meas. destruct (decide (p = 65535)) as [->|]; [vm_compute; intuition|].
  rewrite u16_id by mlia. destruct (Z.ltb_spec (p + 1) 256), (Z.ltb_spec p 256); mlia.
Qed.

Lemma meas_advance p n : fetched p -> 0 <= n <= 2 -> meas (u16 (p + n)) <= meas p.
Proof.
  intros [->|Hp] Hn; unfold meas.
  - rewrite u16_id by mlia. destruct (Z.ltb_spec (0 + n) 256); [simpl; lia|lia].
  - destruct (Z.ltb_spec p 256); [lia|]. unfold u16.
    destruct (Z.ltb_spec ((p + n) mod 65536) 256); [lia|].
    destruct (Z.ltb_spec (p + n) 65536); [rewrite Z.mod_small in * by lia; lia|].
    rewrite <- (Z.mod_unique (p + n) 65536 1 (p + n - 65536)) in * by lia. lia.
Qed.

Lemma meas_nonneg p : is_u16 p -> 0 <= meas p.
Proof. intros. unfold meas. destruct (Z.ltb_spec p 256); mlia. Qed.

(** Reached from [c0], possibly across nested opcodes. *)
Definition Near (c0 : buxn_jit_ctx_t) (c : buxn_jit_ctx_t) : Prop :=
  grows (jit c0) (jit c) /\ block c = block c0 /\ entry_pc c = entry_pc c0 /\
  meas (pc c) <= meas (pc c0).

Lemma near_at c0 H c : At c0 H c -> Near c0 c.
Proof. intros (_ & ? & Hp & ? & ?). unfold Near. rewrite Hp. auto using Z.le_refl. Qed.

Lemma near_trans c1 c2 c3 : Near c1 c2 -> Near c2 c3 -> Near c1 c3.
Proof.
  intros (? & ? & ? & ?) (? & ? & ? & ?). split; [by eapply grows_trans|].
  split; [congruence|]. split; [congruence|lia].
Qed.

(** [next] compiles one opcode: it progresses or ends the block. *)
Definition NextOk (n : Z) (next : J unit) : Prop := forall c H,
  Good c H -> meas (pc c) < n ->
  wp next (fun _ c' => Near c c' /\ (exists H', GoodX c' H') /\
    (meas (pc c') < meas (pc c) \/ compiler_ptr c' = None)) c.

Lemma goodx_good c H k : GoodX c H -> compiler_ptr c = Some k -> Good c H.
Proof. intros Hx Hk. specialize (Hx k). destruct c. simpl in *. subst. exact Hx. Qed.

Section Blocks.
Context {Lay : VmLayout} {SL : Sljit}.

(** ** Linking *)

Lemma at_set_jit c0 H c s :
  At c0 H c -> jit_ok s -> grows (jit c) s -> At c0 H (set_jit (fun _ => s) c).
Proof.
  intros (([Hc HH] & [] & ?) & Hg & Hp & Hb & He) Hs Hg'.
  split; [split; [split; [|done]|split; [by split|done]]|].
  - destruct Hc. by split.
  - split; [by eapply grows_trans|done].
Qed.

Lemma at_queue_link {B} c0 H (Q : B -> _ -> Prop) c t target j (k : unit -> J B) :
  is_u16 target -> At c0 H c -> (forall c', At c0 H c' -> wp (k tt) Q c') ->
  wp (bind (queue_link t target j) k) Q c.
Proof.
  intros Ht Hat Hk. apply wp_bind. unfold queue_link.
  destruct (alloc_entry_pool (jit c)) as [pool Hpool].
  unfold on_jit, bind, gets, modify, wp.
  destruct (buxn_jit_alloc_entry (jit c)) as [e s1] eqn:E1. simpl in Hpool. subst s1.
  cbn [jit set_jit]. assert (jit_ok (jit c)) as Hok by apply Hat.
  destruct (queue_block_spec _ _ (jit_ok_pool _ pool Hok) Ht) as (b & s2 & -> & Hok2 & Hg2 & Hb).
  apply Hk. cbn [jit set_jit].
  destruct (jit_ok_link s2 t b (default 0%nat (compiler_ptr c)) j Hok2 ltac:(by eexists)) as [Hok3 Hg3].
  apply (at_set_jit _ _ _ _ Hat Hok3).
  eapply grows_trans; [apply (grows_pool _ pool)|]. by eapply grows_trans.
Qed.

Ltac link := eapply at_queue_link; [|eassumption|]; [assumption|intros ??].

(** ** Jumps *)

Lemma at_jump_abs c0 H c target ret_addr :
  is_u16 (const_value target) -> At c0 H c ->
  wp (buxn_jit_jump_abs target ret_addr) (fun _ c' => At c0 H c') c.
Proof.
  intros Ht Hat. unfold buxn_jit_jump_abs.
  assert (forall o c', At c0 H c' ->
    wp (sljit_emit_return SLJIT_MOV32 (AReg (reg target)) ;;;
        match o with Some e => set_label_here e | None => ret tt end)
       (fun _ c' => At c0 H c') c') as Hend.
  { intros o c1 Hat1. jstep. apply wp_tail_tt. jstep. by apply wp_ret. }
  destruct (has_bit (semantics target) BUXN_JIT_SEM_CONST); [|apply wp_bind, wp_ret; by apply (Hend None)].
  destruct (ret_addr =? 0).
  - repeat jstep. link. apply wp_bind, wp_ret. by apply (Hend None).
  - repeat jstep. link. apply wp_bind, wp_ret. by apply (Hend (Some _)).
Qed.

(** The outcome of a jump handler: well formed, with the compiler set. *)
Definition Jumped (c : buxn_jit_ctx_t) (u : unit) (c' : buxn_jit_ctx_t) : Prop :=
  Near c c' /\ exists H', Good c' H'.

Lemma wp_jump n next c H target ret_addr :
  NextOk n next -> meas (pc c) < n -> is_u16 (const_value target) -> Good c H ->
  wp (buxn_jit_jump next target ret_addr) (Jumped c) c.
Proof.
  intros Hnext Hn Ht Hg. pose proof (at_refl _ _ Hg) as Hat. unfold buxn_jit_jump. jstep.
  assert (forall c1, At c H c1 -> Jumped c tt c1) as Hdone.
  { intros c1 Hc1. split; [by eapply near_at|]. exists H. apply Hc1. }
  destruct (is_short target).
  { eapply wp_mono; [by apply at_jump_abs|]. intros [] c1 ?. auto. }
  destruct (has_bit (semantics target) BUXN_JIT_SEM_BOOLEAN).
  - repeat jstep. rename c' into c1, c'0 into c2. apply wp_bind.
    assert (pc c2 = pc c) as Hpc by apply H1.
    eapply wp_mono; [eapply Hnext; [apply H1|by rewrite Hpc]|].
    intros [] c3 (Hn3 & [H3 Hx3] & _). apply wp_bind, wp_modify.
    destruct (inv_compiler _ _ ltac:(apply H0)) as [k ->].
    pose proof (at_refl _ _ (Hx3 k)) as Hat3. repeat jstep. apply wp_tail_tt. jstep. apply wp_ret.
    split; [|by eexists; eapply at_good].
    eapply near_trans; [by eapply near_at|]. eapply near_trans; [done|].
    eapply (near_trans _ (set_compiler_ptr (fun _ => Some k) c3)); [|by eapply near_at].
    split; [apply grows_refl|]. auto using Z.le_refl.
  - repeat jstep. eapply wp_mono; [apply at_jump_abs; [apply u16_range|eassumption]|].
    intros [] c1 ?. auto.
Qed.

Lemma wp_conditional_jump n next c H condition target :
  NextOk n next -> meas (pc c) < n -> is_u16 (const_value target) -> Good c H ->
  wp (buxn_jit_conditional_jump next condition target) (Jumped c) c.
Proof.
  intros Hnext Hn Ht Hg. pose proof (at_refl _ _ Hg) as Hat.
  unfold buxn_jit_conditional_jump. repeat jstep. rename c'1 into c1.
  assert (pc c1 = pc c) as Hpc by apply H2.
  wp_op wp_jump; [done|by rewrite Hpc|done|apply H2|]. intros [] c2 [Hn2 [H' Hg2]].
  pose proof (at_refl _ _ Hg2). apply wp_tail_tt. jstep. apply wp_ret.
  split; [|by eexists; eapply at_good].
  eapply near_trans; [by eapply near_at|]. eapply near_trans; [done|by eapply near_at].
Qed.

(** ** Immediates *)

(** Moving the program counter over an immediate. *)
Lemma near_advance c H n :
  Good c H -> fetched (pc c) -> 0 <= n <= 2 ->
  wp (advance_pc n) (fun _ c' => Good c' H /\ Near c c') c.
Proof.
  intros ([Hc HH] & [] & Hj) Hf Hn. unfold advance_pc. apply wp_modify. split.
  - split; [split; [by destruct Hc|done]|split; [split; [done|done|apply u16_range]|done]].
  - split; [apply grows_refl|]. split; [done|]. split; [done|]. by apply meas_advance.
Qed.

Lemma good_rom c H a : Good c H -> is_u8 (read_memory c a).
Proof. intros (_ & _ & Hj). apply (ok_rom _ Hj). Qed.

(** The outcome of any handler. *)
Definition Finished (c : buxn_jit_ctx_t) (u : unit) (c' : buxn_jit_ctx_t) : Prop :=
  Near c c' /\ exists H', GoodX c' H'.

Lemma finished_jumped c u c' : Jumped c u c' -> Finished c u c'.
Proof. intros [? [H' ?]]. split; [done|]. exists H'. by apply good_x. Qed.

Lemma finished_near c c1 u c2 : Near c c1 -> Finished c1 u c2 -> Finished c u c2.
Proof. intros ? [? ?]. split; [by eapply near_trans|done]. Qed.

Lemma wp_finalize c0 c H :
  Near c0 c -> GoodX c H -> wp buxn_jit_finalize (Finished c0) c.
Proof.
  intros Hn Hx. apply wp_modify. split; [exact Hn|]. exists H. intros k. apply (Hx k).
Qed.

Definition HandlerOk (n : Z) (h : J unit) : Prop := forall c H,
  Good c H -> (length H <= 2)%nat -> fetched (pc c) -> meas (pc c) < n -> wp h (Finished c) c.

Lemma handler_safe n h : Safe h -> HandlerOk n h.
Proof.
  intros Hs c H Hg HH _ _. eapply wp_mono; [by apply (Hs c H)|].
  intros [] c' [H' Hat]. split; [by eapply near_at|]. exists H'. apply good_x. by eapply at_good.
Qed.

Lemma handler_BRK n : HandlerOk n buxn_jit_BRK.
Proof.
  intros c H Hg _ _ _. pose proof (at_refl _ _ Hg). unfold buxn_jit_BRK. repeat jstep.
  eapply wp_finalize; [by eapply near_at|apply good_x; by eapply at_good].
Qed.

Lemma handler_JMP n next : NextOk n next -> HandlerOk n (buxn_jit_JMP next).
Proof.
  intros Hnext c H Hg HH _ Hn. pose proof (at_refl _ _ Hg). unfold buxn_jit_JMP. jstep.
  rename c' into c1. assert (pc c1 = pc c) as Hpc by apply H1.
  wp_op wp_jump; [done|by rewrite Hpc|done|by eapply at_good|]. intros [] c2 [Hn2 [H' Hg2]].
  eapply near_at in H1. destruct (negb _); cbn [when].
  - eapply wp_finalize; [by eapply near_trans|by apply good_x].
  - apply wp_ret. split; [by eapply near_trans|]. exists H'. by apply good_x.
Qed.

Lemma handler_JCN n next : NextOk n next -> HandlerOk n (buxn_jit_JCN next).
Proof.
  intros Hnext c H Hg HH _ Hn. pose proof (at_refl _ _ Hg). unfold buxn_jit_JCN. repeat jstep.
  match goal with Hat : At c (reg _ :: reg _ :: H) ?x |- _ => rename x into c1, Hat into Hat1 end.
  assert (pc c1 = pc c) as Hpc by apply Hat1.
  eapply wp_mono; [eapply wp_conditional_jump; [done|by rewrite Hpc|done|by eapply at_good]|].
  intros [] c2 Hj. eapply finished_near; [by eapply near_at|]. by apply finished_jumped.
Qed.

Lemma at_return_addr {B} c0 H (Q : B -> _ -> Prop) c flag_r (k : unit -> J B) :
  (length H <= 4)%nat -> At c0 H c ->
  (forall r c', At c0 (r :: H) c' -> wp (k tt) Q c') -> wp (bind (push_return_addr flag_r) k) Q c.
Proof.
  intros HH Hat Hk. unfold push_return_addr. repeat jstep. eauto.
Qed.

Lemma handler_JSR n next : NextOk n next -> HandlerOk n (buxn_jit_JSR next).
Proof.
  intros Hnext c H Hg HH _ Hn. pose proof (at_refl _ _ Hg). unfold buxn_jit_JSR. do 2 jstep.
  eapply at_return_addr; [|eassumption|]; [simpl; lia|]. intros r c1 Hat1. jstep.
  assert (pc c1 = pc c) as Hpc by apply Hat1.
  eapply wp_mono; [eapply wp_jump; [done|by rewrite Hpc|done|by eapply at_good]|].
  intros [] c2 Hj. eapply finished_near; [by eapply near_at|]. by apply finished_jumped.
Qed.

Lemma wp_immediate_jump_target c H :
  Good c H -> fetched (pc c) ->
  wp buxn_jit_immediate_jump_target
    (fun o c' => Good c' H /\ Near c c' /\ is_u16 (const_value o)) c.
Proof.
  intros Hg Hf. unfold buxn_jit_immediate_jump_target.
  apply wp_bind, wp_gets, wp_bind, wp_gets, wp_bind, wp_gets.
  wp_op near_advance; [done..|lia|]. intros [] c1 [Hg1 Hn1].
  pose proof (at_refl _ _ Hg1) as Hat1. repeat jstep. apply wp_ret.
  split; [by eapply at_good|]. split; [|apply u16_range].
  eapply near_trans; [done|]. by eapply near_at.
Qed.

Lemma handler_JMI n next : NextOk n next -> HandlerOk n (buxn_jit_JMI next).
Proof.
  intros Hnext c H Hg HH Hf Hn. unfold buxn_jit_JMI.
  wp_op wp_immediate_jump_target; [done..|]. intros target c1 (Hg1 & Hn1 & Ht).
  assert (meas (pc c1) <= meas (pc c)) by apply Hn1.
  wp_op wp_jump; [done|lia|done..|]. intros [] c2 [Hn2 [H' Hg2]].
  eapply wp_finalize; [by eapply near_trans|by apply good_x].
Qed.

Lemma handler_JCI n next : NextOk n next -> HandlerOk n (buxn_jit_JCI next).
Proof.
  intros Hnext c H Hg HH Hf Hn. pose proof (at_refl _ _ Hg). unfold buxn_jit_JCI. jstep.
  rename c' into c1. assert (pc c1 = pc c) as Hpc by apply H1.
  wp_op wp_immediate_jump_target; [by eapply at_good|by rewrite Hpc|].
  intros target c2 (Hg2 & Hn2 & Ht).
  assert (meas (pc c2) <= meas (pc c1)) by apply Hn2.
  eapply wp_mono; [eapply wp_conditional_jump; [done|rewrite <- Hpc in Hn; lia|done..]|].
  intros [] c3 Hj. eapply finished_near; [by eapply near_at|].
  eapply finished_near; [done|]. by apply finished_jumped.
Qed.

Lemma handler_JSI n next : NextOk n next -> HandlerOk n (buxn_jit_JSI next).
Proof.
  intros Hnext c H Hg HH Hf Hn. unfold buxn_jit_JSI.
  wp_op wp_immediate_jump_target; [done..|]. intros target c1 (Hg1 & Hn1 & Ht).
  assert (meas (pc c1) <= meas (pc c)) by apply Hn1. pose proof (at_refl _ _ Hg1).
  eapply at_return_addr; [|eassumption|]; [lia|]. intros r c2 Hat2. jstep.
  assert (pc c2 = pc c1) as Hpc by apply Hat2.
  eapply wp_mono; [eapply wp_jump; [done|rewrite Hpc; lia|done|by eapply at_good]|].
  intros [] c3 Hj. eapply finished_near; [exact Hn1|]. eapply finished_near; [by eapply near_at|].
  by apply finished_jumped.
Qed.

Lemma wp_immediate short c H :
  Good c H -> (length H <= 2)%nat -> fetched (pc c) ->
  wp (buxn_jit_immediate short)
    (fun o c' => Good c' (reg o :: H) /\ Near c c' /\ is_u16 (const_value o)) c.
Proof.
  intros Hg HH Hf. pose proof (at_refl _ _ Hg). unfold buxn_jit_immediate. do 2 jstep.
  rename c' into c1. assert (pc c1 = pc c) as Hpc by apply H1.
  assert (forall c2 k o, At c (r :: H) c2 -> 0 <= k <= 2 -> reg o = r -> is_u16 (const_value o) ->
    wp (advance_pc k ;;; ret o)
      (fun o c' => Good c' (reg o :: H) /\ Near c c' /\ is_u16 (const_value o)) c2) as Hend.
  { intros c2 k o Hat2 Hk Hr Ho.
    assert (pc c2 = pc c) as Hpc2 by apply Hat2.
    wp_op near_advance; [by eapply at_good|by rewrite Hpc2|done|].
    intros [] c3 [Hg3 Hn3]. apply wp_ret. rewrite Hr. split; [done|]. split; [|done].
    eapply near_trans; [by eapply near_at|done]. }
  destruct short; repeat jstep; (apply Hend; [eassumption|lia|done|]); simpl.
  - apply short_range; by eapply good_rom, at_good.
  - assert (is_u8 (read_memory c1 (pc c1))) by (by eapply good_rom, at_good). mlia.
Qed.

Lemma handler_LIT n : HandlerOk n buxn_jit_LIT.
Proof.
  intros c H Hg HH Hf Hn. unfold buxn_jit_LIT. jstep.
  wp_op wp_immediate; [done..|]. intros o c1 (Hg1 & Hn1 & Ho).
  pose proof (at_refl _ _ Hg1). apply wp_tail_tt. jstep. apply wp_ret.
  split; [eapply near_trans; [done|by eapply near_at]|].
  eexists. apply good_x. by eapply at_good.
Qed.

(** Every opcode name has a handler that finishes. *)
Lemma handler_dispatch n next name : NextOk n next -> HandlerOk n (dispatch next name).
Proof.
  intros Hnext. destruct name; cbn [dispatch];
    unfold buxn_jit_EQU, buxn_jit_NEQ, buxn_jit_GTH, buxn_jit_LTH, buxn_jit_ADD, buxn_jit_SUB,
      buxn_jit_MUL, buxn_jit_AND, buxn_jit_ORA, buxn_jit_EOR;
    [ apply handler_BRK | apply handler_safe, safe_INC | apply handler_safe, safe_POP |
      apply handler_safe, safe_NIP | apply handler_safe, safe_SWP |
      apply handler_safe, safe_ROT | apply handler_safe, safe_DUP |
      apply handler_safe, safe_OVR | apply handler_safe, safe_compare |
      apply handler_safe, safe_compare | apply handler_safe, safe_compare |
      apply handler_safe, safe_compare | by apply handler_JMP | by apply handler_JCN |
      by apply handler_JSR | apply handler_safe, safe_STH | apply handler_safe, safe_LDZ |
      apply handler_safe, safe_STZ | apply handler_safe, safe_LDR |
      apply handler_safe, safe_STR | apply handler_safe, safe_LDA |
      apply handler_safe, safe_STA | apply handler_safe, safe_DEI |
      apply handler_safe, safe_DEO | apply handler_safe, safe_arith |
      apply handler_safe, safe_arith | apply handler_safe, safe_arith |
      apply handler_safe, safe_DIV | apply handler_safe, safe_arith |
      apply handler_safe, safe_arith | apply handler_safe, safe_arith |
      apply handler_safe, safe_SFT | by apply handler_JCI | by apply handler_JMI |
      by apply handler_JSI | apply handler_LIT ].
Qed.

(** ** Fetching an opcode *)

Lemma counted_reset c L :
  Counted c L -> Counted (set_reg_ref_counts (fun _ => replicate NUM_OP_REGS 0) c) [].
Proof.
  intros [? Hk ? ? ?]. split; try done.
  intros i Hi. unfold ref_count. cbn [reg_ref_counts set_reg_ref_counts].
  rewrite nth_lookup. rewrite lookup_replicate_2 by done. done.
Qed.

(** The registers of the cells are counted afresh; nothing is held. *)
Lemma wp_refresh {B} c H (Q : B -> _ -> Prop) (k : unit -> J B) :
  Good c H -> (forall c', At c [] c' -> wp (k tt) Q c') ->
  wp (modify (set_reg_ref_counts (fun _ => replicate NUM_OP_REGS 0)) ;;;
      buxn_jit_stack_cache_retain false ;;; bind (buxn_jit_stack_cache_retain true) k) Q c.
Proof.
  intros Hg Hk. pose proof (at_refl _ _ Hg) as Hat. destruct Hg as [[Hc HH] _].
  assert (forall r, Forall is_op (regs_of (get_cache r c))) as Ho.
  { pose proof (inv_op _ _ Hc) as Ho. unfold owned in Ho. rewrite !Forall_app in Ho.
    intros [|]; apply Ho. }
  apply wp_bind, wp_modify. pose proof (counted_reset _ _ Hc) as Hc0.
  wp_op wp_cache_retain; [exact Hc0|apply (Ho false)|simpl; lia|].
  intros [] c1 (Hc1 & Hf1 & Hk1). cbn [negb get_cache] in *.
  wp_op (wp_cache_retain true); [exact Hc1|cbn [get_cache]; rewrite Hk1; apply (Ho true)| |].
  { pose proof (inv_cache _ _ Hc1 false) as Hk0. rewrite length_app. unfold regs_of.
    rewrite length_fmap, live_length by exact Hk0.
    destruct Hk0 as [_ Hn]. cbn [get_cache] in Hn. unfold BUXN_JIT_CACHE_SIZE in *. simpl. lia. }
  intros [] c2 (Hc2 & Hf2 & Hk2). cbn [negb get_cache] in *. apply Hk.
  eapply at_frame; [exact Hat| |rewrite Hf2, Hf1; done].
  split; [|simpl; lia]. eapply counted_perm; [|exact Hc2].
  unfold owned. rewrite Hk2, !app_nil_r. apply Permutation_app_comm.
Qed.

(** A change of fields that hold no invariant. *)
Definition vital (c : buxn_jit_ctx_t) :=
  (compiler_ptr c, wst_cache c, rst_cache c, reg_ref_counts c, jit c, pc c, block c,
   entry_pc c, wst c, rst c).

Lemma at_modify {B} c0 H (Q : B -> _ -> Prop) c f (k : unit -> J B) :
  (forall c, vital (f c) = vital c) -> At c0 H c ->
  (forall c', At c0 H c' -> wp (k tt) Q c') -> wp (bind (modify f) k) Q c.
Proof.
  intros Hf Hat Hk. apply wp_bind, wp_modify, Hk. specialize (Hf c). unfold vital in Hf.
  eapply at_vals; [exact Hat|intros L; apply counted_same; congruence|..]; try congruence.
  - unfold owned. congruence.
  - replace (wst (f c)) with (wst c) by congruence. by eapply good_wst.
  - replace (rst (f c)) with (rst c) by congruence. by eapply good_rst.
Qed.

Lemma at_call_jit_opcode {B} c0 H (Q : B -> _ -> Prop) c (k : unit -> J B) :
  At c0 H c -> (forall c', At c0 H c' -> wp (k tt) Q c') -> wp (bind call_jit_opcode k) Q c.
Proof.
  intros Hat Hk. apply wp_bind. unfold call_jit_opcode, buxn_jit_hook_mark_addr.
  apply wp_bind, wp_gets. destruct (hook (jit c)) as [h|]; [|apply wp_ret; auto].
  destruct (jit_opcode h) as [marks|]; [|apply wp_ret; auto].
  repeat jstep. apply wp_modify, Hk.
  match goal with Hat : At c0 H ?x |- At c0 H (set_jit _ ?x) =>
    apply (at_set_jit _ _ x _ Hat); [apply jit_ok_hook_log; apply Hat|apply grows_hook_log] end.
Qed.

Ltac step := first [ eapply at_modify; [done|eassumption|intros ??] | jstep ].

Lemma wp_shadow_stack c0 c :
  At c0 [] c -> wp shadow_stack (fun _ c' => exists H, At c0 H c' /\ (length H <= 2)%nat) c.
Proof.
  intros Hat. unfold shadow_stack. apply wp_bind, wp_gets.
  destruct (buxn_jit_op_flag_k c).
  - repeat step.
    match goal with Hx : At c0 [?a; ?b] ?x |- wp _ _ ?x =>
      eapply wp_mono; [apply wp_cache_flush; apply Hx|];
      intros [] c1 [Hi1 Hf1]; exists [a; b]; split; [by eapply at_frame|simpl; lia] end.
  - apply wp_tail_tt. repeat first [step]. 
    apply wp_ret. exists []. split; [eassumption|simpl; lia].
Qed.

(** What the dispatched handler starts from. *)
Definition Fetched (c0 : buxn_jit_ctx_t) (u : unit) (c : buxn_jit_ctx_t) : Prop :=
  Near c0 c /\ fetched (pc c) /\ meas (pc c) < meas (pc c0) /\
  exists H, Good c H /\ (length H <= 2)%nat.

Lemma good_advance c H n : Good c H -> Good (set_pc (fun p => u16 (p + n)) c) H.
Proof.
  intros ([Hc HH] & [] & Hj).
  split; [split; [by destruct Hc|done]|split; [split; [done|done|apply u16_range]|done]].
Qed.

Context {VM : BuxnVm}.

Lemma wp_fetch c H : Good c H -> 256 <= pc c -> wp fetch_opcode (Fetched c) c.
Proof.
  intros Hg Hpc. unfold fetch_opcode. apply (wp_refresh c H); [done|]. intros c1 Hat1.
  eapply at_modify; [done|exact Hat1|]. intros c2 Hat2.
  assert (pc c2 = pc c) as Hpc2 by apply Hat2.
  assert (is_u16 (pc c)) as Hu by apply Hg.
  destruct (meas_fetch _ Hu Hpc) as [Hf Hm].
  apply wp_bind, wp_modify. set (c3 := set_pc _ c2).
  assert (Good c3 []) as Hg3 by (apply good_advance, Hat2).
  assert (pc c3 = u16 (pc c + 1)) as Hpc3 by (rewrite <- Hpc2; done).
  eapply at_call_jit_opcode; [exact (at_refl _ _ Hg3)|]. intros c4 Hat4.
  eapply wp_mono; [by apply wp_shadow_stack|]. intros [] c5 [H5 [Hat5 HH5]].
  assert (pc c5 = pc c3) as Hpc5 by apply Hat5.
  unfold Fetched. rewrite Hpc5, Hpc3. split; [|split; [done|split; [done|]]].
  - eapply near_trans; [by eapply near_at|]. eapply near_trans; [|by eapply near_at].
    split; [apply grows_refl|]. split; [done|]. split; [done|]. rewrite Hpc3, Hpc2. lia.
  - exists H5. split; [by eapply at_good|done].
Qed.

(** ** The contract of [buxn_jit_next_opcode] *)

Lemma opcode_step_ok n next :
  NextOk n next -> NextOk (n + 1) (opcode_step next).
Proof.
  intros Hnext c H Hg Hn. unfold opcode_step. apply wp_bind, wp_gets.
  destruct (Z.ltb_spec (pc c) 256) as [Hz|Hz].
  - unfold zero_page_exit. pose proof (at_refl _ _ Hg). repeat jstep.
    match goal with Hat : At c H ?x |- wp _ _ ?x => rename x into c1, Hat into Hat1 end.
    apply wp_modify. split; [by eapply near_at in Hat1|]. split; [|by right].
    exists H. intros k. apply (good_x _ _ (at_good _ _ _ Hat1) k).
  - wp_op wp_fetch; [done|lia|]. intros [] c1 (Hn1 & Hf1 & Hm1 & H1 & Hg1 & HH1).
    apply wp_bind, wp_gets.
    eapply wp_mono; [eapply (handler_dispatch n); [done..|lia]|].
    intros [] c2 [Hn2 HX]. split; [by eapply near_trans|]. split; [done|]. left.
    assert (meas (pc c2) <= meas (pc c1)) by apply Hn2. lia.
Qed.

Lemma next_opcode_ok fuel : NextOk (Z.of_nat fuel) (buxn_jit_next_opcode fuel).
Proof.
  induction fuel as [|fuel IH]; cbn [buxn_jit_next_opcode].
  - intros c H Hg Hn. assert (0 <= meas (pc c)) by (apply meas_nonneg, Hg). lia.
  - rewrite Nat2Z.inj_succ. by apply opcode_step_ok.
Qed.

(** The loop of [buxn_jit_compile] ends with the compiler finished. *)
Lemma wp_compile_loop fuel : forall c H,
  GoodX c H -> (compiler_ptr c <> None -> meas (pc c) < Z.of_nat fuel) ->
  wp (compile_loop fuel)
    (fun _ c' => Near c c' /\ compiler_ptr c' = None /\ exists H', GoodX c' H') c.
Proof.
  induction fuel as [|fuel IH]; intros c H Hx Hn; cbn [compile_loop];
    apply wp_bind, wp_gets; destruct (compiler_ptr c) as [k|] eqn:Ek;
    try (apply wp_ret; split; [|split; [done|by exists H]];
         split; [apply grows_refl|auto using Z.le_refl]).
  - pose proof (goodx_good _ _ _ Hx Ek) as Hg.
    assert (0 <= meas (pc c)) by (apply meas_nonneg, Hg). specialize (Hn ltac:(done)). lia.
  - pose proof (goodx_good _ _ _ Hx Ek) as Hg.
    assert (meas (pc c) < Z.of_nat (S fuel)) as Hlt by (apply Hn; done).
    wp_op next_opcode_ok; [done|exact Hlt|]. intros [] c1 (Hn1 & [H1 Hx1] & Hprog).
    eapply wp_mono; [apply (IH c1 H1); [done|]|].
    + intros Hk. destruct Hprog; [lia|done].
    + intros [] c2 (Hn2 & ? & ?). split; [by eapply near_trans|done].
Qed.

(** ** Compiling a block *)

Lemma at_prologue c0 H c : At c0 H c -> wp prologue (fun _ c' => At c0 H c') c.
Proof.
  intros Hat. unfold prologue. apply wp_tail_tt. repeat step. by apply wp_ret.
Qed.
End Blocks.
