(* ===== verification/JitSafety.v ===== *)
(** * Totality of the JIT

    [buxn_jit] compiles an address and, transitively, every address its code
    jumps to: it always finishes, without a failed assertion, with empty
    queues; when code generation succeeds every block it knows is compiled. *)
From S2P Require Import Prelude Lir Hamt Jit Queues StackCache MicroOps Opcodes Compile Invariant CacheSafety OpcodeSafety BlockSafety.
Local Open Scope jit_scope.

(** Between calls the queues are empty. *)
Definition idle (s : buxn_jit_t) : Prop :=
  compile_queue s = [] /\ link_queue s = [] /\ cleanup_queue s = [].

Definition all_compiled (s : buxn_jit_t) : Prop :=
  forall b B, block_store s !! b = Some B -> fn B <> 0.

(** Code generation succeeds: it returns an entry point. *)
Class CodeGenSpec `{CodeGen} : Prop := gen_fn_nonzero k : gen_fn (sljit_generate_code k) <> 0.

(** One iteration of the compile loop, on a state whose entry was dequeued. *)
Record compiled `{CodeGen} (e : buxn_jit_entry_t) (s s' : buxn_jit_t) : Prop := {
  cm_ok : jit_ok s';
  cm_keys : forall b pc, key_at s b = Some pc -> key_at s' b = Some pc;
  cm_ledger : (length (block_store s') + length (compile_queue s) =
               length (block_store s) + length (compile_queue s'))%nat;
  cm_done : CodeGenSpec -> done_or (fun b => b = e_block e) s -> done_or (fun _ => False) s';
}.

Section Totality.
Context {Lay : VmLayout} {SL : Sljit} {VM : BuxnVm} {CG : CodeGen}.

(** The context [buxn_jit_compile] starts with. *)
Lemma good_initial s b id pc :
  jit_ok s -> is_u16 pc -> Good (initial_ctx s b id sljit_create_compiler pc) [].
Proof.
  intros Hok Hpc. assert (val_ok (mkValue 0 0)) by (unfold val_ok; simpl; mlia).
  split; [split; [|simpl; lia]|split; [|done]].
  - split; [by eexists|by intros [|]; split; vm_compute; lia|done| |constructor].
    intros i Hi. unfold ref_count. cbn [initial_ctx reg_ref_counts].
    rewrite nth_lookup, lookup_replicate_2 by done. done.
  - split; [by apply Forall_replicate|by apply Forall_replicate|done].
Qed.

Lemma key_at_alter (l : list buxn_jit_block_t) (b i : nat) f :
  (forall B, key (f B) = key B) -> key <$> alter f b l !! i = key <$> l !! i.
Proof.
  intros Hf. destruct (decide (b = i)) as [->|].
  - rewrite list_lookup_alter_eq. destruct (l !! i); simpl; [by rewrite Hf|done].
  - by rewrite list_lookup_alter_ne.
Qed.

(** Recording the generated code keeps the invariant: the compiler is in
    no compile entry any more. *)
Lemma jit_ok_finish s b id k f g :
  jit_ok s -> id ∉ e_compiler <$> compile_queue s ->
  (exists k0, compilers s !! id = Some (Some k0)) ->
  (forall B, key (f B) = key B) -> (forall t, num_blocks (g t) = num_blocks t) ->
  jit_ok (set_stats g (set_block_store (alter f b) (set_compilers (fun l => <[id := Some k]> l) s))).
Proof.
  intros [] Hid [k0 Hk0] Hf Hg.
  assert (Hkey : forall i, key_at (set_stats g (set_block_store (alter f b)
    (set_compilers (fun l => <[id := Some k]> l) s))) i = key_at s i)
    by (intros i; by apply key_at_alter).
  split; try done.
  - intros p i. rewrite Hkey. apply ok_map.
  - intros i p. rewrite Hkey. apply ok_keys.
  - cbn. rewrite Hg, length_alter. done.
  - cbn. rewrite Forall_forall in *. intros e He. specialize (ok_compile e He) as (pc & ? & ? & Hc).
    exists pc. rewrite Hkey. split; [done|]. split; [done|]. cbn.
    rewrite list_lookup_insert_ne; [done|]. intros ->. apply Hid.
    apply list_elem_of_fmap. eauto.
  - cbn. eapply Forall_impl; [exact ok_link|]. intros e [? ?]. split; [done|]. by rewrite Hkey.
  - cbn. intros i k1. destruct (decide (id = i)) as [<-|].
    + intros _. by eapply ok_cleanup.
    + rewrite list_lookup_insert_ne by done. apply ok_cleanup.
Qed.

Lemma at_log_hook {B} c0 H (Q : B -> _ -> Prop) c en ev (k : unit -> J B) :
  At c0 H c -> (forall c', At c0 H c' -> wp (k tt) Q c') -> wp (bind (log_hook en ev) k) Q c.
Proof.
  intros Hat Hk. unfold log_hook. apply wp_assoc, wp_bind, wp_gets, wp_assoc, wp_bind, wp_gets.
  destruct (hook (jit c)) as [h|]; [|apply wp_bind, wp_ret; auto].
  destruct (en h); cbn [when]; [|apply wp_bind, wp_ret; auto].
  apply wp_bind, wp_modify, Hk.
  apply (at_set_jit _ _ _ _ Hat); [apply jit_ok_hook_log; apply Hat|apply grows_hook_log].
Qed.

(** What [buxn_jit_compile] records when the code is generated. *)
Definition record_block (b id : nat) (k : compiler) (head body : nat) (s : buxn_jit_t) : buxn_jit_t :=
  let g := sljit_generate_code k in
  set_stats (fun t => mkStats (code_size t + gen_code_size g) (num_blocks t) (num_bounces t))
    (set_block b (fun B => mkBlock (key B) (gen_fn g) (gen_label_addr g head)
                             (gen_label_addr g body) (gen_executable_offset g))
      (set_compilers (fun l => <[id := Some k]> l) s)).

Lemma wp_finish_block b id c :
  wp (finish_block b id) (fun _ c' => exists f,
    jit c' = set_hook_log f (record_block b id (comp c) (head_label c) (body_label c) (jit c))) c.
Proof.
  assert (forall s : buxn_jit_t, s = set_hook_log (fun l => l) s) as Heta by (intros []; done).
  unfold finish_block. apply wp_bind, wp_gets, wp_bind, wp_gets, wp_bind, wp_gets.
  cbv zeta. do 3 apply wp_bind, wp_modify. unfold log_hook. apply wp_bind, wp_gets, wp_bind, wp_gets.
  destruct (hook _) as [h|]; [destruct (end_block h)|];
    (apply wp_modify || apply wp_ret); eexists; first [reflexivity|apply Heta].
Qed.

Lemma done_or_record b id k head body s :
  CodeGenSpec -> (forall P, done_or P s -> done_or (fun i => P i /\ i <> b)
    (record_block b id k head body s)).
Proof.
  intros Hgen P Hd i B Hi. cbn in Hi |- *. destruct (decide (b = i)) as [<-|Hne].
  - rewrite list_lookup_alter_eq in Hi. destruct (block_store s !! b); [|done].
    injection Hi as <-. left. apply gen_fn_nonzero.
  - rewrite list_lookup_alter_ne in Hi by done. destruct (Hd i B Hi) as [|[|]]; auto.
Qed.

Lemma grows_key s s' b pc : grows s s' -> key_at s b = Some pc -> key_at s' b = Some pc.
Proof. intros [] Hk. by eapply key_at_prefix. Qed.

(** Compiling one dequeued entry. *)
Lemma compile_spec e s :
  jit_ok s -> compile_entry_ok s e -> e_compiler e ∉ e_compiler <$> compile_queue s ->
  exists s', buxn_jit_compile e s = Ok s' /\ compiled e s s'.
Proof.
  intros Hok (pc & Hu & Hk & Hc) Hfresh. unfold buxn_jit_compile. rewrite Hu, Hc.
  set (c0 := initial_ctx s (e_block e) (e_compiler e) sljit_create_compiler pc).
  assert (Hpc : is_u16 pc) by (eapply ok_keys; done).
  assert (wp (prologue ;;; log_hook begin_block HBegin ;;; compile_loop block_fuel ;;;
              finish_block (e_block e) (e_compiler e))
    (fun _ c => compiled e s (jit c)) c0) as Hw.
  { pose proof (at_refl _ _ (good_initial s (e_block e) (e_compiler e) pc Hok Hpc)) as Hat0.
    fold c0 in Hat0. wp_op at_prologue; [exact Hat0|]. intros [] c1 Hat1.
    eapply at_log_hook; [exact Hat1|]. intros c2 Hat2.
    assert (pc < 65536) by mlia. assert (Jit.pc c2 = pc) as Hpc2 by apply Hat2.
    wp_op wp_compile_loop; [apply good_x, Hat2|intros _; rewrite Hpc2; unfold meas, block_fuel;
      destruct (Z.ltb_spec pc 256); mlia|].
    intros [] c3 (Hn3 & _ & [H3 Hx3]). eapply wp_mono; [apply wp_finish_block|].
    intros [] c4 [f ->]. assert (grows s (jit c3)) as Hg.
    { eapply grows_trans; [apply Hat2|apply Hn3]. }
    assert (jit_ok (jit c3)) as Hok3 by apply (Hx3 0%nat).
    split.
    - apply jit_ok_hook_log, jit_ok_finish; try done.
      + intros [Hin|Hlen]%(gr_own _ _ Hg); [done|]. apply lookup_lt_Some in Hc. lia.
      + destruct (gr_compilers _ _ Hg) as [l ->]. eexists. by apply lookup_app_l_Some.
    - intros i p Hi%(grows_key _ _ _ _ Hg). unfold key_at in *. cbn.
      rewrite key_at_alter by done. exact Hi.
    - cbn. rewrite length_alter. apply Hg.
    - intros Hgen Hd%(gr_done _ _ Hg). intros i B Hi.
      destruct (done_or_record (e_block e) (e_compiler e) (comp c3) (head_label c3) (body_label c3)
        (jit c3) Hgen _ Hd i B Hi) as [|[|[? ?]]]; auto. }
  apply wp_elim in Hw as ([] & c' & Hrun & Hcm). rewrite Hrun. eauto.
Qed.

(** ** The queues *)

Lemma jit_ok_dequeue s e q :
  jit_ok s -> compile_queue s = e :: q ->
  jit_ok (set_compile_queue (fun _ => q) s) /\
  compile_entry_ok (set_compile_queue (fun _ => q) s) e /\
  e_compiler e ∉ e_compiler <$> q.
Proof.
  intros [] Hq. rewrite Hq in *. apply Forall_cons in ok_compile as [? ?].
  apply NoDup_cons in ok_fresh as [? ?]. split; [by split|done].
Qed.

Lemma jit_ok_recycle s e : jit_ok s -> jit_ok (recycle e s).
Proof. intros []. by split. Qed.

(** The compile loop: each iteration compiles a block that was queued once,
    and there are at most 65536 of them. *)
Lemma compile_all_spec N fuel :
  (forall s, jit_ok s -> (length (block_store s) <= N)%nat) -> forall s,
  jit_ok s -> (N + length (compile_queue s) <= fuel + length (block_store s))%nat ->
  exists s', compile_all fuel s = Ok s' /\ jit_ok s' /\ compile_queue s' = [] /\
    (forall b pc, key_at s b = Some pc -> key_at s' b = Some pc) /\
    (CodeGenSpec -> done_or (fun _ => False) s -> all_compiled s').
Proof.
  intros HN. induction fuel as [|fuel IH]; intros s Hok Hfuel; cbn [compile_all];
    destruct (compile_queue s) as [|e q] eqn:Eq; cbn [buxn_jit_dequeue];
    try (exists s; repeat (split; [done|]); intros _ Hd b B Hb;
         destruct (Hd b B Hb) as [|[Hin|]]; [done| |done]; rewrite Eq in Hin; by apply elem_of_nil in Hin).
  - specialize (HN s Hok). simpl in Hfuel. lia.
  - destruct (jit_ok_dequeue s e q Hok Eq) as (Hok0 & He & Hfresh).
    destruct (compile_spec e _ Hok0 He Hfresh) as (s1 & -> & [Hok1 Hkeys1 Hled1 Hdone1]).
    cbn in Hled1. simpl in Hfuel.
    destruct (IH (recycle e s1)) as (s2 & Hrun & Hok2 & Hq2 & Hkeys2 & Hdone2).
    + by apply jit_ok_recycle.
    + cbn. lia.
    + exists s2. split; [exact Hrun|]. split; [done|]. split; [done|]. split.
      * intros b pc Hb. apply Hkeys2. apply (Hkeys1 b pc Hb).
      * intros Hgen Hd. apply Hdone2; [done|]. apply (Hdone1 Hgen).
        intros b B Hb. destruct (Hd b B Hb) as [|[Hin|]]; [auto| |done].
        rewrite Eq in Hin. cbn in Hin. apply elem_of_cons in Hin as [->|]; auto.
Qed.

(** ** Linking and cleaning up *)

(** The patch an entry of the link queue asks for. *)
Definition entry_patch (s : buxn_jit_t) (e : buxn_jit_entry_t) : list patch :=
  let b := block_at s (e_block e) in
  let target := match link_type e with
                | BUXN_JIT_LINK_TO_HEAD => head_addr b
                | BUXN_JIT_LINK_TO_BODY => body_addr b
                end in
  match e_union e with
  | UJump j => if target =? 0 then []
               else [mkPatch (e_compiler e) j target (executable_offset b)]
  | UPc _ => []
  end.

Lemma link_one_spec e s :
  exists pool, link_one e s =
    set_entry_pool pool (set_patches (fun l => l ++ entry_patch s e) s).
Proof.
  exists (buxn_jit_enqueue e). unfold link_one, entry_patch, recycle.
  cbv zeta. destruct (e_union e) as [j|];
    [match goal with |- context [?x =? 0] => destruct (x =? 0) end|];
    destruct s; unfold set_patches; cbn; rewrite ?app_nil_r; reflexivity.
Qed.

(** The link loop patches every site of the queue, in order, and touches
    nothing but the patches and the entry pool. *)
Lemma link_all_spec q : forall s,
  exists pool, link_all q s =
    set_link_queue (fun _ => [])
      (set_entry_pool pool (set_patches (fun l => l ++ concat (entry_patch s <$> q)) s)).
Proof.
  induction q as [|e q IH]; intros s; cbn [link_all].
  - exists (fun l => l). destruct s; unfold set_patches; cbn. by rewrite app_nil_r.
  - destruct (link_one_spec e s) as [pool1 ->]. destruct (IH (set_entry_pool pool1
      (set_patches (fun l => l ++ entry_patch s e) s))) as [pool2 ->].
    exists (fun l => pool2 (pool1 l)). unfold set_patches; cbn. rewrite <- app_assoc. reflexivity.
Qed.

Lemma cleanup_all_spec q : forall s,
  exists pool, cleanup_all q s =
    set_cleanup_queue (fun _ => [])
      (set_entry_pool pool
        (set_compilers (fun l => fold_left (fun l e => <[e_compiler e := None]> l) q l) s)).
Proof.
  induction q as [|e q IH]; intros s; cbn [cleanup_all].
  - exists (fun l => l). destruct s; done.
  - edestruct IH as [pool ->]. by exists (fun l => pool (buxn_jit_enqueue e l)).
Qed.

Lemma fold_none_lookup (q : list buxn_jit_entry_t) : forall (l : list (option compiler)) i k,
  fold_left (fun l e => <[e_compiler e := None]> l) q l !! i = Some (Some k) ->
  l !! i = Some (Some k) /\ i ∉ e_compiler <$> q.
Proof.
  induction q as [|e q IH]; intros l i k Hi; cbn in *; [split; [done|apply not_elem_of_nil]|].
  apply IH in Hi as [Hi Hni]. destruct (decide (e_compiler e = i)) as [<-|Hne].
  - apply list_lookup_insert_Some in Hi as [(_ & ? & _)|[? _]]; done.
  - rewrite list_lookup_insert_ne in Hi by done. rewrite not_elem_of_cons. auto.
Qed.

(** After linking and cleaning up no compiler is left. *)
Lemma finish_queues_ok s :
  jit_ok s -> compile_queue s = [] ->
  let s1 := link_all (link_queue s) s in
  let s2 := cleanup_all (cleanup_queue s1) s1 in
  jit_ok s2 /\ idle s2 /\ block_store s2 = block_store s /\
  patches s2 = patches s ++ concat (entry_patch s2 <$> link_queue s) /\
  forall i k, compilers s2 !! i <> Some (Some k).
Proof.
  intros Hok Hq s1 s2. destruct (link_all_spec (link_queue s) s) as [p1 E1]. fold s1 in E1.
  destruct (cleanup_all_spec (cleanup_queue s1) s1) as [p2 E2]. fold s2 in E2.
  assert (forall i k, compilers s2 !! i <> Some (Some k)) as Hc.
  { rewrite E2, E1. cbn. intros i k [Hi Hni]%fold_none_lookup. apply Hni. by eapply (ok_cleanup s Hok). }
  split; [|split; [|split; [|split; [|done]]]]; [|rewrite E2, E1; done..].
  destruct Hok. split; try (rewrite E2, E1; done); try (intros i k Hi; by apply Hc in Hi).
  all: rewrite E2, E1; cbn; rewrite Hq; constructor.
Qed.

(** [queue_fuel] is enough. *)
Lemma compile_all_enough s :
  jit_ok s -> (length (compile_queue s) <= length (block_store s))%nat ->
  exists s', compile_all queue_fuel s = Ok s' /\ jit_ok s' /\ compile_queue s' = [] /\
    (forall b pc, key_at s b = Some pc -> key_at s' b = Some pc) /\
    (CodeGenSpec -> done_or (fun _ => False) s -> all_compiled s').
Proof.
  intros Hok Hle. assert (forall s, jit_ok s -> (length (block_store s) <= queue_fuel)%nat) as Hb
    by exact block_bound.
  generalize dependent queue_fuel. intros fuel Hb.
  apply (compile_all_spec fuel fuel Hb s Hok). lia.
Qed.

(** A call of [buxn_jit] between calls. *)
Definition call_ok (s : buxn_jit_t) (pc : Z) (b : nat) (s' : buxn_jit_t) : Prop :=
  jit_ok s' /\ idle s' /\ key_at s' b = Some pc /\
  (forall b pc, key_at s b = Some pc -> key_at s' b = Some pc) /\
  (CodeGenSpec -> all_compiled s -> all_compiled s').

Lemma buxn_jit_spec s pc :
  jit_ok s -> idle s -> is_u16 pc ->
  exists b s', buxn_jit s pc = Ok (b, s') /\ call_ok s pc b s'.
Proof.
  intros Hok (Hq & Hl & Hcl) Hpc. unfold buxn_jit.
  destruct (queue_block_spec s pc Hok Hpc) as (b & s1 & Hrun & Hok1 & Hg1 & Hb).
  rewrite Hrun. cbn [negb].
  assert (forall P, all_compiled s -> done_or P s) as Hdo by (intros P Hall i B Hi; left; eauto).
  destruct (blocks_get (blocks_root s) pc) as [b'|] eqn:Eb.
  - assert (s1 = s) as -> by (unfold buxn_jit_queue_block in Hrun; rewrite Eb in Hrun; congruence).
    destruct (fn (block_at s b) =? 0); cbn [negb].
    + destruct (compile_all_enough s Hok) as (s2 & -> & Hok2 & Hq2 & Hk2 & Hd2);
        [rewrite Hq; simpl; lia|].
      destruct (finish_queues_ok s2 Hok2 Hq2) as (Hok3 & Hi3 & Hs3 & _).
      exists b. eexists. split; [done|]. unfold call_ok, key_at, all_compiled in *. rewrite Hs3.
      split; [done|]. split; [done|]. split; [by apply Hk2|]. split; [auto|].
      intros Hgen Hall. by apply Hd2, Hdo.
    + exists b, s. split; [done|]. split; [done|]. split; [done|]. auto.
  - assert (compile_queue s1 <> []) as Hne.
    { destruct (queue_block_new s pc Eb) as (s1' & t & Hrun' & _ & _ & _ & _ & _ & _ & Hq1 & _).
      rewrite Hrun in Hrun'. injection Hrun' as _ <-. by rewrite Hq1. }
    assert (fn (block_at s1 b) = 0) as ->.
    { destruct (queue_block_new s pc Eb) as (s1' & t & Hrun' & _ & _ & _ & _ & Hbs & _).
      rewrite Hrun in Hrun'. injection Hrun' as -> <-. unfold block_at.
      by rewrite Hbs, nth_lookup, lookup_app_r, Nat.sub_diag by done. }
    rewrite Z.eqb_refl. cbn [negb].
    destruct (compile_all_enough s1 Hok1) as (s2 & -> & Hok2 & Hq2 & Hk2 & Hd2).
    { pose proof (gr_ledger _ _ Hg1) as Hled. rewrite Hq in Hled. cbn [length] in Hled. lia. }
    destruct (finish_queues_ok s2 Hok2 Hq2) as (Hok3 & Hi3 & Hs3 & _).
    exists b. eexists. split; [done|]. unfold call_ok, key_at, all_compiled in *. rewrite Hs3.
    split; [done|]. split; [done|]. split; [by apply Hk2|]. split.
    + intros b0 pc0 Hb0. by apply Hk2, (grows_key s s1).
    + intros Hgen Hall. apply Hd2; [done|]. apply (gr_done _ _ Hg1), Hdo. exact Hall.
Qed.

Lemma init_ok mem h : (forall a, is_u8 (mem a)) -> jit_ok (buxn_jit_init mem h) /\ idle (buxn_jit_init mem h).
Proof.
  intros Hmem. split; [|done]. split; try done; try constructor.
  all: intros Hb; (by rewrite (rep_empty pc) in Hb) || (by rewrite lookup_nil in Hb) || idtac.
Qed.
End Totality.
