(* ===== verification/Machine.v ===== *)
(** * Executing what an operation emits

    [hwp f Q c m]: the operation [f], run in the context [c], finishes, and
    the code it emits, executed from the machine [m], falls through to a
    machine [m'] such that [Q a c' m'].  The rules mirror those of [wp]; the
    rule for one instruction is [hwp_lir].  [LayoutSpec] states what the model
    relies on about the fields of [buxn_vm_t]. *)
From S2P Require Import Prelude Lir Hamt Jit StackCache Invariant.
Local Open Scope jit_scope.

(** ** The layout of the virtual machine *)

Definition regions `{VmLayout} : list (Z * Z) :=
  [(off_ws, 256); (off_rs, 256); (off_wsp, 1); (off_rsp, 1); (off_device, 256); (off_memory, 65536)].

Definition no_overlap (x y : Z * Z) : Prop :=
  fst x + snd x <= fst y \/ fst y + snd y <= fst x.

(** The fields come after the configuration, do not overlap, and the vm at
    [vmb] does not wrap around the address space. *)
Class LayoutSpec `{VmLayout} `{Sljit} (vmb : Z) : Prop := {
  lay_bounds x : x ∈ regions -> 0 < fst x /\ vmb + fst x + snd x <= 2 ^ word_bits;
  lay_disjoint i j x y : regions !! i = Some x -> regions !! j = Some y -> i <> j -> no_overlap x y;
  lay_vmb : 0 <= vmb;
}.

(** ** Code that falls through *)

Section Runs.
Context {SL : Sljit} {HO : Host}.

(** From [c] to [c'] code was emitted that leads from [m] to [m']. *)
Definition runs (k k' : compiler) (m m' : mach) : Prop :=
  binds k ⊆ binds k' /\
  exists new, code k' = code k ++ new /\
    forall B, binds k' ⊆ B -> exec B new (Run m) = Run m'.

Lemma runs_refl k m : runs k k m m.
Proof. split; [done|]. exists []. by rewrite app_nil_r. Qed.

Lemma runs_trans k1 k2 k3 m1 m2 m3 :
  runs k1 k2 m1 m2 -> runs k2 k3 m2 m3 -> runs k1 k3 m1 m3.
Proof.
  intros [Hb1 (n1 & Hc1 & He1)] [Hb2 (n2 & Hc2 & He2)]. split; [by etrans|].
  exists (n1 ++ n2). split; [by rewrite Hc2, Hc1, app_assoc|].
  intros B HB. rewrite exec_app, He1, He2; [done|done|]. by etrans.
Qed.

(** The jumps bound so far have been emitted. *)
Definition bound_ok (k : compiler) : Prop := forall j l, binds k !! j = Some l -> (j < next_jump k)%nat.

Definition hwp {A} (f : J A) (Q : A -> buxn_jit_ctx_t -> mach -> Prop)
    (c : buxn_jit_ctx_t) (m : mach) : Prop :=
  bound_ok (comp c) ->
  wp f (fun a c' => exists m', (runs (comp c) (comp c') m m' /\ bound_ok (comp c')) /\ Q a c' m') c.

Lemma hwp_bind {A B} (f : J A) (k : A -> J B) Q c m :
  hwp f (fun a c' m' => hwp (k a) Q c' m') c m -> hwp (bind f k) Q c m.
Proof.
  intros Hf H0. apply wp_bind. eapply wp_mono; [by apply Hf|]. intros a c1 (m1 & [Hr1 H1] & Hk).
  eapply wp_mono; [by apply Hk|]. intros b c2 (m2 & [Hr2 H2] & HQ).
  exists m2. split; [split; [by eapply runs_trans|done]|done].
Qed.

Lemma hwp_mono {A} (f : J A) (Q Q' : A -> _ -> _ -> Prop) c m :
  hwp f Q c m -> (forall a c' m', Q a c' m' -> Q' a c' m') -> hwp f Q' c m.
Proof.
  intros Hf HQ H0. eapply wp_mono; [by apply Hf|]. intros a c' (m' & ? & ?). eauto.
Qed.

(** What [wp] knows can be used: computations are deterministic. *)
Lemma hwp_wp {A} (f : J A) Q P c m :
  hwp f Q c m -> wp f P c -> hwp f (fun a c' m' => Q a c' m' /\ P a c') c m.
Proof.
  intros Hf Hp H0. specialize (Hf H0). unfold wp in *. destruct (f c) as [[a c']| |]; [|done|done].
  destruct Hf as (m' & ? & ?). eauto.
Qed.

(** An operation that emits nothing, verified by [wp]. *)
Lemma hwp_silent {A} (f : J A) (Q : A -> _ -> _ -> Prop) c m :
  wp f (fun a c' => comp c' = comp c /\ Q a c' m) c -> hwp f Q c m.
Proof.
  intros Hf H0. eapply wp_mono; [exact Hf|]. intros a c' [Hc ?]. rewrite Hc.
  exists m. split; [split; [apply runs_refl|done]|done].
Qed.

Lemma hwp_ret {A} (a : A) (Q : A -> _ -> _ -> Prop) c m : Q a c m -> hwp (ret a) Q c m.
Proof. intros HQ. apply hwp_silent, wp_ret. done. Qed.

Lemma hwp_gets {A} (f : _ -> A) (Q : A -> _ -> _ -> Prop) c m : Q (f c) c m -> hwp (gets f) Q c m.
Proof. intros HQ. apply hwp_silent, wp_gets. done. Qed.

Lemma hwp_modify f (Q : unit -> _ -> _ -> Prop) c m :
  comp (f c) = comp c -> Q tt (f c) m -> hwp (modify f) Q c m.
Proof. intros Hc HQ. apply hwp_silent, wp_modify. done. Qed.

Lemma hwp_assert b msg (Q : unit -> _ -> _ -> Prop) c m :
  b = true -> Q tt c m -> hwp (assert_that b msg) Q c m.
Proof. intros Hb HQ. apply hwp_silent, wp_assert; done. Qed.

Lemma hwp_assoc {A B C} (f : J A) (g : A -> J B) (h : B -> J C) Q c m :
  hwp (bind f (fun a => bind (g a) h)) Q c m -> hwp (bind (bind f g) h) Q c m.
Proof. intros Hf H0. by apply wp_assoc, Hf. Qed.

Lemma hwp_assoc_inv {A B C} (f : J A) (g : A -> J B) (h : B -> J C) Q c m :
  hwp (bind (bind f g) h) Q c m -> hwp (bind f (fun a => bind (g a) h)) Q c m.
Proof.
  intros Hf H0. specialize (Hf H0). unfold wp, bind in *. destruct (f c) as [[a c']| |]; done.
Qed.

Lemma hwp_tail_tt (f : J unit) Q c m : hwp (bind f (fun _ => ret tt)) Q c m -> hwp f Q c m.
Proof. intros Hf H0. by apply wp_tail_tt, Hf. Qed.

Lemma hwp_tail {A} (f : J A) Q c m : hwp (bind f ret) Q c m -> hwp f Q c m.
Proof. intros Hf H0. by apply wp_tail, Hf. Qed.

(** One emitted instruction. *)
Lemma hwp_lir i m' (Q : unit -> _ -> _ -> Prop) c m :
  is_Some (compiler_ptr c) -> (forall B, exec_one B i m = Run m') ->
  (forall c', shape c' = shape c -> mem_base c' = mem_base c -> Q tt c' m') ->
  hwp (emit_lir i) Q c m.
Proof.
  intros [x Hx] He HQ H0. unfold wp, emit_lir, with_compiler. rewrite Hx.
  exists m'. split; [|by apply HQ]. split; [|done]. split; [done|]. exists [i]. split; [done|].
  intros B _. apply He.
Qed.

(** *** Sequences of emitted instructions *)

Definition Like (c0 c : buxn_jit_ctx_t) : Prop := shape c = shape c0 /\ mem_base c = mem_base c0.

Lemma like_compiler c0 c : Like c0 c -> is_Some (compiler_ptr c0) -> is_Some (compiler_ptr c).
Proof. intros [Hs _]. by rewrite (shape_compiler _ _ Hs). Qed.

(** One emitted instruction of a sequence. *)
Lemma h_lir {B} i m' (k : unit -> J B) Q c0 c m :
  Like c0 c -> is_Some (compiler_ptr c0) -> (forall B, exec_one B i m = Run m') ->
  (forall c', Like c0 c' -> hwp (k tt) Q c' m') -> hwp (bind (emit_lir i) k) Q c m.
Proof.
  intros Hl Hp He Hk. apply hwp_bind. eapply hwp_lir; [by eapply like_compiler|exact He|].
  intros c' Hs Hb. apply Hk. destruct Hl. split; congruence.
Qed.
End Runs.

(** ** Registers of a machine *)

Lemma regs_set_eq r v m : regs (set_reg r v m) r = v.
Proof. cbn. by rewrite decide_True. Qed.

Lemma regs_set_ne r r' v m : r' <> r -> regs (set_reg r v m) r' = regs m r'.
Proof. intros. cbn. by rewrite decide_False. Qed.

Lemma regs_store a v m r : regs (store8 a v m) r = regs m r.
Proof. done. Qed.

Lemma mem_set_reg r v m a : mem (set_reg r v m) a = mem m a.
Proof. done. Qed.

Lemma mem_store_eq a v m : mem (store8 a v m) a = v.
Proof. cbn. by rewrite Z.eqb_refl. Qed.

Lemma mem_store_ne a v m a' : a' <> a -> mem (store8 a v m) a' = mem m a'.
Proof. intros. cbn. destruct (Z.eqb_spec a' a); done. Qed.

(** ** Machine words *)

Definition words `{Sljit} (m : mach) : Prop := forall r, is_word (regs m r).
Definition bytes (m : mach) : Prop := forall a, is_u8 (mem m a).

Section Words.
Context {SL : Sljit} {SP : SljitSpec}.

Lemma word_size : 2 ^ word_bits = 2 ^ 32 \/ 2 ^ word_bits = 2 ^ 64.
Proof. destruct sl_word_bits as [-> | ->]; auto. Qed.

Lemma word_u32 x : is_u32 x -> is_word x.
Proof. unfold is_word, is_u32. destruct word_size as [-> | ->]; lia. Qed.

Lemma word_u16 x : is_u16 x -> is_word x.
Proof. unfold is_word, is_u16. destruct word_size as [-> | ->]; lia. Qed.

Lemma word_u8 x : is_u8 x -> is_word x.
Proof. intros. apply word_u16. mlia. Qed.

Lemma word_wrap x : is_word (wrap x).
Proof. unfold is_word, wrap. apply Z.mod_pos_bound. destruct word_size as [-> | ->]; lia. Qed.

Lemma wrap_id x : is_word x -> wrap x = x.
Proof. unfold is_word, wrap. apply Z.mod_small. Qed.

Lemma wrap_u16 x : is_u16 x -> wrap x = x.
Proof. intros. by apply wrap_id, word_u16. Qed.

Lemma u8_wrap x : u8 (wrap x) = u8 x.
Proof.
  unfold u8, wrap. apply Z.mod_mod_divide.
  destruct word_size as [-> | ->]; [exists (2 ^ 24)|exists (2 ^ 56)]; reflexivity.
Qed.

Lemma u8_wrap_sub x n : u8 (wrap x - n) = u8 (x - n).
Proof.
  pose proof (u8_wrap x) as E. unfold u8 in *. rewrite Zminus_mod, E, <- Zminus_mod. done.
Qed.

Lemma u16_wrap x : u16 (wrap x) = u16 x.
Proof.
  unfold u16, wrap. apply Z.mod_mod_divide.
  destruct word_size as [-> | ->]; [exists (2 ^ 16)|exists (2 ^ 48)]; reflexivity.
Qed.

Lemma words_set r v m : words m -> is_word v -> words (set_reg r v m).
Proof. intros Hm Hv r'. cbn. by case_decide. Qed.

Lemma words_regs m r : words m -> is_word (regs m r).
Proof. intros Hm. apply Hm. Qed.

Lemma bytes_set r v m : bytes m -> bytes (set_reg r v m).
Proof. done. Qed.

Lemma word_mem m a : bytes m -> is_word (mem m a).
Proof. intros Hm. apply word_u8, Hm. Qed.

Lemma words_store a v m : words m -> words (store8 a v m).
Proof. done. Qed.

Lemma word_land x y : is_word x -> is_word y -> is_word (Z.land x y).
Proof.
  intros Hx Hy. unfold is_word in *. split; [apply Z.land_nonneg; lia|].
  assert (Z.land x y <= x); [|lia]. apply Z.ldiff_le; [lia|].
  apply Z.bits_inj'. intros n _. rewrite Z.ldiff_spec, Z.land_spec, Z.bits_0.
  destruct (Z.testbit x n), (Z.testbit y n); done.
Qed.

Lemma log2_word x : is_word x -> x <> 0 -> Z.log2 x < word_bits.
Proof. intros [? ?] ?. apply Z.log2_lt_pow2; lia. Qed.

Lemma word_log2 x : 0 <= x -> Z.log2 x < word_bits -> is_word x.
Proof.
  intros ? Hl. destruct (decide (x = 0)) as [->|]; [apply word_u8; mlia|].
  split; [done|]. apply Z.log2_lt_pow2; lia.
Qed.

Lemma log2_word' x : is_word x -> Z.log2 x < word_bits.
Proof.
  intros Hx. destruct (decide (x = 0)) as [->|]; [|by apply log2_word].
  simpl. destruct sl_word_bits; lia.
Qed.

Lemma word_lor x y : is_word x -> is_word y -> is_word (Z.lor x y).
Proof.
  intros Hx Hy. apply word_log2; [destruct Hx, Hy; by apply Z.lor_nonneg|].
  rewrite Z.log2_lor by (apply Hx || apply Hy).
  apply log2_word' in Hx, Hy. lia.
Qed.

Lemma word_lxor x y : is_word x -> is_word y -> is_word (Z.lxor x y).
Proof.
  intros Hx Hy. apply word_log2; [destruct Hx, Hy; by apply Z.lxor_nonneg; tauto|].
  pose proof (Z.log2_lxor x y ltac:(apply Hx) ltac:(apply Hy)).
  apply log2_word' in Hx, Hy. lia.
Qed.

Lemma word_shiftr x n : is_word x -> 0 <= n -> is_word (Z.shiftr x n).
Proof.
  unfold is_word. intros [? ?] ?. rewrite Z.shiftr_div_pow2 by done. pose proof (Z.pow_pos_nonneg 2 n).
  split; [apply Z.div_pos; lia|]. apply Z.div_lt_upper_bound; nia.
Qed.
End Words.

Create HintDb words.
#[export] Hint Resolve word_wrap word_land word_lor word_lxor words_set words_store u8_range u16_range
  : words.
#[export] Hint Extern 1 (is_word (u8 _)) => apply word_u8, u8_range : words.
#[export] Hint Extern 1 (is_word (u16 _)) => apply word_u16, u16_range : words.
#[export] Hint Resolve words_regs : words.
#[export] Hint Extern 1 (is_word (Z.shiftr _ _)) => apply word_shiftr; [|lia] : words.
#[export] Hint Extern 1 (is_word (Zpos _)) => apply word_u16; mlia : words.
#[export] Hint Extern 1 (is_u16 (Zpos _)) => mlia : words.
#[export] Hint Extern 1 (_ <= _ < _) => lia : words.
#[export] Hint Resolve bytes_set word_mem : words.

(** ** What each instruction does *)

Section Instructions.
Context {SL : Sljit} {SP : SljitSpec} {HO : Host}.
Context (B : gmap nat nat) (m : mach) (Hw : words m).

Lemma ex_mov_u8 r s :
  exec_one B (LOp1 SLJIT_MOV_U8 (AReg r) (AReg s)) m = Run (set_reg r (u8 (regs m s)) m).
Proof. cbn. rewrite sl_mov_u8 by apply Hw. done. Qed.

Lemma ex_mov_u16 r s :
  exec_one B (LOp1 SLJIT_MOV_U16 (AReg r) (AReg s)) m = Run (set_reg r (u16 (regs m s)) m).
Proof. cbn. rewrite sl_mov_u16 by apply Hw. done. Qed.

Lemma ex_mov_u16_imm r n :
  exec_one B (LOp1 SLJIT_MOV_U16 (AReg r) (AImm n)) m = Run (set_reg r (u16 n) m).
Proof. cbn. rewrite sl_mov_u16 by apply word_wrap. by rewrite (u16_wrap n : wrap n mod 2 ^ 16 = _). Qed.

Lemma ex_mov r s : exec_one B (LOp1 SLJIT_MOV (AReg r) (AReg s)) m = Run (set_reg r (regs m s) m).
Proof. cbn. rewrite sl_mov_id by apply Hw. done. Qed.

Lemma ex_mov_imm r n : is_u16 n ->
  exec_one B (LOp1 SLJIT_MOV (AReg r) (AImm n)) m = Run (set_reg r n m).
Proof. intros. cbn. rewrite sl_mov_id, wrap_u16 by auto using word_wrap. done. Qed.

Lemma ex_mov_s8 r s :
  exec_one B (LOp1 SLJIT_MOV_S8 (AReg r) (AReg s)) m = Run (set_reg r (wrap (s8 (regs m s))) m).
Proof. cbn. rewrite sl_mov_s8 by apply Hw. done. Qed.

(** Memory operands; [BUXN_JIT_MEM] is the byte at base plus offset. *)
Lemma ex_load r b o : is_word (regs m b + regs m o) ->
  exec_one B (LOp1 SLJIT_MOV_U8 (AReg r) (AMem2 b o)) m =
  Run (set_reg r (mem m (regs m b + regs m o)) m).
Proof. intros. cbn. rewrite wrap_id by done. done. Qed.

Lemma ex_store s b o : is_word (regs m b + regs m o) ->
  exec_one B (LOp1 SLJIT_MOV_U8 (AMem2 b o) (AReg s)) m =
  Run (store8 (regs m b + regs m o) (u8 (regs m s)) m).
Proof. intros. cbn. rewrite wrap_id by done. done. Qed.

(** Arithmetic between registers, or with a constant. *)
Lemma ex_op2 o r a b :
  exec_one B (LOp2 o (AReg r) (AReg a) (AReg b)) m =
  Run (set_reg r (sl_alu o (regs m a) (regs m b)) m).
Proof. done. Qed.

Lemma ex_add_imm r a n : is_word n ->
  exec_one B (LOp2 SLJIT_ADD (AReg r) (AReg a) (AImm n)) m = Run (set_reg r (wrap (regs m a + n)) m).
Proof. intros. cbn. rewrite wrap_id, sl_add by (done || apply Hw). done. Qed.

Lemma ex_sub_imm r a n : is_u16 n ->
  exec_one B (LOp2 SLJIT_SUB (AReg r) (AReg a) (AImm n)) m = Run (set_reg r (wrap (regs m a - n)) m).
Proof. intros. cbn. rewrite wrap_u16, sl_sub by (done || apply Hw || by apply word_u16). done. Qed.

Lemma ex_and_imm r a n : is_u16 n ->
  exec_one B (LOp2 SLJIT_AND (AReg r) (AReg a) (AImm n)) m = Run (set_reg r (Z.land (regs m a) n) m).
Proof. intros. cbn. rewrite wrap_u16, sl_and by (done || apply Hw || by apply word_u16). done. Qed.

Lemma word_bits_ge n : 0 <= n < 32 -> 0 <= n < word_bits.
Proof. destruct sl_word_bits; lia. Qed.

Lemma ex_shr_imm r a n : 0 <= n < 32 ->
  exec_one B (LOp2 SLJIT_LSHR (AReg r) (AReg a) (AImm n)) m =
  Run (set_reg r (Z.shiftr (regs m a) n) m).
Proof.
  intros. cbn. rewrite wrap_u16 by mlia. by rewrite sl_lshr by (apply Hw || by apply word_bits_ge).
Qed.

Lemma ex_shl_imm r a n : 0 <= n < 32 ->
  exec_one B (LOp2 SLJIT_SHL (AReg r) (AReg a) (AImm n)) m =
  Run (set_reg r (wrap (Z.shiftl (regs m a) n)) m).
Proof.
  intros. cbn. rewrite wrap_u16 by mlia. by rewrite sl_shl by (apply Hw || by apply word_bits_ge).
Qed.

Lemma ex_or r a b :
  exec_one B (LOp2 SLJIT_OR (AReg r) (AReg a) (AReg b)) m =
  Run (set_reg r (Z.lor (regs m a) (regs m b)) m).
Proof. cbn. rewrite sl_or by apply Hw. done. Qed.
End Instructions.

(** Execute the next emitted instruction by its rule [lem]. *)
Ltac hassoc :=
  repeat lazymatch goal with
    | |- hwp (bind (bind _ _) _) _ _ _ => apply hwp_assoc
    | |- hwp (bind (sljit_emit_op1 _ _ _) _) _ _ _ => unfold sljit_emit_op1 at 1
    | |- hwp (bind (sljit_emit_op2 _ _ _ _) _) _ _ _ => unfold sljit_emit_op2 at 1
    end.

Ltac inst lem :=
  hassoc; eapply h_lir; [eassumption|eassumption|intros; apply lem; auto 12 with words|].
