(* ===== verification/StackSim.v ===== *)
(** * The stacks at run time

    A uxn stack is a list of bytes, top first.  Its bottom part is in the
    virtual machine's memory, below the stack pointer ([stk]); its top part is
    the cells of the cache, each a register with one or two bytes ([expand]).
    This file verifies the code emitted by the operations that move values
    between the two. *)
From S2P Require Import Prelude Lir Hamt Jit StackCache Uxn Invariant CacheSafety Machine.
From Stdlib Require Import Permutation.
Local Open Scope jit_scope.

(** ** Stacks in memory *)

(** [l] is on the 256-byte circular stack at [b], just below the pointer [p]. *)
Definition stk (mm : Z -> Z) (b p : Z) (l : list Z) : Prop :=
  (length l <= 256)%nat /\
  forall i x, l !! i = Some x -> mm (b + u8 (p - 1 - Z.of_nat i)) = x.

Lemma stk_nil mm b p : stk mm b p [].
Proof. split; [simpl; lia|done]. Qed.

Lemma stk_u8 mm b p p' l : u8 p = u8 p' -> stk mm b p l -> stk mm b p' l.
Proof.
  intros E [Hl H]. split; [done|]. intros i x Hi. rewrite <- (H i x Hi). do 2 f_equal.
  unfold u8 in *. rewrite <- Z.sub_add_distr, Zminus_mod, <- E, <- Zminus_mod.
  f_equal. lia.
Qed.

Lemma stk_mem mm mm' b p l :
  (forall x, is_u8 x -> mm' (b + x) = mm (b + x)) -> stk mm b p l -> stk mm' b p l.
Proof. intros E [Hl H]. split; [done|]. intros i x Hi. rewrite E; [auto|apply u8_range]. Qed.

Lemma stk_push mm mm' b p l v :
  (length l < 256)%nat -> stk mm b p l ->
  mm' (b + u8 p) = v -> (forall x, is_u8 x -> x <> u8 p -> mm' (b + x) = mm (b + x)) ->
  stk mm' b (p + 1) (v :: l).
Proof.
  intros Hl [_ H] Hv E. split; [simpl; lia|]. intros [|i] x Hi; simpl in Hi; simplify_eq.
  - f_equal. f_equal. f_equal. lia.
  - replace (p + 1 - 1 - Z.of_nat (S i)) with (p - 1 - Z.of_nat i) by lia.
    rewrite E; [by apply H|apply u8_range|]. apply lookup_lt_Some in Hi. unfold u8.
    intros Hm. assert ((p - 1 - Z.of_nat i - p) mod 256 = 0) as Hz
      by (rewrite Zminus_mod, Hm, Z.sub_diag; done).
    replace (p - 1 - Z.of_nat i - p) with (-(1 + Z.of_nat i)) in Hz by lia.
    apply Z.mod_opp_l_z in Hz; [|lia]. rewrite Z.opp_involutive, Z.mod_small in Hz; lia.
Qed.

Lemma stk_pop mm b p v l :
  stk mm b p (v :: l) -> mm (b + u8 (p - 1)) = v /\ stk mm b (p - 1) l.
Proof.
  intros [Hl H]. split; [|split; [simpl in Hl; lia|]].
  - specialize (H 0%nat v eq_refl). by rewrite Z.sub_0_r in H.
  - intros i x Hi. specialize (H (S i) x Hi). rewrite <- H.
    replace (p - 1 - 1 - Z.of_nat i) with (p - 1 - Z.of_nat (S i)) by lia. done.
Qed.

(** ** The bytes of the cached cells *)

Definition cell_bytes (rv : sreg -> Z) (x : buxn_jit_stack_cache_cell_t) : list Z :=
  let v := rv (reg (value x)) in
  if is_short (value x) then [Z.land v 0xff; Z.shiftr v 8] else [v].

(** Bottom-first cells to top-first bytes. *)
Fixpoint expand (rv : sreg -> Z) (l : list buxn_jit_stack_cache_cell_t) : list Z :=
  match l with
  | [] => []
  | x :: l => expand rv l ++ cell_bytes rv x
  end.

Lemma expand_app rv l1 l2 : expand rv (l1 ++ l2) = expand rv l2 ++ expand rv l1.
Proof. induction l1 as [|x l1 IH]; simpl; [by rewrite app_nil_r|]. by rewrite IH, app_assoc. Qed.

Lemma expand_ext rv rv' l :
  (forall r, r ∈ cell_regs l -> rv' r = rv r) -> expand rv' l = expand rv l.
Proof.
  induction l as [|x l IH]; intros E; simpl; [done|]. cbn in E.
  rewrite IH by (intros; apply E; rewrite elem_of_cons; auto).
  f_equal. unfold cell_bytes. rewrite E by (rewrite elem_of_cons; auto). done.
Qed.

(** The register of a cell holds a value of its size. *)
Definition cell_ok (rv : sreg -> Z) (x : buxn_jit_stack_cache_cell_t) : Prop :=
  if is_short (value x) then is_u16 (rv (reg (value x))) else is_u8 (rv (reg (value x))).

(** Flushed cells are below the others. *)
Definition layered (l : list buxn_jit_stack_cache_cell_t) : Prop :=
  exists a b, l = a ++ b /\ Forall (fun x => need_flush x = false) a /\
    Forall (fun x => need_flush x = true) b.

Lemma layered_drop l : layered l -> layered (drop 1 l).
Proof.
  intros (a & b & -> & Ha & Hb). destruct a as [|x a].
  - exists [], (drop 1 b). split; [done|]. split; [done|]. by apply Forall_drop.
  - exists a, b. apply Forall_cons in Ha as [_ ?]. done.
Qed.

Lemma layered_snoc l v : layered l -> layered (l ++ [mkCell v true]).
Proof.
  intros (a & b & -> & Ha & Hb). exists a, (b ++ [mkCell v true]).
  rewrite app_assoc. split; [done|]. split; [done|]. apply Forall_app. split; [done|]. by repeat constructor.
Qed.

Lemma layered_all l b : Forall (fun x => need_flush x = b) l -> layered l.
Proof.
  intros Hl. destruct b; [exists [], l|exists l, []]; rewrite ?app_nil_r; done.
Qed.

Definition unflushed (k : buxn_jit_stack_cache_t) : list buxn_jit_stack_cache_cell_t :=
  filter (fun x => need_flush x = true) (live k).

(** ** The sizes of operands *)

(** The bytes of a popped or pushed operand, top first. *)
Definition val_bytes (short : bool) (v : Z) : list Z :=
  if short then [Z.land v 0xff; Z.shiftr v 8] else [v].

Definition val_in (short : bool) (v : Z) : Prop := if short then is_u16 v else is_u8 v.

Lemma val_bytes_length short v : length (val_bytes short v) = if short then 2%nat else 1%nat.
Proof. by destruct short. Qed.

Lemma val_bytes_u8 short v : val_in short v -> Forall is_u8 (val_bytes short v).
Proof.
  destruct short; simpl; intros Hv; [destruct (halves_range v Hv)|];
    repeat apply Forall_cons_2; try done; apply Forall_nil_2.
Qed.

(** ** Registers *)

Lemma op_ne r r' : is_op r -> op_index r' = None -> r <> r'.
Proof. intros (i & Hi & ->) Hn E. rewrite <- E, op_index_op in Hn by done. done. Qed.

Ltac reg_ne :=
  first [ discriminate | assumption | apply op_ne; [assumption|reflexivity]
        | apply not_eq_sym; first [ assumption | apply op_ne; [assumption|reflexivity] ] ].

(** Read registers and memory through the updates of a machine. *)
Ltac msimp :=
  repeat first
    [ rewrite regs_set_eq | rewrite regs_store | rewrite mem_set_reg
    | rewrite regs_set_ne by reg_ne ].

(** The stack pointer of a stack. *)
Definition sp_reg (flag_r : bool) : sreg := if flag_r then BUXN_JIT_S_RSP else BUXN_JIT_S_WSP.

Section StackSim.
Context {Lay : VmLayout} {SL : Sljit} {SP : SljitSpec} {HO : Host} {vmb : Z} {LS : LayoutSpec vmb}.

Definition base (flag_r : bool) : Z := vmb + stack_offset flag_r.

(** A machine that runs the code of the context [c]. *)
Record Core (c : buxn_jit_ctx_t) (m : mach) : Prop := {
  co_compiler : is_Some (compiler_ptr c);
  co_words : words m;
  co_bytes : bytes m;
  co_vm : regs m BUXN_JIT_S_VM = vmb;
  co_base : mem_base c = 0 \/ regs m BUXN_JIT_R_MEM_BASE = vmb + mem_base c;
}.

Lemma stack_region flag_r : (stack_offset flag_r, 256) ∈ regions.
Proof. destruct flag_r; unfold regions; rewrite !elem_of_cons; cbn; auto. Qed.

Lemma stack_bounds flag_r x :
  is_u8 x -> 0 < stack_offset flag_r /\ is_word (base flag_r) /\ is_word (base flag_r + x).
Proof.
  intros Hx. destruct (lay_bounds _ (stack_region flag_r)) as [Hlo Hhi]. cbn [fst snd] in *.
  pose proof lay_vmb. unfold is_word, base. mlia.
Qed.

Lemma h_set_mem_base {B} b (k : unit -> J B) Q c m :
  Core c m -> 0 < b -> is_word (vmb + b) ->
  (forall c' m', shape c' = shape c -> mem_base c' = b -> regs m' BUXN_JIT_R_MEM_BASE = vmb + b ->
     words m' -> (forall r, r <> BUXN_JIT_R_MEM_BASE -> regs m' r = regs m r) -> mem m' = mem m ->
     hwp (k tt) Q c' m') ->
  hwp (bind (buxn_jit_set_mem_base b) k) Q c m.
Proof.
  intros [Hp Hw Hb Hvm Hbase] Hb0 Hbw Hk. apply hwp_bind. unfold buxn_jit_set_mem_base.
  apply hwp_bind, hwp_gets. destruct (Z.eqb_spec (mem_base c) b) as [E|E]; cbn [negb when].
  - apply hwp_ret, Hk; try done. destruct Hbase; [lia|congruence].
  - unfold sljit_emit_op2. assert (is_word b) as Hwb by (pose proof lay_vmb; unfold is_word in *; lia).
    eapply (h_lir _ (set_reg BUXN_JIT_R_MEM_BASE (vmb + b) m) _ _ c); [done|done|..].
    { intros B0. rewrite ex_add_imm by done. rewrite Hvm, wrap_id by done. done. }
    intros c' [Hs _]. apply hwp_modify; [done|]. apply Hk; [done|done|apply regs_set_eq|..|done].
    + by apply words_set.
    + intros r Hr. by apply regs_set_ne.
Qed.

(** ** Writing an operand to the stack in memory *)

(** What writing [new] on the stack [flag_r] does to the machine. *)
Record pushed (flag_r : bool) (new : list Z) (m m' : mach) : Prop := {
  pu_words : words m';
  pu_regs : forall r, r <> BUXN_JIT_R_MEM_OFFSET -> r <> BUXN_JIT_R_TMP -> r <> sp_reg flag_r ->
    regs m' r = regs m r;
  pu_mem : forall a, ~ (base flag_r <= a < base flag_r + 256) -> mem m' a = mem m a;
  pu_bytes : bytes m -> Forall is_u8 new -> bytes m';
  pu_stk : forall l, stk (mem m) (base flag_r) (regs m (sp_reg flag_r)) l ->
    (length new + length l <= 256)%nat ->
    stk (mem m') (base flag_r) (regs m' (sp_reg flag_r)) (new ++ l);
  pu_sp : u8 (regs m' (sp_reg flag_r)) = u8 (regs m (sp_reg flag_r) + Z.of_nat (length new));
}.

Lemma pushed_refl flag_r m m' :
  words m' -> mem m' = mem m -> (forall r, r <> BUXN_JIT_R_TMP -> regs m' r = regs m r) ->
  pushed flag_r [] m m'.
Proof.
  intros Hw Hm Hr. split; [done|auto|by rewrite Hm|intros; unfold bytes; by rewrite Hm|..].
  - intros l Hl _. rewrite Hm, Hr by (destruct flag_r; discriminate). done.
  - rewrite Hr by (destruct flag_r; discriminate). f_equal. simpl. lia.
Qed.

(** Writing one more byte, at the stack pointer. *)
Lemma pushed_byte flag_r v new m0 m m' :
  pushed flag_r new m0 m -> words m' ->
  (forall r, r <> BUXN_JIT_R_MEM_OFFSET -> r <> BUXN_JIT_R_TMP -> r <> sp_reg flag_r ->
    regs m' r = regs m r) ->
  regs m' (sp_reg flag_r) = wrap (regs m (sp_reg flag_r) + 1) ->
  (forall a, mem m' a = mem (store8 (base flag_r + u8 (regs m (sp_reg flag_r))) v m) a) ->
  pushed flag_r (v :: new) m0 m'.
Proof.
  intros [_ Hr Hm Hb Hs Hsp] Hw' Hr' Hsp' Hm'. set (p := regs m (sp_reg flag_r)) in *.
  split; [done|..].
  - intros r ???. rewrite Hr'; auto.
  - intros a Ha. rewrite Hm'. cbn. destruct (Z.eqb_spec a (base flag_r + u8 p)) as [->|]; [|auto].
    pose proof (u8_range p). mlia.
  - intros Hb0 [Hv Hnew]%Forall_cons a. rewrite Hm'. cbn.
    destruct (_ =? _); [exact Hv|by apply Hb].
  - intros l Hl Hlen. simpl in Hlen. rewrite Hsp'.
    apply (stk_u8 _ _ (p + 1)); [by rewrite u8_wrap|].
    apply (stk_push (mem m)); [simpl; rewrite length_app; lia|apply Hs; [done|lia]|..].
    + rewrite Hm'. apply mem_store_eq.
    + intros x Hx Hne. rewrite Hm', mem_store_ne; [done|]. lia.
  - rewrite Hsp', u8_wrap. unfold u8 in *. rewrite Zplus_mod, Hsp, <- Zplus_mod. f_equal.
    cbn [length]. lia.
Qed.

Lemma sp_reg_ne flag_r :
  sp_reg flag_r <> BUXN_JIT_R_MEM_OFFSET /\ sp_reg flag_r <> BUXN_JIT_R_TMP /\
  sp_reg flag_r <> BUXN_JIT_R_MEM_BASE /\ sp_reg flag_r <> BUXN_JIT_S_VM.
Proof. destruct flag_r; done. Qed.

(** [buxn_jit_do_push] writes the bytes of the operand. *)
Lemma hwp_do_push c m o flag_r :
  Core c m -> is_op (reg o) -> val_in (is_short o) (regs m (reg o)) ->
  hwp (buxn_jit_do_push o flag_r) (fun _ c' m' =>
    shape c' = shape c /\ Core c' m' /\ mem_base c' = stack_offset flag_r /\
    pushed flag_r (val_bytes (is_short o) (regs m (reg o)))
      (set_reg BUXN_JIT_R_MEM_BASE (base flag_r) m) m') c m.
Proof.
  intros Hco Hop Hv. unfold buxn_jit_do_push.
  destruct (stack_bounds flag_r 0) as (Hlo & Hwb & _); [mlia|].
  destruct (sp_reg_ne flag_r) as (Hne1 & Hne2 & Hne3 & Hne4).
  eapply h_set_mem_base; [done..|]. intros c1 m1 Hs1 Hb1 Hbase1 Hw1 Hr1 Hm1.
  assert (is_Some (compiler_ptr c1)) as Hp1 by (rewrite (shape_compiler _ _ Hs1); apply Hco).
  assert (regs m1 (reg o) = regs m (reg o)) as Ho1 by (apply Hr1; reg_ne).
  assert (regs m1 (sp_reg flag_r) = regs m (sp_reg flag_r)) as Hsp1 by (by apply Hr1).
  fold (sp_reg flag_r).
  assert (reg o <> sp_reg flag_r) as Hosp by (apply op_ne; [done|by destruct flag_r]).
  assert (Like c1 c1) as Hl1 by done. apply hwp_tail_tt.
  pose proof (u8_range (regs m (sp_reg flag_r))) as Hu.
  assert (forall x, is_u8 x -> is_word (base flag_r + x)) as Haddr
    by (intros x Hx; by apply stack_bounds).
  set (m0 := set_reg _ (base flag_r) m).
  assert (pushed flag_r [] m0 m1) as Hpu0.
  { apply pushed_refl; [exact Hw1|exact Hm1|]. intros r Hr. destruct (decide (r = BUXN_JIT_R_MEM_BASE)) as [->|];
      [by rewrite Hbase1|]. rewrite Hr1 by done. unfold m0. by msimp. }
  assert (forall c' m' new, Like c1 c' -> pushed flag_r new m0 m' -> Forall is_u8 new ->
    hwp (ret tt) (fun _ c' m' => shape c' = shape c /\ Core c' m' /\
      mem_base c' = stack_offset flag_r /\ pushed flag_r new m0 m') c' m') as Hend.
  { intros c' m' new [Hs' Hb'] Hpu Hnew. apply hwp_ret. split; [congruence|]. split; [|split; [congruence|done]].
    destruct Hpu as [Hw' Hr' Hm' Hby' _ _]. split; [by rewrite (shape_compiler _ _ Hs')|done|..].
    - apply Hby'; [apply Hco|done].
    - rewrite Hr' by reg_ne. unfold m0. msimp. apply Hco.
    - right. rewrite Hr' by reg_ne. unfold m0. msimp. by rewrite Hb', Hb1. }
  pose proof (val_bytes_u8 _ _ Hv) as Hall.
  destruct (is_short o); cbn [val_in val_bytes] in *.
  - inst ex_mov_u8. intros ??. inst ex_shr_imm. intros ??.
    inst ex_store. { msimp. rewrite Hbase1. apply Haddr, u8_range. } intros ??.
    inst ex_add_imm. intros c2 Hl2. clear dependent c' c'0 c'1.
    destruct (halves_range _ Hv) as [Hhi Hlow].
    match goal with |- hwp _ _ _ ?x => set (m2 := x) end.
    assert (pushed flag_r [Z.shiftr (regs m (reg o)) 8] m0 m2) as Hpu2.
    { apply (pushed_byte flag_r _ [] m0 m1); [exact Hpu0|unfold m2; auto 12 with words|..].
      - intros r ???. unfold m2. by msimp.
      - unfold m2. by msimp.
      - intros a. unfold m2. msimp. by rewrite Hbase1, Ho1, (u8_id _ Hhi). }
    assert (regs m2 BUXN_JIT_R_MEM_BASE = base flag_r) as Hbase2
      by (unfold m2; msimp; exact Hbase1).
    assert (regs m2 (reg o) = regs m (reg o)) as Ho2
      by (unfold m2; msimp; exact Ho1).
    pose proof (pu_words _ _ _ _ Hpu2) as Hw2. clearbody m2.
    inst ex_mov_u8. intros ??. inst ex_and_imm. intros ??.
    inst ex_store. { msimp. rewrite Hbase2. apply Haddr, u8_range. } intros ??.
    inst ex_add_imm. intros c3 Hl3. apply Hend; [done| |exact Hall].
    apply (pushed_byte flag_r _ _ m0 m2); [exact Hpu2|auto 12 with words|..].
    + intros r ???. by msimp.
    + by msimp.
    + intros a. msimp. by rewrite Hbase2, Ho2, (u8_id _ Hlow).
  - inst ex_mov_u8. intros ??. inst ex_store. { msimp. rewrite Hbase1. apply Haddr, u8_range. }
    intros ??. inst ex_add_imm. intros c3 Hl3. apply Hend; [done| |exact Hall].
    apply (pushed_byte flag_r _ [] m0 m1); [exact Hpu0|auto 12 with words|..].
    + intros r ???. by msimp.
    + by msimp.
    + intros a. msimp. by rewrite Hbase1, Ho1, (u8_id _ Hv).
Qed.

(** ** The stacks of a machine that runs the code of a context *)

Definition on_stack (flag_r : bool) (c : buxn_jit_ctx_t) (m : mach) (l : list Z) : Prop :=
  (length l <= 256)%nat /\
  exists lm, l = expand (regs m) (unflushed (get_cache flag_r c)) ++ lm /\
    stk (mem m) (base flag_r) (regs m (sp_reg flag_r)) lm.

(** [st false] and [st true] are the working and the return stack. *)
Record Rep (c : buxn_jit_ctx_t) (m : mach) (H : list sreg) (st : bool -> list Z) : Prop := {
  rp_inv : Inv c H;
  rp_core : Core c m;
  rp_cells : forall flag_r, Forall (cell_ok (regs m)) (live (get_cache flag_r c));
  rp_stack : forall flag_r, on_stack flag_r c m (st flag_r);
  rp_layer : forall flag_r, layered (live (get_cache flag_r c));
}.

(** What the operations of the stack cache do to the rest of the machine. *)
Record evolves (m m' : mach) : Prop := {
  ev_op : forall r, is_op r -> regs m' r = regs m r;
  ev_mem : forall a, (forall flag_r, ~ (base flag_r <= a < base flag_r + 256)) -> mem m' a = mem m a;
}.

Lemma evolves_refl m : evolves m m.
Proof. done. Qed.

Lemma evolves_trans m1 m2 m3 : evolves m1 m2 -> evolves m2 m3 -> evolves m1 m3.
Proof. intros [Ho1 Hm1] [Ho2 Hm2]. split; intros; [rewrite Ho2, Ho1|rewrite Hm2, Hm1]; auto. Qed.

Lemma inv_cell_op c H flag_r x : Inv c H -> x ∈ live (get_cache flag_r c) -> is_op (reg (value x)).
Proof.
  intros [Hc _] Hx. pose proof (inv_op _ _ Hc) as Ho. rewrite Forall_forall in Ho. apply Ho.
  assert (reg (value x) ∈ regs_of (get_cache flag_r c)) by (apply list_elem_of_fmap; eauto).
  unfold owned. rewrite !elem_of_app. destruct flag_r; auto.
Qed.

(** Cells are unaffected by changes outside of the operand registers. *)
Lemma expand_evolves c H m m' flag_r l :
  Inv c H -> (forall r, is_op r -> regs m' r = regs m r) ->
  (forall x, x ∈ l -> x ∈ live (get_cache flag_r c)) ->
  expand (regs m') l = expand (regs m) l.
Proof.
  intros Hi Hev Hl. apply expand_ext. intros r (x & -> & Hx)%list_elem_of_fmap.
  apply Hev. eapply inv_cell_op; eauto.
Qed.

Lemma cells_evolves c H m m' flag_r :
  Inv c H -> (forall r, is_op r -> regs m' r = regs m r) ->
  Forall (cell_ok (regs m)) (live (get_cache flag_r c)) ->
  Forall (cell_ok (regs m')) (live (get_cache flag_r c)).
Proof.
  intros Hi Hev. rewrite !Forall_forall. intros Hc x Hx. specialize (Hc x Hx).
  unfold cell_ok in *. rewrite Hev by (by eapply inv_cell_op). done.
Qed.

Lemma unflushed_live k x : x ∈ unflushed k -> x ∈ live k.
Proof. unfold unflushed. rewrite list_elem_of_filter. tauto. Qed.

Lemma stack_disjoint a flag_r :
  base flag_r <= a < base flag_r + 256 ->
  ~ (base (negb flag_r) <= a < base (negb flag_r) + 256).
Proof.
  intros Ha Hb. unfold base in *.
  pose proof (lay_disjoint 0 1 (off_ws, 256) (off_rs, 256) eq_refl eq_refl ltac:(lia)) as [Hd|Hd];
    cbn [fst snd] in Hd; destruct flag_r; cbn [negb stack_offset] in *; lia.
Qed.

(** Writing on one stack leaves the other where it is. *)
Lemma stk_other flag_r new m m' l :
  pushed flag_r new m m' ->
  stk (mem m) (base (negb flag_r)) (regs m (sp_reg (negb flag_r))) l ->
  stk (mem m') (base (negb flag_r)) (regs m' (sp_reg (negb flag_r))) l.
Proof.
  intros [_ Hr Hm _ _] Hl. rewrite Hr by (destruct flag_r; discriminate).
  eapply stk_mem; [|exact Hl]. intros x Hx. apply Hm. intros Ha.
  apply (stack_disjoint _ _ Ha). unfold is_u8 in Hx. lia.
Qed.

Lemma pushed_evolves flag_r b new m m' :
  pushed flag_r new (set_reg BUXN_JIT_R_MEM_BASE b m) m' -> evolves m m'.
Proof.
  intros [_ Hr Hm _ _]. split.
  - intros r Hop. rewrite Hr by (apply op_ne; [done|by destruct flag_r]). msimp. done.
  - intros a Ha. rewrite Hm by apply Ha. done.
Qed.

(** ** Flushing and spilling *)

Lemma cell_val_in rv x : cell_ok rv x -> val_in (is_short (value x)) (rv (reg (value x))).
Proof. done. Qed.

Lemma cell_bytes_val rv x : cell_bytes rv x = val_bytes (is_short (value x)) (rv (reg (value x))).
Proof. done. Qed.

Lemma core_same c c' m :
  compiler_ptr c' = compiler_ptr c -> mem_base c' = mem_base c -> Core c m -> Core c' m.
Proof. intros Hp Hb []. split; rewrite ?Hp, ?Hb; done. Qed.

Lemma cell_at_live c H flag_r i :
  Inv c H -> (i < len (get_cache flag_r c))%nat ->
  cell_at (get_cache flag_r c) i ∈ live (get_cache flag_r c).
Proof.
  intros Hi Hlt. pose proof (inv_cache_ok c H flag_r Hi) as Hk.
  apply (list_elem_of_lookup_2 _ i). rewrite live_lookup by done.
  apply cell_at_lookup; [done|]. destruct Hk. lia.
Qed.

Lemma hwp_flush_cell i flag_r c m H :
  Inv c H -> Core c m -> (i < len (get_cache flag_r c))%nat ->
  let x := cell_at (get_cache flag_r c) i in
  cell_ok (regs m) x ->
  hwp (buxn_jit_flush_cell i flag_r)
    (fun _ c' m' => Core c' m' /\ mem_base c' = stack_offset flag_r /\
       pushed flag_r (cell_bytes (regs m) x) (set_reg BUXN_JIT_R_MEM_BASE (base flag_r) m) m' /\
       Counted c' (owned c H) /\ frame c' = frame c /\
       get_cache (negb flag_r) c' = get_cache (negb flag_r) c /\
       get_cache flag_r c' = set_cell i (mkCell (value x) false) (get_cache flag_r c)) c m.
Proof.
  intros Hi Hco Hlt x Hx.
  assert (hwp (buxn_jit_flush_cell i flag_r) (fun _ c' m' => Core c' m' /\
    mem_base c' = stack_offset flag_r /\
    pushed flag_r (cell_bytes (regs m) x) (set_reg BUXN_JIT_R_MEM_BASE (base flag_r) m) m') c m) as Hsem.
  { unfold buxn_jit_flush_cell. apply hwp_bind, hwp_gets, hwp_bind. fold x.
    eapply hwp_mono; [apply hwp_do_push; [done|eapply inv_cell_op; [done|by eapply cell_at_live]|done]|].
    intros [] c1 m1 (Hs1 & Hco1 & Hb1 & Hp1). apply hwp_modify; [by destruct flag_r|].
    split; [|split; [by destruct flag_r|exact Hp1]].
    apply (core_same c1); [by destruct flag_r..|done]. }
  eapply hwp_mono; [eapply hwp_wp; [exact Hsem|apply wp_flush_cell; [apply Hi|done]]|].
  intros [] c' m' [(? & ? & ?) ?]. auto.
Qed.

Lemma drop_set_cell0 x k : drop 1 (live (set_cell 0 x k)) = drop 1 (live k).
Proof.
  unfold live, set_cell. cbn [cells len]. destruct (cells k) as [|y l]; [done|].
  destruct (len k); done.
Qed.

Lemma unflushed_app l1 l2 :
  filter (fun x : buxn_jit_stack_cache_cell_t => need_flush x = true) (l1 ++ l2) =
  filter (fun x => need_flush x = true) l1 ++ filter (fun x => need_flush x = true) l2.
Proof. apply filter_app. Qed.

Lemma unflushed_cons k :
  cache_ok k -> (len k <> 0)%nat ->
  unflushed k = (if need_flush (cell_at k 0) then [cell_at k 0] else []) ++ unflushed (cache_shift 1 k).
Proof.
  intros. unfold unflushed. rewrite (live_cons k), filter_cons by done.
  destruct (need_flush _); [rewrite decide_True by done|rewrite decide_False by done]; done.
Qed.

Lemma live_shift_cases k x :
  cache_ok k -> (x = k \/ x = set_cell 0 (mkCell (value (cell_at k 0)) false) k) ->
  live (cache_shift 1 x) = live (cache_shift 1 k).
Proof.
  intros Hk [->| ->]; [done|].
  by rewrite !live_shift, drop_set_cell0 by (done || by apply set_cell_ok).
Qed.

(** The bytes a spill writes to memory: those of the lowest cell, unless they
    are there. *)
Definition spilled (rv : sreg -> Z) (k : buxn_jit_stack_cache_t) : list Z :=
  if need_flush (cell_at k 0) then cell_bytes rv (cell_at k 0) else [].

Lemma hwp_spill_flush flag_r c m H :
  Inv c H -> Core c m -> (forall r, Forall (cell_ok (regs m)) (live (get_cache r c))) ->
  len (get_cache flag_r c) <> 0%nat ->
  let k := get_cache flag_r c in
  hwp (when (need_flush (cell_at k 0)) (buxn_jit_flush_cell 0 flag_r)) (fun _ c1 m1 =>
    Core c1 m1 /\ (exists b, pushed flag_r (spilled (regs m) k) (set_reg BUXN_JIT_R_MEM_BASE b m) m1) /\
    Counted c1 (owned c H) /\ get_cache (negb flag_r) c1 = get_cache (negb flag_r) c /\
    (get_cache flag_r c1 = k \/
     get_cache flag_r c1 = set_cell 0 (mkCell (value (cell_at k 0)) false) k)) c m.
Proof.
  intros Hi Hco Hce H0 k. fold k in H0.
  assert (cell_at k 0 ∈ live k) as Hin by (apply (cell_at_live c H flag_r); [done|fold k; lia]).
  assert (cell_ok (regs m) (cell_at k 0)) as Hx
    by (specialize (Hce flag_r); rewrite Forall_forall in Hce; by apply Hce).
  unfold spilled. destruct (need_flush (cell_at k 0)); cbn [when].
  - eapply hwp_mono; [apply (hwp_flush_cell 0 flag_r c m H); [done|done|fold k; lia|done]|].
    intros [] c1 m1 (? & _ & ? & ? & _ & ? & ?). eauto 10.
  - apply hwp_ret. split; [done|]. split; [|split; [apply Hi|auto]].
    exists (regs m BUXN_JIT_R_MEM_BASE). apply pushed_refl; [apply Hco|done|].
    intros r _. destruct (decide (r = BUXN_JIT_R_MEM_BASE)) as [->|]; by msimp.
Qed.

(** Both stacks are the same after the flush of the lowest cell, which is then
    dropped. *)
Lemma spilled_stacks flag_r c m H st b m1 c2 :
  Inv c H -> (forall r, on_stack r c m (st r)) -> len (get_cache flag_r c) <> 0%nat ->
  let k := get_cache flag_r c in
  pushed flag_r (spilled (regs m) k) (set_reg BUXN_JIT_R_MEM_BASE b m) m1 ->
  live (get_cache flag_r c2) = live (cache_shift 1 k) ->
  get_cache (negb flag_r) c2 = get_cache (negb flag_r) c ->
  forall r, on_stack r c2 m1 (st r).
Proof.
  intros Hi Hst H0 k Hpu Hl2 Ho2 r. pose proof (inv_cache_ok c H flag_r Hi) as Hk. fold k in Hk, H0.
  pose proof (pushed_evolves _ _ _ _ _ Hpu) as Hev.
  destruct (Hst r) as (Hlen & lm & Hl & Hlm). split; [done|].
  destruct (decide (r = flag_r)) as [->|Hne].
  - exists (spilled (regs m) k ++ lm). unfold unflushed. rewrite Hl2. fold (unflushed (cache_shift 1 k)).
    fold k in Hl. rewrite (unflushed_cons k), expand_app in Hl by done.
    assert (st flag_r = expand (regs m) (unflushed (cache_shift 1 k)) ++ spilled (regs m) k ++ lm) as Hst'.
    { rewrite Hl, <- app_assoc. unfold spilled. by destruct (need_flush (cell_at k 0)). }
    split.
    + rewrite Hst'. f_equal. symmetry. eapply (expand_evolves c H _ _ flag_r); [done|apply Hev|].
      intros y Hy%unflushed_live. rewrite live_shift in Hy by done. fold k.
      rewrite <- (take_drop 1 (live k)). apply elem_of_app. auto.
    + apply (pu_stk _ _ _ _ Hpu); [rewrite regs_set_ne by (by destruct flag_r); done|].
      rewrite Hst', !length_app in Hlen. lia.
  - replace r with (negb flag_r) in * by (destruct r, flag_r; done).
    exists lm. rewrite Ho2. split.
    + rewrite Hl. f_equal. symmetry.
      eapply (expand_evolves c H _ _ (negb flag_r)); [done|apply Hev|apply unflushed_live].
    + eapply stk_other; [exact Hpu|]. rewrite regs_set_ne by (by destruct flag_r). done.
Qed.

Lemma hwp_spill_code flag_r c m H st :
  Rep c m H st ->
  hwp (buxn_jit_stack_cache_spill flag_r) (fun _ c' m' =>
    (Core c' m' /\ evolves m m') /\
    (forall r, live (get_cache r c') = live (get_cache r c) \/
       live (get_cache r c') = drop 1 (live (get_cache r c))) /\
    (forall r, on_stack r c' m' (st r))) c m.
Proof.
  intros [Hi Hco Hce Hst Hla]. unfold buxn_jit_stack_cache_spill. apply hwp_bind, hwp_gets.
  destruct (Nat.eqb_spec (len (get_cache flag_r c)) 0) as [H0|H0];
    [apply hwp_ret; split; [done|split; [by left|done]]|].
  set (k := get_cache flag_r c) in *. pose proof (inv_cache_ok c H flag_r Hi) as Hk. fold k in Hk.
  apply hwp_bind. eapply hwp_mono; [by eapply (hwp_spill_flush flag_r c m H)|].
  intros [] c1 m1 (Hco1 & [b Hpu] & Hc1 & Ho1 & Hcases).
  pose proof (flush_slots k _ Hk H0 Hcases) as (Hok1 & Hl1 & Hr1 & H01 & _).
  pose proof (live_shift_cases k _ Hk Hcases) as Hls.
  apply hwp_bind, hwp_silent.
  eapply wp_mono; [apply wp_release; eapply counted_perm; [|exact Hc1]|].
  { rewrite (owned_split flag_r c H). fold k. rewrite <- Hr1, regs_of_cons, H01 by (done || lia).
    cbn [app]. reflexivity. }
  intros [] c2 [Hc2 (i & n & ->)]. split; [done|].
  apply hwp_bind, hwp_modify; [by destruct flag_r|]. apply hwp_ret.
  assert (live (get_cache flag_r (set_cache flag_r (cache_shift 1) (set_ref_count i n c1))) =
    live (cache_shift 1 k)) as Hl2 by (by rewrite get_set_cache_eq, get_cache_ref_count, Hls).
  split; [split; [apply (core_same c1); [by destruct flag_r..|done]|by eapply pushed_evolves]|split].
  - intros r. destruct (decide (r = flag_r)) as [->|Hne].
    + right. by rewrite Hl2, live_shift.
    + replace r with (negb flag_r) by (destruct r, flag_r; done).
      left. by rewrite get_set_cache_ne, get_cache_ref_count, Ho1.
  - eapply spilled_stacks; [done..|exact Hpu|exact Hl2|]. by rewrite get_set_cache_ne, get_cache_ref_count.
Qed.

(** The spilled cell's bytes move to the stack in memory. *)
Lemma hwp_spill flag_r c m H st :
  Rep c m H st ->
  hwp (buxn_jit_stack_cache_spill flag_r)
    (fun _ c' m' => Rep c' m' H st /\ evolves m m') c m.
Proof.
  intros Hr. pose proof Hr as [Hi Hco Hce Hst Hla].
  eapply hwp_mono; [eapply hwp_wp; [by eapply hwp_spill_code|apply wp_spill; exact Hi]|].
  intros b c' m' [((? & Hev) & Hsub & Hst') (Hi' & _)]. split; [|done].
  split; [done|done| |done|].
  - intros r. pose proof (cells_evolves c H m m' r Hi (ev_op _ _ Hev) (Hce r)) as Hc'.
    destruct (Hsub r) as [-> | ->]; [done|by apply Forall_drop].
  - intros r. destruct (Hsub r) as [-> | ->]; [done|by apply layered_drop].
Qed.

(** ** Allocating registers *)

(** What [Rep] needs of the context besides its invariant. *)
Definition view (c : buxn_jit_ctx_t) := (compiler_ptr c, mem_base c, wst_cache c, rst_cache c).

Lemma view_cache c c' : view c' = view c -> forall flag_r, get_cache flag_r c' = get_cache flag_r c.
Proof. unfold view. intros E [|]; cbn [get_cache]; congruence. Qed.

Lemma rep_view c c' m H H' st :
  view c' = view c -> Inv c' H' -> Rep c m H st -> Rep c' m H' st.
Proof.
  intros E Hi [_ Hco Hce Hst Hla]. pose proof (view_cache _ _ E) as Hk. split; [done|..].
  - apply (core_same c); [unfold view in E; congruence..|done].
  - intros flag_r. by rewrite Hk.
  - intros flag_r. unfold on_stack. rewrite Hk. apply Hst.
  - intros flag_r. by rewrite Hk.
Qed.

Lemma view_recounted c c' : recounted c c' -> view c' = view c.
Proof. intros (i & n & ->). done. Qed.

Lemma hwp_alloc_loop fuel : forall c m H st,
  Rep c m H st -> (length H < NUM_OP_REGS)%nat ->
  (len (wst_cache c) + len (rst_cache c) <= fuel)%nat ->
  hwp (alloc_loop fuel)
    (fun o c' m' => Rep c' m' H st /\ evolves m m' /\ exists i, (i < NUM_OP_REGS)%nat /\
       o = Some (op_reg i) /\ ref_count c' i = 0) c m.
Proof.
  induction fuel as [|fuel IH]; intros c m H st Hr HH Hlen; cbn [alloc_loop];
    apply hwp_bind, hwp_gets, hwp_bind, hwp_gets; pose proof (rp_inv _ _ _ _ Hr) as Hi;
    destruct (buxn_jit_find_free_reg c) as [r|] eqn:Ef;
    try (apply find_free_reg_spec in Ef as (i & ? & -> & ?); [|apply Hi];
         apply hwp_ret; split; [done|split; [done|by exists i]]);
    destruct (Nat.eqb_spec (len (wst_cache c) + len (rst_cache c)) 0) as [H0|H0];
    try (pose proof (find_free_none_held c H Hi Ef H0); lia); [lia|].
  apply hwp_bind, hwp_gets. set (flag_r := buxn_jit_op_flag_r c).
  pose proof (wp_spill_any c H Hi H0 flag_r) as Hs. cbn zeta in Hs.
  assert (hwp (ok <-- buxn_jit_stack_cache_spill flag_r ;;
               when (negb ok) (buxn_jit_stack_cache_spill (negb flag_r) ;;; ret tt))
    (fun _ c1 m1 => Rep c1 m1 H st /\ evolves m m1) c m) as Hone.
  { apply hwp_bind. eapply hwp_mono; [by apply hwp_spill|]. intros b c1 m1 [Hr1 Hev1].
    destruct b; cbn [negb when]; [by apply hwp_ret|].
    apply hwp_bind. eapply hwp_mono; [by apply hwp_spill|]. intros b c2 m2 [Hr2 Hev2].
    apply hwp_ret. split; [done|]. by eapply evolves_trans. }
  pose proof (hwp_wp _ _ _ _ _ Hone Hs) as Hboth.
  eapply hwp_assoc_inv, hwp_bind, hwp_mono; [exact Hboth|].
  intros [] c1 m1 [[Hr1 Hev1] (_ & _ & Hl1)].
  eapply hwp_mono; [apply IH; [done..|lia]|]. intros o c2 m2 (? & ? & ?).
  split; [done|]. split; [by eapply evolves_trans|done].
Qed.

Lemma hwp_alloc c m H st :
  Rep c m H st -> (length H < NUM_OP_REGS)%nat ->
  hwp buxn_jit_alloc_reg
    (fun r c' m' => Rep c' m' (r :: H) st /\ evolves m m' /\ r ∉ owned c' H) c m.
Proof.
  intros Hr HH. pose proof (rp_inv _ _ _ _ Hr) as Hi.
  pose proof (inv_cache_ok _ _ false Hi) as [_ ?]. pose proof (inv_cache_ok _ _ true Hi) as [_ ?].
  cbn [get_cache] in *.
  assert (hwp buxn_jit_alloc_reg (fun r c' m' => evolves m m' /\
    exists c1, Rep c1 m' H st /\ view c' = view c1) c m) as Hsem.
  { unfold buxn_jit_alloc_reg. apply hwp_bind. eapply hwp_mono; [apply hwp_alloc_loop; [done..|]|].
    { unfold BUXN_JIT_CACHE_SIZE in *. lia. }
    intros o c1 m1 (Hr1 & Hev1 & i & Hlt & -> & Hz).
    apply hwp_bind, hwp_silent. unfold wp, buxn_jit_retain_reg. rewrite op_index_op by done.
    split; [done|]. apply hwp_ret. split; [done|]. by exists c1. }
  eapply hwp_mono; [eapply hwp_wp; [exact Hsem|by apply wp_alloc]|].
  intros r c' m' [(Hev & c1 & Hr1 & Hv) (Hi' & _ & Hni)]. split; [|done]. by eapply rep_view.
Qed.

(** With a free register nothing is spilled and nothing emitted. *)
Lemma hwp_alloc_free c m H :
  Inv c H -> (length H < NUM_OP_REGS)%nat -> buxn_jit_find_free_reg c <> None ->
  hwp buxn_jit_alloc_reg
    (fun r c' m' => m' = m /\ recounted c c' /\ Inv c' (r :: H) /\ r ∉ owned c' H) c m.
Proof.
  intros Hi HH Hf. eapply hwp_mono; [eapply hwp_wp; [|by apply wp_alloc]|].
  - instantiate (1 := fun _ c' m' => m' = m /\ recounted c c').
    unfold buxn_jit_alloc_reg. apply hwp_bind. cbn [alloc_loop]. apply hwp_bind, hwp_gets, hwp_bind, hwp_gets.
    destruct (buxn_jit_find_free_reg c) as [r|] eqn:Ef; [|done]. apply hwp_ret.
    apply find_free_reg_spec in Ef as (i & Hlt & -> & _); [|apply Hi].
    apply hwp_bind, hwp_silent. unfold wp, buxn_jit_retain_reg. rewrite op_index_op by done.
    split; [done|]. apply hwp_ret. split; [done|]. by do 2 eexists.
  - intros r c' m' [[? ?] (? & _ & ?)]. auto.
Qed.

(** ** Pushing *)

(** What an operation needs to know later in the same opcode. *)
Definition ctl (c : buxn_jit_ctx_t) :=
  (current_opcode c, pc c, wsp_reg c, rsp_reg c, jit c).

Lemma ctl_frame c c' : frame c' = frame c -> ctl c' = ctl c.
Proof. unfold frame, ctl. congruence. Qed.

Lemma live_push v k :
  cache_ok k -> (len k < BUXN_JIT_CACHE_SIZE)%nat ->
  live (mkCache (<[len k := mkCell v true]> (cells k)) (S (len k))) = live k ++ [mkCell v true].
Proof.
  intros [Hl Hn] Hlt. unfold live. cbn [len cells].
  rewrite (take_S_r _ _ (mkCell v true)) by (rewrite list_lookup_insert_eq by lia; done).
  by rewrite take_insert_ge by lia.
Qed.

(** Appending a cell to a cache that has room. *)
Lemma rep_append flag_r v c m H st :
  Rep c m H st -> reg v ∈ H -> val_in (is_short v) (regs m (reg v)) ->
  (len (get_cache flag_r c) < BUXN_JIT_CACHE_SIZE)%nat ->
  let new := val_bytes (is_short v) (regs m (reg v)) in
  (length new + length (st flag_r) <= 256)%nat -> forall c',
  Inv c' H -> compiler_ptr c' = compiler_ptr c -> mem_base c' = mem_base c ->
  get_cache flag_r c' = mkCache (<[len (get_cache flag_r c) := mkCell v true]>
    (cells (get_cache flag_r c))) (S (len (get_cache flag_r c))) ->
  get_cache (negb flag_r) c' = get_cache (negb flag_r) c ->
  Rep c' m H (set_stack flag_r (new ++ st flag_r) st).
Proof.
  intros [Hi Hco Hce Hst Hla] Hv Hval Hlt new Hlen c' Hi' Hp Hb Hk Hko.
  pose proof (inv_cache_ok c H flag_r Hi) as Hok.
  pose proof (live_push v _ Hok Hlt) as Hlive. rewrite <- Hk in Hlive.
  split; [done|by apply (core_same c)|..]; intros r; destruct (decide (r = flag_r)) as [->|Hne].
  - rewrite Hlive. apply Forall_app. split; [done|]. by repeat constructor.
  - replace r with (negb flag_r) by (destruct r, flag_r; done). by rewrite Hko.
  - rewrite set_stack_eq. destruct (Hst flag_r) as (_ & lm & Hl & Hlm).
    split; [rewrite length_app; done|]. exists lm. split; [|done].
    unfold unflushed. rewrite Hlive, filter_app, expand_app, Hl, app_assoc. done.
  - rewrite set_stack_ne by done. destruct (Hst r) as (Hl & lm & E & Hlm).
    replace r with (negb flag_r) in * by (destruct r, flag_r; done).
    split; [done|]. exists lm. by rewrite Hko.
  - rewrite Hlive. by apply layered_snoc.
  - replace r with (negb flag_r) by (destruct r, flag_r; done). by rewrite Hko.
Qed.

Lemma hwp_cache_push flag_r v c m H st :
  Rep c m H st -> reg v ∈ H -> val_in (is_short v) (regs m (reg v)) ->
  let new := val_bytes (is_short v) (regs m (reg v)) in
  (length new + length (st flag_r) <= 256)%nat ->
  hwp (buxn_jit_stack_cache_push flag_r v)
    (fun _ c' m' => Rep c' m' H (set_stack flag_r (new ++ st flag_r) st) /\ evolves m m' /\
       ctl c' = ctl c) c m.
Proof.
  intros Hr Hv Hval new Hlen. pose proof (rp_inv _ _ _ _ Hr) as Hi.
  assert (is_op (reg v)) as Hop by eauto with jit.
  assert (hwp (buxn_jit_stack_cache_push flag_r v) (fun _ c' m' => evolves m m' /\ exists c1,
    Rep c1 m' H st /\ (len (get_cache flag_r c1) < BUXN_JIT_CACHE_SIZE)%nat /\
    compiler_ptr c' = compiler_ptr c1 /\ mem_base c' = mem_base c1 /\
    get_cache flag_r c' = mkCache (<[len (get_cache flag_r c1) := mkCell v true]>
      (cells (get_cache flag_r c1))) (S (len (get_cache flag_r c1))) /\
    get_cache (negb flag_r) c' = get_cache (negb flag_r) c1) c m) as Hsem.
  { unfold buxn_jit_stack_cache_push. apply hwp_bind, hwp_gets, hwp_bind.
    assert (hwp (when (BUXN_JIT_CACHE_SIZE <=? len (get_cache flag_r c))%nat
                  (buxn_jit_stack_cache_spill flag_r ;;; ret tt))
      (fun _ c1 m1 => Rep c1 m1 H st /\ evolves m m1 /\
         (len (get_cache flag_r c1) < BUXN_JIT_CACHE_SIZE)%nat) c m) as Hsp.
    { destruct (Nat.leb_spec BUXN_JIT_CACHE_SIZE (len (get_cache flag_r c))); cbn [when];
        [|by apply hwp_ret].
      apply hwp_bind. eapply hwp_mono; [eapply hwp_wp; [by apply hwp_spill|apply wp_spill; exact Hi]|].
      intros b c1 m1 [[? ?] (_ & _ & _ & Hl & _)]. apply hwp_ret. split; [done|]. split; [done|].
      pose proof (inv_cache_ok c H flag_r Hi) as [_ ?]. unfold BUXN_JIT_CACHE_SIZE in *. lia. }
    eapply hwp_mono; [exact Hsp|]. intros [] c1 m1 (Hr1 & Hev1 & Hlt1).
    apply hwp_bind, hwp_modify; [by destruct flag_r|]. apply hwp_silent.
    destruct Hop as (i & Hlti & ->). unfold wp, buxn_jit_retain_reg. rewrite op_index_op by done.
    split; [by destruct flag_r|]. split; [done|]. exists c1. by destruct flag_r. }
  eapply hwp_mono; [eapply hwp_wp; [exact Hsem|by apply wp_cache_push]|].
  intros [] c' m' [(Hev & c1 & Hr1 & Hlt & Hp & Hb & Hk & Hko) [Hi' Hf]].
  split; [|split; [done|by apply ctl_frame]].
  pose proof (ev_op _ _ Hev _ Hop) as Ev. unfold new. rewrite <- Ev. rewrite <- Ev in Hval.
  apply (rep_append flag_r v c1); try done. by rewrite Ev.
Qed.
End StackSim.
