(* ===== verification/PopSim.v ===== *)
(** * Popping at run time

    What a pop reads is described by the pop view of a stack: the cells of its
    cache, flushed or not, on top of the bytes below the pointer the opcode
    pops through ([ctx->wsp_reg] or [ctx->rsp_reg]).  Outside of keep mode this
    is the stack itself; in keep mode the pointer is a copy and nothing is
    removed.  A pop is correct when no cell is spilled meanwhile and no register
    is changed that another cell shares.  There are two ways to be sure of it
    ([popmode]): the registers are distinct and there is a free one for each
    pop, or each operand is a whole cell, whose register is not changed by the
    pop, or in memory. *)
From S2P Require Import Prelude Lir Hamt Jit StackCache Uxn Invariant CacheSafety Machine StackSim.
From Stdlib Require Import Permutation.
Local Open Scope jit_scope.

(** ** Counting owners *)

Lemma owned_size c H :
  Inv c H -> length (owned c H) = (len (wst_cache c) + len (rst_cache c) + length H)%nat.
Proof.
  intros Hi. pose proof (inv_cache_ok c H false Hi). pose proof (inv_cache_ok c H true Hi).
  unfold owned, regs_of. rewrite !length_app, !length_fmap, !live_length by done. lia.
Qed.

(** The registers in use, cached or held, and the free ones. *)
Definition in_use (c : buxn_jit_ctx_t) (H : list sreg) : nat :=
  (len (wst_cache c) + len (rst_cache c) + length H)%nat.

Definition free_regs (l : list sreg) : list sreg :=
  filter (fun r => r ∉ l) (op_reg <$> seq 0 NUM_OP_REGS).

Lemma free_regs_subset l l' : l' ⊆ l -> (length (free_regs l) <= length (free_regs l'))%nat.
Proof.
  intros Hs. unfold free_regs. induction (op_reg <$> seq 0 NUM_OP_REGS) as [|r q IH]; [done|].
  rewrite !filter_cons. destruct (decide (r ∉ l)), (decide (r ∉ l')); simpl; try lia. set_solver.
Qed.

Lemma free_regs_cons r l : (length (free_regs l) <= S (length (free_regs (r :: l))))%nat.
Proof.
  change (S (length (free_regs (r :: l)))) with (length (r :: free_regs (r :: l))).
  apply submseteq_length, NoDup_submseteq.
  - apply NoDup_filter, NoDup_fmap_2; [intros ?? [= E]; lia|apply NoDup_seq].
  - intros q [Hq Hin]%list_elem_of_filter. destruct (decide (q = r)) as [->|Hne]; [by left|right].
    apply list_elem_of_filter. split; [|done]. by rewrite not_elem_of_cons.
Qed.

(** A free register is found. *)
Lemma find_free_regs c H :
  Inv c H -> (0 < length (free_regs (owned c H)))%nat -> buxn_jit_find_free_reg c <> None.
Proof.
  intros [Hc _] Hlt Hf. destruct (free_regs (owned c H)) as [|r l] eqn:E; [simpl in Hlt; lia|].
  assert (r ∈ free_regs (owned c H)) as Hr by (rewrite E; by left).
  apply list_elem_of_filter in Hr as [Hno (i & -> & Hi)%list_elem_of_fmap]. apply elem_of_seq in Hi.
  unfold buxn_jit_find_free_reg in Hf. apply fmap_None, first_zero_none in Hf.
  pose proof (inv_counts _ _ Hc i ltac:(lia)) as Hn.
  apply occ_zero in Hno. rewrite Hno in Hn. rewrite Forall_forall in Hf.
  apply (Hf (ref_count c i)); [|done].
  unfold ref_count. apply list_elem_of_In, nth_In. rewrite (inv_nregs _ _ Hc). lia.
Qed.

(** Fewer owners than registers: one is free. *)
Lemma find_free_some c H :
  Inv c H -> (length (owned c H) < NUM_OP_REGS)%nat -> buxn_jit_find_free_reg c <> None.
Proof.
  intros Hi Hlt. apply (find_free_regs _ H); [done|].
  assert (NUM_OP_REGS <= length (owned c H) + length (free_regs (owned c H)))%nat; [|lia].
  assert (forall l, NUM_OP_REGS <= length l + length (free_regs l))%nat as Hall.
  { intros l. induction l as [|r l IH]; [vm_compute; lia|].
    pose proof (free_regs_cons r l). simpl. lia. }
  apply Hall.
Qed.

Lemma owned_nodup_cons c r H : NoDup (owned c H) -> r ∉ owned c H -> NoDup (owned c (r :: H)).
Proof. intros Hn Hr. rewrite owned_cons. by apply NoDup_cons. Qed.

Lemma held_owned c H r : r ∈ H -> r ∈ owned c H.
Proof. intros. unfold owned. rewrite !elem_of_app. auto. Qed.

Lemma cell_owned c H flag_r x : x ∈ live (get_cache flag_r c) -> reg (value x) ∈ owned c H.
Proof.
  intros Hx. unfold owned. rewrite !elem_of_app.
  assert (reg (value x) ∈ regs_of (get_cache flag_r c)) by (apply list_elem_of_fmap; eauto).
  destruct flag_r; auto.
Qed.

(** With distinct owners, a held register is in no cell. *)
Lemma held_not_cell c H r flag_r x :
  NoDup (owned c H) -> r ∈ H -> x ∈ live (get_cache flag_r c) -> reg (value x) <> r.
Proof.
  intros Hn Hr Hx <-. unfold owned in Hn. rewrite app_assoc in Hn.
  apply NoDup_app in Hn as (_ & Hd & _). apply (Hd (reg (value x))); [|done].
  rewrite elem_of_app. assert (reg (value x) ∈ regs_of (get_cache flag_r c))
    by (apply list_elem_of_fmap; eauto). destruct flag_r; auto.
Qed.

Lemma flag_case (flag r : bool) : r = flag \/ r = negb flag.
Proof. destruct flag, r; auto. Qed.

(** A register that is not in an explicit list. *)
Ltac reg_notin := rewrite !not_elem_of_cons; split_and?; first [reg_ne | apply not_elem_of_nil].

(** A register of no cell. *)
Definition private (c : buxn_jit_ctx_t) (r : sreg) : Prop :=
  forall flag x, x ∈ live (get_cache flag c) -> reg (value x) <> r.

Lemma private_held c H r : NoDup (owned c H) -> r ∈ H -> private c r.
Proof. intros Hn Hr q x Hx. by eapply held_not_cell. Qed.

Lemma private_fresh c H r : r ∉ owned c H -> private c r.
Proof. intros Hr q x Hx <-. by eapply Hr, cell_owned. Qed.

Lemma private_fixed c H r : Inv c H -> op_index r = None -> private c r.
Proof.
  intros Hi Hr q x Hx. apply op_ne; [|done]. by eapply inv_cell_op.
Qed.

Lemma private_same c c' r :
  (forall q, get_cache q c' = get_cache q c) -> private c r -> private c' r.
Proof. intros Hk Hp q x. rewrite Hk. apply Hp. Qed.

Lemma ctl_sp c c' flag_r : ctl c' = ctl c -> stack_ptr_reg flag_r c' = stack_ptr_reg flag_r c.
Proof. unfold ctl, stack_ptr_reg. destruct flag_r; congruence. Qed.

Lemma owned_caches c c' H : (forall q, get_cache q c' = get_cache q c) -> owned c' H = owned c H.
Proof.
  intros Hk. unfold owned. by rewrite (Hk false : wst_cache c' = _), (Hk true : rst_cache c' = _).
Qed.

Lemma in_use_caches c c' H : (forall q, get_cache q c' = get_cache q c) -> in_use c' H = in_use c H.
Proof.
  intros Hk. unfold in_use. by rewrite (Hk false : wst_cache c' = _), (Hk true : rst_cache c' = _).
Qed.

(** ** How an opcode pops *)

(** From distinct registers, [n] times more; or whole cells, of these sizes
    from the top. *)
Inductive popmode :=
  | Distinct (n : nat)
  | Whole (szs : list bool).

(** The sizes of the cells from the top, as far as there are cells. *)
Fixpoint fits (szs : list bool) (l : list buxn_jit_stack_cache_cell_t) : bool :=
  match szs, l with
  | sz :: szs, x :: l => Bool.eqb (is_short (value x)) sz && fits szs l
  | _, _ => true
  end.

(** What is asked of the registers in use. *)
Definition own (pm : popmode) (flag_r : bool) (c : buxn_jit_ctx_t) (H : list sreg) : Prop :=
  match pm with
  | Distinct n => NoDup (owned c H) /\ (in_use c H + n <= NUM_OP_REGS)%nat
  | Whole szs =>
      fits szs (reverse (live (get_cache flag_r c))) = true /\
      private c (stack_ptr_reg flag_r c) /\
      (length szs - len (get_cache flag_r c) <= length (free_regs (owned c H)))%nat /\
      (length H + length szs <= NUM_OP_REGS)%nat
  end.

(** The mode after a pop of this size. *)
Definition pm_pop (sz : bool) (pm pm' : popmode) : Prop :=
  match pm with
  | Distinct n => exists n', n = S n' /\ pm' = Distinct n'
  | Whole szs => exists szs', szs = sz :: szs' /\ pm' = Whole szs'
  end.

(** The mode after the cell on top was taken over, of this size. *)
Definition pm_top (sz : bool) (pm pm' : popmode) : Prop :=
  match pm with
  | Distinct _ => pm' = pm
  | Whole _ => pm_pop sz pm pm'
  end.

Lemma own_same pm flag_r c c' H :
  (forall q, get_cache q c' = get_cache q c) -> ctl c' = ctl c -> own pm flag_r c H -> own pm flag_r c' H.
Proof.
  intros Hk Hctl. destruct pm as [n|szs]; cbn [own].
  - by rewrite (owned_caches _ _ _ Hk), (in_use_caches _ _ _ Hk).
  - rewrite Hk, (owned_caches _ _ _ Hk), (ctl_sp _ _ _ Hctl). intros (? & ? & ? & ?).
    split_and!; [done|by eapply private_same|done|done].
Qed.

Lemma own_weaken n n' flag_r c H : (n' <= n)%nat -> own (Distinct n) flag_r c H -> own (Distinct n') flag_r c H.
Proof. cbn. intros ? [? ?]. split; [done|lia]. Qed.

(** A pop holds fewer registers than there are. *)
Lemma own_held sz pm pm' flag_r c H : pm_pop sz pm pm' -> own pm flag_r c H -> (length H < NUM_OP_REGS)%nat.
Proof.
  destruct pm as [n|szs]; cbn [own pm_pop].
  - intros (n' & -> & _) [_ Hn]. unfold in_use in Hn. lia.
  - intros (szs' & -> & _) (_ & _ & _ & Hl). cbn [length] in Hl. lia.
Qed.

(** The pop pointer is in no cell. *)
Lemma own_sp pm flag_r c H :
  Inv c H -> own pm flag_r c H ->
  stack_ptr_reg flag_r c = sp_reg flag_r \/ stack_ptr_reg flag_r c ∈ H ->
  private c (stack_ptr_reg flag_r c).
Proof.
  intros Hi Ho Hsp. destruct pm as [n|szs]; [|apply Ho].
  destruct Hsp as [E|Hin]; [|eapply private_held; [apply Ho|done]].
  rewrite E. eapply private_fixed; [exact Hi|by destruct flag_r].
Qed.

(** A pop that needs a register finds one. *)
Lemma own_free sz pm pm' flag_r c H :
  Inv c H -> pm_pop sz pm pm' -> own pm flag_r c H ->
  match pm with Distinct _ => True | Whole _ => len (get_cache flag_r c) = 0%nat end ->
  buxn_jit_find_free_reg c <> None.
Proof.
  intros Hi Hpm Ho H0. destruct pm as [n|szs]; cbn [own pm_pop] in *.
  - destruct Hpm as (n' & -> & _), Ho as [_ Ho]. apply (find_free_some _ H); [done|].
    rewrite owned_size by done. unfold in_use in Ho. lia.
  - destruct Hpm as (szs' & -> & _), Ho as (_ & _ & Ho & _). apply (find_free_regs _ H); [done|].
    rewrite H0 in Ho. cbn [length] in Ho. lia.
Qed.

(** A pop from memory takes a new register. *)
Lemma own_mem sz pm pm' flag_r c H r c' :
  pm_pop sz pm pm' -> own pm flag_r c H -> len (get_cache flag_r c) = 0%nat -> r ∉ owned c H ->
  (forall q, get_cache q c' = get_cache q c) -> ctl c' = ctl c -> own pm' flag_r c' (r :: H).
Proof.
  intros Hpm Ho H0 Hr Hk Hctl. apply (own_same _ _ c); [done|done|].
  destruct pm as [n|szs]; cbn [own pm_pop] in *.
  - destruct Hpm as (n' & -> & ->), Ho as [Hn Ho]. cbn [own]. split; [by apply owned_nodup_cons|].
    unfold in_use in *. cbn [length]. lia.
  - destruct Hpm as (szs' & -> & ->), Ho as (_ & Hp & Ho & Hl). cbn [own length] in *.
    assert (live (get_cache flag_r c) = []) as -> by (unfold live; by rewrite H0).
    split_and!; [by destruct szs'|done| |lia].
    pose proof (free_regs_cons r (owned c H)).
    pose proof (free_regs_subset (r :: owned c H) (owned c (r :: H))) as Hs.
    rewrite H0 in *. assert (owned c (r :: H) ⊆ r :: owned c H) as Hsub
      by (intros q; by rewrite owned_cons). specialize (Hs Hsub). lia.
Qed.

Section PopSim.
Context {Lay : VmLayout} {SL : Sljit} {SP : SljitSpec} {HO : Host} {vmb : Z} {LS : LayoutSpec vmb}.

#[local] Abbreviation base := (base (vmb := vmb)).
#[local] Abbreviation Core := (Core (vmb := vmb)).

Definition pop_view (flag_r : bool) (c : buxn_jit_ctx_t) (m : mach) (l : list Z) : Prop :=
  exists lm, l = expand (regs m) (live (get_cache flag_r c)) ++ lm /\
    stk (mem m) (base flag_r) (regs m (stack_ptr_reg flag_r c)) lm.

(** Ready to pop [l] from the stack [flag_r]. *)
Record PV (pm : popmode) (flag_r : bool) (c : buxn_jit_ctx_t) (m : mach) (H : list sreg) (l : list Z) : Prop := {
  pv_inv : Inv c H;
  pv_core : Core c m;
  pv_cells : forall r, Forall (cell_ok (regs m)) (live (get_cache r c));
  pv_own : own pm flag_r c H;
  pv_sp : stack_ptr_reg flag_r c = sp_reg flag_r \/ stack_ptr_reg flag_r c ∈ H;
  pv_view : pop_view flag_r c m l;
}.

(** What a pop leaves alone. *)
Record popped (flag_r : bool) (H : list sreg) (c : buxn_jit_ctx_t) (m : mach)
    (c' : buxn_jit_ctx_t) (m' : mach) : Prop := {
  po_mem : mem m' = mem m;
  po_sp : forall r, sp_reg r <> stack_ptr_reg flag_r c -> regs m' (sp_reg r) = regs m (sp_reg r);
  po_held : forall r, r ∈ H -> r <> stack_ptr_reg flag_r c -> regs m' r = regs m r;
  po_other : get_cache (negb flag_r) c' = get_cache (negb flag_r) c;
  po_regs : forall x, x ∈ live (get_cache (negb flag_r) c) ->
    regs m' (reg (value x)) = regs m (reg (value x));
  po_flush : forall b, Forall (fun x => need_flush x = b) (live (get_cache flag_r c)) ->
    Forall (fun x => need_flush x = b) (live (get_cache flag_r c'));
  po_len : (len (get_cache flag_r c') <= len (get_cache flag_r c))%nat;
  po_ctl : ctl c' = ctl c;
}.

Lemma popped_trans flag_r H H' c1 m1 c2 m2 c3 m3 :
  (forall r, r ∈ H -> r ∈ H') ->
  popped flag_r H c1 m1 c2 m2 -> popped flag_r H' c2 m2 c3 m3 -> popped flag_r H c1 m1 c3 m3.
Proof.
  intros Hsub [] []. pose proof (ctl_sp _ _ flag_r po_ctl0) as Esp.
  split; try congruence; auto; try lia.
  - intros r Hr. rewrite po_sp1, po_sp0; congruence.
  - intros r Hr Hne. rewrite po_held1, po_held0; auto. congruence.
  - intros x Hx. rewrite po_regs1, po_regs0; [done|done|]. by rewrite po_other0.
Qed.

Lemma join_halves v : is_u16 v -> Z.lor (Z.land v 0xff) (Z.shiftl (Z.shiftr v 8) 8) = v.
Proof.
  intros Hv. apply Z.bits_inj'. intros n Hn. change 0xff with (Z.ones 8).
  rewrite Z.lor_spec, Z.land_spec, Z.testbit_ones_nonneg by lia.
  destruct (Z.ltb_spec n 8).
  - rewrite Z.shiftl_spec_low by lia. rewrite Bool.andb_true_r, Bool.orb_false_r. done.
  - rewrite Z.shiftl_spec_high, Z.shiftr_spec by lia.
    rewrite Bool.andb_false_r. cbn [orb]. f_equal. lia.
Qed.

(** Only these registers change. *)
Definition regs_but (l : list sreg) (m m' : mach) : Prop := forall r, r ∉ l -> regs m' r = regs m r.

Lemma sp_cases flag_r c H :
  Inv c H -> stack_ptr_reg flag_r c = sp_reg flag_r \/ stack_ptr_reg flag_r c ∈ H ->
  let sp := stack_ptr_reg flag_r c in
  sp <> BUXN_JIT_R_MEM_BASE /\ sp <> BUXN_JIT_R_MEM_OFFSET /\ sp <> BUXN_JIT_R_TMP /\
  sp <> BUXN_JIT_S_VM /\ forall r, is_op r -> r ∉ H -> r <> sp.
Proof.
  intros Hi [E|Hin]; cbv zeta.
  - rewrite E. destruct flag_r; repeat split; try discriminate;
      intros r Hop _; apply op_ne; done.
  - pose proof (inv_held_op _ _ _ Hi Hin) as Hop.
    repeat split; try (apply op_ne; done). intros r _ Hr ->. done.
Qed.

Lemma cells_keep c X m m' :
  regs_but X m m' -> Forall (private c) X ->
  forall flag_r x, x ∈ live (get_cache flag_r c) ->
  regs m' (reg (value x)) = regs m (reg (value x)).
Proof.
  intros Hbut HX flag_r x Hx. apply Hbut. intros Hin. rewrite Forall_forall in HX.
  by apply (HX _ Hin flag_r x).
Qed.

Lemma held_keep c H X m m' q :
  Inv c H -> regs_but X m m' -> Forall (fun x => op_index x = None \/ x ∉ owned c H \/ x <> q) X ->
  q ∈ H -> regs m' q = regs m q.
Proof.
  intros Hi Hbut HX Hq. apply Hbut. intros Hin. rewrite Forall_forall in HX.
  destruct (HX q Hin) as [Hno|[Hno|Hne]]; [|by apply Hno, held_owned|done].
  pose proof (inv_held_op _ _ _ Hi Hq) as Hop. by apply (op_ne q q).
Qed.

(** The end of a pop from memory: [c2] is the context after the allocation
    of [r], [m'] the machine after the loads. *)
Lemma pop_mem_done sz pm pm' flag_r c m H r l c' m' :
  pm_pop sz pm pm' ->
  Inv c H -> Core c m -> (forall r, Forall (cell_ok (regs m)) (live (get_cache r c))) ->
  own pm flag_r c H -> len (get_cache flag_r c) = 0%nat ->
  let sp := stack_ptr_reg flag_r c in
  (sp = sp_reg flag_r \/ sp ∈ H) ->
  Inv c' (r :: H) -> r ∉ owned c H -> Core c' m' ->
  (forall r, get_cache r c' = get_cache r c) -> ctl c' = ctl c -> mem m' = mem m ->
  regs_but [r; sp; BUXN_JIT_R_MEM_OFFSET; BUXN_JIT_R_TMP; BUXN_JIT_R_MEM_BASE] m m' ->
  stk (mem m) (base flag_r) (regs m' sp) l ->
  PV pm' flag_r c' m' (r :: H) l /\ popped flag_r H c m c' m'.
Proof.
  intros Hpm Hi Hco Hce Ho H0 sp Hsp Hi' Hfresh Hco' Hk Hctl Hmem Hbut Hstk.
  assert (live (get_cache flag_r c) = []) as Hlive by (unfold live; by rewrite H0).
  destruct (sp_cases flag_r c H Hi Hsp) as (Hn1 & Hn2 & Hn3 & Hn4 & Hn5). fold sp in Hn1, Hn2, Hn3, Hn4, Hn5.
  assert (is_op r) as Hop by (eapply inv_held_op; [exact Hi'|rewrite elem_of_cons; auto]).
  assert (Forall (private c)
    [r; sp; BUXN_JIT_R_MEM_OFFSET; BUXN_JIT_R_TMP; BUXN_JIT_R_MEM_BASE]) as HX.
  { repeat apply Forall_cons_2; [by eapply private_fresh|by eapply own_sp|..|apply Forall_nil_2];
      by eapply private_fixed. }
  pose proof (cells_keep c _ m m' Hbut HX) as Hcells.
  assert (forall r, expand (regs m') (live (get_cache r c)) = expand (regs m) (live (get_cache r c))) as Hex.
  { intros q. apply expand_ext. intros ? (x & -> & Hx)%list_elem_of_fmap. by apply (Hcells q). }
  split; split; try done.
  - intros q. rewrite Hk. specialize (Hce q). rewrite Forall_forall in *. intros x Hx.
    unfold cell_ok. rewrite (Hcells q x Hx). by apply Hce.
  - by eapply own_mem.
  - rewrite (ctl_sp _ _ flag_r Hctl). destruct Hsp; [by left|right; rewrite elem_of_cons; auto].
  - exists l. rewrite Hk, Hlive, (ctl_sp _ _ flag_r Hctl), Hmem. done.
  - intros q Hq. apply Hbut. rewrite !not_elem_of_cons.
    split; [apply not_eq_sym, op_ne; [done|by destruct q]|].
    split; [done|]. repeat split; try (by destruct q). apply not_elem_of_nil.
  - intros q Hq Hne. apply (held_keep c H _ m m' q Hi Hbut); [|done].
    repeat apply Forall_cons_2; try (by left); [right; left; done|].
    right. right. by apply not_eq_sym.
  - by intros x Hx; apply (Hcells (negb flag_r)).
  - intros b. by rewrite Hk.
  - by rewrite Hk.
Qed.

(** A pop from memory once its register [r] is allocated: the base register is
    that of the stack. *)
Record Popping_mem (pm' : popmode) (flag_r : bool) (c : buxn_jit_ctx_t) (m : mach) (H : list sreg)
    (l : list Z) (v : Z) (r : sreg) (c2 : buxn_jit_ctx_t) (m1 : mach) : Prop := {
  pg_op : is_op r;
  pg_sp : r <> stack_ptr_reg flag_r c;
  pg_compiler : is_Some (compiler_ptr c2);
  pg_words : words m1;
  pg_bytes : bytes m1;
  pg_base : regs m1 BUXN_JIT_R_MEM_BASE = base flag_r;
  pg_ptr : regs m1 (stack_ptr_reg flag_r c) = regs m (stack_ptr_reg flag_r c);
  pg_mem : mem m1 = mem m;
  pg_done : forall c' m', Like c2 c' -> words m' -> mem m' = mem m1 ->
    regs_but [r; stack_ptr_reg flag_r c; BUXN_JIT_R_MEM_OFFSET; BUXN_JIT_R_TMP] m1 m' -> regs m' r = v ->
    stk (mem m) (base flag_r) (regs m' (stack_ptr_reg flag_r c)) l ->
    PV pm' flag_r c' m' (r :: H) l /\ regs m' r = v /\ r <> stack_ptr_reg flag_r c /\
    popped flag_r H c m c' m';
}.

Lemma popping_mem sz pm pm' flag_r c m H l0 l v r c1 m1 c2 :
  pm_pop sz pm pm' -> PV pm flag_r c m H l0 -> len (get_cache flag_r c) = 0%nat ->
  shape c1 = shape c -> mem_base c1 = stack_offset flag_r -> regs m1 BUXN_JIT_R_MEM_BASE = base flag_r ->
  words m1 -> (forall q, q ∉ [BUXN_JIT_R_MEM_BASE] -> regs m1 q = regs m q) -> mem m1 = mem m ->
  recounted c1 c2 -> Inv c2 (r :: H) -> r ∉ owned c H ->
  Popping_mem pm' flag_r c m H l v r c2 m1.
Proof.
  intros Hpm [Hi Hco Hce Hown Hsp _] H0 Hs1 Hb1 Hbase1 Hw1 Hr1 Hm1 Hrec Hi2 Hfresh.
  destruct (sp_cases flag_r c H Hi Hsp) as (Hn1 & Hn2 & Hn3 & Hn4 & Hn5).
  assert (is_op r) as Hop by (eapply inv_held_op; [exact Hi2|by left]).
  assert (r <> stack_ptr_reg flag_r c) as Hrsp by (apply Hn5; [done|]; intros Hin; by apply Hfresh, held_owned).
  split; try done; [apply Hi2|unfold bytes; rewrite Hm1; apply Hco|apply Hr1; set_solver|].
  intros c' m' [Hs' Hmb'] Hw' Hm' Hbut' Hv' Hstk'.
  assert (regs_but [r; stack_ptr_reg flag_r c; BUXN_JIT_R_MEM_OFFSET; BUXN_JIT_R_TMP; BUXN_JIT_R_MEM_BASE] m m')
    as Hbut.
  { intros q Hq. rewrite !not_elem_of_cons in Hq. rewrite Hbut', Hr1; [done|set_solver|].
    rewrite !not_elem_of_cons. tauto. }
  assert (frame c2 = frame c1) as Hf2 by (by destruct Hrec as (i & n & ->)).
  destruct (pop_mem_done sz pm pm' flag_r c m H r l c' m') as [??]; try done.
  - by eapply inv_shape.
  - split; [rewrite (shape_compiler _ _ Hs'); apply Hi2|done|by unfold bytes; rewrite Hm', Hm1; apply Hco|..].
    + rewrite Hbut by reg_notin. apply Hco.
    + right. rewrite Hbut', Hbase1; [|reg_notin].
      rewrite Hmb', (f_equal (fun x => x.1.1.2) (view_recounted _ _ Hrec) : mem_base c2 = mem_base c1), Hb1.
      done.
  - intros q. unfold shape in *. destruct q; cbn [get_cache]; destruct Hrec as (i & n & ->); simpl in *; congruence.
  - apply ctl_frame. unfold shape in *. congruence.
  - by rewrite Hm'.
Qed.

(** The loads of one byte and of a short. *)
Lemma hwp_load_popped flag_2 pm' flag_r c m H v l r c2 m1 :
  Popping_mem pm' flag_r c m H l v r c2 m1 -> val_in flag_2 v ->
  stk (mem m) (base flag_r) (regs m (stack_ptr_reg flag_r c)) (val_bytes flag_2 v ++ l) ->
  (forall q, q ∈ [BUXN_JIT_R_MEM_BASE; BUXN_JIT_R_MEM_OFFSET; BUXN_JIT_R_TMP] -> stack_ptr_reg flag_r c <> q) ->
  let sp := stack_ptr_reg flag_r c in
  hwp (if flag_2 then
         sljit_emit_op2 SLJIT_SUB (AReg sp) (AReg sp) (AImm 1) ;;;
         sljit_emit_op1 SLJIT_MOV_U8 BUXN_JIT_MEM_OFFSET (AReg sp) ;;;
         sljit_emit_op1 SLJIT_MOV_U8 (AReg r) BUXN_JIT_MEM ;;;
         sljit_emit_op2 SLJIT_SUB (AReg sp) (AReg sp) (AImm 1) ;;;
         sljit_emit_op1 SLJIT_MOV_U8 BUXN_JIT_MEM_OFFSET (AReg sp) ;;;
         sljit_emit_op1 SLJIT_MOV_U8 BUXN_JIT_TMP BUXN_JIT_MEM ;;;
         sljit_emit_op2 SLJIT_SHL BUXN_JIT_TMP BUXN_JIT_TMP (AImm 8) ;;;
         sljit_emit_op2 SLJIT_OR (AReg r) (AReg r) BUXN_JIT_TMP ;;;
         ret r
       else
         sljit_emit_op2 SLJIT_SUB (AReg sp) (AReg sp) (AImm 1) ;;;
         sljit_emit_op1 SLJIT_MOV_U8 BUXN_JIT_MEM_OFFSET (AReg sp) ;;;
         sljit_emit_op1 SLJIT_MOV_U8 (AReg r) BUXN_JIT_MEM ;;;
         ret r)
    (fun r c' m' => PV pm' flag_r c' m' (r :: H) l /\ regs m' r = v /\ r <> sp /\
       popped flag_r H c m c' m') c2 m1.
Proof.
  intros [Hop Hrsp Hp2 Hw1 Hby1 Hbase1 Esp Hm1 Hend] Hv Hstk Hfix sp. fold sp in Hrsp, Esp, Hend, Hstk, Hfix.
  assert (sp <> BUXN_JIT_R_MEM_BASE) as Hn1 by (apply Hfix; set_solver).
  assert (sp <> BUXN_JIT_R_MEM_OFFSET) as Hn2 by (apply Hfix; set_solver).
  assert (sp <> BUXN_JIT_R_TMP) as Hn3 by (apply Hfix; set_solver).
  assert (forall x, is_u8 x -> is_word (base flag_r + x)) as Haddr by (intros x Hx; by apply stack_bounds).
  assert (Like c2 c2) as Hl2 by done. destruct flag_2; cbn [val_bytes val_in app] in *.
  - apply stk_pop in Hstk as [Hlo1 Hstk]. apply stk_pop in Hstk as [Hhi1 Hstk].
    inst ex_sub_imm. intros ??. inst ex_mov_u8. intros ??.
    inst ex_load. { msimp. rewrite Hbase1. apply Haddr, u8_range. } intros ??.
    inst ex_sub_imm. intros ??. inst ex_mov_u8. intros ??.
    inst ex_load. { msimp. rewrite Hbase1. apply Haddr, u8_range. } intros ??.
    inst ex_shl_imm. intros ??. inst ex_or. intros c3 Hl3.
    destruct (halves_range v Hv) as [Hhi2 Hlo2].
    apply hwp_ret, Hend; [done|auto 14 with words|done|..].
    + intros q Hq. rewrite !not_elem_of_cons in Hq. destruct Hq as (? & ? & ? & ? & _). by msimp.
    + msimp. rewrite Hbase1, !u8_wrap, Esp, Hm1.
      rewrite u8_wrap_sub, Hlo1, Hhi1, wrap_u16; [by apply join_halves|].
      rewrite Z.shiftl_mul_pow2 by lia. mlia.
    + msimp. rewrite Esp. apply (stk_u8 _ _ (regs m sp - 1 - 1)); [|done].
      by rewrite u8_wrap, u8_wrap_sub.
  - apply stk_pop in Hstk as [Hb Hstk].
    inst ex_sub_imm. intros ??. inst ex_mov_u8. intros ??.
    inst ex_load. { msimp. rewrite Hbase1. apply Haddr, u8_range. } intros c3 Hl3.
    apply hwp_ret, Hend; [done|auto 12 with words|done|..].
    + intros q Hq. rewrite !not_elem_of_cons in Hq. destruct Hq as (? & ? & ? & ? & _). by msimp.
    + msimp. rewrite Hbase1, u8_wrap, Esp, Hm1. exact Hb.
    + msimp. rewrite Esp. apply (stk_u8 _ _ (regs m sp - 1)); [by rewrite u8_wrap|done].
Qed.

(** The code of a pop from memory. *)
Lemma hwp_pop_mem pm pm' flag_2 flag_r c m H v l :
  pm_pop flag_2 pm pm' ->
  PV pm flag_r c m H (val_bytes flag_2 v ++ l) -> val_in flag_2 v ->
  len (get_cache flag_r c) = 0%nat ->
  hwp (buxn_jit_pop_from_mem flag_2 flag_r)
    (fun r c' m' => PV pm' flag_r c' m' (r :: H) l /\ regs m' r = v /\
       r <> stack_ptr_reg flag_r c /\ popped flag_r H c m c' m') c m.
Proof.
  intros Hpm Hpv Hv H0. pose proof Hpv as [Hi Hco _ Hown Hsp (lm & Hl & Hstk)].
  assert (live (get_cache flag_r c) = []) as Hlive by (unfold live; rewrite H0; done).
  rewrite Hlive in Hl. cbn in Hl. subst lm. unfold buxn_jit_pop_from_mem.
  destruct (stack_bounds (vmb := vmb) flag_r 0) as (Hlo & Hwb & _); [mlia|].
  eapply h_set_mem_base; [done..|]. intros c1 m1 Hs1 Hb1 Hbase1 Hw1 Hr1 Hm1.
  change (vmb + stack_offset flag_r) with (base flag_r) in Hbase1. apply hwp_bind, hwp_gets.
  assert (forall q, get_cache q c1 = get_cache q c) as Hk1
    by (intros q; unfold shape in Hs1; destruct q; cbn [get_cache]; congruence).
  assert (ctl c1 = ctl c) as Hctl1 by (apply ctl_frame; unfold shape in Hs1; congruence).
  rewrite (ctl_sp _ _ flag_r Hctl1).
  assert (Inv c1 H) as Hi1 by (by eapply inv_shape).
  apply hwp_bind. eapply hwp_mono; [apply hwp_alloc_free; [exact Hi1|by eapply own_held|]|].
  { eapply own_free; [exact Hi1|exact Hpm|by apply (own_same _ _ c)|]. rewrite Hk1. by destruct pm. }
  intros r c2 m2 (-> & Hrec & Hi2 & Hfresh).
  rewrite (owned_recounted _ _ _ Hrec), (owned_caches _ _ _ Hk1) in Hfresh.
  apply hwp_load_popped; [|done|done|].
  - eapply popping_mem; try done. intros q Hq. apply Hr1. set_solver.
  - destruct (sp_cases flag_r c H Hi Hsp) as (? & ? & ? & _). intros q. rewrite !elem_of_cons, elem_of_nil.
    intros [->|[->|[->|[]]]]; done.
Qed.

(** ** Popping a cell *)

Lemma live_top flag_r c H :
  Inv c H -> (len (get_cache flag_r c) <> 0)%nat ->
  let k := get_cache flag_r c in
  live k = live (set_len (fun n => n - 1)%nat k) ++ [cell_at k (len k - 1)].
Proof.
  intros Hi Hn. pose proof (inv_cache_ok c H flag_r Hi). cbv zeta. by apply live_snoc.
Qed.

Lemma owned_top flag_r c H :
  Inv c H -> (len (get_cache flag_r c) <> 0)%nat ->
  let x := cell_at (get_cache flag_r c) (len (get_cache flag_r c) - 1) in
  let c' := set_cache flag_r (set_len (fun n => n - 1)%nat) c in
  Permutation (owned c' (reg (value x) :: H)) (owned c H).
Proof.
  intros Hi Hn x c'. rewrite !(owned_split flag_r). unfold c'. rewrite others_set_cache, get_set_cache_eq.
  rewrite (regs_of_pop (get_cache flag_r c)) by (done || by eapply inv_cache_ok).
  rewrite <- app_assoc. apply Permutation_app_head. unfold others. cbn [app].
  symmetry. apply Permutation_middle.
Qed.

Lemma own_top pm pm' flag_r c H :
  Inv c H -> own pm flag_r c H -> (len (get_cache flag_r c) <> 0)%nat ->
  let x := cell_at (get_cache flag_r c) (len (get_cache flag_r c) - 1) in
  let c' := set_cache flag_r (set_len (fun n => n - 1)%nat) c in
  pm_top (is_short (value x)) pm pm' -> own pm' flag_r c' (reg (value x) :: H).
Proof.
  intros Hi Ho Hn x c' Hpm. pose proof (owned_top flag_r c H Hi Hn) as Hp. cbv zeta in Hp. fold x c' in Hp.
  pose proof (live_top flag_r c H Hi Hn) as Htop. cbv zeta in Htop. fold x in Htop.
  assert (get_cache flag_r c' = set_len (fun n => n - 1)%nat (get_cache flag_r c)) as Hk
    by apply get_set_cache_eq.
  destruct pm as [n|szs]; cbn [pm_top pm_pop own] in *.
  - subst pm'. destruct Ho as [Hnd Hroom]. split; [by rewrite Hp|]. unfold in_use in *.
    unfold c'. destruct flag_r; cbn in Hn, Hroom |- *; lia.
  - destruct Hpm as (szs' & -> & ->). cbn [own length] in *. destruct Ho as (Hf & Hpr & Hroom & Hl).
    rewrite Htop, reverse_snoc in Hf. cbn [fits] in Hf. apply andb_true_iff in Hf as [_ Hf].
    split_and!; [by rewrite Hk| | |lia].
    + replace (stack_ptr_reg flag_r c') with (stack_ptr_reg flag_r c) by (unfold c'; by destruct flag_r).
      intros q y Hy. apply (Hpr q). destruct (flag_case flag_r q) as [-> | ->].
      * rewrite Htop, elem_of_app. left. by rewrite <- Hk.
      * unfold c' in Hy. by rewrite get_set_cache_ne in Hy.
    + rewrite Hk. cbn [set_len len].
      pose proof (free_regs_subset (owned c H) (owned c' (reg (value x) :: H))) as Hfr.
      etrans; [|apply Hfr]; [lia|]. intros r. by rewrite Hp.
Qed.

(** The top cell becomes a held operand; nothing is emitted. *)
Lemma pv_top pm pm' flag_r c m H l :
  PV pm flag_r c m H l -> (len (get_cache flag_r c) <> 0)%nat -> (length H < NUM_OP_REGS)%nat ->
  let x := cell_at (get_cache flag_r c) (len (get_cache flag_r c) - 1) in
  let c' := set_cache flag_r (set_len (fun n => n - 1)%nat) c in
  pm_top (is_short (value x)) pm pm' ->
  cell_ok (regs m) x /\ reg (value x) <> stack_ptr_reg flag_r c /\
  exists l', l = cell_bytes (regs m) x ++ l' /\
    PV pm' flag_r c' m (reg (value x) :: H) l' /\ popped flag_r H c m c' m.
Proof.
  intros [Hi Hco Hce Hown Hsp (lm & Hl & Hstk)] Hn HH x c' Hpm.
  pose proof (live_top flag_r c H Hi Hn) as Htop. cbv zeta in Htop. fold x in Htop.
  assert (forall r, get_cache r c' = if Bool.eqb r flag_r
    then set_len (fun n => n - 1)%nat (get_cache flag_r c) else get_cache r c) as Hk.
  { intros r. unfold c'. destruct r, flag_r; done. }
  assert (x ∈ live (get_cache flag_r c)) as Hx by (rewrite Htop, elem_of_app; right; by apply list_elem_of_singleton).
  split; [specialize (Hce flag_r); rewrite Forall_forall in Hce; by apply Hce|].
  split; [by apply (own_sp _ _ _ _ Hi Hown Hsp flag_r)|].
  exists (expand (regs m) (live (get_cache flag_r c')) ++ lm).
  assert (get_cache flag_r c' = set_len (fun n => n - 1)%nat (get_cache flag_r c)) as Hkf
    by (rewrite Hk, Bool.eqb_reflx; done).
  assert (forall r y, y ∈ live (get_cache r c') -> y ∈ live (get_cache r c)) as Hsub.
  { intros r y. rewrite Hk. destruct (Bool.eqb_spec r flag_r) as [->|]; [|done].
    rewrite Htop, elem_of_app. auto. }
  split; [|split; split]; try done.
  - rewrite Hkf, Hl, Htop, expand_app. simpl. by rewrite app_assoc.
  - by apply inv_pop.
  - apply (core_same c); [by destruct flag_r..|done].
  - intros r. specialize (Hce r). rewrite Forall_forall in *. auto.
  - by eapply own_top.
  - replace (stack_ptr_reg flag_r c') with (stack_ptr_reg flag_r c) by (unfold c'; by destruct flag_r).
    rewrite elem_of_cons. destruct Hsp; auto.
  - exists lm. split; [done|]. unfold c'. by destruct flag_r.
  - by rewrite Hk; destruct flag_r.
  - intros b. rewrite Htop, Forall_app, <- Hkf. tauto.
  - rewrite Hkf. simpl. lia.
  - unfold c'. by destruct flag_r.
Qed.

(** Registers of no cell can be overwritten. *)
Lemma pv_regs pm flag_r c m H l c' m' X :
  PV pm flag_r c m H l -> Inv c' H -> Core c' m' ->
  (forall r, get_cache r c' = get_cache r c) -> ctl c' = ctl c ->
  mem m' = mem m -> regs_but X m m' -> Forall (private c) X -> stack_ptr_reg flag_r c ∉ X ->
  PV pm flag_r c' m' H l.
Proof.
  intros [Hi Hco Hce Hown Hsp (lm & Hl & Hstk)] Hi' Hco' Hk Hctl Hm Hbut HX Hspx.
  pose proof (cells_keep c X m m' Hbut HX) as Hcells.
  split; [done|done|..].
  - intros q. rewrite Hk. specialize (Hce q). rewrite Forall_forall in *. intros x Hx.
    unfold cell_ok. rewrite (Hcells q x Hx). by apply Hce.
  - by apply (own_same _ _ c).
  - by rewrite (ctl_sp _ _ flag_r Hctl).
  - exists lm. rewrite Hk, (ctl_sp _ _ flag_r Hctl), Hm, (Hbut _ Hspx). split; [|done].
    rewrite Hl. f_equal. symmetry. apply expand_ext. intros ? (x & -> & Hx)%list_elem_of_fmap.
    by apply (Hcells flag_r).
Qed.

Lemma popped_regs flag_r H0 c m c1 m1 c' m' X :
  popped flag_r H0 c m c1 m1 ->
  (forall r, get_cache r c' = get_cache r c1) -> ctl c' = ctl c1 ->
  mem m' = mem m1 -> regs_but X m1 m' -> Forall (private c1) X ->
  (forall q, q ∈ H0 -> q ∉ X) -> (forall q, sp_reg q ∉ X) ->
  popped flag_r H0 c m c' m'.
Proof.
  intros [] Hk Hctl Hm Hbut HX HH0 Hspx.
  pose proof (cells_keep c1 X m1 m' Hbut HX) as Hcells.
  split; try congruence.
  - intros q Hq. rewrite Hbut by apply Hspx. auto.
  - intros q Hq Hne. rewrite Hbut by auto. auto.
  - intros x Hx. rewrite Hcells with (flag_r := negb flag_r); [auto|]. by rewrite po_other0.
  - intros b. rewrite Hk. auto.
Qed.

Lemma live_narrow flag_r c H :
  Inv c H -> (len (get_cache flag_r c) <> 0)%nat ->
  let k := get_cache flag_r c in
  let x := cell_at k (len k - 1) in
  let x' := mkCell (set_is_short false (value x)) (need_flush x) in
  live (set_cell (len k - 1) x' k) = live (set_len (fun n => n - 1)%nat k) ++ [x'].
Proof.
  intros Hi Hn k x x'. pose proof (inv_cache_ok c H flag_r Hi) as [Hl Hle]. fold k in Hl, Hle, Hn.
  unfold live, set_cell, set_len. cbn [cells len].
  replace (len k) with (S (len k - 1)) at 1 by lia.
  rewrite (take_S_r _ _ x') by (rewrite list_lookup_insert_eq by (unfold BUXN_JIT_CACHE_SIZE in *; lia); done).
  by rewrite take_insert_ge by lia.
Qed.

(** The registers that keep their values when the top cell [x] is narrowed in
    place and the fresh registers [R] are written. *)
Lemma split_values n flag_r c m H l m' R :
  PV (Distinct n) flag_r c m H l -> (len (get_cache flag_r c) <> 0)%nat -> (length H < NUM_OP_REGS)%nat ->
  let k := get_cache flag_r c in
  let x := cell_at k (len k - 1) in
  Forall (fun r => is_op r /\ r ∉ owned c H) R ->
  regs_but (reg (value x) :: R) m m' ->
  (forall y, y ∈ live (set_len (fun n => n - 1)%nat k) \/ y ∈ live (get_cache (negb flag_r) c) ->
    regs m' (reg (value y)) = regs m (reg (value y))) /\
  (forall q, q ∈ H -> regs m' q = regs m q) /\
  (forall q, op_index q = None -> regs m' q = regs m q).
Proof.
  intros Hpv Hn HH k x HR Hbut. pose proof (pv_inv _ _ _ _ _ _ Hpv) as Hi. rewrite Forall_forall in HR.
  pose proof (live_top flag_r c H Hi Hn) as Hlive. cbv zeta in Hlive. fold k x in Hlive.
  assert (x ∈ live k) as Hx by (rewrite Hlive, elem_of_app; right; by apply list_elem_of_singleton).
  assert (is_op (reg (value x))) as Hopx by (by eapply (inv_cell_op c H flag_r)).
  destruct (pv_top (Distinct n) _ flag_r c m H l Hpv Hn HH eq_refl) as (_ & _ & l0 & _ & [_ _ _ [Hnd _] _ _] & _).
  fold k x in Hnd. set (c'' := set_cache _ _ c) in Hnd.
  rewrite owned_cons in Hnd. apply NoDup_cons in Hnd as [Hxn _].
  assert (reg (value x) ∉ H) as Hxh by (intros Hin; by apply Hxn, held_owned).
  assert (get_cache flag_r c'' = set_len (fun n => (n - 1)%nat) k) as Hk'' by apply get_set_cache_eq.
  assert (get_cache (negb flag_r) c'' = get_cache (negb flag_r) c) as Hko'' by apply get_set_cache_ne.
  split_and!; intros q Hq; apply Hbut; rewrite not_elem_of_cons; split.
  - intros E. apply Hxn. rewrite <- E. destruct Hq.
    + apply (cell_owned c'' H flag_r). by rewrite Hk''.
    + apply (cell_owned c'' H (negb flag_r)). by rewrite Hko''.
  - intros [_ Hf]%HR. apply Hf. destruct Hq; [|by eapply cell_owned].
    apply (cell_owned c H flag_r q). fold k. rewrite Hlive, elem_of_app. auto.
  - intros ->. done.
  - intros [_ Hf]%HR. by apply Hf, held_owned.
  - by apply not_eq_sym, op_ne.
  - intros [Hop _]%HR. by apply (op_ne q q).
Qed.

Lemma owned_fresh c R H :
  NoDup (owned c H) -> NoDup R -> Forall (fun r => is_op r /\ r ∉ owned c H) R -> NoDup (owned c (R ++ H)).
Proof.
  intros Hnd. induction R as [|r R IH]; cbn [app]; [done|].
  rewrite NoDup_cons, Forall_cons. intros [Hr HR] [[_ Hf] Hall]. apply owned_nodup_cons; [auto|].
  unfold owned in *. rewrite !elem_of_app in *. tauto.
Qed.

(** Splitting the short on top: the cell keeps the high byte; the low one is
    popped into a new register, or dropped. *)
Lemma pv_split n flag_r c m H l c' m' R :
  PV (Distinct (length R + n)) flag_r c m H l -> (len (get_cache flag_r c) <> 0)%nat -> (length H < NUM_OP_REGS)%nat ->
  let k := get_cache flag_r c in
  let x := cell_at k (len k - 1) in
  is_short (value x) = true -> NoDup R -> Forall (fun r => is_op r /\ r ∉ owned c H) R ->
  Inv c' (R ++ H) -> Core c' m' -> ctl c' = ctl c -> mem m' = mem m ->
  get_cache (negb flag_r) c' = get_cache (negb flag_r) c ->
  get_cache flag_r c' = set_cell (len k - 1) (mkCell (set_is_short false (value x)) (need_flush x)) k ->
  regs_but (reg (value x) :: R) m m' ->
  regs m' (reg (value x)) = Z.shiftr (regs m (reg (value x))) 8 ->
  exists l', l = Z.land (regs m (reg (value x))) 0xff :: l' /\
    PV (Distinct n) flag_r c' m' (R ++ H) l' /\ popped flag_r H c m c' m'.
Proof.
  intros Hpv Hn HH k x Hshort HRn HR Hi' Hco' Hctl Hm Hko Hk Hbut Htop.
  destruct (split_values _ flag_r c m H l m' R Hpv Hn HH HR Hbut) as (Hother & Hheld & Hfixed).
  destruct Hpv as [Hi Hco Hce [Hnd Hroom] Hsp (lm & Hl & Hstk)].
  pose proof (live_top flag_r c H Hi Hn) as Hlive. cbv zeta in Hlive. fold k x in Hlive, Hother.
  pose proof (live_narrow flag_r c H Hi Hn) as Hlive'. cbv zeta in Hlive'. fold k x in Hlive'.
  rewrite <- Hk in Hlive'. set (pre := live (set_len _ k)) in *. set (x' := mkCell _ _) in Hlive', Hk.
  assert (regs m' (stack_ptr_reg flag_r c) = regs m (stack_ptr_reg flag_r c)) as Hspv.
  { destruct Hsp as [-> | Hin]; [apply Hfixed; by destruct flag_r|auto]. }
  assert (regs_of (get_cache flag_r c') = regs_of k) as Hro.
  { rewrite Hk. apply regs_of_set_cell; [by eapply inv_cache_ok| |done].
    pose proof (inv_cache_ok c H flag_r Hi) as [_ Hle]. fold k in Hle, Hn. lia. }
  assert (Permutation (owned c' (R ++ H)) (owned c (R ++ H))) as Hperm.
  { rewrite !(owned_split flag_r). unfold others. by rewrite Hko, Hro. }
  exists (Z.shiftr (regs m (reg (value x))) 8 :: expand (regs m) pre ++ lm).
  split; [|split; split]; try done.
  - rewrite Hl. fold k. rewrite Hlive, expand_app. simpl. unfold cell_bytes. rewrite Hshort. done.
  - intros q. destruct (flag_case flag_r q) as [-> | ->].
    + rewrite Hlive'. pose proof (Hce flag_r) as Hcf. fold k in Hcf. rewrite Hlive in Hcf.
      apply Forall_app in Hcf as [Hcp Hcx]. apply Forall_app. split.
      * rewrite Forall_forall in *. intros y Hy. unfold cell_ok. rewrite Hother by auto. by apply Hcp.
      * rewrite Forall_singleton in Hcx |- *. unfold cell_ok in *. rewrite Hshort in Hcx.
        cbn. rewrite Htop. by apply halves_range.
    + rewrite Hko. specialize (Hce (negb flag_r)). rewrite Forall_forall in *. intros y Hy. unfold cell_ok.
      rewrite Hother by auto. by apply Hce.
  - split; [rewrite Hperm; by apply owned_fresh|]. unfold in_use in *. rewrite length_app.
    assert (len (get_cache flag_r c') = len (get_cache flag_r c)) by (by rewrite Hk).
    destruct flag_r; cbn [get_cache negb] in *; rewrite Hko; lia.
  - rewrite (ctl_sp _ _ flag_r Hctl), elem_of_app. destruct Hsp; auto.
  - exists lm. rewrite (ctl_sp _ _ flag_r Hctl), Hm, Hspv. split; [|done].
    rewrite Hlive', expand_app. cbn [expand app]. unfold cell_bytes, x'. cbn [value set_is_short is_short reg].
    rewrite Htop. cbn [app]. f_equal. f_equal. symmetry. apply expand_ext.
    intros ? (y & -> & Hy)%list_elem_of_fmap. auto.
  - intros q Hq. apply Hfixed. by destruct q.
  - intros q Hq Hne. auto.
  - intros y Hy. apply Hother. auto.
  - intros b. rewrite Hlive'. fold k. rewrite Hlive, !Forall_app, !Forall_singleton. done.
  - rewrite Hk. done.
Qed.

Lemma u8_land v : u8 v = Z.land v 0xff.
Proof. change 0xff with (Z.ones 8). by rewrite Z.land_ones. Qed.

(** In the mode of whole cells the one on top has the size popped. *)
Lemma own_whole sz pm pm' flag_r c H :
  Inv c H -> pm_pop sz pm pm' -> own pm flag_r c H -> (len (get_cache flag_r c) <> 0)%nat ->
  (exists n, pm = Distinct (S n) /\ pm' = Distinct n) \/
  sz = is_short (value (cell_at (get_cache flag_r c) (len (get_cache flag_r c) - 1))).
Proof.
  intros Hi Hpm Ho Hn. destruct pm as [n|szs]; cbn [pm_pop own] in *.
  - destruct Hpm as (n' & -> & ->). left. by exists n'.
  - destruct Hpm as (szs' & -> & ->), Ho as (Hf & _). right.
    pose proof (live_top flag_r c H Hi Hn) as Htop. cbv zeta in Htop.
    rewrite Htop, reverse_snoc in Hf. cbn [fits] in Hf. apply andb_true_iff in Hf as [Hf _].
    by apply Bool.eqb_prop in Hf.
Qed.

Lemma pv_weaken n n' flag_r c m H l :
  (n' <= n)%nat -> PV (Distinct n) flag_r c m H l -> PV (Distinct n') flag_r c m H l.
Proof. intros Hle []. split; try done. by eapply own_weaken. Qed.

(** Taking over a cell of the size popped is enough for a pop. *)
Lemma pm_pop_top sz pm pm' : pm_pop sz pm pm' ->
  exists pm1, pm_top sz pm pm1 /\
    forall flag_r c m H l, PV pm1 flag_r c m H l -> PV pm' flag_r c m H l.
Proof.
  destruct pm as [n|szs]; intros Hpm.
  - destruct Hpm as (n' & -> & ->). exists (Distinct (S n')). split; [done|].
    intros. eapply pv_weaken; [|done]. lia.
  - exists pm'. done.
Qed.

(** A pop of the size of the cell on top. *)
Lemma pv_take sz pm pm' flag_r c m H l :
  pm_pop sz pm pm' -> PV pm flag_r c m H l -> (len (get_cache flag_r c) <> 0)%nat ->
  let x := cell_at (get_cache flag_r c) (len (get_cache flag_r c) - 1) in
  let c' := set_cache flag_r (set_len (fun n => n - 1)%nat) c in
  is_short (value x) = sz ->
  cell_ok (regs m) x /\ reg (value x) <> stack_ptr_reg flag_r c /\
  exists l', l = cell_bytes (regs m) x ++ l' /\
    PV pm' flag_r c' m (reg (value x) :: H) l' /\ popped flag_r H c m c' m.
Proof.
  intros Hpm Hpv Hn x c' Hsz. pose proof (own_held _ _ _ _ _ _ Hpm (pv_own _ _ _ _ _ _ Hpv)) as HH.
  destruct (pm_pop_top _ _ _ Hpm) as (pm1 & Ht & Hpm'). rewrite <- Hsz in Ht.
  destruct (pv_top pm pm1 flag_r c m H l Hpv Hn HH Ht) as (Hx & Hsp & l' & El & Hpv' & Hpo).
  split; [done|]. split; [done|]. exists l'. split; [done|]. split; [by apply Hpm'|done].
Qed.

(** Popping one byte. *)
Lemma hwp_pop_byte pm pm' flag_r c m H v l :
  pm_pop false pm pm' -> PV pm flag_r c m H (v :: l) -> is_u8 v ->
  hwp (stack_cache_pop_byte flag_r)
    (fun r c' m' => PV pm' flag_r c' m' (r :: H) l /\ regs m' r = v /\
       r <> stack_ptr_reg flag_r c /\ popped flag_r H c m c' m') c m.
Proof.
  intros Hpm Hpv Hv. pose proof (pv_inv _ _ _ _ _ _ Hpv) as Hi. pose proof (pv_own _ _ _ _ _ _ Hpv) as Hown.
  pose proof (own_held _ _ _ _ _ _ Hpm Hown) as HH.
  unfold stack_cache_pop_byte. apply hwp_bind, hwp_gets. set (k := get_cache flag_r c).
  destruct (Nat.eqb_spec (len k) 0) as [H0|H0]; [by eapply (hwp_pop_mem pm pm' false)|].
  set (x := cell_at k (len k - 1)). destruct (is_short (value x)) eqn:Eshort.
  - destruct (own_whole _ _ _ _ _ _ Hi Hpm Hown H0) as [(n & -> & ->)|Hsz]; [|fold k x in Hsz; congruence].
    pose proof (pv_own _ _ _ _ _ _ Hpv) as [_ Hroom].
    assert (x ∈ live (get_cache flag_r c)) as Hxl by (apply (cell_at_live c H); [done|fold k; lia]).
    apply hwp_bind. eapply hwp_mono; [apply hwp_alloc_free; [exact Hi|done|by eapply own_free]|].
    intros r c1 m1 (-> & Hrec & Hi1 & Hfresh). pose proof (view_recounted _ _ Hrec) as Hv1.
    rewrite (owned_recounted _ _ _ Hrec) in Hfresh.
    apply hwp_bind, hwp_gets. rewrite (view_cache _ _ Hv1 flag_r). fold k.
    destruct (Nat.eqb_spec (len k) 0) as [|_]; [done|]. fold x.
    assert (words m) as Hw by apply Hpv. assert (Like c1 c1) as Hl1 by done.
    assert (is_Some (compiler_ptr c1)) as Hp1 by apply Hi1.
    assert (r <> reg (value x)) as Hrx.
    { intros ->. apply Hfresh. apply (cell_owned c H flag_r). apply (cell_at_live c H); [done|fold k; lia]. }
    inst ex_mov_u8. intros ??. inst ex_shr_imm. intros c3 [Hs3 Hb3].
    assert (forall r, get_cache r c3 = get_cache r c) as Hk3.
    { intros q. rewrite <- (view_cache _ _ Hv1 q). unfold shape in Hs3. destruct q; cbn [get_cache]; congruence. }
    assert (Inv c3 (r :: H)) as Hi3 by (by eapply inv_shape).
    apply hwp_bind, hwp_modify; [by destruct flag_r|]. apply hwp_ret. rewrite <- (Hk3 flag_r : _ = k).
    destruct (wp_narrow flag_r (len k - 1) c3 (r :: H) Hi3 : _ /\ _) as (Hi4 & Hf4 & Hko4 & _).
    rewrite (Hk3 flag_r). fold k x.
    match goal with |- PV _ _ ?y ?z _ _ /\ _ => set (c4 := y) in *; set (m4 := z) in * end.
    assert (regs_but [reg (value x); r] m m4) as Hbut.
    { intros q Hq. rewrite !not_elem_of_cons in Hq. destruct Hq as (? & ? & _). unfold m4. by msimp. }
    assert (Core c4 m4) as Hco4.
    { assert (is_op r) by (eapply inv_held_op; [exact Hi1|rewrite elem_of_cons; auto]).
      assert (is_op (reg (value x))) by (eapply inv_cell_op; [exact Hi|exact Hxl]).
      destruct (pv_core _ _ _ _ _ _ Hpv) as [_ _ Hby Hvm Hba]. split; [apply Hi4|unfold m4; auto 12 with words|done|..].
      - rewrite Hbut by reg_notin. done.
      - rewrite Hbut by reg_notin. replace (mem_base c4) with (mem_base c); [done|].
        unfold view in Hv1. unfold c4. destruct flag_r; cbn [set_cache mem_base set_rst_cache set_wst_cache]; congruence. }
    destruct (pv_split n flag_r c m H (v :: l) c4 m4 [r]) as (l0 & El0 & Hpv4 & Hpo4); try done.
    + apply NoDup_singleton.
    + apply Forall_singleton. split; [eapply inv_held_op; [exact Hi1|rewrite elem_of_cons; auto]|done].
    + transitivity (ctl c3); [by apply ctl_frame|]. transitivity (ctl c1); [apply ctl_frame; unfold shape in Hs3; congruence|].
      by destruct Hrec as (i & y & ->).
    + by rewrite Hko4, Hk3.
    + unfold c4. rewrite get_set_cache_eq, Hk3. done.
    + unfold m4. by msimp.
    + fold k x in El0. injection El0 as -> ->. split; [done|].
      split; [unfold m4; msimp; apply u8_land|]. split; [|done].
      intros Er. destruct (pv_sp _ _ _ _ _ _ Hpv) as [Esp|Hsp].
      * rewrite Esp in Er. assert (is_op r) as Hop by (eapply inv_held_op; [exact Hi1|by left]).
        rewrite Er in Hop. by apply (op_ne (sp_reg flag_r) (sp_reg flag_r)); [|destruct flag_r|].
      * rewrite <- Er in Hsp. by apply Hfresh, held_owned.
  - destruct (pv_take false pm pm' flag_r c m H _ Hpm Hpv H0 Eshort) as (Hx & Hxsp & l' & El & Hpv' & Hpo).
    fold k x in Hx, Hxsp, El, Hpv', Hpo.
    rewrite cell_bytes_val, Eshort in El. cbn [val_bytes app] in El. injection El as -> ->.
    apply hwp_bind, hwp_modify; [by destruct flag_r|]. by apply hwp_ret.
Qed.

(** ** Popping a short *)

(** Releasing a held register that is not the pop pointer. *)
Lemma pv_drop n flag_r c m hi r H l c' :
  PV (Distinct n) flag_r c m (hi :: r :: H) l -> Inv c' (hi :: H) -> view c' = view c -> ctl c' = ctl c ->
  r <> stack_ptr_reg flag_r c -> PV (Distinct n) flag_r c' m (hi :: H) l.
Proof.
  intros [Hi Hco Hce [Hnd Hroom] Hsp (lm & Hl & Hstk)] Hi' Hv Hctl Hr.
  pose proof (view_cache _ _ Hv) as Hk. split; [done|..].
  - apply (core_same c); [unfold view in Hv; congruence..|done].
  - intros q. by rewrite Hk.
  - apply (own_same _ _ c); [done|done|]. split.
    + assert (Permutation (owned c (hi :: r :: H)) (r :: owned c (hi :: H))) as Hp
        by (rewrite (owned_perm c _ _ (perm_swap _ _ _)); apply owned_cons).
      rewrite Hp in Hnd. by apply NoDup_cons in Hnd as [_ Hnd].
    + unfold in_use in *. cbn [length] in *. lia.
  - rewrite (ctl_sp _ _ flag_r Hctl). destruct Hsp as [|Hin]; [by left|right].
    rewrite !elem_of_cons in *. destruct Hin as [|[|]]; [by left|congruence|by right].
  - exists lm. by rewrite Hk, (ctl_sp _ _ flag_r Hctl).
Qed.

(** The halves of a short, in the order of the code. *)
Lemma join_shifted v : is_u16 v ->
  Z.lor (wrap (Z.shiftl (Z.shiftr v 8) 8)) (Z.land v 0xff) = v.
Proof.
  intros Hv. destruct (halves_range v Hv) as [Hhi _].
  rewrite wrap_u16 by (rewrite Z.shiftl_mul_pow2 by lia; mlia).
  rewrite Z.lor_comm. by apply join_halves.
Qed.

Lemma hwp_merge n flag_r c0 m0 c m hi lo H v l (top : nat) :
  PV (Distinct n) flag_r c m (hi :: lo :: H) l -> popped flag_r H c0 m0 c m ->
  hi ∉ H -> hi <> lo -> hi <> stack_ptr_reg flag_r c -> lo <> stack_ptr_reg flag_r c -> is_u16 v ->
  regs m hi = Z.shiftr v 8 -> regs m lo = Z.land v 0xff ->
  reg (value (cell_at (get_cache flag_r c) top)) = lo ->
  hwp (top_reg <-- gets (fun c => reg (value (cell_at (get_cache flag_r c) top))) ;;
       sljit_emit_op2 SLJIT_SHL (AReg hi) (AReg hi) (AImm 8) ;;;
       sljit_emit_op2 SLJIT_OR (AReg hi) (AReg hi) (AReg top_reg) ;;;
       buxn_jit_release_reg top_reg ;;;
       ret hi)
    (fun r c' m' => PV (Distinct n) flag_r c' m' (r :: H) l /\ regs m' r = v /\
       r <> stack_ptr_reg flag_r c /\ popped flag_r H c0 m0 c' m') c m.
Proof.
  intros Hpv Hpo Hhi Hne Hhisp Hlo Hv Ehi Elo Etop. apply hwp_bind, hwp_gets. rewrite Etop.
  pose proof (pv_core _ _ _ _ _ _ Hpv) as [Hp Hw Hby Hvm Hba]. pose proof (pv_inv _ _ _ _ _ _ Hpv) as Hi.
  assert (is_op hi) as Hop by (eapply inv_held_op; [exact Hi|rewrite elem_of_cons; auto]).
  assert (is_op lo) as Hopl by (eapply inv_held_op; [exact Hi|rewrite !elem_of_cons; auto]).
  assert (Like c c) as Hl0 by done.
  inst ex_shl_imm. intros ??. inst ex_or. intros c3 Hl3. assert (Hl3' := Hl3). destruct Hl3' as [Hs3 Hb3].
  match goal with |- hwp _ _ _ ?x => set (m3 := x) end.
  assert (regs_but [hi] m m3) as Hbut.
  { intros q Hq. rewrite !not_elem_of_cons in Hq. destruct Hq as (? & _). unfold m3. by msimp. }
  assert (Inv c3 (lo :: hi :: H)) as Hi3.
  { eapply inv_perm; [apply perm_swap|]. by eapply inv_shape. }
  apply hwp_bind, hwp_silent.
  eapply wp_mono; [apply inv_release; exact Hi3|]. intros [] c4 [Hi4 Hrec4].
  pose proof (view_recounted _ _ Hrec4) as Hv4.
  assert (ctl c4 = ctl c3) as Hctl4 by (by destruct Hrec4 as (i & y & ->)).
  assert (comp c4 = comp c3) as -> by (by destruct Hrec4 as (i & y & ->)).
  split; [done|]. apply hwp_ret.
  assert (forall q, get_cache q c3 = get_cache q c) as Hk3
    by (intros q; unfold shape in Hs3; destruct q; cbn [get_cache]; congruence).
  assert (ctl c3 = ctl c) as Hctl3 by (apply ctl_frame; unfold shape in Hs3; congruence).
  assert (Forall (private c) [hi]) as HX.
  { apply Forall_singleton. eapply private_held; [apply (pv_own _ _ _ _ _ _ Hpv)|by left]. }
  assert (Core c3 m3) as Hco3.
  { split; [by rewrite (shape_compiler _ _ Hs3)|unfold m3; auto 12 with words|done|..].
    - rewrite Hbut by reg_notin. done.
    - rewrite Hbut by reg_notin. by rewrite Hb3. }
  assert (PV (Distinct n) flag_r c3 m3 (hi :: lo :: H) l) as Hpv3.
  { apply (pv_regs _ flag_r c m _ l c3 m3 [hi]); try done; [by eapply inv_shape|].
    rewrite not_elem_of_cons. split; [by apply not_eq_sym|apply not_elem_of_nil]. }
  split; [|split; [|split; [done|]]].
  - apply (pv_drop n flag_r c3 m3 hi lo H l); try done. by rewrite (ctl_sp _ _ flag_r Hctl3).
  - unfold m3. msimp. rewrite Ehi, Elo. by apply join_shifted.
  - apply (popped_regs flag_r H c0 m0 c m c4 m3 [hi]); try done.
    + intros q. by rewrite (view_cache _ _ Hv4), Hk3.
    + congruence.
    + intros q Hq. rewrite not_elem_of_cons. split; [congruence|apply not_elem_of_nil].
    + intros q. rewrite not_elem_of_cons.
      split; [apply not_eq_sym, op_ne; [done|by destruct q]|apply not_elem_of_nil].
Qed.

(** [buxn_jit_stack_cache_pop] reads the operand on top of the pop view. *)
Lemma hwp_cache_pop pm pm' flag_2 flag_r c m H v l :
  pm_pop flag_2 pm pm' ->
  PV pm flag_r c m H (val_bytes flag_2 v ++ l) -> val_in flag_2 v ->
  hwp (buxn_jit_stack_cache_pop flag_r flag_2)
    (fun r c' m' => PV pm' flag_r c' m' (r :: H) l /\ regs m' r = v /\
       r <> stack_ptr_reg flag_r c /\ popped flag_r H c m c' m') c m.
Proof.
  intros Hpm Hpv Hv. pose proof (pv_inv _ _ _ _ _ _ Hpv) as Hi. pose proof (pv_own _ _ _ _ _ _ Hpv) as Hown.
  pose proof (own_held _ _ _ _ _ _ Hpm Hown) as HH.
  unfold buxn_jit_stack_cache_pop. destruct flag_2; [|by eapply hwp_pop_byte].
  cbn [val_bytes val_in app] in *. apply hwp_bind, hwp_gets. set (k := get_cache flag_r c).
  destruct (Nat.eqb_spec (len k) 0) as [H0|H0]; [by eapply (hwp_pop_mem pm pm' true)|].
  apply hwp_bind, hwp_modify; [by destruct flag_r|]. set (c1 := set_cache flag_r _ c) in *.
  set (x := cell_at k (len k - 1)) in *.
  destruct (is_short (value x)) eqn:Eshort.
  - destruct (pv_take true pm pm' flag_r c m H _ Hpm Hpv H0 Eshort) as (Hx & Hxsp & l' & El & Hpv1 & Hpo1).
    fold k x c1 in Hx, Hxsp, El, Hpv1, Hpo1. rewrite cell_bytes_val in El. unfold cell_ok in Hx.
    rewrite Eshort in *. cbn [val_bytes app] in El.
    injection El as Elo Ehi ->. apply hwp_ret. split; [done|]. split; [|done].
    rewrite <- (join_halves v Hv), Elo, Ehi. symmetry. by apply join_halves.
  - destruct (own_whole _ _ _ _ _ _ Hi Hpm Hown H0) as [(n & -> & ->)|Hsz]; [|fold k x in Hsz; congruence].
    destruct (pv_top (Distinct (S n)) _ flag_r c m H _ Hpv H0 HH eq_refl) as (Hx & Hxsp & l' & El & Hpv1 & Hpo1).
    fold k x c1 in Hx, Hxsp, El, Hpv1, Hpo1. rewrite cell_bytes_val in El. unfold cell_ok in Hx.
    rewrite Eshort in *. cbn [val_bytes app] in El.
    injection El as Elo <-. destruct (halves_range v Hv) as [Hhi8 _].
    pose proof (pv_inv _ _ _ _ _ _ Hpv1) as Hi1. pose proof (pv_own _ _ _ _ _ _ Hpv1) as [_ Hroom].
    assert (len (wst_cache c1) + len (rst_cache c1) + length (reg (value x) :: H) < NUM_OP_REGS)%nat as Hroom1
      by (unfold in_use in Hroom; lia).
    apply hwp_bind. eapply hwp_mono;
      [eapply hwp_wp; [eapply (hwp_pop_byte (Distinct (S n)) (Distinct n) flag_r c1 m (reg (value x) :: H) (Z.shiftr v 8) l);
           [by exists n|exact Hpv1|done]|
         apply (wp_pop_byte flag_r c1 (reg (value x) :: H)); [exact Hi1|lia]]|].
    intros hi c2 m2 [(Hpv2 & Ehi & Hhisp & Hpo2) [_ Hq2]].
    assert (hi ∉ reg (value x) :: H) as Hhin.
    { pose proof (proj1 (pv_own _ _ _ _ _ _ Hpv2)) as Hnd2. rewrite owned_cons in Hnd2.
      apply NoDup_cons in Hnd2 as [Hn _]. intros Hin. by apply Hn, held_owned. }
    rewrite not_elem_of_cons in Hhin. destruct Hhin as [Hhx HhH].
    assert (stack_ptr_reg flag_r c2 = stack_ptr_reg flag_r c) as Esp2.
    { rewrite (ctl_sp _ _ flag_r (po_ctl _ _ _ _ _ _ Hpo2)). by apply ctl_sp, Hpo1. }
    assert (stack_ptr_reg flag_r c1 = stack_ptr_reg flag_r c) as Esp1 by (by apply ctl_sp, Hpo1).
    rewrite <- Esp2. eapply (hwp_merge n flag_r c m c2 m2 hi (reg (value x)) H v l (len k - 1)); try done.
    + eapply popped_trans; [|exact Hpo1|exact Hpo2]. intros q Hq. rewrite elem_of_cons. auto.
    + by rewrite Esp2, <- Esp1.
    + by rewrite Esp2.
    + rewrite (po_held _ _ _ _ _ _ Hpo2); [done|rewrite elem_of_cons; auto|by rewrite Esp1].
    + destruct Hq2 as [_ Hq2]. destruct (Hq2 flag_r) as [_ Hs]. unfold c1 in Hs.
      rewrite get_set_cache_eq in Hs. cbn [set_len len] in Hs. fold k in Hs. by rewrite Hs.
Qed.
End PopSim.
