(* ===== verification/DiscardSim.v ===== *)
(** * Discarding at run time

    [buxn_jit_stack_cache_discard] drops the operand on top of a stack: the
    pointer moves, a cell is given up, or the short on top is narrowed. *)
From S2P Require Import Prelude Lir Hamt Jit StackCache Uxn Invariant CacheSafety Machine StackSim PopSim.
From Stdlib Require Import Permutation.
Local Open Scope jit_scope.

Section DiscardSim.
Context {Lay : VmLayout} {SL : Sljit} {SP : SljitSpec} {HO : Host} {vmb : Z} {LS : LayoutSpec vmb}.

#[local] Abbreviation base := (base (vmb := vmb)).
#[local] Abbreviation Core := (Core (vmb := vmb)).
#[local] Abbreviation PV := (PV (vmb := vmb)).

(** A pop that takes no register. *)
Lemma own_dropped sz pm pm' flag c H :
  pm_pop sz pm pm' -> own pm flag c H -> len (get_cache flag c) = 0%nat -> own pm' flag c H.
Proof.
  intros Hpm Ho H0. destruct pm as [n|szs]; cbn [own pm_pop] in *.
  - destruct Hpm as (n' & -> & ->), Ho. cbn [own]. split; [done|lia].
  - destruct Hpm as (szs' & -> & ->), Ho as (_ & Hp & Ho & Hl). cbn [own length] in *.
    assert (live (get_cache flag c) = []) as -> by (unfold live; by rewrite H0).
    split_and!; [by destruct szs'|done|lia|lia].
Qed.

(** Only the pointer of an empty stack cache moves. *)
Lemma pv_move sz pm pm' flag c m H l c' m' l' :
  pm_pop sz pm pm' -> PV pm flag c m H l -> len (get_cache flag c) = 0%nat -> stack_ptr_reg flag c = sp_reg flag ->
  shape c' = shape c -> Core c' m' -> mem m' = mem m -> regs_but [sp_reg flag] m m' ->
  stk (mem m) (base flag) (regs m' (sp_reg flag)) l' ->
  PV pm' flag c' m' H l' /\ popped flag H c m c' m'.
Proof.
  intros Hpm [Hi Hco Hce Hown Hsp _] H0 Esp Hs Hco' Hm Hbut Hstk.
  assert (live (get_cache flag c) = []) as Hlive by (unfold live; by rewrite H0).
  assert (Inv c' H) as Hi' by (by eapply inv_shape).
  assert (forall q, get_cache q c' = get_cache q c) as Hk
    by (intros q; unfold shape in Hs; destruct q; cbn [get_cache]; congruence).
  assert (ctl c' = ctl c) as Hctl by (apply ctl_frame; unfold shape in Hs; congruence).
  assert (forall q, is_op q -> regs m' q = regs m q) as Hop.
  { intros q Hq. apply Hbut. rewrite not_elem_of_cons.
    split; [apply op_ne; [done|by destruct flag]|apply not_elem_of_nil]. }
  split; split; try done.
  - intros q. rewrite Hk. by eapply cells_evolves.
  - apply (own_same _ _ c); [done..|]. by eapply own_dropped.
  - by rewrite (ctl_sp _ _ _ Hctl).
  - exists l'. rewrite Hk, Hlive, (ctl_sp _ _ _ Hctl), Esp, Hm. done.
  - intros q Hq. rewrite Esp in Hq. apply Hbut. rewrite not_elem_of_cons. split; [done|apply not_elem_of_nil].
  - intros q Hq _. apply Hop. by eapply inv_held_op.
  - intros x Hx. apply Hop. eapply inv_cell_op; [exact Hi|exact Hx].
  - by rewrite Hk.
  - by rewrite Hk.
Qed.

Lemma hwp_discard_mem pm pm' flag_2 flag c m H v l :
  pm_pop flag_2 pm pm' ->
  PV pm flag c m H (val_bytes flag_2 v ++ l) -> len (get_cache flag c) = 0%nat ->
  stack_ptr_reg flag c = sp_reg flag ->
  hwp (buxn_jit_discard_from_mem flag_2 flag)
    (fun _ c' m' => PV pm' flag c' m' H l /\ popped flag H c m c' m') c m.
Proof.
  intros Hpm Hpv H0 Esp. assert (live (get_cache flag c) = []) as Hlive by (unfold live; by rewrite H0). pose proof (pv_core _ _ _ _ _ _ Hpv) as Hco. pose proof Hco as [Hp Hw Hb Hvm Hba].
  destruct (pv_view _ _ _ _ _ _ Hpv) as (lm & El & Hstk). rewrite Hlive in El. cbn in El. subst lm.
  unfold buxn_jit_discard_from_mem. apply hwp_bind, hwp_gets. rewrite Esp in *. apply hwp_tail_tt.
  assert (Like c c) as Hl by done.
  inst ex_sub_imm; [by destruct flag_2|]. intros c1 [Hs1 Hb1]. apply hwp_ret.
  set (n := if flag_2 then 2 else 1). eapply (pv_move flag_2 pm pm' flag c m H _); try done.
  - split; [by rewrite (shape_compiler _ _ Hs1)|auto with words|done|..];
      destruct flag; msimp; by rewrite ?Hb1.
  - intros q Hq. rewrite not_elem_of_cons in Hq. destruct Hq as [? _]. by msimp.
  - msimp. apply (stk_u8 _ _ (regs m (sp_reg flag) - n)); [by rewrite u8_wrap|]. unfold n.
    destruct flag_2; cbn [val_bytes app] in Hstk.
    + apply stk_pop in Hstk as [_ Hstk]. apply stk_pop in Hstk as [_ Hstk].
      by replace (regs m (sp_reg flag) - 2) with (regs m (sp_reg flag) - 1 - 1) by lia.
    + by apply stk_pop in Hstk as [_ Hstk].
Qed.

(** The cell on top, given up: its register is released. *)
Lemma own_release pm flag c H r c' :
  own pm flag c (r :: H) -> (forall q, get_cache q c' = get_cache q c) -> ctl c' = ctl c -> own pm flag c' H.
Proof.
  intros Ho Hk Hctl. apply (own_same _ _ c); [done..|]. destruct pm as [n|szs]; cbn [own] in *.
  - destruct Ho as [Hnd Hn]. split; [|unfold in_use in *; cbn [length] in *; lia].
    rewrite owned_cons in Hnd. by apply NoDup_cons in Hnd as [_ Hnd].
  - destruct Ho as (Hf & Hp & Hn & Hl). split_and!; [done|done| |cbn [length] in *; lia].
    etrans; [exact Hn|]. apply free_regs_subset. intros q Hq. rewrite owned_cons. by right.
Qed.

Lemma pv_release pm flag c m r H l c' :
  PV pm flag c m (r :: H) l -> stack_ptr_reg flag c = sp_reg flag ->
  Inv c' H -> view c' = view c -> ctl c' = ctl c -> PV pm flag c' m H l.
Proof.
  intros [Hi Hco Hce Hown Hsp (lm & Hl & Hstk)] Esp Hi' Hv Hctl.
  pose proof (view_cache _ _ Hv) as Hk. split; [done|..].
  - apply (core_same c); [unfold view in Hv; congruence..|done].
  - intros q. by rewrite Hk.
  - by eapply own_release.
  - left. by rewrite (ctl_sp _ _ flag Hctl).
  - exists lm. by rewrite Hk, (ctl_sp _ _ flag Hctl).
Qed.

Lemma popped_silent flag H c m c1 c2 :
  popped flag H c m c1 m -> view c2 = view c1 -> ctl c2 = ctl c1 -> popped flag H c m c2 m.
Proof.
  intros [] Hv Hctl. pose proof (view_cache _ _ Hv) as Hk.
  split; intros; rewrite ?Hk; auto; congruence.
Qed.

Lemma hwp_give_up {B} pm pm' flag c m H l (K : unit -> J B) Q :
  PV pm flag c m H l -> stack_ptr_reg flag c = sp_reg flag -> (len (get_cache flag c) <> 0)%nat ->
  (length H < NUM_OP_REGS)%nat ->
  let x := cell_at (get_cache flag c) (len (get_cache flag c) - 1) in
  pm_top (is_short (value x)) pm pm' ->
  (forall c' l', l = cell_bytes (regs m) x ++ l' -> cell_ok (regs m) x ->
     PV pm' flag c' m H l' -> popped flag H c m c' m -> hwp (K tt) Q c' m) ->
  hwp (modify (set_cache flag (set_len (fun n => n - 1)%nat)) ;;;
       bind (buxn_jit_release_reg (reg (value x))) K) Q c m.
Proof.
  intros Hpv Esp Hn HH x Hpm HK. apply hwp_bind, hwp_modify; [by destruct flag|].
  destruct (pv_top pm pm' flag c m H l Hpv Hn HH Hpm) as (Hx & _ & l' & El & Hpv' & Hpo').
  fold x in Hx, El, Hpv'. apply hwp_bind, hwp_silent.
  eapply wp_mono; [apply inv_release, Hpv'|]. intros [] c2 [Hi2 Hrec].
  assert (comp c2 = comp (set_cache flag (set_len (fun n => (n - 1)%nat)) c)) as Hcomp
    by (by destruct Hrec as (i & n & ->)).
  split; [exact Hcomp|]. pose proof (view_recounted _ _ Hrec) as Hv.
  assert (ctl c2 = ctl (set_cache flag (set_len (fun n => (n - 1)%nat)) c)) as Hctl
    by (by destruct Hrec as (i & n & ->)).
  apply (HK c2 l'); [done|done| |by eapply popped_silent].
  eapply pv_release; [exact Hpv'| |done..].
  rewrite (ctl_sp _ _ flag (po_ctl _ _ _ _ _ _ Hpo')). done.
Qed.

Lemma hwp_discard_byte pm pm' flag c m H v l :
  pm_pop false pm pm' ->
  PV pm flag c m H (v :: l) -> stack_ptr_reg flag c = sp_reg flag ->
  hwp (stack_cache_discard_byte flag)
    (fun _ c' m' => PV pm' flag c' m' H l /\ popped flag H c m c' m') c m.
Proof.
  intros Hpm Hpv Esp. pose proof (pv_inv _ _ _ _ _ _ Hpv) as Hi. pose proof (pv_own _ _ _ _ _ _ Hpv) as Hown.
  pose proof (own_held _ _ _ _ _ _ Hpm Hown) as HH.
  unfold stack_cache_discard_byte. apply hwp_bind, hwp_gets. set (k := get_cache flag c).
  destruct (Nat.eqb_spec (len k) 0) as [H0|H0].
  { by apply (hwp_discard_mem pm pm' false flag c m H v l Hpm Hpv). }
  set (x := cell_at k (len k - 1)). destruct (is_short (value x)) eqn:Eshort.
  - destruct (own_whole _ _ _ _ _ _ Hi Hpm Hown H0) as [(n & -> & ->)|Hsz]; [|fold k x in Hsz; congruence].
    apply (pv_weaken _ n) in Hpv; [|lia]. pose proof (pv_core _ _ _ _ _ _ Hpv) as [Hp Hw Hb Hvm Hba].
    assert (is_op (reg (value x))) as Hop.
    { eapply inv_cell_op; [exact Hi|]. apply (cell_at_live c H flag); [done|fold k; lia]. }
    assert (Like c c) as Hl by done. inst ex_shr_imm. intros c1 [Hs1 Hb1].
    assert (forall q, get_cache q c1 = get_cache q c) as Hk1
      by (intros q; unfold shape in Hs1; destruct q; cbn [get_cache]; congruence).
    assert (Inv c1 H) as Hi1 by (by eapply inv_shape).
    apply hwp_modify; [by destruct flag|].
    destruct (wp_narrow flag (len k - 1) c1 H Hi1 : _ /\ _) as (Hi2 & Hf2 & Hko2 & _).
    set (c2 := set_cache flag _ c1) in *. set (m2 := set_reg _ _ m).
    assert (regs_but [reg (value x)] m m2) as Hbut.
    { intros q Hq. rewrite not_elem_of_cons in Hq. destruct Hq as [? _]. unfold m2. by msimp. }
    destruct (pv_split (vmb := vmb) n flag c m H (v :: l) c2 m2 []) as (l' & El & Hpv2 & Hpo2); try done.
    + by apply NoDup_nil.
    + split; [apply Hi2|unfold m2; auto with words|done|by rewrite Hbut by reg_notin|].
      rewrite Hbut by reg_notin. replace (mem_base c2) with (mem_base c); [done|]. by destruct flag.
    + transitivity (ctl c1); [by apply ctl_frame|]. apply ctl_frame. unfold shape in Hs1. congruence.
    + by rewrite Hko2, Hk1.
    + unfold c2. rewrite get_set_cache_eq, Hk1. done.
    + unfold m2. by msimp.
    + injection El as -> ->. done.
  - apply hwp_tail_tt, hwp_assoc.
    destruct (pm_pop_top (vmb := vmb) _ _ _ Hpm) as (pm1 & Ht & Hpm1). rewrite <- Eshort in Ht.
    eapply (hwp_give_up pm pm1 flag c m H _); try done. intros c' l' El Hx Hpv' Hpo. apply hwp_ret.
    fold k x in El, Hx. rewrite cell_bytes_val, Eshort in El. injection El as -> ->. auto.
Qed.

(** [buxn_jit_stack_cache_discard] drops the operand on top. *)
Lemma hwp_discard pm pm' flag_2 flag c m H v l :
  pm_pop flag_2 pm pm' ->
  PV pm flag c m H (val_bytes flag_2 v ++ l) -> val_in flag_2 v -> stack_ptr_reg flag c = sp_reg flag ->
  hwp (buxn_jit_stack_cache_discard flag flag_2)
    (fun _ c' m' => PV pm' flag c' m' H l /\ popped flag H c m c' m') c m.
Proof.
  intros Hpm Hpv Hv Esp. unfold buxn_jit_stack_cache_discard. destruct flag_2;
    [|by apply (hwp_discard_byte pm pm' flag c m H v)].
  pose proof (pv_inv _ _ _ _ _ _ Hpv) as Hi. pose proof (pv_own _ _ _ _ _ _ Hpv) as Hown.
  pose proof (own_held _ _ _ _ _ _ Hpm Hown) as HH.
  apply hwp_bind, hwp_gets. set (k := get_cache flag c).
  destruct (Nat.eqb_spec (len k) 0) as [H0|H0].
  { by apply (hwp_discard_mem pm pm' true flag c m H v l Hpm Hpv). }
  cbv zeta. set (x := cell_at k (len k - 1)). destruct (is_short (value x)) eqn:Eshort.
  - destruct (pm_pop_top (vmb := vmb) _ _ _ Hpm) as (pm1 & Ht & Hpm1). rewrite <- Eshort in Ht.
    eapply (hwp_give_up pm pm1 flag c m H _); [exact Hpv|done..|].
    intros c' l' El Hx Hpv' Hpo. fold k x in El. rewrite cell_bytes_val, Eshort in El.
    injection El as _ _ ->. apply hwp_ret. auto.
  - destruct (own_whole _ _ _ _ _ _ Hi Hpm Hown H0) as [(n & -> & ->)|Hsz]; [|fold k x in Hsz; congruence].
    eapply (hwp_give_up _ _ flag c m H _); [exact Hpv|done..|].
    intros c' l' El Hx Hpv' Hpo. fold k x in El. rewrite cell_bytes_val, Eshort in El.
    injection El as _ <-. cbn [negb when].
    eapply hwp_mono; [eapply (hwp_discard_byte (Distinct (S n)) (Distinct n) flag c' m H _ l);
      [by exists n|exact Hpv'|]|].
    { by rewrite (ctl_sp _ _ flag (po_ctl _ _ _ _ _ _ Hpo)). }
    intros [] c2 m2 [Hpv2 Hpo2]. split; [done|]. by eapply popped_trans.
Qed.
End DiscardSim.
