(* ===== verification/OperandSim.v ===== *)
(** * The operands of one opcode at run time

    An opcode first pops its operands, then allocates a register for a
    result, computes into it and pushes.  [Popping] describes the first phase
    on the stack [flag], in keep mode or not; [Holds] the second one, with the
    values of the registers the opcode holds.  Each lemma runs the operation
    at the head of a sequence, as the steps of OpcodeSafety.v do. *)
From S2P Require Import Prelude Lir Hamt Jit StackCache MicroOps Uxn Invariant CacheSafety OpcodeSafety Machine StackSim PopSim DiscardSim.
From Stdlib Require Import Permutation.
Local Open Scope jit_scope.

(** ** Changes of the context that the machine does not see *)

Definition silent (c c' : buxn_jit_ctx_t) : Prop :=
  comp c' = comp c /\ view c' = view c /\ ctl c' = ctl c /\ reg_ref_counts c' = reg_ref_counts c.

Lemma silent_refl c : silent c c.
Proof. done. Qed.

Lemma silent_trans c1 c2 c3 : silent c1 c2 -> silent c2 c3 -> silent c1 c3.
Proof. unfold silent. intros (? & ? & ? & ?) (? & ? & ? & ?). split_and!; congruence. Qed.

Lemma silent_inv c c' H : silent c c' -> Inv c H -> Inv c' H.
Proof.
  intros (_ & Hv & _ & Hn) [Hc HH]. split; [|done]. unfold view in Hv.
  replace (owned c' H) with (owned c H) by (unfold owned; congruence).
  apply (counted_same c); congruence.
Qed.

Lemma silent_push_value flag v c :
  wp (push_value flag v) (fun _ c' => silent c c') c.
Proof. unfold push_value. destruct flag; apply wp_modify; repeat split. Qed.

Lemma silent_pop_value flag c : wp (pop_value flag) (fun _ c' => silent c c') c.
Proof.
  unfold pop_value. destruct flag; apply wp_bind, wp_modify, wp_gets;
    [destruct (ersp c)|destruct (ewsp c)]; repeat split.
Qed.

(** A silent operation at the head of a sequence. *)
Lemma h_silent {A B : Type} `{Sljit} `{Host} (f : J A) (k : A -> J B) Q c m :
  wp f (fun _ c' => silent c c') c ->
  (forall a c', silent c c' -> hwp (k a) Q c' m) -> hwp (bind f k) Q c m.
Proof.
  intros Hf Hk. apply hwp_bind, hwp_silent. eapply wp_mono; [exact Hf|].
  intros a c' Hs. split; [apply Hs|auto].
Qed.

(** The compile-time operand of a pop: no code. *)
Lemma silent_pop_sem flag_2 flag c :
  wp (if flag_2 : bool then
        lo <-- pop_value flag ;; hi <-- pop_value flag ;;
        ret (if has_bit (v_semantics hi) BUXN_JIT_SEM_CONST
                && has_bit (v_semantics lo) BUXN_JIT_SEM_CONST
             then (BUXN_JIT_SEM_CONST, Z.lor (Z.shiftl (v_const_value hi) 8) (v_const_value lo))
             else (0, 0))
      else v <-- pop_value flag ;; ret (v_semantics v, v_const_value v))
    (fun _ c' => silent c c') c.
Proof.
  destruct flag_2; wp_op silent_pop_value; intros ? c1 H1.
  - wp_op silent_pop_value. intros ? c2 H2. apply wp_ret. by apply (silent_trans _ c1).
  - apply wp_ret. done.
Qed.

Section OperandSim.
Context {Lay : VmLayout} {SL : Sljit} {SP : SljitSpec} {HO : Host} {vmb : Z} {LS : LayoutSpec vmb}.

#[local] Abbreviation base := (base (vmb := vmb)).
#[local] Abbreviation Core := (Core (vmb := vmb)).
#[local] Abbreviation on_stack := (on_stack (vmb := vmb)).
#[local] Abbreviation Rep := (Rep (vmb := vmb)).
#[local] Abbreviation PV := (PV (vmb := vmb)).
#[local] Abbreviation evolves := (evolves (vmb := vmb)).

(** ** Popping *)

(** The stacks when [l] is left to pop from [flag]. *)
Definition after (k flag : bool) (l : list Z) (st : bool -> list Z) : bool -> list Z :=
  if k then st else set_stack flag l st.

Record Popping (pm : popmode) (k flag : bool) (c : buxn_jit_ctx_t) (m : mach) (H : list sreg)
    (st : bool -> list Z) (l : list Z) : Prop := {
  pp_pv : PV pm flag c m H l;
  pp_other : on_stack (negb flag) c m (st (negb flag));
  pp_layer : layered (live (get_cache (negb flag) c));
  pp_flush : Forall (fun x => need_flush x = negb k) (live (get_cache flag c));
  pp_len : (length l <= 256)%nat;
  pp_sp : if k then stack_ptr_reg flag c ∈ H /\ on_stack flag c m (st flag)
          else stack_ptr_reg flag c = sp_reg flag;
}.

Lemma unflushed_all k : Forall (fun x => need_flush x = true) (live k) -> unflushed k = live k.
Proof.
  unfold unflushed. induction 1 as [|x l Hx _ IH]; [done|].
  rewrite filter_cons, decide_True by done. by f_equal.
Qed.

Lemma unflushed_none k : Forall (fun x => need_flush x = false) (live k) -> unflushed k = [].
Proof.
  unfold unflushed. induction 1 as [|x l Hx _ IH]; [done|].
  rewrite filter_cons, decide_False by (by rewrite Hx). done.
Qed.

Lemma flag_cases (flag r : bool) : r = flag \/ r = negb flag.
Proof. destruct flag, r; auto. Qed.

Lemma popping_rep pm k flag c m H st l : Popping pm k flag c m H st l -> Rep c m H (after k flag l st).
Proof.
  intros [[Hi Hco Hce Hnd Hsp (lm & El & Hstk)] Hoth Hlay Hfl Hlen Hk].
  split; [done|done|done|..]; intros r; destruct (flag_cases flag r) as [-> | ->].
  - unfold after. destruct k; [apply Hk|]. rewrite set_stack_eq. split; [done|].
    exists lm. rewrite unflushed_all by exact Hfl. split; [done|]. by rewrite <- Hk.
  - unfold after. destruct k; [done|]. by rewrite set_stack_ne by (by destruct flag).
  - by eapply layered_all.
  - done.
Qed.

(** What every operation between the fetch and the end of an opcode keeps. *)
Lemma ctl_opcode c c' : ctl c' = ctl c -> current_opcode c' = current_opcode c.
Proof. unfold ctl. congruence. Qed.

Lemma op_flags_eq c c' :
  current_opcode c' = current_opcode c ->
  buxn_jit_op_flag_2 c' = buxn_jit_op_flag_2 c /\ buxn_jit_op_flag_r c' = buxn_jit_op_flag_r c /\
  buxn_jit_op_flag_k c' = buxn_jit_op_flag_k c.
Proof. unfold buxn_jit_op_flag_2, buxn_jit_op_flag_r, buxn_jit_op_flag_k. by intros ->. Qed.

Lemma on_stack_same flag c c' m m' l :
  mem m' = mem m -> regs m' (sp_reg flag) = regs m (sp_reg flag) ->
  expand (regs m') (unflushed (get_cache flag c')) = expand (regs m) (unflushed (get_cache flag c)) ->
  on_stack flag c m l -> on_stack flag c' m' l.
Proof.
  intros Hm Hr He [Hl (lm & El & Hstk)]. split; [done|]. exists lm. by rewrite He, Hm, Hr.
Qed.

Lemma popping_popped pm pm' k flag c m H st l H' c' m' l' :
  Popping pm k flag c m H st l -> popped flag H c m c' m' -> PV pm' flag c' m' H' l' -> H ⊆ H' ->
  (length l' <= length l)%nat -> Popping pm' k flag c' m' H' st l'.
Proof.
  intros [Hpv Hoth Hlay Hfl Hlen Hk] [Hm Hspr Hheld Hko Hregs Hflush _ Hctl] Hpv' Hsub Hl'.
  assert (stack_ptr_reg flag c' = stack_ptr_reg flag c) as Esp by (by apply ctl_sp).
  assert (forall q, q <> flag \/ k = true -> sp_reg q <> stack_ptr_reg flag c) as Hne.
  { intros q Hq. destruct k.
    - destruct Hk as [Hin _]. assert (is_op (stack_ptr_reg flag c)) as Hop by (by eapply inv_held_op; [apply Hpv|]).
      apply not_eq_sym, op_ne; [done|by destruct q].
    - rewrite Hk. destruct Hq as [Hq|]; [|done]. by destruct q, flag. }
  split; [done|..].
  - eapply on_stack_same; [done|apply Hspr, Hne; left; by destruct flag| |exact Hoth].
    rewrite Hko. apply expand_ext. intros ? (x & -> & Hx)%list_elem_of_fmap.
    apply Hregs. by apply unflushed_live.
  - by rewrite Hko.
  - by apply Hflush.
  - lia.
  - rewrite Esp. destruct k; [|done]. destruct Hk as [Hin Hst]. split; [by apply Hsub|].
    eapply on_stack_same; [done|apply Hspr, Hne; by right| |exact Hst].
    rewrite !unflushed_none; [done|exact Hfl|by apply Hflush].
Qed.

Lemma popping_silent pm k flag c m H st l c' :
  Popping pm k flag c m H st l -> silent c c' -> Popping pm k flag c' m H st l.
Proof.
  intros [[Hi Hco Hce Hnd Hsp (lm & El & Hstk)] Hoth Hlay Hfl Hlen Hk] Hs.
  pose proof (silent_inv _ _ _ Hs Hi) as Hi'. destruct Hs as (_ & Hv & Hctl & _).
  pose proof (view_cache _ _ Hv) as Hc. assert (stack_ptr_reg flag c' = stack_ptr_reg flag c) as Esp
    by (by apply ctl_sp).
  assert (forall q l, on_stack q c m l -> on_stack q c' m l) as Hon
    by (intros q l' Hq; unfold StackSim.on_stack in *; by rewrite Hc).
  split; [split|..]; rewrite ?Hc, ?Esp; auto.
  - apply (core_same c); [unfold view in Hv; congruence..|done].
  - intros r. by rewrite Hc.
  - by apply (own_same _ _ c).
  - exists lm. by rewrite Hc, Esp.
  - destruct k; [|done]. destruct Hk. auto.
Qed.

(** The registers holding operands popped so far, with their values. *)
Definition hold (H : list sreg) (m : mach) (vals : list (sreg * Z)) : Prop :=
  Forall (fun rv => fst rv ∈ H /\ regs m (fst rv) = snd rv) vals.

(** A state in the middle of popping. *)
Record Pops (pm : popmode) (k flag : bool) (op : Z) (c : buxn_jit_ctx_t) (m : mach) (H : list sreg)
    (vals : list (sreg * Z)) (st : bool -> list Z) (l : list Z) : Prop := {
  ps_popping : Popping pm k flag c m H st l;
  ps_op : current_opcode c = op;
  ps_vals : hold H m vals;
  ps_sp : Forall (fun rv => fst rv <> stack_ptr_reg flag c) vals;
  ps_nodup : match pm with Distinct _ => NoDup (fst <$> vals) | Whole _ => True end;
}.

Lemma pops_pv pm k flag op c m H vals st l : Pops pm k flag op c m H vals st l -> PV pm flag c m H l.
Proof. intros [Hp _ _ _ _]. by eapply pp_pv. Qed.

Lemma pops_silent pm k flag op c m H vals st l c' :
  Pops pm k flag op c m H vals st l -> silent c c' -> Pops pm k flag op c' m H vals st l.
Proof.
  intros [Hp Hop Hv Hsp Hnd] Hs. pose proof (popping_silent _ _ _ _ _ _ _ _ _ Hp Hs) as Hp'.
  destruct Hs as (_ & Hvw & Hctl & _). split; [done|by rewrite (ctl_opcode c)|done| |done].
  by rewrite (ctl_sp _ _ _ Hctl).
Qed.

(** [buxn_jit_pop_ex] with [v] on top. *)
Lemma h_pop_ex {B} pm pm' k flag op c m H vals st l flag_2 v (K : _ -> J B) Q :
  pm_pop flag_2 pm pm' -> Pops pm k flag op c m H vals st (val_bytes flag_2 v ++ l) -> val_in flag_2 v ->
  (forall o c' m', is_short o = flag_2 ->
     Pops pm' k flag op c' m' (reg o :: H) ((reg o, v) :: vals) st l ->
     ctl c' = ctl c -> mem m' = mem m -> hwp (K o) Q c' m') ->
  hwp (bind (buxn_jit_pop_ex flag_2 flag) K) Q c m.
Proof.
  intros Hpm [Hp Hop Hvals Hspv Hnd] Hv HK. unfold buxn_jit_pop_ex. apply hwp_assoc.
  eapply h_silent; [apply silent_pop_sem|]. intros sem c1 Hs1.
  pose proof (popping_silent _ _ _ _ _ _ _ _ _ Hp Hs1) as Hp1. pose proof (pp_pv _ _ _ _ _ _ _ _ Hp1) as Hpv1.
  destruct Hs1 as (_ & Hv1 & Hctl1 & _).
  apply hwp_assoc, hwp_bind. eapply hwp_mono; [by eapply hwp_cache_pop|].
  intros r c2 m2 (Hpv2 & Hr & Hrsp & Hpo). apply hwp_bind, hwp_ret.
  pose proof (po_ctl _ _ _ _ _ _ Hpo) as Hctl2.
  assert (stack_ptr_reg flag c2 = stack_ptr_reg flag c) as Esp by (apply ctl_sp; congruence).
  assert (forall q, q ∈ H -> q <> stack_ptr_reg flag c -> regs m2 q = regs m q) as Hkeep.
  { intros q Hq Hne. apply (po_held _ _ _ _ _ _ Hpo); [done|]. by rewrite (ctl_sp _ _ _ Hctl1). }
  apply HK; [done| |congruence|apply Hpo]. split; cbn [reg].
  - eapply popping_popped; [exact Hp1|done|done|set_solver|]. rewrite length_app. lia.
  - rewrite (ctl_opcode c1 c2), (ctl_opcode c c1) by done. done.
  - apply Forall_cons_2; [split; [by left|done]|]. unfold hold in Hvals. rewrite Forall_forall in *.
    intros [q w] Hq. destruct (Hvals _ Hq) as [Hin Hw]. split; [by right|].
    cbn in *. rewrite Hkeep; [done..|by apply (Hspv _ Hq)].
  - rewrite Esp. apply Forall_cons_2; [|done]. cbn. by rewrite <- (ctl_sp _ _ flag Hctl1).
  - destruct pm as [n|szs]; [destruct Hpm as (n' & -> & ->)|destruct Hpm as (szs' & -> & ->); done].
    cbn. apply NoDup_cons. split; [|done]. intros ([q w] & -> & Hq)%list_elem_of_fmap.
    unfold hold in Hvals. rewrite Forall_forall in Hvals. destruct (Hvals _ Hq) as [HqH _].
    pose proof (proj1 (pv_own _ _ _ _ _ _ Hpv2)) as Hn. rewrite owned_cons in Hn.
    apply NoDup_cons in Hn as [Hn _]. by apply Hn, held_owned.
Qed.

(** Outside of keep mode an operand can be discarded instead. *)
Lemma h_discard {B} pm pm' flag op c m H vals st l flag_2 v (K : unit -> J B) Q :
  pm_pop flag_2 pm pm' ->
  Pops pm false flag op c m H vals st (val_bytes flag_2 v ++ l) -> val_in flag_2 v ->
  (forall c' m', Pops pm' false flag op c' m' H vals st l -> ctl c' = ctl c -> mem m' = mem m ->
     hwp (K tt) Q c' m') ->
  hwp (bind (buxn_jit_stack_cache_discard flag flag_2) K) Q c m.
Proof.
  intros Hpm [Hp Hop Hvals Hspv Hnd] Hv HK. apply hwp_bind.
  pose proof (pp_pv _ _ _ _ _ _ _ _ Hp) as Hpv. pose proof (pp_sp _ _ _ _ _ _ _ _ Hp) as Esp. cbn in Esp.
  eapply hwp_mono; [by apply (hwp_discard (vmb := vmb) pm pm' flag_2 flag c m H v l)|]. intros [] c' m' [Hpv' Hpo].
  pose proof (po_ctl _ _ _ _ _ _ Hpo) as Hctl. apply HK; [|done|apply Hpo].
  split; [|by rewrite (ctl_opcode c)| | |].
  - eapply popping_popped; [exact Hp|done|done|done|]. rewrite length_app. lia.
  - unfold hold in *. rewrite Forall_forall in *. intros x Hx. destruct (Hvals x Hx) as [Hin E].
    split; [done|]. rewrite <- E. apply Hpo; [done|by apply Hspv].
  - by rewrite (ctl_sp _ _ _ Hctl).
  - destruct pm; [by destruct Hpm as (n' & -> & ->)|by destruct Hpm as (szs' & -> & ->)].
Qed.

(** ** The bytes on a stack *)

Lemma expand_u8 rv l : Forall (cell_ok rv) l -> Forall is_u8 (expand rv l).
Proof.
  induction 1 as [|x l Hx _ IH]; simpl; [by apply Forall_nil_2|]. apply Forall_app. split; [done|].
  rewrite cell_bytes_val. by apply val_bytes_u8.
Qed.

Lemma stk_bytes mm b p l : (forall a, is_u8 (mm a)) -> stk mm b p l -> Forall is_u8 l.
Proof.
  intros Hm [_ H]. apply Forall_forall. intros x (i & Hi)%list_elem_of_lookup. rewrite <- (H i x Hi).
  apply Hm.
Qed.

Lemma pv_u8 pm flag c m H l : PV pm flag c m H l -> Forall is_u8 l.
Proof.
  intros [Hi Hco Hce Hnd Hsp (lm & -> & Hstk)]. apply Forall_app. split; [by apply expand_u8|].
  eapply stk_bytes; [apply Hco|done].
Qed.

Lemma rep_u8 c m H st flag : Rep c m H st -> Forall is_u8 (st flag).
Proof.
  intros [Hi Hco Hce Hst _]. destruct (Hst flag) as (_ & lm & -> & Hstk). apply Forall_app. split.
  - apply expand_u8. specialize (Hce flag). rewrite Forall_forall in *. intros x Hx.
    apply Hce. by apply unflushed_live.
  - eapply stk_bytes; [apply Hco|done].
Qed.

(** ** After the pops *)

Record Holds (op : Z) (c : buxn_jit_ctx_t) (m : mach) (H : list sreg)
    (vals : list (sreg * Z)) (st : bool -> list Z) : Prop := {
  hd_rep : Rep c m H st;
  hd_op : current_opcode c = op;
  hd_vals : hold H m vals;
}.

Lemma pops_holds pm k flag op c m H vals st l :
  Pops pm k flag op c m H vals st l -> Holds op c m H vals (after k flag l st).
Proof. intros [Hp Hop Hv _ _]. split; [by eapply popping_rep|done|done]. Qed.

Lemma pops_private n k flag op c m H vals st l r :
  Pops (Distinct n) k flag op c m H vals st l -> r ∈ H -> private c r.
Proof.
  intros Hp. apply private_held. eapply (pv_own (Distinct n)), pops_pv, Hp.
Qed.

Lemma hold_evolves c H m m' vals :
  Inv c H -> evolves m m' -> hold H m vals -> hold H m' vals.
Proof.
  unfold hold. rewrite !Forall_forall. intros Hi Hev Hv x Hx. destruct (Hv x Hx) as [Hin E].
  split; [done|]. rewrite (ev_op _ _ Hev); [done|]. by eapply inv_held_op.
Qed.

Lemma hold_sub H H' m vals : H ⊆ H' -> hold H m vals -> hold H' m vals.
Proof.
  unfold hold. rewrite !Forall_forall. intros Hs Hv x Hx. destruct (Hv x Hx). split; [by apply Hs|done].
Qed.

Lemma h_alloc {B} op c m H vals st (K : sreg -> J B) Q :
  Holds op c m H vals st -> (length H < NUM_OP_REGS)%nat ->
  (forall r c' m', Holds op c' m' (r :: H) vals st -> private c' r -> r ∉ H ->
     ctl c' = ctl c -> evolves m m' -> hwp (K r) Q c' m') ->
  hwp (bind buxn_jit_alloc_reg K) Q c m.
Proof.
  intros [Hr Hop Hv] HH HK. pose proof (rp_inv _ _ _ _ Hr) as Hi. apply hwp_bind.
  eapply hwp_mono; [eapply hwp_wp; [by apply hwp_alloc|by apply wp_alloc]|].
  intros r c' m' [(Hr' & Hev & Hfresh) (_ & [Hf _] & _)].
  assert (ctl c' = ctl c) as Hctl by (by apply ctl_frame).
  apply HK; [split; [done|by rewrite (ctl_opcode c)|]| | |done|done].
  - eapply hold_sub; [|by eapply hold_evolves]. set_solver.
  - intros q x Hx <-. apply Hfresh. by eapply cell_owned.
  - intros Hin. by apply Hfresh, held_owned.
Qed.

(** Code that changes registers of no cell, may move the base register and
    writes outside of the stacks. *)
Lemma holds_regs X op c m H vals st c' m' :
  Holds op c m H vals st -> Forall (private c) X -> (forall q, sp_reg q ∉ X) ->
  Forall (fun rv => fst rv ∉ X) vals -> shape c' = shape c -> Core c' m' ->
  (forall flag x, is_u8 x -> mem m' (base flag + x) = mem m (base flag + x)) ->
  regs_but X m m' -> Holds op c' m' H vals st.
Proof.
  intros [[Hi Hco Hce Hst Hla] Hop Hv] HX Hspx Hne Hs Hco' Hm Hbut.
  assert (forall q, get_cache q c' = get_cache q c) as Hk
    by (intros q; unfold shape in Hs; destruct q; cbn [get_cache]; congruence).
  pose proof (cells_keep c X m m' Hbut HX) as Hcell.
  split; [split|..].
  - by eapply inv_shape.
  - done.
  - intros q. rewrite Hk. specialize (Hce q). rewrite Forall_forall in *. intros x Hx.
    unfold cell_ok. rewrite (Hcell q x Hx). by apply Hce.
  - intros q. destruct (Hst q) as [Hl (lm & El & Hstk)]. split; [done|]. exists lm.
    rewrite Hk, (Hbut _ (Hspx q)). split; [|eapply stk_mem; [exact (Hm q)|exact Hstk]].
    rewrite El. f_equal. symmetry. apply expand_ext. intros ? (x & -> & Hx)%list_elem_of_fmap.
    apply (Hcell q). by apply unflushed_live.
  - intros q. by rewrite Hk.
  - rewrite <- Hop. apply ctl_opcode, ctl_frame. unfold shape in Hs. congruence.
  - unfold hold in *. rewrite Forall_forall in *. intros x Hx.
    destruct (Hv x Hx) as [Hin E]. split; [done|]. rewrite <- E. by apply Hbut, Hne.
Qed.

(** The registers that hold temporary values. *)
Definition scratch : list sreg := [BUXN_JIT_R_TMP; BUXN_JIT_R_MEM_OFFSET; BUXN_JIT_R_MEM_BASE].

Lemma scratch_private c H : Inv c H -> Forall (private c) scratch.
Proof. intros Hi. repeat apply Forall_cons_2; try apply Forall_nil_2; by eapply private_fixed. Qed.

Lemma op_not_scratch r : is_op r -> r ∉ scratch.
Proof. intros Hop. unfold scratch. rewrite !not_elem_of_cons. split_and!; [by apply op_ne..|apply not_elem_of_nil]. Qed.

Lemma sp_not_scratch q : sp_reg q ∉ scratch.
Proof. unfold scratch. rewrite !not_elem_of_cons. split_and!; try (by destruct q). apply not_elem_of_nil. Qed.

Lemma holds_scratch op c m H vals st c' m' :
  Holds op c m H vals st -> shape c' = shape c -> Core c' m' ->
  (forall flag x, is_u8 x -> mem m' (base flag + x) = mem m (base flag + x)) ->
  regs_but scratch m m' -> Holds op c' m' H vals st.
Proof.
  intros Hh Hs Hco Hm Hbut. pose proof (rp_inv _ _ _ _ (hd_rep _ _ _ _ _ _ Hh)) as Hi.
  eapply (holds_regs scratch); [exact Hh|by eapply scratch_private|apply sp_not_scratch| |done..].
  pose proof (hd_vals _ _ _ _ _ _ Hh) as Hv. unfold hold in Hv. rewrite Forall_forall in *.
  intros x Hx. apply op_not_scratch. eapply inv_held_op; [exact Hi|by apply (Hv x Hx)].
Qed.

(** Code that computes into a private register. *)
Lemma holds_update op c m H vals st r c' m' :
  Holds op c m H vals st -> r ∈ H -> private c r -> Forall (fun rv => fst rv <> r) vals ->
  shape c' = shape c -> Core c' m' ->
  (forall flag x, is_u8 x -> mem m' (base flag + x) = mem m (base flag + x)) ->
  regs_but (r :: scratch) m m' ->
  Holds op c' m' H ((r, regs m' r) :: vals) st /\ private c' r.
Proof.
  intros Hh Hr Hpr Hne Hs Hco Hm Hbut. pose proof (rp_inv _ _ _ _ (hd_rep _ _ _ _ _ _ Hh)) as Hi.
  assert (is_op r) as Hopr by (by eapply inv_held_op).
  assert (Holds op c' m' H vals st) as [Hr' Hop' Hv'].
  { eapply (holds_regs (r :: scratch)); [exact Hh|..|exact Hs|exact Hco|exact Hm|exact Hbut].
    - apply Forall_cons_2; [done|by eapply scratch_private].
    - intros q. apply not_elem_of_cons. split; [apply not_eq_sym, op_ne; [done|by destruct q]|apply sp_not_scratch].
    - pose proof (hd_vals _ _ _ _ _ _ Hh) as Hv. unfold hold in Hv. rewrite Forall_forall in *. intros x Hx.
      apply not_elem_of_cons. split; [by apply Hne|].
      apply op_not_scratch. eapply inv_held_op; [exact Hi|by apply (Hv x Hx)]. }
  split; [split; [done|done|by apply Forall_cons_2]|].
  eapply private_same; [|exact Hpr]. intros q. unfold shape in Hs. destruct q; cbn [get_cache]; congruence.
Qed.

(** Emitted code between whose ends only these registers change. *)
Lemma core_like c c' m m' X :
  Core c m -> Like c c' -> words m' -> mem m' = mem m -> regs_but X m m' ->
  BUXN_JIT_S_VM ∉ X -> BUXN_JIT_R_MEM_BASE ∉ X -> Core c' m'.
Proof.
  intros [] [Hs Hb] Hw Hm Hbut Hvm Hbase.
  split; [by rewrite (shape_compiler _ _ Hs)|done|by unfold bytes; rewrite Hm|by rewrite Hbut|by rewrite Hb, Hbut].
Qed.

Lemma holds_write op c m H vals st r c' m' :
  Holds op c m H vals st -> r ∈ H -> private c r -> Forall (fun rv => fst rv <> r) vals ->
  Like c c' -> words m' -> mem m' = mem m ->
  regs_but [r; BUXN_JIT_R_TMP; BUXN_JIT_R_MEM_OFFSET] m m' ->
  Holds op c' m' H ((r, regs m' r) :: vals) st /\ private c' r.
Proof.
  intros Hh Hr Hpr Hne Hl Hw Hm Hbut.
  assert (is_op r) as Hop by (eapply inv_held_op; [apply Hh|done]).
  eapply holds_update; [exact Hh|done|done|done|apply Hl| |intros; by rewrite Hm|].
  - eapply core_like; [apply Hh|done|done|done|exact Hbut|..];
      rewrite !not_elem_of_cons; (split_and!; [apply not_eq_sym, op_ne; done|done..|apply not_elem_of_nil]).
  - intros q Hq. apply Hbut. set_solver.
Qed.

(** Pushing the operand in a held register. *)
Lemma rep_silent c m H st c' : Rep c m H st -> silent c c' -> Rep c' m H st.
Proof.
  intros Hr Hs. pose proof (silent_inv _ _ _ Hs (rp_inv _ _ _ _ Hr)) as Hi.
  eapply rep_view; [apply Hs|done|done].
Qed.

Lemma h_push_ex {B} op flag o v c m H vals st (K : unit -> J B) Q :
  Holds op c m H vals st -> (reg o, v) ∈ vals -> val_in (is_short o) v ->
  (length (val_bytes (is_short o) v) + length (st flag) <= 256)%nat ->
  (forall c' m', Holds op c' m' H vals (set_stack flag (val_bytes (is_short o) v ++ st flag) st) ->
     ctl c' = ctl c -> evolves m m' -> hwp (K tt) Q c' m') ->
  hwp (bind (buxn_jit_push_ex o flag) K) Q c m.
Proof.
  intros [Hr Hop Hv] Hin Hval Hlen HK. assert (reg o ∈ H /\ regs m (reg o) = v) as [HoH Ho]
    by (unfold hold in Hv; rewrite Forall_forall in Hv; by apply (Hv _ Hin)).
  unfold buxn_jit_push_ex. apply hwp_assoc, hwp_bind, hwp_gets, hwp_assoc, hwp_bind, hwp_assert.
  { apply Bool.negb_true_iff, Z.eqb_neq. eapply held_ref_count; [apply Hr|done]. }
  apply hwp_assoc, hwp_bind. rewrite <- Ho in Hval, Hlen.
  eapply hwp_mono; [by apply hwp_cache_push|]. intros [] c1 m1 (Hr1 & Hev & Hctl). rewrite Ho in Hr1.
  apply (h_silent _ _ _ c1).
  { destruct (is_short o); [|apply silent_push_value]. wp_op silent_push_value. intros [] c2 Hs2.
    eapply wp_mono; [apply silent_push_value|]. intros [] c3 Hs3. by apply (silent_trans _ c2). }
  intros [] c2 Hs2. assert (ctl c2 = ctl c) as Hctl2 by (destruct Hs2 as (_ & _ & -> & _); done).
  apply HK; [|done|done]. split; [by eapply rep_silent|by rewrite (ctl_opcode c)|].
  eapply hold_evolves; [apply Hr|done|done].
Qed.
End OperandSim.
