(* ===== verification/StepSim.v ===== *)
(** * The steps of an opcode handler at run time

    Relative to the context [c0] and the machine [m0] an opcode starts from
    and the stacks [st0] it starts with, the lemmas of this file run one
    operation of a handler: [s_pop], [s_alloc], [s_push]. *)
From S2P Require Import Prelude Lir Hamt Jit StackCache MicroOps Opcodes Uxn Invariant CacheSafety OpcodeSafety Machine StackSim PopSim OperandSim.
Local Open Scope jit_scope.

(** ** Operands of the specification and of the code *)

Lemma byte_join hi lo : is_u8 hi -> is_u8 lo ->
  is_u16 (hi * 256 + lo) /\ Z.land (hi * 256 + lo) 0xff = lo /\ Z.shiftr (hi * 256 + lo) 8 = hi.
Proof.
  intros Hh Hl. change 0xff with (Z.ones 8). rewrite Z.land_ones, Z.shiftr_div_pow2 by lia.
  split_and!; mlia.
Qed.

Lemma pop1_bytes short l v l' :
  Forall is_u8 l -> pop1 short l = Some (v, l') -> l = val_bytes short v ++ l' /\ val_in short v.
Proof.
  intros Hl. destruct short, l as [|x [|y l]]; cbn [pop1]; try discriminate; intros [= <- <-].
  - apply Forall_cons in Hl as [Hx Hl]. apply Forall_cons in Hl as [Hy _].
    destruct (byte_join y x Hy Hx) as (? & E1 & E2). cbn [val_bytes val_in]. by rewrite E1, E2.
  - apply Forall_cons in Hl as [Hx _]. done.
  - apply Forall_cons in Hl as [Hx _]. done.
Qed.

Lemma to_bytes_val short v : val_in short v -> to_bytes short v = val_bytes short v.
Proof.
  destruct short; [|done]. intros Hv. cbn [to_bytes val_bytes]. change 0xff with (Z.ones 8).
  rewrite Z.land_ones, Z.shiftr_div_pow2 by lia. done.
Qed.

Lemma size_mask_in short v : val_in short (size_mask short v).
Proof. destruct short; [apply u16_range|apply u8_range]. Qed.

Lemma size_mask_id short v : val_in short v -> size_mask short v = v.
Proof. destruct short; [apply u16_id|apply u8_id]. Qed.

Lemma val_in_u16 short v : val_in short v -> is_u16 v.
Proof. destruct short; cbn [val_in]; mlia. Qed.

(** The mode of an opcode that pops operands of the sizes [szs]. *)
Definition pops_mode (sh : bool) (szs : list bool) : popmode :=
  if sh then Whole szs else Distinct (length szs).

Lemma pops_mode_pop sh f szs : pm_pop f (pops_mode sh (f :: szs)) (pops_mode sh szs).
Proof. destruct sh; cbn; eauto. Qed.

Section StepSim.
Context {Lay : VmLayout} {SL : Sljit} {SP : SljitSpec} {HO : Host} {vmb : Z} {LS : LayoutSpec vmb}.

#[local] Abbreviation base := (base (vmb := vmb)).
#[local] Abbreviation Rep := (Rep (vmb := vmb)).
#[local] Abbreviation evolves := (evolves (vmb := vmb)).
#[local] Abbreviation Pops := (Pops (vmb := vmb)).
#[local] Abbreviation Holds := (Holds (vmb := vmb)).

Lemma val_in_word short v : val_in short v -> is_word v.
Proof. intros. by eapply word_u16, val_in_u16. Qed.

(** The stacks as functions, up to pointwise equality. *)
Lemma rep_ext c m H st st' : (forall r, st' r = st r) -> Rep c m H st -> Rep c m H st'.
Proof. intros E []. split; try done. intros r. by rewrite E. Qed.

Lemma holds_ext op c m H vals st st' :
  (forall r, st' r = st r) -> Holds op c m H vals st -> Holds op c m H vals st'.
Proof. intros E []. split; try done. by eapply rep_ext. Qed.

Lemma set_stack_twice flag x y st r : set_stack flag x (set_stack flag y st) r = set_stack flag x st r.
Proof. unfold set_stack. by destruct (Bool.eqb r flag). Qed.

(** Memory outside of the two stacks. *)
Definition off_stacks (a : Z) : Prop := forall flag, ~ (base flag <= a < base flag + 256).

Definition keeps (m m' : mach) : Prop := forall a, off_stacks a -> mem m' a = mem m a.

Lemma evolves_keeps m m' : evolves m m' -> keeps m m'.
Proof. intros Hev a Ha. by apply (ev_mem _ _ Hev). Qed.

Section Steps.
Context (c0 : buxn_jit_ctx_t) (m0 : mach) (st0 : bool -> list Z) (sh : bool).

#[local] Abbreviation short := (buxn_jit_op_flag_2 c0).
#[local] Abbreviation flag := (buxn_jit_op_flag_r c0).
#[local] Abbreviation keep := (buxn_jit_op_flag_k c0).

Definition Since (c : buxn_jit_ctx_t) (m : mach) : Prop := ctl c = ctl c0 /\ keeps m0 m.

Lemma since_next c m c' m' : Since c m -> ctl c' = ctl c -> keeps m m' -> Since c' m'.
Proof.
  intros [Hc Hm] Hc' Hm'. split; [congruence|]. intros a Ha. rewrite Hm', Hm; done.
Qed.

Lemma since_flags c m :
  Since c m -> buxn_jit_op_flag_2 c = short /\ buxn_jit_op_flag_r c = flag /\ buxn_jit_op_flag_k c = keep.
Proof. intros [Hc _]. apply op_flags_eq. by apply ctl_opcode. Qed.

(** Popping: [l] is left of the current stack, and operands of the sizes
    [szs] are popped; [sh]: registers may be shared. *)
Definition PopAt (szs : list bool) c m H vals l : Prop :=
  Pops (pops_mode sh szs) keep flag (current_opcode c0) c m H vals st0 l /\ Since c m.

(** Computing and pushing: the current stack is [x]. *)
Definition HoldAt c m H vals x : Prop :=
  Holds (current_opcode c0) c m H vals (set_stack flag x st0) /\ Since c m.

(** The stack below the results. *)
Definition below (l : list Z) : list Z := if keep then st0 flag else l.

Lemma s_pop_ex {B} f szs c m H vals l v l' (K : _ -> J B) Q :
  PopAt (f :: szs) c m H vals l -> pop1 f l = Some (v, l') ->
  (forall o c' m', is_short o = f -> val_in f v ->
     PopAt szs c' m' (reg o :: H) ((reg o, v) :: vals) l' -> hwp (K o) Q c' m') ->
  hwp (bind (buxn_jit_pop_ex f flag) K) Q c m.
Proof.
  intros [Hp Hs] Hpop HK. destruct (pop1_bytes f l v l') as [-> Hv];
    [by eapply pv_u8, pops_pv|done|].
  eapply h_pop_ex; [apply pops_mode_pop|exact Hp|done|]. intros o c' m' Ho Hp' Hctl Hm.
  apply HK; [done|done|]. split; [done|]. eapply since_next; [done..|]. intros a _. by rewrite Hm.
Qed.

Lemma s_pop {B} szs c m H vals l v l' (K : _ -> J B) Q :
  PopAt (short :: szs) c m H vals l -> pop1 short l = Some (v, l') ->
  (forall o c' m', is_short o = short -> val_in short v ->
     PopAt szs c' m' (reg o :: H) ((reg o, v) :: vals) l' -> hwp (K o) Q c' m') ->
  hwp (bind buxn_jit_pop K) Q c m.
Proof.
  intros Hp Hpop HK. destruct (since_flags c m) as (E2 & Er & _); [apply Hp|].
  unfold buxn_jit_pop. apply hwp_assoc, hwp_bind, hwp_gets, hwp_assoc, hwp_bind, hwp_gets.
  rewrite E2, Er. by eapply s_pop_ex.
Qed.

Lemma s_hold szs c m H vals l :
  PopAt szs c m H vals l -> HoldAt c m H vals (below l).
Proof.
  intros [Hp Hs]. split; [|done]. eapply holds_ext; [|by eapply pops_holds].
  intros r. unfold after, below, set_stack. destruct keep; [|done].
  by destruct (Bool.eqb_spec r flag) as [->|].
Qed.

Lemma s_alloc {B} c m H vals x (K : sreg -> J B) Q :
  HoldAt c m H vals x -> (length H < NUM_OP_REGS)%nat ->
  (forall r c' m', HoldAt c' m' (r :: H) vals x -> private c' r -> Forall (fun rv => fst rv <> r) vals ->
     hwp (K r) Q c' m') ->
  hwp (bind buxn_jit_alloc_reg K) Q c m.
Proof.
  intros [Hh Hs] HH HK. eapply h_alloc; [exact Hh|done|].
  intros r c' m' Hh' Hpr Hr Hctl Hev. apply HK; [|done|].
  - split; [done|]. eapply since_next; [done..|by apply evolves_keeps].
  - pose proof (hd_vals _ _ _ _ _ _ Hh) as Hv. unfold hold in Hv. rewrite Forall_forall in *.
    intros y Hy E. apply Hr. rewrite <- E. by apply (Hv _ Hy).
Qed.

Lemma s_push {B} o v c m H vals x (K : unit -> J B) Q :
  HoldAt c m H vals x -> (reg o, v) ∈ vals -> val_in (is_short o) v ->
  (length (val_bytes (is_short o) v ++ x) <= 256)%nat ->
  (forall c' m', HoldAt c' m' H vals (val_bytes (is_short o) v ++ x) -> hwp (K tt) Q c' m') ->
  hwp (bind (buxn_jit_push o) K) Q c m.
Proof.
  intros [Hh Hs] Hin Hv Hlen HK. unfold buxn_jit_push. apply hwp_assoc, hwp_bind, hwp_gets.
  destruct (since_flags c m Hs) as (_ & -> & _). rewrite length_app in Hlen.
  eapply h_push_ex; [exact Hh|done|done|by rewrite set_stack_eq|].
  intros c' m' Hh' Hctl Hev. apply HK. split; [|eapply since_next; [done..|by apply evolves_keeps]].
  eapply holds_ext; [|exact Hh']. intros r. by rewrite set_stack_twice, set_stack_eq.
Qed.

(** Code that computes into a private register of its own. *)
Lemma s_write c m H vals x r c' m' :
  HoldAt c m H vals x -> r ∈ H -> private c r -> Forall (fun rv => fst rv <> r) vals ->
  Like c c' -> words m' -> mem m' = mem m ->
  regs_but [r; BUXN_JIT_R_TMP; BUXN_JIT_R_MEM_OFFSET] m m' ->
  HoldAt c' m' H ((r, regs m' r) :: vals) x.
Proof.
  intros [Hh Hs] Hr Hpr Hne Hl Hw Hm Hbut. split.
  - eapply holds_write; [exact Hh|done..].
  - eapply since_next; [done| |intros a _; by rewrite Hm].
    apply ctl_frame. destruct Hl as [Hl _]. unfold shape in Hl. congruence.
Qed.

(** What is known at the end of an opcode. *)
Definition EndsAt (st' : bool -> list Z) (u : unit) (c : buxn_jit_ctx_t) (m : mach) : Prop :=
  (exists H, Rep c m H st') /\ Since c m.

Definition Ends (x : list Z) : unit -> buxn_jit_ctx_t -> mach -> Prop := EndsAt (set_stack flag x st0).

Lemma s_ends c m H vals x : HoldAt c m H vals x -> hwp (ret tt) (Ends x) c m.
Proof. intros [Hh Hs]. apply hwp_ret. split; [|done]. exists H. apply Hh. Qed.

(** [POP]: in keep mode it does nothing, and what is left to pop does not
    matter for the result. *)
Lemma s_POP {B} c m H vals l v l' (K : unit -> J B) Q :
  PopAt [short] c m H vals l -> pop1 short l = Some (v, l') ->
  (forall c' m', HoldAt c' m' H vals (below l') -> hwp (K tt) Q c' m') ->
  hwp (bind buxn_jit_POP K) Q c m.
Proof.
  intros [Hp Hs] Hpop HK. destruct (since_flags c m Hs) as (E2 & Er & Ek).
  unfold buxn_jit_POP. apply hwp_assoc, hwp_bind, hwp_gets. rewrite Ek.
  destruct (buxn_jit_op_flag_k c0) eqn:E0.
  { apply hwp_bind, hwp_ret. apply HK. replace (below l') with (below l) by (unfold below; by rewrite E0).
    apply (s_hold [short]). unfold PopAt. by rewrite E0. }
  destruct (pop1_bytes short l v l') as [-> Hv]; [by eapply pv_u8, pops_pv|done|].
  apply hwp_assoc, hwp_bind, hwp_gets, hwp_assoc, hwp_bind, hwp_gets. rewrite E2, Er.
  assert (forall f, wp (modify f) (fun _ c' => silent c c') c -> hwp (bind (modify f ;;;
    buxn_jit_stack_cache_discard flag short) K) Q c m) as Hdone.
  { intros f Hf. apply hwp_assoc. eapply h_silent; [exact Hf|]. intros [] c1 Hs1.
    assert (Pops (pops_mode sh [short]) false flag (current_opcode c0) c1 m H vals st0 (val_bytes short v ++ l'))
      as Hp1 by (by eapply pops_silent).
    eapply h_discard; [apply pops_mode_pop|exact Hp1|done|]. intros c2 m2 Hp2 Hctl Hm.
    apply HK, (s_hold []). unfold PopAt. rewrite E0. split; [done|].
    eapply since_next; [exact Hs|rewrite Hctl; apply Hs1|]. intros a _. by rewrite Hm. }
  destruct (buxn_jit_op_flag_r c0); (apply Hdone; by apply wp_modify).
Qed.

Lemma hold_core c m H vals x :
  HoldAt c m H vals x -> is_Some (compiler_ptr c) /\ words m /\ bytes m /\
    (forall r v, (r, v) ∈ vals -> regs m r = v /\ is_op r).
Proof.
  intros [[[Hi [] _ _ _] _ Hv] _]. split; [done|]. split; [done|]. split; [done|].
  intros r v Hin. unfold hold in Hv. rewrite Forall_forall in Hv. destruct (Hv _ Hin) as [? ?].
  split; [done|]. by eapply inv_held_op.
Qed.
End Steps.
End StepSim.
