(* ===== verification/OpcodeSim.v ===== *)
(** * The stack opcodes at run time

    The code of each stack handler computes what the specification of
    Uxn.v says, whatever part of the stacks is cached in registers. *)
From S2P Require Import Prelude Lir Hamt Jit StackCache MicroOps Opcodes Uxn Invariant CacheSafety OpcodeSafety Machine StackSim PopSim OperandSim StepSim.
Local Open Scope jit_scope.

(** ** Results of the arithmetic instructions *)

Section Arith.
Context {SL : Sljit} {SP : SljitSpec}.

Lemma land_mask (short : bool) x :
  Z.land (wrap x) (if short then 0xffff else 0x00ff) = size_mask short x.
Proof.
  destruct short; [change 0xffff with (Z.ones 16)|change 0x00ff with (Z.ones 8)];
    rewrite Z.land_ones by lia; [apply u16_wrap|apply u8_wrap].
Qed.

Lemma mask_u16 (b : bool) : is_u16 (if b then 0xffff else 0x00ff).
Proof. destruct b; split; (discriminate || reflexivity). Qed.

Lemma word_mask (b : bool) : is_word (if b then 0xffff else 0x00ff).
Proof. apply word_u16, mask_u16. Qed.

Lemma land_in short a b : val_in short a -> val_in short b -> val_in short (Z.land a b).
Proof.
  intros Ha Hb. assert (0 <= Z.land a b) by (apply Z.land_nonneg; destruct short, Ha; auto).
  assert (Z.land a b <= a); [|destruct short; cbn [val_in] in *; mlia].
  apply Z.ldiff_le; [destruct short, Ha; auto|].
  apply Z.bits_inj'. intros n _. rewrite Z.ldiff_spec, Z.land_spec, Z.bits_0.
  destruct (Z.testbit a n), (Z.testbit b n); done.
Qed.

Lemma below_pow2 n x : 0 <= n -> 0 <= x < 2 ^ n -> Z.log2 x < n \/ x = 0.
Proof.
  intros Hn Hx. destruct (decide (x = 0)) as [->|]; [by right|]. left. apply Z.log2_lt_pow2; lia.
Qed.

Lemma pow2_below n x : 0 < n -> 0 <= x -> Z.log2 x < n -> 0 <= x < 2 ^ n.
Proof.
  intros Hn Hx Hl. split; [done|]. destruct (decide (x = 0)) as [->|]; [lia|].
  apply Z.log2_lt_pow2; lia.
Qed.

Lemma log2_below n x : 0 < n -> 0 <= x < 2 ^ n -> Z.log2 x < n.
Proof. intros Hn Hx. destruct (below_pow2 n x ltac:(lia) Hx) as [| ->]; [done|simpl; lia]. Qed.

Lemma val_in_pow short v : val_in short v <-> 0 <= v < 2 ^ (if short then 16 else 8).
Proof. by destruct short. Qed.

Lemma lor_in short a b : val_in short a -> val_in short b -> val_in short (Z.lor a b).
Proof.
  rewrite !val_in_pow. set (n := if short then 16 else 8). assert (0 < n) by (by destruct short).
  intros Ha Hb. apply pow2_below; [done|apply Z.lor_nonneg; lia|].
  rewrite Z.log2_lor by lia. apply log2_below in Ha, Hb; lia.
Qed.

Lemma lxor_in short a b : val_in short a -> val_in short b -> val_in short (Z.lxor a b).
Proof.
  rewrite !val_in_pow. set (n := if short then 16 else 8). assert (0 < n) by (by destruct short).
  intros Ha Hb. apply pow2_below; [done|apply Z.lxor_nonneg; lia|].
  pose proof (Z.log2_lxor a b ltac:(lia) ltac:(lia)). apply log2_below in Ha, Hb; lia.
Qed.
End Arith.

#[export] Hint Resolve word_mask mask_u16 : words.

(** The emitted operation [o] computes [f] on operands of one size. *)
Definition computes `{Sljit} (o : op2) (f : Z -> Z -> Z) (wraps : bool) : Prop :=
  forall short a b, val_in short a -> val_in short b ->
    is_word (sl_alu o a b) /\
    (if wraps then Z.land (sl_alu o a b) (if short then 0xffff else 0x00ff) else sl_alu o a b) =
    size_mask short (f a b).

(** The condition [cc] compares as [f] does. *)
Definition compares `{Sljit} (cc : cond) (f : Z -> Z -> bool) : Prop :=
  forall a b, is_word a -> is_word b -> sl_test cc a b = f a b.

Section Computes.
Context {SL : Sljit} {SP : SljitSpec}.

Lemma word_val short v : val_in short v -> is_word v.
Proof. intros. by eapply word_u16, val_in_u16. Qed.

Lemma computes_add : computes SLJIT_ADD Z.add true.
Proof.
  intros short a b Ha%word_val Hb%word_val. rewrite sl_add by done.
  split; [apply word_wrap|apply land_mask].
Qed.
Lemma computes_sub : computes SLJIT_SUB Z.sub true.
Proof.
  intros short a b Ha%word_val Hb%word_val. rewrite sl_sub by done.
  split; [apply word_wrap|apply land_mask].
Qed.
Lemma computes_mul : computes SLJIT_MUL Z.mul true.
Proof.
  intros short a b Ha%word_val Hb%word_val. rewrite sl_mul by done.
  split; [apply word_wrap|apply land_mask].
Qed.
Lemma computes_and : computes SLJIT_AND Z.land false.
Proof.
  intros short a b Ha Hb. rewrite sl_and by (by eapply word_val). pose proof (land_in _ _ _ Ha Hb) as Hr.
  split; [by eapply word_val|by rewrite size_mask_id].
Qed.
Lemma computes_or : computes SLJIT_OR Z.lor false.
Proof.
  intros short a b Ha Hb. rewrite sl_or by (by eapply word_val). pose proof (lor_in _ _ _ Ha Hb) as Hr.
  split; [by eapply word_val|by rewrite size_mask_id].
Qed.
Lemma computes_xor : computes SLJIT_XOR Z.lxor false.
Proof.
  intros short a b Ha Hb. rewrite sl_xor by (by eapply word_val). pose proof (lxor_in _ _ _ Ha Hb) as Hr.
  split; [by eapply word_val|by rewrite size_mask_id].
Qed.
End Computes.

(** ** The steps of a handler *)

Ltac in_vals := cbn [reg]; rewrite ?elem_of_cons; auto 10.
Ltac fits := rewrite ?length_app, ?val_bytes_length in *; cbn [length] in *; lia.

(** The registers that change. *)
Ltac regs_list := intros ?q Hq; rewrite !not_elem_of_cons in Hq; destruct_and! Hq; by msimp.

(** Run the next pop, allocation or push. *)
Ltac sim :=
  cbv zeta;
  lazymatch goal with
  | |- hwp (ret tt) _ _ _ => eapply s_ends; eassumption
  | |- hwp (bind (bind _ _) _) _ _ _ => apply hwp_assoc
  | |- hwp (bind (gets _) _) _ _ _ => apply hwp_bind, hwp_gets
  | |- hwp (bind buxn_jit_pop _) _ _ _ =>
      eapply s_pop; [eassumption|eassumption|intros ? ? ? ? ? ?]
  | |- hwp (bind (buxn_jit_pop_ex _ _) _) _ _ _ =>
      eapply s_pop_ex; [eassumption|eassumption|intros ? ? ? ? ? ?]
  end.

(** The pops are over. *)
Ltac popped_all :=
  lazymatch goal with
  | Hp : PopAt _ _ _ _ _ ?c ?m _ _ _ |- hwp _ _ ?c ?m =>
      pose proof (s_hold _ _ _ _ _ _ _ _ _ _ Hp)
  end.

Section OpcodeSim.
Context {Lay : VmLayout} {SL : Sljit} {SP : SljitSpec} {HO : Host} {vmb : Z} {LS : LayoutSpec vmb}.
Context (c0 : buxn_jit_ctx_t) (m0 : mach) (st0 : bool -> list Z) (sh : bool).

#[local] Abbreviation short := (buxn_jit_op_flag_2 c0).
#[local] Abbreviation flag := (buxn_jit_op_flag_r c0).
#[local] Abbreviation PopAt := (PopAt (vmb := vmb) c0 m0 st0 sh).
#[local] Abbreviation HoldAt := (HoldAt (vmb := vmb) c0 m0 st0).
#[local] Abbreviation Ends := (Ends (vmb := vmb) c0 m0 st0).
#[local] Abbreviation below := (below c0 st0).

(** Pushing back a popped operand. *)
Lemma s_repush {B} o v c m H vals x (K : unit -> J B) Q :
  HoldAt c m H vals x -> (reg o, v) ∈ vals -> is_short o = short -> val_in short v ->
  (length (val_bytes short v ++ x) <= 256)%nat ->
  (forall c' m', HoldAt c' m' H vals (val_bytes short v ++ x) -> hwp (K tt) Q c' m') ->
  hwp (bind (buxn_jit_push o) K) Q c m.
Proof.
  intros Hh Hin Hs Hv Hlen HK.
  eapply (s_push c0 m0 st0); [exact Hh|exact Hin|by rewrite Hs|by rewrite Hs|rewrite Hs; exact HK].
Qed.

Ltac repush := hassoc; eapply s_repush; [eassumption|in_vals|assumption|assumption|fits|intros ? ? ?].
Ltac pops := repeat sim; popped_all.

Lemma sim_SWP c m H b a l l1 l2 :
  PopAt [short; short] c m H [] l -> pop1 short l = Some (b, l1) -> pop1 short l1 = Some (a, l2) ->
  (length (val_bytes short a ++ val_bytes short b ++ below l2) <= 256)%nat ->
  hwp buxn_jit_SWP (Ends (val_bytes short a ++ val_bytes short b ++ below l2)) c m.
Proof. intros Hp H1 H2 Hlen. unfold buxn_jit_SWP. apply hwp_tail_tt. pops. do 2 repush. sim. Qed.

Lemma sim_ROT c m H d b a l l1 l2 l3 :
  PopAt [short; short; short] c m H [] l -> pop1 short l = Some (d, l1) -> pop1 short l1 = Some (b, l2) ->
  pop1 short l2 = Some (a, l3) ->
  (length (val_bytes short a ++ val_bytes short d ++ val_bytes short b ++ below l3) <= 256)%nat ->
  hwp buxn_jit_ROT
    (Ends (val_bytes short a ++ val_bytes short d ++ val_bytes short b ++ below l3)) c m.
Proof. intros Hp H1 H2 H3 Hlen. unfold buxn_jit_ROT. apply hwp_tail_tt. pops. do 3 repush. sim. Qed.

Lemma sim_DUP c m H a l l1 :
  PopAt [short] c m H [] l -> pop1 short l = Some (a, l1) ->
  (length (val_bytes short a ++ val_bytes short a ++ below l1) <= 256)%nat ->
  hwp buxn_jit_DUP (Ends (val_bytes short a ++ val_bytes short a ++ below l1)) c m.
Proof. intros Hp H1 Hlen. unfold buxn_jit_DUP. apply hwp_tail_tt. pops. do 2 repush. sim. Qed.

Lemma sim_OVR c m H b a l l1 l2 :
  PopAt [short; short] c m H [] l -> pop1 short l = Some (b, l1) -> pop1 short l1 = Some (a, l2) ->
  (length (val_bytes short a ++ val_bytes short b ++ val_bytes short a ++ below l2) <= 256)%nat ->
  hwp buxn_jit_OVR
    (Ends (val_bytes short a ++ val_bytes short b ++ val_bytes short a ++ below l2)) c m.
Proof. intros Hp H1 H2 Hlen. unfold buxn_jit_OVR. apply hwp_tail_tt. pops. do 3 repush. sim. Qed.

Lemma sim_POP c m H a l l1 :
  PopAt [short] c m H [] l -> pop1 short l = Some (a, l1) -> hwp buxn_jit_POP (Ends (below l1)) c m.
Proof.
  intros Hp H1. apply hwp_tail_tt. eapply (s_POP c0 m0 st0 sh); [exact Hp|exact H1|].
  intros c' m' Hh. sim.
Qed.

Lemma sim_NIP c m H b a l l1 l2 :
  PopAt [short; short] c m H [] l -> pop1 short l = Some (b, l1) -> pop1 short l1 = Some (a, l2) ->
  (length (val_bytes short b ++ below l2) <= 256)%nat ->
  hwp buxn_jit_NIP (Ends (val_bytes short b ++ below l2)) c m.
Proof.
  intros Hp H1 H2 Hlen. unfold buxn_jit_NIP. apply hwp_tail_tt. do 2 sim. apply hwp_assoc.
  eapply (s_POP c0 m0 st0 sh); [eassumption|exact H2|]. intros c2 m2 Hh. repush. sim.
Qed.

(** [STH] moves the operand to the other stack. *)
Lemma sim_STH c m H a l l1 :
  PopAt [short] c m H [] l -> pop1 short l = Some (a, l1) ->
  (length (val_bytes short a ++ st0 (negb flag)) <= 256)%nat ->
  hwp buxn_jit_STH (EndsAt (vmb := vmb) c0 m0
    (set_stack (negb flag) (val_bytes short a ++ st0 (negb flag)) (set_stack flag (below l1) st0))) c m.
Proof.
  intros Hp H1 Hlen. unfold buxn_jit_STH. apply hwp_tail_tt. do 2 sim.
  match goal with Hx : PopAt _ _ _ _ _ _ |- hwp _ _ ?c ?m =>
    destruct (s_hold c0 m0 st0 sh _ _ _ _ _ _ Hx) as [Hh Hs] end.
  repeat sim. destruct (since_flags c0 m0 _ _ Hs) as (_ & -> & _).
  rewrite length_app in Hlen.
  match goal with Hx : is_short ?o = short |- _ => rewrite <- Hx in * end.
  eapply h_push_ex; [exact Hh|by left|done|by rewrite set_stack_ne by (by destruct flag)|].
  intros c2 m2 Hh2 Hctl Hev. apply hwp_ret. split.
  - eexists. eapply rep_ext; [|apply Hh2]. intros r. unfold set_stack.
    destruct (Bool.eqb_spec r (negb flag)); [|done]. destruct (Bool.eqb_spec (negb flag) flag) as [E|]; [|done].
    by destruct flag.
  - eapply since_next; [done..|by apply evolves_keeps].
Qed.

(** Pushing the result computed in a register. *)
Lemma s_result {B} o r v c m H vals x (K : unit -> J B) Q c' m' :
  HoldAt c m H vals x -> r ∈ H -> private c r -> Forall (fun rv => fst rv <> r) vals ->
  Like c c' -> words m' -> mem m' = mem m ->
  regs_but [r; BUXN_JIT_R_TMP; BUXN_JIT_R_MEM_OFFSET] m m' -> regs m' r = v ->
  reg o = r -> val_in (is_short o) v ->
  (length (val_bytes (is_short o) v ++ x) <= 256)%nat ->
  (forall c' m' vals', HoldAt c' m' H vals' (val_bytes (is_short o) v ++ x) -> hwp (K tt) Q c' m') ->
  hwp (bind (buxn_jit_push o) K) Q c' m'.
Proof.
  intros Hh Hr Hpr Hne Hl Hw Hm Hbut Hrv Ho Hv Hlen HK.
  pose proof (s_write c0 m0 st0 c m H vals x r c' m' Hh Hr Hpr Hne Hl Hw Hm Hbut) as Hh'.
  eapply (s_push c0 m0 st0); [exact Hh'|rewrite Ho, Hrv; in_vals|done|done|]. intros c2 m2. apply HK.
Qed.

(** ** Computing *)

Lemma hold_forget c m H vals x : HoldAt c m H vals x -> HoldAt c m H [] x.
Proof. intros [[] Hs]. split; [|done]. split; [done|done|apply Forall_nil_2]. Qed.

Lemma like_short c m H vals x c' : HoldAt c m H vals x -> Like c c' -> buxn_jit_op_flag_2 c' = short.
Proof.
  intros [_ Hs] [Hl _]. destruct (since_flags (vmb := vmb) c0 m0 c m Hs) as (<- & _).
  apply op_flags_eq, ctl_opcode, ctl_frame. unfold shape in Hl. congruence.
Qed.

Lemma h_wrap_around {B} o c m H vals x c1 m1 (K : unit -> J B) Q :
  HoldAt c m H vals x -> Like c c1 -> words m1 ->
  (forall c2, Like c c2 ->
     hwp (K tt) Q c2 (set_reg (reg o)
       (Z.land (regs m1 (reg o)) (if short then 0xffff else 0x00ff)) m1)) ->
  hwp (bind (buxn_jit_wrap_around o) K) Q c1 m1.
Proof.
  intros Hh Hl Hw HK. unfold buxn_jit_wrap_around. apply hwp_assoc, hwp_bind, hwp_gets.
  rewrite (like_short _ _ _ _ _ _ Hh Hl).
  assert (is_Some (compiler_ptr c)) as Hp by (apply (hold_core _ _ _ _ _ _ _ _ Hh)).
  inst ex_and_imm. exact HK.
Qed.

(** [INC] adds in the popped register. *)
Lemma sim_INC c m H a l l1 :
  sh = false ->
  PopAt [short] c m H [] l -> pop1 short l = Some (a, l1) ->
  (length (val_bytes short (size_mask short (a + 1)) ++ below l1) <= 256)%nat ->
  hwp buxn_jit_INC (Ends (val_bytes short (size_mask short (a + 1)) ++ below l1)) c m.
Proof.
  intros Hsh Hp H1 Hlen. unfold buxn_jit_INC. apply hwp_tail_tt. sim.
  eapply (s_pop c0 m0 st0 sh); [exact Hp|exact H1|]. intros o c1 m1 Hs Hv Hp1. popped_all.
  match goal with Hx : HoldAt _ _ _ _ _ |- _ => rename Hx into Hh end.
  destruct (hold_core _ _ _ _ _ _ _ _ Hh) as (Hcp & Hw & Hb & Hregs).
  destruct (Hregs (reg o) a) as [Ea Hop]; [by left|].
  assert (Like c1 c1) as Hl by done. sim. cbn [reg semantics is_short].
  inst ex_add_imm. intros c2 Hl2. hassoc.
  eapply h_wrap_around; [exact Hh|exact Hl2|auto with words|]. cbn [reg]. intros c3 Hl3.
  eapply (s_result _ (reg o) (size_mask short (a + 1)));
    [exact (hold_forget _ _ _ _ _ Hh)|by left| |apply Forall_nil_2|exact Hl3|..];
    cbn [is_short reg]; rewrite ?Hs.
  - destruct Hp1 as [Hp1 _]. rewrite Hsh in Hp1. eapply pops_private; [exact Hp1|by left].
  - auto 12 with words.
  - done.
  - intros q Hq. rewrite !not_elem_of_cons in Hq. destruct Hq as (? & _). by msimp.
  - msimp. rewrite Ea. apply land_mask.
  - done.
  - apply size_mask_in.
  - done.
  - intros. sim.
Qed.

Lemma hold_op c m H vals x r : HoldAt c m H vals x -> r ∈ H -> is_op r.
Proof. intros [[Hr _ _] _] Hin. eapply inv_held_op; [apply Hr|done]. Qed.

(** A result register, for the operands popped so far. *)
Ltac result_reg r :=
  eapply (s_alloc c0 m0 st0); [eassumption|cbn [length] in *; change NUM_OP_REGS with 6%nat; lia|];
  let Hh := fresh "Hh" in intros r ?c ?m Hh ? ?;
  assert (is_op r) by (eapply hold_op; [exact Hh|by left]);
  destruct (hold_core _ _ _ _ _ _ _ _ Hh) as (? & ? & ? & ?).

Lemma sim_arith o f wraps c m H b a l l1 l2 :
  computes o f wraps -> (length H <= 2)%nat ->
  PopAt [short; short] c m H [] l -> pop1 short l = Some (b, l1) -> pop1 short l1 = Some (a, l2) ->
  (length (val_bytes short (size_mask short (f a b)) ++ below l2) <= 256)%nat ->
  hwp (arith_op o f wraps) (Ends (val_bytes short (size_mask short (f a b)) ++ below l2)) c m.
Proof.
  intros Hf HH Hp H1 H2 Hlen. unfold arith_op. apply hwp_tail_tt. sim.
  eapply (s_pop c0 m0 st0 sh); [exact Hp|exact H1|]. intros ob c1 m1 Hsb Hvb Hp1. sim.
  eapply (s_pop c0 m0 st0 sh); [exact Hp1|exact H2|]. intros oa c2 m2 Hsa Hva Hp2. popped_all. sim.
  result_reg r. rename c3 into c3, m3 into m3. sim.
  match goal with Hx : forall r v, _ -> _ |- _ => rename Hx into Hregs end.
  destruct (Hregs (reg oa) a) as [Ea Hopa]; [in_vals|]. destruct (Hregs (reg ob) b) as [Eb Hopb]; [in_vals|].
  destruct (Hf short a b Hva Hvb) as [Hword Hres].
  assert (Like c3 c3) as Hl by done. inst ex_op2. intros c4 Hl4. rewrite Ea, Eb.
  assert (words (set_reg r (sl_alu o a b) m3)) as Hw4 by auto with words. hassoc.
  assert (forall c5 m5, Like c3 c5 -> words m5 -> mem m5 = mem m3 -> regs_but [r] m3 m5 ->
    regs m5 r = size_mask short (f a b) -> hwp (buxn_jit_push (mkOperand (both_const oa ob) (is_short ob)
      (u16 (f (const_value oa) (const_value ob))) r) ;;; ret tt) 
      (Ends (val_bytes short (size_mask short (f a b)) ++ below l2)) c5 m5) as Hend.
  { intros c5 m5 Hl5 Hw5 Hm5 Hbut E5.
    eapply (s_result _ r); [exact Hh|by left|done|done|exact Hl5|done|done| |exact E5|done|..];
      cbn [is_short]; rewrite ?Hsb; [|apply size_mask_in|done|intros; sim].
    intros q Hq. apply Hbut. set_solver. }
  destruct wraps; cbn [when].
  - eapply h_wrap_around; [exact Hh|exact Hl4|done|]. cbn [reg]. intros c5 Hl5. hassoc.
    apply Hend; [done|auto 12 with words|done|regs_list|]. msimp. exact Hres.
  - apply hwp_bind, hwp_ret. apply Hend; [done|done|done|regs_list|]. msimp. exact Hres.
Qed.

Lemma sim_compare (fl : setflag) cc f c m H b a l l1 l2 :
  compares cc f -> (length H <= 2)%nat ->
  PopAt [short; short] c m H [] l -> pop1 short l = Some (b, l1) -> pop1 short l1 = Some (a, l2) ->
  (length ((Z.b2z (f a b)) :: below l2) <= 256)%nat ->
  hwp (compare_op fl cc) (Ends ((Z.b2z (f a b)) :: below l2)) c m.
Proof.
  intros Hf HH Hp H1 H2 Hlen. unfold compare_op. apply hwp_tail_tt. sim.
  eapply (s_pop c0 m0 st0 sh); [exact Hp|exact H1|]. intros ob c1 m1 Hsb Hvb Hp1. sim.
  eapply (s_pop c0 m0 st0 sh); [exact Hp1|exact H2|]. intros oa c2 m2 Hsa Hva Hp2. popped_all. sim.
  result_reg r.
  match goal with Hx : forall r v, _ -> _ |- _ => rename Hx into Hregs end.
  destruct (Hregs (reg oa) a) as [Ea Hopa]; [in_vals|]. destruct (Hregs (reg ob) b) as [Eb Hopb]; [in_vals|].
  assert (Like c3 c3) as Hl by done.
  apply hwp_assoc. eapply (h_lir _ (set_flags a b m3)); [exact Hl|done|intros; cbn; by rewrite Ea, Eb|].
  intros c4 Hl4. apply hwp_assoc.
  eapply (h_lir _ (set_reg r (Z.b2z (f a b)) (set_flags a b m3))); [exact Hl4|done|..].
  { intros B. cbn. rewrite Hf by (by eapply word_val). done. }
  intros c5 Hl5.
  eapply (s_result _ r (Z.b2z (f a b))); [exact Hh|by left|done|done|exact Hl5|..];
    cbn [is_short val_bytes val_in app]; try done.
  - apply words_set; [done|]. apply word_u8. destruct (f a b); cbn; mlia.
  - intros q Hq. rewrite !not_elem_of_cons in Hq. destruct_and! Hq. by msimp.
  - by msimp.
  - destruct (f a b); cbn; mlia.
  - intros. sim.
Qed.

Lemma shift_bits b : is_u8 b ->
  Z.land b 0x0f = b mod 16 /\ Z.shiftr b 4 = b / 16 /\ 0 <= b mod 16 < 16 /\ 0 <= b / 16 < 16.
Proof.
  intros Hb. change 0x0f with (Z.ones 4). rewrite Z.land_ones, Z.shiftr_div_pow2 by lia.
  change (2 ^ 4) with 16. split_and!; mlia.
Qed.

Lemma ex_shift B (m : mach) o r a n : words m -> is_word (regs m n) ->
  exec_one B (LOp2 o (AReg r) (AReg a) (AReg n)) m = Run (set_reg r (sl_alu o (regs m a) (regs m n)) m).
Proof. done. Qed.

Lemma sim_SFT c m H b a l l1 l2 :
  (length H <= 2)%nat ->
  PopAt [false; short] c m H [] l -> pop1 false l = Some (b, l1) -> pop1 short l1 = Some (a, l2) ->
  (length (val_bytes short (size_mask short (shift_spec a b)) ++ below l2) <= 256)%nat ->
  hwp buxn_jit_SFT (Ends (val_bytes short (size_mask short (shift_spec a b)) ++ below l2)) c m.
Proof.
  intros HH Hp H1 H2 Hlen. unfold buxn_jit_SFT. apply hwp_tail_tt. sim. sim.
  destruct (since_flags (vmb := vmb) c0 m0 c m (proj2 Hp)) as (_ & -> & _). sim.
  eapply (s_pop_ex c0 m0 st0 sh); [exact Hp|exact H1|]. intros ob c1 m1 Hsb Hvb Hp1. sim.
  eapply (s_pop c0 m0 st0 sh); [exact Hp1|exact H2|]. intros oa c2 m2 Hsa Hva Hp2. popped_all. sim.
  result_reg r.
  match goal with Hx : forall r v, _ -> _ |- _ => rename Hx into Hregs end.
  destruct (Hregs (reg oa) a) as [Ea Hopa]; [in_vals|]. destruct (Hregs (reg ob) b) as [Eb Hopb]; [in_vals|].
  destruct (shift_bits b Hvb) as (E1 & E2 & Hb1 & Hb2).
  assert (is_word a) as Hwa by (by eapply word_val). assert (is_word (b mod 16)) by (apply word_u16; mlia).
  assert (is_word (b / 16)) by (apply word_u16; mlia).
  pose proof (word_bits_ge) as Hwb.
  match goal with Hx : Forall _ _ |- _ => rename Hx into Hne end.
  assert (reg ob <> r) as Hbr by (rewrite Forall_forall in Hne; apply (Hne (reg ob, b)); in_vals).
  assert (Like c3 c3) as Hl by done. inst ex_and_imm. intros c4 Hl4.
  rewrite Eb, E1.
  inst ex_op2. intros c5 Hl5. msimp. rewrite Ea, sl_lshr by (done || (apply Hwb; lia)).
  inst ex_shr_imm. intros c6 Hl6. msimp. rewrite Eb, E2.
  inst ex_op2. intros c7 Hl7. msimp. rewrite sl_shl by ((apply Hwb; lia) || auto with words).
  hassoc. eapply h_wrap_around; [exact Hh|exact Hl7|auto 12 with words|]. cbn [reg]. intros c8 Hl8. msimp.
  rewrite land_mask. fold (shift_spec a b).
  eapply (s_result _ r (size_mask short (shift_spec a b))); [exact Hh|by left|done|done|exact Hl8|..];
    cbn [is_short]; rewrite ?Hsa; try done.
  - apply words_set; [auto 12 with words|]. eapply word_val, size_mask_in.
  - regs_list.
  - by msimp.
  - apply size_mask_in.
  - intros. sim.
Qed.
End OpcodeSim.
