(* ===== verification/MemSim.v ===== *)
(** * Loads and stores at run time

    [buxn_jit_load] and [buxn_jit_store] access the memory of the virtual
    machine, through the base register; the second byte of a short wraps
    around in the page the address lives in. *)
From S2P Require Import Prelude Lir Hamt Jit StackCache MicroOps Opcodes Uxn Invariant CacheSafety OpcodeSafety Machine StackSim PopSim OperandSim StepSim OpcodeSim.
Local Open Scope jit_scope.

Lemma lor_bytes hi lo : is_u8 hi -> is_u8 lo -> Z.lor (Z.shiftl hi 8) lo = hi * 256 + lo.
Proof.
  intros Hh Hl. pose proof (byte_join hi lo Hh Hl) as (Hu & E1 & E2).
  rewrite <- E1, <- E2 at 1. rewrite Z.lor_comm. rewrite join_halves by done. done.
Qed.

(** The page of an address of that size. *)
Definition page (short_addr : bool) : Z -> Z := size_mask short_addr.

Section MemSim.
Context {Lay : VmLayout} {SL : Sljit} {SP : SljitSpec} {HO : Host} {vmb : Z} {LS : LayoutSpec vmb}.

#[local] Abbreviation base := (base (vmb := vmb)).
#[local] Abbreviation Core := (Core (vmb := vmb)).
#[local] Abbreviation off_stacks := (off_stacks (vmb := vmb)).

(** The memory of the virtual machine. *)
Definition ram (m : mach) (a : Z) : Z := mem m (vmb + off_memory + a).

Lemma ram_bounds x : is_u16 x ->
  0 < off_memory /\ is_word (vmb + off_memory) /\ is_word (vmb + off_memory + x) /\
  off_stacks (vmb + off_memory + x).
Proof.
  intros Hx. destruct (lay_bounds (off_memory, 65536)) as [Hlo Hhi];
    [unfold regions; rewrite !elem_of_cons; auto 10|].
  cbn [fst snd] in *. pose proof lay_vmb. split; [done|]. unfold is_word.
  split; [mlia|]. split; [mlia|]. intros flag Ha. unfold StackSim.base in Ha.
  pose proof (lay_disjoint 0 5 (off_ws, 256) (off_memory, 65536) eq_refl eq_refl ltac:(lia)) as Hd0.
  pose proof (lay_disjoint 1 5 (off_rs, 256) (off_memory, 65536) eq_refl eq_refl ltac:(lia)) as Hd1.
  unfold no_overlap in *. cbn [fst snd] in *. destruct flag; cbn [stack_offset] in Ha; mlia.
Qed.

Lemma ram_u8 m a : bytes m -> is_u8 (ram m a).
Proof. intros Hb. apply Hb. Qed.

Lemma off_stacks_ram m m' : keeps (vmb := vmb) m m' -> forall x, is_u16 x -> ram m' x = ram m x.
Proof. intros Hk x Hx. apply Hk. by apply ram_bounds. Qed.

(** Setting the base register for the memory of the virtual machine. *)
Lemma h_mem_base {B} (k : unit -> J B) Q c m :
  Core c m ->
  (forall c' m', shape c' = shape c -> mem_base c' = off_memory -> Core c' m' ->
     regs m' BUXN_JIT_R_MEM_BASE = vmb + off_memory -> mem m' = mem m ->
     (forall r, r <> BUXN_JIT_R_MEM_BASE -> regs m' r = regs m r) -> hwp (k tt) Q c' m') ->
  hwp (bind (buxn_jit_set_mem_base off_memory) k) Q c m.
Proof.
  intros Hco HK. destruct (ram_bounds 0 ltac:(mlia)) as (Hpos & Hwb & _).
  eapply h_set_mem_base; [exact Hco|done|done|]. intros c1 m1 Hs1 Hb1 Hbase Hw Hr Hm.
  apply HK; try done. split; [rewrite (shape_compiler _ _ Hs1); apply Hco|done| | |].
  - unfold bytes. rewrite Hm. apply Hco.
  - rewrite Hr by done. apply Hco.
  - right. by rewrite Hb1.
Qed.

Section Accesses.
Context (c0 : buxn_jit_ctx_t) (m0 : mach) (st0 : bool -> list Z) (sh : bool).

#[local] Abbreviation short := (buxn_jit_op_flag_2 c0).
#[local] Abbreviation flag := (buxn_jit_op_flag_r c0).
#[local] Abbreviation HoldAt := (HoldAt (vmb := vmb) c0 m0 st0).

(** The end of an access: the registers it may change. *)
Lemma hold_update c m H vals x r c' m' :
  HoldAt c m H vals x -> r ∈ H -> private c r -> Forall (fun rv => fst rv <> r) vals ->
  shape c' = shape c -> Core c' m' -> mem m' = mem m ->
  regs_but [r; BUXN_JIT_R_TMP; BUXN_JIT_R_MEM_OFFSET; BUXN_JIT_R_MEM_BASE] m m' ->
  HoldAt c' m' H ((r, regs m' r) :: vals) x.
Proof.
  intros [Hh Hs] Hr Hpr Hne Hsh Hco Hm Hbut. split.
  - eapply holds_update; [exact Hh|done..|intros; by rewrite Hm|done].
  - eapply since_next; [exact Hs|apply ctl_frame; unfold shape in Hsh; congruence|intros a _; by rewrite Hm].
Qed.

Lemma core_computed c m r c' m' :
  Core c m -> is_op r -> Like c c' -> words m' -> mem m' = mem m ->
  regs_but [r; BUXN_JIT_R_TMP; BUXN_JIT_R_MEM_OFFSET] m m' -> Core c' m'.
Proof.
  intros Hco Hr Hl Hw Hm Hbut. eapply core_like; [exact Hco|done..|exact Hbut| |];
    rewrite !not_elem_of_cons; (split_and!; [apply not_eq_sym, op_ne; done|done..|apply not_elem_of_nil]).
Qed.

(** [buxn_jit_load]: the value at the address in a register. *)
Lemma s_load {B} r addr w c m H vals x (K : _ -> J B) Q :
  HoldAt c m H vals x -> r ∈ H -> private c r -> Forall (fun rv => fst rv <> r) vals ->
  (reg addr, w) ∈ vals ->
  let v := ram_read short (page (is_short addr)) (ram m) (u16 w) in
  (forall o c' m', is_short o = short -> reg o = r -> val_in short v ->
     HoldAt c' m' H ((r, v) :: vals) x -> hwp (K o) Q c' m') ->
  hwp (bind (buxn_jit_load r addr) K) Q c m.
Proof.
  intros Hh Hr Hpr Hne Hin v HK. unfold buxn_jit_load. apply hwp_assoc, hwp_bind, hwp_gets.
  pose proof (since_flags c0 m0 c m (proj2 Hh)) as (-> & _).
  pose proof (hd_rep _ _ _ _ _ _ (proj1 Hh)) as Hrep. pose proof (rp_core _ _ _ _ Hrep) as Hco.
  destruct (hold_core _ _ _ _ _ _ _ _ Hh) as (Hcp & Hw & Hb & Hregs).
  destruct (Hregs (reg addr) w Hin) as [Ew Hopa].
  assert (is_op r) as Hopr by (by eapply hold_op).
  assert (reg addr <> r) as Hra by (rewrite Forall_forall in Hne; by apply (Hne (reg addr, w))).
  apply hwp_assoc. eapply h_mem_base; [exact Hco|]. intros c1 m1 Hs1 Hb1 Hco1 Hbase Hm1 Hr1.
  pose proof (co_words _ _ Hco1) as Hw1. pose proof (co_bytes _ _ Hco1) as Hby1.
  assert (is_Some (compiler_ptr c1)) as Hp1 by apply Hco1.
  assert (regs m1 (reg addr) = w) as Ew1 by (rewrite Hr1; [done|by apply op_ne]).
  assert (forall y, is_u16 y -> is_word (vmb + off_memory + y)) as Hword by (intros y Hy; by apply ram_bounds).
  assert (forall c2 m2, Like c1 c2 -> words m2 -> mem m2 = mem m1 ->
    regs_but [r; BUXN_JIT_R_TMP; BUXN_JIT_R_MEM_OFFSET] m1 m2 -> regs m2 r = v ->
    hwp (bind (ret (mkOperand 0 short 0 r)) K) Q c2 m2) as Hend.
  { intros c2 m2 Hl2 Hw2 Hm2 Hbut Ev. apply hwp_bind, hwp_ret. apply HK; [done|done| |].
    - unfold v, ram_read. destruct short; cbn [val_in]; [|by apply ram_u8].
      by apply byte_join; apply ram_u8.
    - rewrite <- Ev. apply (hold_update c m); try done; [destruct Hl2; congruence| |congruence|].
      + by eapply core_computed.
      + intros q Hq. rewrite Hbut by set_solver. apply Hr1. set_solver. }
  assert (Like c1 c1) as Hl1 by done. pose proof (u16_range w) as Hu.
  inst ex_mov_u16. intros c2 Hl2. rewrite Ew1.
  inst ex_load. { msimp. rewrite Hbase. by apply Hword. } intros c3 Hl3. msimp. rewrite Hbase.
  assert (forall y, mem m1 (vmb + off_memory + y) = ram m y) as Hram by (intros y; unfold ram; by rewrite Hm1).
  assert (forall y, is_word (ram m y)) as Hrw by (intros y; by apply word_u8, ram_u8).
  rewrite Hram. unfold v, ram_read in *. destruct short; cbn [when].
  - inst ex_shl_imm. intros c4 Hl4. inst ex_add_imm. intros c5 Hl5. inst ex_and_imm. intros c6 Hl6.
    msimp. rewrite land_mask. fold (page (is_short addr)).
    assert (is_u16 (page (is_short addr) (u16 w + 1))) as Hu2 by (eapply val_in_u16, size_mask_in).
    pose proof (word_u16 _ Hu2) as Hwu2. inst ex_load. { msimp. rewrite Hbase. by apply Hword. } intros c7 Hl7. msimp. rewrite Hbase, Hram.
    inst ex_or. intros c8 Hl8. msimp.
    pose proof (ram_u8 m (u16 w) Hb) as H1. pose proof (ram_u8 m (page (is_short addr) (u16 w + 1)) Hb) as H2.
    assert (is_u16 (Z.shiftl (ram m (u16 w)) 8)) as Hsh by (rewrite Z.shiftl_mul_pow2 by lia; mlia).
    pose proof (word_u16 _ Hsh). rewrite wrap_u16, lor_bytes by done.
    apply Hend; [done| |done|regs_list|by rewrite regs_set_eq].
    apply words_set; [auto 12 with words|]. apply word_u16, byte_join; done.
  - apply hwp_bind, hwp_ret. apply Hend; [done|auto 12 with words|done|regs_list|by rewrite regs_set_eq].
Qed.

(** Everything but the stacks and the memory. *)
Definition elsewhere (m m' : mach) : Prop :=
  forall a, off_stacks a -> ~ (vmb + off_memory <= a < vmb + off_memory + 65536) -> mem m' a = mem m a.

(** What is known at the end of an opcode that may write to memory. *)
Definition EndsWith (st' : bool -> list Z) (mu : Z -> Z) (u : unit) (c : buxn_jit_ctx_t) (m : mach) : Prop :=
  (exists H, Rep (vmb := vmb) c m H st') /\ ctl c = ctl c0 /\
  (forall y, is_u16 y -> ram m y = mu y) /\ elsewhere m0 m.

Lemma ends_with st' u c m : EndsAt (vmb := vmb) c0 m0 st' u c m -> EndsWith st' (ram m0) u c m.
Proof.
  intros [Hr [Hc Hk]]. split; [done|]. split; [done|]. split; [by apply off_stacks_ram|].
  intros a Ha _. by apply Hk.
Qed.

(** One and two bytes written to the memory. *)
Lemma ram_store m a v y : ram (store8 (vmb + off_memory + a) v m) y = if y =? a then v else ram m y.
Proof.
  unfold ram. cbn. destruct (Z.eqb_spec (vmb + off_memory + y) (vmb + off_memory + a)),
    (Z.eqb_spec y a); try done; lia.
Qed.

Lemma ram_set_reg r v m y : ram (set_reg r v m) y = ram m y.
Proof. done. Qed.

Lemma bytes_store a v m : is_u8 v -> bytes m -> bytes (store8 a v m).
Proof. intros Hv Hm z. cbn. by destruct (z =? a). Qed.

Lemma ram_store_off m a v : is_u16 a ->
  forall z, ~ (vmb + off_memory <= z < vmb + off_memory + 65536) -> mem (store8 (vmb + off_memory + a) v m) z = mem m z.
Proof. intros Ha z Hz. cbn. destruct (Z.eqb_spec z (vmb + off_memory + a)); [mlia|done]. Qed.

Lemma stack_off_ram flag_r x : is_u8 x ->
  ~ (vmb + off_memory <= base flag_r + x < vmb + off_memory + 65536).
Proof.
  intros Hx Hin. destruct (ram_bounds (base flag_r + x - (vmb + off_memory))) as (_ & _ & _ & Hoff); [mlia|].
  apply (Hoff flag_r). mlia.
Qed.

Lemma hold_in c m H vals x r v : HoldAt c m H vals x -> (r, v) ∈ vals -> r ∈ H.
Proof.
  intros [[_ _ Hvl] _] Hin. unfold hold in Hvl. rewrite Forall_forall in Hvl. by destruct (Hvl _ Hin).
Qed.

(** The end of a store: memory changed outside of the stacks only. *)
Lemma s_stored c m H vals x mu c' m' :
  HoldAt c m H vals x -> shape c' = shape c -> Core c' m' ->
  (forall z, ~ (vmb + off_memory <= z < vmb + off_memory + 65536) -> mem m' z = mem m z) ->
  (forall y, is_u16 y -> ram m' y = mu y) ->
  regs_but scratch m m' -> EndsWith (set_stack flag x st0) mu tt c' m'.
Proof.
  intros [Hh Hs] Hsh Hco Hoff Hmu Hbut.
  assert (Holds (vmb := vmb) (current_opcode c0) c' m' H vals (set_stack flag x st0)) as Hh'.
  { eapply holds_scratch; [exact Hh|done|done| |exact Hbut].
    intros flag_r y Hy. apply Hoff. by apply stack_off_ram. }
  split; [exists H; apply Hh'|]. destruct Hs as [Hc Hk]. split.
  - rewrite <- Hc. apply ctl_frame. unfold shape in Hsh. congruence.
  - split; [done|]. intros z Hz Hnot. by rewrite Hoff, Hk.
Qed.

(** [buxn_jit_store]: one byte or two at the address in a register. *)
Lemma s_store addr v w a c m H vals x :
  HoldAt c m H vals x -> (reg addr, w) ∈ vals -> (reg v, a) ∈ vals ->
  val_in (is_short v) a ->
  hwp (buxn_jit_store addr v) (EndsWith (set_stack flag x st0)
    (ram_write (is_short v) (page (is_short addr)) (u16 w) a (ram m0))) c m.
Proof.
  intros Hh Hin Hinv Hv. apply hwp_tail_tt. unfold buxn_jit_store. apply hwp_assoc.
  destruct (hold_core _ _ _ _ _ _ _ _ Hh) as (Hcp & Hw & Hb & Hregs).
  destruct (Hregs (reg addr) w Hin) as [Ew Hopa]. destruct (Hregs (reg v) a Hinv) as [Ea Hopv].
  pose proof (off_stacks_ram m0 m (proj2 (proj2 Hh))) as Hram0.
  pose proof (rp_core _ _ _ _ (hd_rep _ _ _ _ _ _ (proj1 Hh))) as Hco.
  eapply h_mem_base; [exact Hco|]. intros c1 m1 Hs1 Hb1 Hco1 Hbase Hm1 Hr1.
  pose proof (co_words _ _ Hco1) as Hw1. assert (is_Some (compiler_ptr c1)) as Hp1 by apply Hco1.
  pose proof (co_bytes _ _ Hco1) as Hby1.
  assert (regs m1 (reg addr) = w) as Ew1 by (rewrite Hr1; [done|by apply op_ne]).
  assert (regs m1 (reg v) = a) as Ea1 by (rewrite Hr1; [done|by apply op_ne]).
  assert (forall y, is_u16 y -> is_word (vmb + off_memory + y)) as Hword by (intros y Hy; by apply ram_bounds).
  assert (forall y, ram m1 y = ram m y) as Hram1 by (intros y; unfold ram; by rewrite Hm1).
  assert (forall c2 m2, Like c1 c2 -> words m2 -> bytes m2 ->
    (forall z, ~ (vmb + off_memory <= z < vmb + off_memory + 65536) -> mem m2 z = mem m1 z) ->
    (forall y, is_u16 y -> ram m2 y = ram_write (is_short v) (page (is_short addr)) (u16 w) a (ram m1) y) ->
    regs_but [BUXN_JIT_R_TMP; BUXN_JIT_R_MEM_OFFSET] m1 m2 ->
    hwp (ret tt) (EndsWith (set_stack flag x st0)
      (ram_write (is_short v) (page (is_short addr)) (u16 w) a (ram m0))) c2 m2) as Hend.
  { intros c2 m2 [Hsh2 Hb2] Hw2 Hby2 Hoff Hmu Hbut. apply hwp_ret.
    assert (forall q, q <> BUXN_JIT_R_TMP -> q <> BUXN_JIT_R_MEM_OFFSET -> regs m2 q = regs m1 q) as Hq
      by (intros q Hq1 Hq2; apply Hbut; rewrite !not_elem_of_cons; split_and!; [done|done|apply not_elem_of_nil]).
    apply (s_stored c m H vals); try done; [congruence|..].
    - destruct Hco1. split; [by rewrite (shape_compiler _ _ Hsh2)|done|done|by rewrite Hq|by rewrite Hb2, Hq].
    - intros z Hz. by rewrite Hoff, Hm1.
    - intros y Hy. rewrite Hmu by done. unfold ram_write. rewrite Hram1, Hram0 by done. done.
    - intros q Hq'. unfold scratch in Hq'. rewrite !not_elem_of_cons in Hq'. destruct_and! Hq'.
      rewrite Hq, Hr1; done. }
  assert (Like c1 c1) as Hl1 by done. pose proof (u16_range w) as Hu.
  pose proof (word_val _ _ Hv) as Hwa. unfold ram_write in Hend. destruct (is_short v) eqn:Esh; cbn [val_in] in Hv.
  - hassoc. inst ex_mov_u16. intros c2 Hl2. rewrite Ew1.
    inst ex_shr_imm. intros c3 Hl3. msimp. rewrite Ea1.
    inst ex_store. { msimp. rewrite Hbase. by apply Hword. } intros c4 Hl4. msimp. rewrite Hbase.
    inst ex_add_imm. intros c5 Hl5. inst ex_and_imm. intros c6 Hl6. msimp. rewrite land_mask.
    fold (page (is_short addr)).
    assert (is_u16 (page (is_short addr) (u16 w + 1))) as Hu2 by (eapply val_in_u16, size_mask_in).
    pose proof (word_u16 _ Hu2) as Hwu2.
    inst ex_store. { msimp. rewrite Hbase. by apply Hword. } intros c7 Hl7. msimp. rewrite Hbase, Ea1.
    assert (is_u8 (a / 256)) as Hhi by mlia. rewrite Z.shiftr_div_pow2 by lia.
    change (2 ^ 8) with 256. rewrite (u8_id (a / 256)) by done.
    assert (is_word (a / 256)) by (by apply word_u8).
    apply Hend; [done|auto 14 with words|apply bytes_store; [apply u8_range|by apply bytes_set, bytes_set, bytes_store]|..].
    + intros z Hz. by rewrite ram_store_off, mem_set_reg, mem_set_reg, ram_store_off.
    + intros y Hy. by rewrite ram_store, !ram_set_reg, ram_store.
    + regs_list.
  - hassoc. inst ex_mov_u16. intros c2 Hl2. rewrite Ew1.
    inst ex_store. { msimp. rewrite Hbase. by apply Hword. } intros c3 Hl3. msimp. rewrite Hbase, Ea1.
    apply Hend; [done|auto 14 with words|by apply bytes_store; [apply u8_range|]|..].
    + intros z Hz. by rewrite ram_store_off.
    + intros y Hy. by rewrite ram_store, u8_id.
    + regs_list.
Qed.

(** ** The handlers *)

#[local] Abbreviation PopAt := (PopAt (vmb := vmb) c0 m0 st0 sh).
#[local] Abbreviation Ends := (Ends (vmb := vmb) c0 m0 st0).
#[local] Abbreviation below := (below c0 st0).

(** The address of [LDR] and [STR]. *)
Definition rel_addr (a : Z) : Z := u16 (pc c0 + s8 a).

Lemma u16_add_wrap x y : u16 (wrap (wrap x + y)) = u16 (y + x).
Proof.
  rewrite u16_wrap. transitivity (u16 (u16 (wrap x) + y)); [unfold u16; by rewrite Zplus_mod_idemp_l|].
  rewrite u16_wrap. unfold u16. rewrite Zplus_mod_idemp_l. f_equal. lia.
Qed.

Lemma hold_sublist c m H vals vals' x : vals' ⊆ vals -> HoldAt c m H vals x -> HoldAt c m H vals' x.
Proof.
  intros Hsub [[] Hs]. split; [|done]. split; [done|done|]. unfold hold in *.
  rewrite Forall_forall in *. auto.
Qed.

Lemma s_relative {B} o a c m H vals vals' x (K : _ -> J B) Q :
  HoldAt c m H vals x -> is_u16 (pc c0) -> private c (reg o) -> (reg o, a) ∈ vals ->
  vals' ⊆ vals -> Forall (fun rv => fst rv <> reg o) vals' ->
  (forall c' m' w, u16 w = rel_addr a -> private c' (reg o) ->
     HoldAt c' m' H ((reg o, w) :: vals') x -> hwp (K (set_is_short true o)) Q c' m') ->
  hwp (bind (relative_addr o) K) Q c m.
Proof.
  intros Hh Hpc Hpr Hin Hsub Hne HK. unfold relative_addr. apply hwp_assoc, hwp_bind, hwp_gets.
  assert (pc c = pc c0) as -> by (pose proof (proj1 (proj2 Hh)) as Hc; unfold ctl in Hc; congruence).
  destruct (hold_core _ _ _ _ _ _ _ _ Hh) as (Hcp & Hw & Hb & Hregs).
  destruct (Hregs (reg o) a Hin) as [Ea Hop]. pose proof (hold_in _ _ _ _ _ _ _ Hh Hin) as HoH.
  pose proof (hold_sublist _ _ _ _ _ _ Hsub Hh) as Hh'.
  assert (Like c c) as Hl by done. pose proof (word_u16 _ Hpc) as Hwpc.
  inst ex_mov_s8. intros c1 Hl1. inst ex_add_imm. intros c2 Hl2. msimp. rewrite Ea.
  apply hwp_bind, hwp_ret.
  apply (HK _ _ (wrap (wrap (s8 a) + pc c0))); [apply u16_add_wrap|..].
  - intros q y. assert (get_cache q c2 = get_cache q c) as ->; [|apply Hpr].
    destruct Hl2 as [Hs2 _]. unfold shape in Hs2. destruct q; cbn [get_cache]; congruence.
  - set (m2 := set_reg _ (wrap (wrap _ + _)) _).
    rewrite <- (regs_set_eq (reg o) (wrap (wrap (s8 a) + pc c0)) (set_reg (reg o) (wrap (s8 a)) m)).
    fold m2. eapply (s_write c0 m0 st0); [exact Hh'|done|done|done|exact Hl2|unfold m2; auto 12 with words|done|].
    intros q Hq. rewrite !not_elem_of_cons in Hq. destruct Hq as (? & _). unfold m2. by msimp.
Qed.

(** From the address on the stack to the address in the memory. *)
Lemma sim_load_at addr w c m H vals x :
  HoldAt c m H vals x -> (length H < NUM_OP_REGS)%nat -> (reg addr, w) ∈ vals ->
  let v := ram_read short (page (is_short addr)) (ram m0) (u16 w) in
  (length (val_bytes short v ++ x) <= 256)%nat ->
  hwp (r <-- buxn_jit_alloc_reg ;; v <-- buxn_jit_load r addr ;; buxn_jit_push v)
    (Ends (val_bytes short v ++ x)) c m.
Proof.
  intros Hh HH Hin v Hlen. eapply (s_alloc c0 m0 st0); [exact Hh|exact HH|]. intros r c1 m1 Hh1 Hpr Hne.
  eapply s_load; [exact Hh1|by left|done|done|exact Hin|]. intros o c2 m2 Hso Ho Hv Hh2.
  assert (ram_read short (page (is_short addr)) (ram m1) (u16 w) = v) as E.
  { pose proof (off_stacks_ram m0 m1 (proj2 (proj2 Hh1))) as Hram. unfold v, ram_read.
    rewrite !Hram by (apply u16_range || (eapply val_in_u16, size_mask_in)). done. }
  rewrite E in *. apply hwp_tail_tt. eapply (s_push c0 m0 st0); [exact Hh2|rewrite Ho; by left|by rewrite Hso|by rewrite Hso|].
  rewrite Hso. intros c3 m3 Hh3. sim.
Qed.

Lemma sim_LDZ c m H a l l1 :
  PopAt [false] c m H [] l -> pop1 false l = Some (a, l1) -> (length H <= 2)%nat ->
  (length (val_bytes short (ram_read short u8 (ram m0) a) ++ below l1) <= 256)%nat ->
  hwp buxn_jit_LDZ (Ends (val_bytes short (ram_read short u8 (ram m0) a) ++ below l1)) c m.
Proof.
  intros Hp H1 HH Hlen. unfold buxn_jit_LDZ. sim.
  destruct (since_flags (vmb := vmb) c0 m0 c m (proj2 Hp)) as (_ & -> & _).
  eapply (s_pop_ex c0 m0 st0 sh); [exact Hp|exact H1|]. intros o c1 m1 Hso Hv Hp1. popped_all.
  assert (u16 a = a) as Ea by (apply u16_id; cbn [val_in] in Hv; mlia).
  eapply hwp_mono; [eapply (sim_load_at o a); [eassumption|room|by left|]|]; rewrite Hso, Ea; done.
Qed.

Lemma sim_LDA c m H a l l1 :
  PopAt [true] c m H [] l -> pop1 true l = Some (a, l1) -> (length H <= 2)%nat ->
  (length (val_bytes short (ram_read short u16 (ram m0) a) ++ below l1) <= 256)%nat ->
  hwp buxn_jit_LDA (Ends (val_bytes short (ram_read short u16 (ram m0) a) ++ below l1)) c m.
Proof.
  intros Hp H1 HH Hlen. unfold buxn_jit_LDA. sim.
  destruct (since_flags (vmb := vmb) c0 m0 c m (proj2 Hp)) as (_ & -> & _).
  eapply (s_pop_ex c0 m0 st0 sh); [exact Hp|exact H1|]. intros o c1 m1 Hso Hv Hp1. popped_all.
  assert (u16 a = a) as Ea by (by apply u16_id).
  eapply hwp_mono; [eapply (sim_load_at o a); [eassumption|room|by left|]|]; rewrite Hso, Ea; done.
Qed.

(** Relative addresses are computed in the popped register. *)
Lemma sim_LDR c m H a l l1 :
  sh = false -> is_u16 (pc c0) -> PopAt [false] c m H [] l -> pop1 false l = Some (a, l1) -> (length H <= 2)%nat ->
  (length (val_bytes short (ram_read short u16 (ram m0) (rel_addr a)) ++ below l1) <= 256)%nat ->
  hwp buxn_jit_LDR (Ends (val_bytes short (ram_read short u16 (ram m0) (rel_addr a)) ++ below l1)) c m.
Proof.
  intros Hsh Hpc Hp H1 HH Hlen. unfold buxn_jit_LDR. sim.
  destruct (since_flags (vmb := vmb) c0 m0 c m (proj2 Hp)) as (_ & -> & _).
  eapply (s_pop_ex c0 m0 st0 sh); [exact Hp|exact H1|]. intros o c1 m1 Hso Hv Hp1. popped_all.
  eapply (s_relative o a _ _ _ _ []); [eassumption|done| |by left|set_solver|apply Forall_nil_2|].
  { destruct Hp1 as [Hp1 _]. rewrite Hsh in Hp1. eapply pops_private; [exact Hp1|by left]. }
  intros c2 m2 w Ew _ Hh2.
  eapply hwp_mono; [eapply (sim_load_at _ w); [exact Hh2|room|by left|]|]; cbn [is_short set_is_short];
    rewrite Ew; done.
Qed.

Lemma sim_STZ c m H a b l l1 l2 :
  PopAt [false; short] c m H [] l -> pop1 false l = Some (a, l1) -> pop1 short l1 = Some (b, l2) ->
  hwp buxn_jit_STZ (EndsWith (set_stack flag (below l2) st0) (ram_write short u8 a b (ram m0))) c m.
Proof.
  intros Hp H1 H2. unfold buxn_jit_STZ. sim.
  destruct (since_flags (vmb := vmb) c0 m0 c m (proj2 Hp)) as (_ & -> & _).
  eapply (s_pop_ex c0 m0 st0 sh); [exact Hp|exact H1|]. intros o c1 m1 Hso Hv Hp1.
  eapply (s_pop c0 m0 st0 sh); [exact Hp1|exact H2|]. intros v c2 m2 Hsv Hv2 Hp2.
  apply (s_hold c0 m0 st0 sh) in Hp2 as Hh.
  assert (u16 a = a) as Ea by (apply u16_id; cbn [val_in] in Hv; mlia).
  eapply hwp_mono; [eapply (s_store o v a b); [exact Hh|in_vals|in_vals|by rewrite Hsv]|].
  intros u c' m'. by rewrite Hso, Hsv, Ea.
Qed.

Lemma sim_STA c m H a b l l1 l2 :
  PopAt [true; short] c m H [] l -> pop1 true l = Some (a, l1) -> pop1 short l1 = Some (b, l2) ->
  hwp buxn_jit_STA (EndsWith (set_stack flag (below l2) st0) (ram_write short u16 a b (ram m0))) c m.
Proof.
  intros Hp H1 H2. unfold buxn_jit_STA. sim.
  destruct (since_flags (vmb := vmb) c0 m0 c m (proj2 Hp)) as (_ & -> & _).
  eapply (s_pop_ex c0 m0 st0 sh); [exact Hp|exact H1|]. intros o c1 m1 Hso Hv Hp1.
  eapply (s_pop c0 m0 st0 sh); [exact Hp1|exact H2|]. intros v c2 m2 Hsv Hv2 Hp2.
  apply (s_hold c0 m0 st0 sh) in Hp2 as Hh.
  assert (u16 a = a) as Ea by (by apply u16_id).
  eapply hwp_mono; [eapply (s_store o v a b); [exact Hh|in_vals|in_vals|by rewrite Hsv]|].
  intros u c' m'. by rewrite Hso, Hsv, Ea.
Qed.

Lemma sim_STR c m H a b l l1 l2 :
  sh = false -> is_u16 (pc c0) -> PopAt [false; short] c m H [] l -> pop1 false l = Some (a, l1) -> pop1 short l1 = Some (b, l2) ->
  hwp buxn_jit_STR
    (EndsWith (set_stack flag (below l2) st0) (ram_write short u16 (rel_addr a) b (ram m0))) c m.
Proof.
  intros Hsh Hpc Hp H1 H2. unfold buxn_jit_STR. sim.
  destruct (since_flags (vmb := vmb) c0 m0 c m (proj2 Hp)) as (_ & -> & _).
  eapply (s_pop_ex c0 m0 st0 sh); [exact Hp|exact H1|]. intros o c1 m1 Hso Hv Hp1.
  eapply (s_pop c0 m0 st0 sh); [exact Hp1|exact H2|]. intros v c2 m2 Hsv Hv2 Hp2.
  apply (s_hold c0 m0 st0 sh) in Hp2 as Hh. destruct Hp2 as [Hp2 _]. rewrite Hsh in Hp2.
  assert (private c2 (reg o)) as Hpr by (eapply pops_private; [exact Hp2|by right; left]).
  assert (reg v <> reg o) as Hne.
  { pose proof (ps_nodup _ _ _ _ _ _ _ _ _ _ Hp2) as Hnd. cbn in Hnd.
    apply NoDup_cons in Hnd as [Hnd _]. intros E. apply Hnd. rewrite E. by left. }
  eapply (s_relative o a _ _ _ _ [(reg v, b)]);
    [exact Hh|done|exact Hpr|in_vals|set_solver|by apply Forall_singleton|].
  intros c3 m3 w Ew Hpr3 Hh3.
  eapply hwp_mono; [eapply (s_store (set_is_short true o) v w b);
    [exact Hh3|in_vals|in_vals|by rewrite Hsv]|].
  intros u c' m'. cbn [is_short set_is_short]. by rewrite Hsv, Ew.
Qed.
End Accesses.
End MemSim.
