(* ===== verification/DivSim.v ===== *)
(** * Division and literals at run time

    [buxn_jit_DIV] is the one handler with jumps of its own: the code after
    the comparison divides, or stores zero.  [buxn_jit_LIT] loads its operand
    from the memory when the code runs. *)
From S2P Require Import Prelude Lir Hamt Jit StackCache MicroOps Opcodes Uxn Invariant CacheSafety OpcodeSafety Machine StackSim PopSim OperandSim StepSim OpcodeSim MemSim.
Local Open Scope jit_scope.

(** ** Emission with jumps *)

Lemma wp_compiler {A B} (f : compiler -> A * compiler) (K : A -> J B) Q c0 c :
  Like c0 c -> is_Some (compiler_ptr c0) ->
  (forall c', Like c0 c' -> comp c' = snd (f (comp c)) -> wp (K (fst (f (comp c)))) Q c') ->
  wp (bind (with_compiler f) K) Q c.
Proof.
  intros Hl Hp HK. destruct (like_compiler _ _ Hl Hp) as [x Hx]. apply wp_bind.
  unfold wp at 1, with_compiler. rewrite Hx. destruct (f (comp c)) as [a k] eqn:E. cbn in HK.
  apply HK; [|done]. destruct Hl. split; done.
Qed.

Section DivSim.
Context {Lay : VmLayout} {SL : Sljit} {SP : SljitSpec} {HO : Host} {vmb : Z} {LS : LayoutSpec vmb}.

(** From a sequence of emissions to the rest of the handler. *)
Lemma hwp_resume {B} (K : J B) Q c m c' m' :
  runs (comp c) (comp c') m m' -> bound_ok (comp c') -> hwp K Q c' m' ->
  wp K (fun a c2 => exists m2, (runs (comp c) (comp c2) m m2 /\ bound_ok (comp c2)) /\ Q a c2 m2) c'.
Proof.
  intros Hr Hb HK. eapply wp_mono; [by apply HK|]. intros a c2 (m2 & [Hr2 Hb2] & HQ).
  exists m2. split; [split; [by eapply runs_trans|done]|done].
Qed.

(** The code of the division, as a log. *)
Definition div_log (j0 j1 l0 : nat) (r a b : sreg) : list lir :=
  [LCmp j0 SLJIT_EQUAL false (AReg b) (AImm 0);
   LOp1 SLJIT_MOV BUXN_JIT_TMP (AReg (SR 0)); LOp1 SLJIT_MOV (AReg (SR 0)) (AReg a);
   LOp1 SLJIT_MOV (AReg (SR 1)) (AReg b); LOp0 SLJIT_DIV_UW;
   LOp1 SLJIT_MOV (AReg r) (AReg (SR 0)); LOp1 SLJIT_MOV (AReg (SR 0)) BUXN_JIT_TMP;
   LJump j1 false None; LLabel l0; LOp1 SLJIT_MOV (AReg r) (AImm 0); LLabel (S l0)].

(** The machine after it. *)
Definition div_mach (r a b : sreg) (m : mach) : mach :=
  if regs m b =? 0 then set_reg r 0 m
  else set_reg (SR 0) (regs m (SR 0)) (set_reg r (regs m a / regs m b)
    (set_reg (SR 0) (regs m a / regs m b) (set_reg (SR 1) (regs m b)
      (set_reg (SR 0) (regs m a) (set_reg BUXN_JIT_R_TMP (regs m (SR 0)) m))))).

Lemma word_div x y : is_word x -> is_word y -> y <> 0 -> is_word (x / y).
Proof.
  unfold is_word. intros [? ?] [? ?] ?. split; [apply Z.div_pos; lia|].
  apply Z.div_lt_upper_bound; nia.
Qed.

Lemma exec_div B j0 j1 l0 r a b m :
  words m -> is_op r -> is_op a -> is_op b -> B !! j0 = Some l0 -> B !! j1 = Some (S l0) ->
  exec B (div_log j0 j1 l0 r a b) (Run m) = Run (div_mach r a b m).
Proof.
  intros Hw Hr Ha Hb H0 H1. unfold exec, div_log, div_mach, BUXN_JIT_TMP. cbn [fold_left exec_step].
  assert (is_word 0) as Hz by (apply word_u8; mlia).
  assert (exec_one B (LCmp j0 SLJIT_EQUAL false (AReg b) (AImm 0)) m =
    if regs m b =? 0 then Skip l0 m else Run m) as ->.
  { cbn. rewrite wrap_id, sl_equal by (done || apply Hw). by rewrite H0. }
  destruct (Z.eqb_spec (regs m b) 0) as [E|E]; cbn [exec_step].
  - rewrite decide_True by done. cbn [exec_step]. rewrite ex_mov_imm by (done || mlia). done.
  - assert (is_word (regs m a / regs m b)) by (apply word_div; [apply Hw..|done]).
    rewrite ex_mov by done. cbn [exec_step]. rewrite ex_mov by auto with words. cbn [exec_step]. msimp.
    rewrite ex_mov by auto with words. cbn [exec_step]. msimp.
    set (m1 := set_reg (SR 1) _ _).
    assert (exec_one B (LOp0 SLJIT_DIV_UW) m1 = Run (set_reg (SR 0) (regs m a / regs m b) m1)) as ->.
    { cbn [exec_one]. do 2 f_equal. unfold m1. msimp. apply sl_div; [apply Hw..|done]. }
    cbn [exec_step]. unfold m1. rewrite ex_mov by auto 12 with words. cbn [exec_step]. msimp.
    rewrite ex_mov by auto 12 with words. cbn [exec_step exec_one jump_to]. rewrite H1. msimp.
    cbn [exec_step]. rewrite decide_False by lia. cbn [exec_step]. by rewrite decide_True by done.
Qed.

(** What the handler does to the compiler. *)
Definition div_compiler (r a b : sreg) (k : compiler) : compiler :=
  let j := next_jump k in let l := next_label k in
  mkCompiler (code k ++ div_log j (S j) l r a b) (S (S l)) (S (S j))
    (<[S j := S l]> (<[j := l]> (binds k))).

Lemma runs_div r a b k m :
  bound_ok k -> words m -> is_op r -> is_op a -> is_op b ->
  runs k (div_compiler r a b k) m (div_mach r a b m) /\ bound_ok (div_compiler r a b k).
Proof.
  intros Hk Hw Hr Ha Hb.
  assert (forall j, (next_jump k <= j)%nat -> binds k !! j = None) as Hfresh.
  { intros j Hj. destruct (binds k !! j) as [l|] eqn:E; [|done]. apply Hk in E. lia. }
  assert (<[next_jump k := next_label k]> (binds k) !! S (next_jump k) = None) as Hfresh2
    by (rewrite lookup_insert_ne by lia; apply Hfresh; lia).
  split; [split|]; cbn [div_compiler binds code next_jump].
  - etrans; [by apply insert_subseteq, Hfresh|by apply insert_subseteq].
  - eexists. split; [done|]. intros B HB. apply exec_div; try done;
      (eapply lookup_weaken; [|exact HB]).
    + rewrite lookup_insert_ne by lia. apply lookup_insert_eq.
    + apply lookup_insert_eq.
  - intros j l. cbn. rewrite !lookup_insert_Some. intros [[<- _]|[_ [[<- _]|[_ E]]]]; [lia..|].
    apply Hk in E. lia.
Qed.

Lemma h_div {B} r a b (K : J B) Q c m :
  is_Some (compiler_ptr c) -> words m -> is_op r -> is_op a -> is_op b ->
  (forall c', Like c c' -> hwp K Q c' (div_mach r a b m)) ->
  hwp (set_zero <-- sljit_emit_cmp SLJIT_EQUAL false (AReg b) (AImm 0) ;;
       sljit_emit_op1 SLJIT_MOV BUXN_JIT_TMP (AReg (SR 0)) ;;;
       sljit_emit_op1 SLJIT_MOV (AReg (SR 0)) (AReg a) ;;;
       sljit_emit_op1 SLJIT_MOV (AReg (SR 1)) (AReg b) ;;;
       emit_lir (LOp0 SLJIT_DIV_UW) ;;;
       sljit_emit_op1 SLJIT_MOV (AReg r) (AReg (SR 0)) ;;;
       sljit_emit_op1 SLJIT_MOV (AReg (SR 0)) BUXN_JIT_TMP ;;;
       end_ <-- sljit_emit_jump false None ;;
       set_label_here set_zero ;;;
       sljit_emit_op1 SLJIT_MOV (AReg r) (AImm 0) ;;;
       set_label_here end_ ;;; K) Q c m.
Proof.
  intros Hp Hw Hr Ha Hb HK H0. assert (Like c c) as Hl by done.
  unfold sljit_emit_cmp, sljit_emit_op1, emit_lir, sljit_emit_jump, set_label_here, sljit_emit_label, set_label.
  do 8 (eapply wp_compiler; [eassumption|done|]; clear Hl; intros ?c Hl ?E).
  do 2 (apply wp_assoc; eapply wp_compiler; [eassumption|done|]; clear Hl; intros ?c Hl ?E;
        eapply wp_compiler; [eassumption|done|]; clear Hl; intros ?c Hl ?E;
        try (eapply wp_compiler; [eassumption|done|]; clear Hl; intros ?c Hl ?E)).
  assert (comp c12 = div_compiler r a b (comp c)) as Ek.
  { repeat match goal with Hx : comp ?x = _ |- context [comp ?x] => rewrite Hx; cbn end.
    unfold div_compiler, div_log. by rewrite <- !app_assoc. }
  eapply hwp_resume; [|..|by apply HK]; rewrite Ek; by apply (runs_div r a b (comp c) m).
Qed.

Lemma div_mach_regs r a b m : is_op r ->
  regs_but [r; BUXN_JIT_R_TMP; BUXN_JIT_R_MEM_OFFSET] m (div_mach r a b m).
Proof.
  intros Hr q Hq. rewrite !not_elem_of_cons in Hq. destruct Hq as (Hqr & Hqt & Hqo & _).
  unfold div_mach. destruct (regs m b =? 0); [by msimp|].
  destruct (decide (q = SR 0)) as [->|Hq0]; [by msimp|].
  rewrite !regs_set_ne by done. done.
Qed.

Lemma div_mach_res r a b m : is_op r ->
  regs (div_mach r a b m) r = if regs m b =? 0 then 0 else regs m a / regs m b.
Proof. intros Hr. unfold div_mach. destruct (regs m b =? 0); by msimp. Qed.

Lemma div_mach_words r a b m : words m -> words (div_mach r a b m).
Proof.
  intros Hw. unfold div_mach. destruct (Z.eqb_spec (regs m b) 0).
  - apply words_set; [done|]. apply word_u8. mlia.
  - assert (is_word (regs m a / regs m b)) by (apply word_div; [apply Hw..|done]). auto 14 with words.
Qed.

Lemma div_mach_mem r a b m : mem (div_mach r a b m) = mem m.
Proof. unfold div_mach. by destruct (regs m b =? 0). Qed.

Lemma div_in short a b : val_in short a -> val_in short b -> val_in short (if b =? 0 then 0 else a / b).
Proof.
  rewrite !val_in_pow. intros Ha Hb. destruct (Z.eqb_spec b 0); [lia|].
  split; [apply Z.div_pos; lia|]. apply Z.div_lt_upper_bound; nia.
Qed.

Context (c0 : buxn_jit_ctx_t) (m0 : mach) (st0 : bool -> list Z).

#[local] Abbreviation short := (buxn_jit_op_flag_2 c0).
#[local] Abbreviation flag := (buxn_jit_op_flag_r c0).
#[local] Abbreviation HoldAt := (HoldAt (vmb := vmb) c0 m0 st0).
#[local] Abbreviation Ends := (Ends (vmb := vmb) c0 m0 st0).
#[local] Abbreviation below := (below c0 st0).
#[local] Abbreviation ram := (ram (vmb := vmb)).

Lemma sim_DIV sh c m H a b l l1 l2 :
  (length H <= 2)%nat -> PopAt (vmb := vmb) c0 m0 st0 sh [short; short] c m H [] l ->
  pop1 short l = Some (b, l1) -> pop1 short l1 = Some (a, l2) ->
  let v := if b =? 0 then 0 else a / b in
  (length (val_bytes short v ++ below l2) <= 256)%nat ->
  hwp buxn_jit_DIV (Ends (val_bytes short v ++ below l2)) c m.
Proof.
  intros HH Hp H1 H2 v Hlen. unfold buxn_jit_DIV.
  eapply (s_pop c0 m0 st0 sh); [exact Hp|exact H1|]. intros ob c1 m1 Hsb Hvb Hp1.
  eapply (s_pop c0 m0 st0 sh); [exact Hp1|exact H2|]. intros oa c2 m2 Hsa Hva Hp2. popped_all.
  eapply (s_alloc c0 m0 st0); [eassumption|room|]. intros r c3 m3 Hh Hpr Hne.
  assert (is_op r) as Hopr by (eapply hold_op; [exact Hh|by left]).
  destruct (hold_core _ _ _ _ _ _ _ _ Hh) as (Hcp & Hw & Hb & Hregs).
  destruct (Hregs (reg oa) a) as [Ea Hopa]; [in_vals|]. destruct (Hregs (reg ob) b) as [Eb Hopb]; [in_vals|].
  cbv zeta. apply h_div; [done..|]. intros c4 Hl4. apply hwp_tail_tt.
  pose proof (div_mach_res r (reg oa) (reg ob) m3 Hopr) as Ev. rewrite Ea, Eb in Ev.
  eapply (s_result _ _ _ _ r v); [exact Hh|by left|done|done|exact Hl4|by apply div_mach_words
    |apply div_mach_mem|by apply div_mach_regs|exact Ev|done|..]; cbn [is_short]; rewrite ?Hsb.
  - by apply div_in.
  - done.
  - intros. sim.
Qed.

(** ** Literals *)

Lemma ex_load_u16 B m r :
  is_word (regs m BUXN_JIT_R_MEM_BASE + regs m BUXN_JIT_R_MEM_OFFSET) ->
  is_word (regs m BUXN_JIT_R_MEM_BASE + regs m BUXN_JIT_R_MEM_OFFSET + 1) -> bytes m ->
  exec_one B (LMemU16 r BUXN_JIT_MEM) m =
  Run (set_reg r (if little_endian then mem m (regs m BUXN_JIT_R_MEM_BASE + regs m BUXN_JIT_R_MEM_OFFSET)
         + 2 ^ 8 * mem m (regs m BUXN_JIT_R_MEM_BASE + regs m BUXN_JIT_R_MEM_OFFSET + 1)
       else 2 ^ 8 * mem m (regs m BUXN_JIT_R_MEM_BASE + regs m BUXN_JIT_R_MEM_OFFSET)
         + mem m (regs m BUXN_JIT_R_MEM_BASE + regs m BUXN_JIT_R_MEM_OFFSET + 1)) m).
Proof.
  intros Hw Hw1 Hb. cbn. rewrite (wrap_id (regs m (SR 0) + regs m (SR 1))) by done.
  rewrite wrap_id by done. by rewrite sl_load.
Qed.

Lemma ex_rev B m r :
  is_u16 (regs m r) ->
  exec_one B (LOp1 SLJIT_REV_U16 (AReg r) (AReg r)) m =
  Run (set_reg r ((regs m r mod 2 ^ 8) * 2 ^ 8 + regs m r / 2 ^ 8) m).
Proof. intros Hu. cbn. by rewrite sl_rev_u16. Qed.

Lemma rev_bytes x y : is_u8 x -> is_u8 y ->
  (x + 2 ^ 8 * y) mod 2 ^ 8 * 2 ^ 8 + (x + 2 ^ 8 * y) / 2 ^ 8 = x * 256 + y.
Proof. intros. mlia. Qed.

(** The operand of a literal, loaded when the code runs. *)
Lemma s_immediate {B} c m H x (K : _ -> J B) Q :
  HoldAt c m H [] x -> is_u16 (pc c0) -> (length H < NUM_OP_REGS)%nat ->
  let v := ram_read short u16 (ram m0) (pc c0) in
  (forall o c' m', is_short o = short -> val_in short v ->
     HoldAt c' m' (reg o :: H) [(reg o, v)] x ->
     hwp (K o) Q (set_pc (fun p => u16 (p + (if short then 2 else 1))) c') m') ->
  hwp (bind (buxn_jit_immediate short) K) Q c m.
Proof.
  intros Hh0 Hpc HH v HK. unfold buxn_jit_immediate. apply hwp_assoc.
  eapply (s_alloc c0 m0 st0); [exact Hh0|exact HH|]. intros r c1 m1 Hh Hpr _.
  apply hwp_assoc, hwp_bind, hwp_gets.
  assert (pc c1 = pc c0) as -> by (pose proof (proj1 (proj2 Hh)) as Hc; unfold ctl in Hc; congruence).
  destruct (hold_core _ _ _ _ _ _ _ _ Hh) as (Hcp & Hw & Hb & _).
  assert (is_op r) as Hopr by (eapply hold_op; [exact Hh|by left]).
  pose proof (rp_core _ _ _ _ (hd_rep _ _ _ _ _ _ (proj1 Hh))) as Hco.
  pose proof (off_stacks_ram m0 m1 (proj2 (proj2 Hh))) as Hram0.
  assert (forall y, is_u16 y -> is_word (vmb + off_memory + y)) as Hword by (intros y Hy; by apply ram_bounds).
  assert (is_u16 (u16 (pc c0 + 1))) as Hpc1 by apply u16_range. pose proof (word_u16 _ Hpc) as Hwpc.
  assert (forall y, is_u16 y -> is_u8 (ram m0 y)) as Hbyte
    by (intros y Hy; rewrite <- Hram0 by done; by apply ram_u8).
  assert (forall y, is_u16 y -> is_word (ram m0 y)) as Hbw by (intros y Hy; by apply word_u8, Hbyte).
  assert (forall c2 m2, shape c2 = shape c1 -> Core (vmb := vmb) c2 m2 -> mem m2 = mem m1 ->
    (forall q, q <> BUXN_JIT_R_MEM_BASE -> regs m2 q = regs m1 q) ->
    forall c3 m3, Like c2 c3 -> words m3 -> mem m3 = mem m2 ->
    regs_but [r; BUXN_JIT_R_TMP; BUXN_JIT_R_MEM_OFFSET] m2 m3 -> regs m3 r = v ->
    forall k, hwp (bind (advance_pc (if short then 2 else 1) ;;;
      ret (mkOperand BUXN_JIT_SEM_CONST short k r)) K) Q c3 m3) as Hend.
  { intros c2 m2 Hs2 Hco2 Hm2 Hr2 c3 m3 Hl3 Hw3 Hm3 Hbut Ev k.
    apply hwp_assoc, hwp_bind, hwp_modify; [done|]. apply hwp_bind, hwp_ret.
    apply HK; [done| |].
    - unfold v, ram_read. destruct short; cbn [val_in]; [apply byte_join|]; by apply Hbyte.
    - cbn [reg]. rewrite <- Ev.
      eapply (hold_update c0 m0 st0); [exact Hh|by left|done|done| | |congruence|].
      + destruct Hl3. congruence.
      + by eapply core_computed.
      + intros q Hq. rewrite Hbut by set_solver. apply Hr2. set_solver. }
  destruct short.
  - apply hwp_assoc, hwp_bind, hwp_gets, hwp_assoc, hwp_bind, hwp_gets, hwp_assoc.
    eapply h_mem_base; [exact Hco|]. intros c2 m2 Hs2 Hb2 Hco2 Hbase Hm2 Hr2.
    assert (is_Some (compiler_ptr c2)) as Hp2 by apply Hco2. pose proof (co_words _ _ Hco2) as Hw2.
    assert (Like c2 c2) as Hl2 by done. pose proof (co_bytes _ _ Hco2) as Hby2.
    assert (forall y, is_u16 y -> mem m2 (vmb + off_memory + y) = ram m0 y) as Hram
      by (intros y Hy; rewrite <- Hram0 by done; unfold MemSim.ram; by rewrite Hm2).
    destruct (Z.ltb_spec (pc c0) 0xffff) as [Hlt|Hge].
    + assert (u16 (pc c0 + 1) = pc c0 + 1) as E1 by (apply u16_id; mlia).
      inst ex_mov_u16_imm. intros c3 Hl3. rewrite u16_id by done.
      hassoc. eapply h_lir; [exact Hl3|done|intros; apply ex_load_u16|].
      { msimp. rewrite Hbase. by apply Hword. }
      { msimp. rewrite Hbase, <- Z.add_assoc. apply Hword. rewrite <- E1. done. }
      { by apply bytes_set. }
      intros c4 Hl4. msimp. rewrite Hbase, <- (Z.add_assoc (vmb + off_memory)).
      rewrite !Hram by (done || rewrite <- E1; done). unfold v, ram_read in Hend. rewrite E1 in Hend.
      pose proof (Hbyte _ Hpc) as Hx. rewrite E1 in Hpc1. pose proof (Hbyte _ Hpc1) as Hy.
      destruct (byte_join _ _ Hx Hy) as (Hj & _). apply word_u16 in Hj.
      destruct little_endian; cbn [when].
      * hassoc. eapply h_lir; [exact Hl4|done|intros; apply ex_rev|].
        { msimp. mlia. }
        intros c5 Hl5. msimp. rewrite rev_bytes by done. unfold sljit_emit_op1.
        apply (Hend c2 m2); try done; [|regs_list|by rewrite regs_set_eq].
        assert (is_word (ram m0 (pc c0) + 2 ^ 8 * ram m0 (pc c0 + 1))) by (apply word_u16; mlia).
        auto 12 with words.
      * apply hwp_bind, hwp_ret. change (2 ^ 8) with 256. rewrite (Z.mul_comm 256).
        apply (Hend c2 m2); try done; [auto 12 with words|regs_list|by rewrite regs_set_eq].
    + inst ex_mov_u16_imm. intros c3 Hl3. rewrite u16_id by done.
      inst ex_load. { msimp. rewrite Hbase. by apply Hword. } intros c4 Hl4. msimp.
      rewrite Hbase, Hram by done. pose proof (Hbyte _ Hpc) as Hx. pose proof (Hbyte _ Hpc1) as Hy.
      pose proof (Hbw _ Hpc). pose proof (Hbw _ Hpc1).
      destruct (byte_join _ _ Hx Hy) as (Hj & _). apply word_u16 in Hj.
      inst ex_shl_imm. intros c5 Hl5. inst ex_mov_u16_imm. intros c6 Hl6. msimp.
      inst ex_load. { msimp. rewrite Hbase. by apply Hword. } intros c7 Hl7. msimp.
      rewrite Hbase, Hram by done.
      inst ex_or. intros c8 Hl8. msimp.
      assert (is_u16 (Z.shiftl (ram m0 (pc c0)) 8)) as Hsh by (rewrite Z.shiftl_mul_pow2 by lia; mlia).
      pose proof (word_u16 _ Hsh). rewrite wrap_u16, (lor_bytes (ram m0 (pc c0))) by done.
      apply (Hend c2 m2); try done; [auto 14 with words|regs_list|by rewrite regs_set_eq].
  - apply hwp_assoc, hwp_bind, hwp_gets, hwp_assoc.
    eapply h_mem_base; [exact Hco|]. intros c2 m2 Hs2 Hb2 Hco2 Hbase Hm2 Hr2.
    assert (is_Some (compiler_ptr c2)) as Hp2 by apply Hco2. pose proof (co_words _ _ Hco2) as Hw2.
    assert (Like c2 c2) as Hl2 by done.
    assert (forall y, is_u16 y -> mem m2 (vmb + off_memory + y) = ram m0 y) as Hram
      by (intros y Hy; rewrite <- Hram0 by done; unfold MemSim.ram; by rewrite Hm2).
    inst ex_mov_u16_imm. intros c3 Hl3. rewrite u16_id by done.
    inst ex_load. { msimp. rewrite Hbase. by apply Hword. } intros c4 Hl4. msimp.
    rewrite Hbase, Hram by done. pose proof (Hbw _ Hpc).
    apply (Hend c2 m2); try done; [auto 12 with words|regs_list|by rewrite regs_set_eq].
Qed.
End DivSim.

(** A later pc within the opcode. *)
Lemma hold_pc `{Lay : VmLayout} `{SL : Sljit} `{HO : Host} (vmb : Z) c0 m0 st0 c m H vals x n :
  HoldAt (vmb := vmb) c0 m0 st0 c m H vals x ->
  HoldAt (vmb := vmb) (set_pc (fun p => u16 (p + n)) c0) m0 st0
    (set_pc (fun p => u16 (p + n)) c) m H vals x.
Proof.
  intros [[Hr Hop Hv] [Hc Hk]]. split; [|split; [|done]].
  - split; [|done|done]. apply (rep_view c _ _ H); [done| |exact Hr].
    destruct (rp_inv _ _ _ _ Hr) as [Hcn HH]. split; [|done]. by apply (counted_same c).
  - unfold ctl in *. cbn. congruence.
Qed.

Section LitSim.
Context {Lay : VmLayout} {SL : Sljit} {SP : SljitSpec} {HO : Host} {vmb : Z} {LS : LayoutSpec vmb}.

Lemma sim_LIT c0 m0 st0 c m H x :
  let short := buxn_jit_op_flag_2 c0 in
  HoldAt (vmb := vmb) c0 m0 st0 c m H [] x -> is_u16 (pc c0) -> (length H <= 2)%nat ->
  let v := ram_read short u16 (ram (vmb := vmb) m0) (pc c0) in
  (length (val_bytes short v ++ x) <= 256)%nat ->
  hwp buxn_jit_LIT (Ends (vmb := vmb) (set_pc (fun p => u16 (p + (if short then 2 else 1))) c0) m0 st0
    (val_bytes short v ++ x)) c m.
Proof.
  intros short Hh Hpc HH v Hlen. unfold buxn_jit_LIT. apply hwp_bind, hwp_gets.
  destruct (since_flags (vmb := vmb) c0 m0 c m (proj2 Hh)) as (-> & _).
  eapply (s_immediate c0 m0 st0); [exact Hh|done|room|]. intros o c1 m1 Hs Hv Hh1.
  apply (hold_pc _ _ _ _ _ _ _ _ _ (if short then 2 else 1)) in Hh1. apply hwp_tail_tt.
  eapply s_push; [exact Hh1|by left|by rewrite Hs|by rewrite Hs|]. rewrite Hs. intros c2 m2 Hh2. sim.
Qed.
End LitSim.
