(* ===== verification/FetchSim.v ===== *)
(** * The fetch of an opcode at run time

    Before it dispatches, [buxn_jit_next_opcode] drops the flushed cells,
    counts the registers of the others afresh and, in keep mode, copies the
    stack pointers and flushes the cache the opcode pops from.  The stacks stay
    what they are, and the opcode can pop if the cells kept are [ready]:
    [hwp_fetch]. *)
From S2P Require Import Prelude Lir Hamt Jit StackCache MicroOps Opcodes Compile Uxn Invariant CacheSafety OpcodeSafety BlockSafety Machine StackSim PopSim OperandSim StepSim.
From Stdlib Require Import Permutation.
Local Open Scope jit_scope.

Definition mark (x : buxn_jit_stack_cache_cell_t) : buxn_jit_stack_cache_cell_t :=
  mkCell (value x) false.

Lemma live_set_cell i x k : (i < len k)%nat -> live (set_cell i x k) = <[i := x]> (live k).
Proof. intros Hi. unfold live, set_cell. cbn [cells len]. by rewrite take_insert_lt. Qed.

Lemma filter_true l : Forall (fun x => need_flush x = true) l -> filter (fun x => need_flush x = true) l = l.
Proof.
  induction 1 as [|x l Hx _ IH]; [done|]. rewrite filter_cons, decide_True by done. by f_equal.
Qed.

Lemma filter_false l : Forall (fun x => need_flush x = false) l -> filter (fun x => need_flush x = true) l = [].
Proof.
  induction 1 as [|x l Hx _ IH]; [done|]. rewrite filter_cons, decide_False by (by rewrite Hx). done.
Qed.

(** The first [i] cells are flushed, the others are not. *)
Definition flushed_to (i : nat) (l : list buxn_jit_stack_cache_cell_t) : Prop :=
  Forall (fun x => need_flush x = false) (take i l) /\ Forall (fun x => need_flush x = true) (drop i l).

Lemma flushed_unflushed i k : flushed_to i (live k) -> unflushed k = drop i (live k).
Proof.
  intros [Hf Ht]. unfold unflushed. rewrite <- (take_drop i (live k)) at 1.
  by rewrite filter_app, filter_false, filter_true.
Qed.

Lemma flushed_layered i l : flushed_to i l -> layered l.
Proof. intros [Hf Ht]. exists (take i l), (drop i l). by rewrite take_drop. Qed.

Lemma flushed_next i l x :
  l !! i = Some x -> flushed_to i l -> flushed_to (S i) (<[i := mark x]> l) /\
  drop (S i) (<[i := mark x]> l) = drop (S i) l.
Proof.
  intros Hx [Hf Ht]. pose proof (lookup_lt_Some _ _ _ Hx) as Hlt.
  assert (drop (S i) (<[i := mark x]> l) = drop (S i) l) as Hd by (apply drop_insert_lt; lia).
  split; [split|done].
  - rewrite (take_S_r _ _ (mark x)) by (rewrite list_lookup_insert_eq; done).
    rewrite take_insert_ge by lia. apply Forall_app. split; [done|]. by apply Forall_singleton.
  - rewrite Hd. rewrite (drop_S _ _ _ Hx) in Ht. by apply Forall_cons in Ht as [_ ?].
Qed.

(** ** Counting the registers of the cells afresh *)

Lemma wp_both {S A} (f : M S A) (P Q : A -> S -> Prop) s :
  wp f P s -> wp f Q s -> wp f (fun a s' => P a s' /\ Q a s') s.
Proof. unfold wp. destruct (f s) as [[a s']| |]; auto. Qed.

Definition recount (n : list Z) (c : buxn_jit_ctx_t) : buxn_jit_ctx_t := set_reg_ref_counts (fun _ => n) c.

Lemma recount_id c : recount (reg_ref_counts c) c = c.
Proof. by destruct c. Qed.

Lemma wp_retain_all_exact l : forall c, Forall is_op (cell_regs l) ->
  wp (retain_all l) (fun _ c' => exists n, c' = recount n c) c.
Proof.
  induction l as [|x l IH]; intros c Ho; cbn [retain_all].
  - apply wp_ret. exists (reg_ref_counts c). by rewrite recount_id.
  - apply Forall_cons in Ho as [(i & Hi & Ei) Ho]. apply wp_bind. unfold wp at 1, buxn_jit_retain_reg.
    rewrite Ei, op_index_op by done. eapply wp_mono; [by apply IH|]. intros [] c' [n ->]. by exists n.
Qed.

Definition num_flushed (k : buxn_jit_stack_cache_t) : nat :=
  length (filter (fun x => need_flush x = false) (live k)).

Lemma wp_retain_exact flag c L :
  Counted c L -> Forall is_op (regs_of (get_cache flag c)) ->
  wp (buxn_jit_stack_cache_retain flag) (fun _ c' => exists n,
    c' = recount n (set_cache flag (cache_shift (num_flushed (get_cache flag c))) c)) c.
Proof.
  intros Hc Ho. unfold buxn_jit_stack_cache_retain. apply wp_bind, wp_gets. cbv zeta.
  fold (num_flushed (get_cache flag c)).
  apply wp_bind, wp_modify, wp_bind, wp_gets. apply wp_retain_all_exact.
  rewrite get_set_cache_eq. unfold cell_regs. rewrite live_shift by apply (inv_cache _ _ Hc).
  rewrite fmap_drop. by apply Forall_drop.
Qed.

(** Dropping the flushed cells of a layered cache leaves the others. *)
Lemma layered_shift k :
  cache_ok k -> layered (live k) -> live (cache_shift (num_flushed k) k) = unflushed k.
Proof.
  intros Hk (a & b & E & Ha & Hb). rewrite live_shift by done. unfold num_flushed, unflushed.
  rewrite E, !filter_app, (filter_false a), (filter_true b) by done.
  assert (filter (fun x => need_flush x = false) a = a) as ->.
  { clear E. induction Ha as [|x a Hx _ IH]; [done|]. rewrite filter_cons, decide_True by done. by f_equal. }
  assert (filter (fun x => need_flush x = false) b = []) as ->.
  { clear E. induction Hb as [|x b Hx _ IH]; [done|]. rewrite filter_cons, decide_False by (by rewrite Hx). done. }
  rewrite app_nil_r. by rewrite drop_app_length.
Qed.

Section FetchSim.
Context {Lay : VmLayout} {SL : Sljit} {SP : SljitSpec} {HO : Host} {vmb : Z} {LS : LayoutSpec vmb}.

#[local] Abbreviation base := (base (vmb := vmb)).
#[local] Abbreviation Core := (Core (vmb := vmb)).
#[local] Abbreviation Rep := (Rep (vmb := vmb)).
#[local] Abbreviation evolves := (evolves (vmb := vmb)).

(** ** Flushing *)

Lemma hwp_flush_next i flag c m H st x :
  Rep c m H st -> live (get_cache flag c) !! i = Some x -> flushed_to i (live (get_cache flag c)) ->
  hwp (buxn_jit_flush_cell i flag)
    (fun _ c' m' => Rep c' m' H st /\ evolves m m' /\ frame c' = frame c /\
       get_cache (negb flag) c' = get_cache (negb flag) c /\
       live (get_cache flag c') = <[i := mark x]> (live (get_cache flag c)) /\
       u8 (regs m' (sp_reg flag)) =
         u8 (regs m (sp_reg flag) + Z.of_nat (length (cell_bytes (regs m) x)))) c m.
Proof.
  intros [Hi Hco Hce Hst Hla] Hx Hfl. set (k := get_cache flag c) in *.
  pose proof (inv_cache_ok c H flag Hi) as Hk. fold k in Hk.
  pose proof (lookup_lt_Some _ _ _ Hx) as Hlt. rewrite live_length in Hlt by done.
  assert (cell_at k i = x) as Ex.
  { rewrite live_lookup in Hx by done. pose proof (cell_at_lookup k i Hk) as Hc. 
    rewrite Hc in Hx by (destruct Hk; lia). by simplify_eq. }
  assert (cell_ok (regs m) x) as Hxok.
  { specialize (Hce flag). rewrite Forall_forall in Hce. apply Hce. by eapply list_elem_of_lookup_2. }
  rewrite <- Ex in Hxok.
  eapply hwp_mono; [apply (hwp_flush_cell i flag c m H); done|]. fold k.
  intros [] c' m' (Hco' & _ & Hpu & Hcn & Hfr & Hko & Hk'). rewrite Ex in *.
  pose proof (pushed_evolves _ _ _ _ _ Hpu) as Hev.
  assert (live (get_cache flag c') = <[i := mark x]> (live k)) as Hl' by (by rewrite Hk', live_set_cell).
  destruct (flushed_next i (live k) x Hx Hfl) as [Hfl' Hd'].
  assert (Inv c' H) as Hi'.
  { destruct Hi as [_ HH]. split; [|done]. eapply counted_perm; [|exact Hcn].
    rewrite !(owned_split flag), Hk', regs_of_set_cell
      by (done || (by cbn; fold k; rewrite Ex) || (destruct Hk; lia)).
    unfold others. by rewrite Hko. }
  split; [|split; [done|split; [done|split; [done|split; [done|]]]]].
  - split; [done|done|..]; intros r; destruct (flag_case flag r) as [-> | ->].
    + rewrite Hl'. pose proof (cells_evolves c H m m' flag Hi (ev_op _ _ Hev) (Hce flag)) as Hce'.
      apply Forall_insert; [exact Hce'|]. rewrite Forall_forall in Hce'.
      apply (Hce' x). by eapply list_elem_of_lookup_2.
    + rewrite Hko. eapply cells_evolves; [exact Hi|apply Hev|apply Hce].
    + destruct (Hst flag) as (Hlen & lm & El & Hlm). split; [done|]. exists (cell_bytes (regs m) x ++ lm).
      fold k in El. rewrite (flushed_unflushed i) in El by done.
      rewrite (flushed_unflushed (S i)) by (by rewrite Hl'). rewrite Hl', Hd'.
      rewrite (drop_S _ _ _ Hx) in El. cbn [expand] in El. rewrite <- app_assoc in El. split.
      * rewrite El. f_equal. symmetry. eapply (expand_evolves c H _ _ flag); [done|apply Hev|].
        intros y Hy. rewrite <- (take_drop (S i)). apply elem_of_app. by right.
      * apply (pu_stk _ _ _ _ Hpu).
        -- rewrite regs_set_ne by (by destruct flag). done.
        -- rewrite El, !length_app in Hlen. lia.
    + destruct (Hst (negb flag)) as (Hlen & lm & El & Hlm). split; [done|]. exists lm. rewrite Hko. split.
      * rewrite El. f_equal. symmetry.
        eapply (expand_evolves c H _ _ (negb flag)); [done|apply Hev|apply unflushed_live].
      * eapply stk_other; [exact Hpu|]. rewrite regs_set_ne by (by destruct flag). done.
    + rewrite Hl'. by eapply flushed_layered.
    + by rewrite Hko.
  - rewrite (pu_sp _ _ _ _ Hpu). rewrite regs_set_ne by (by destruct flag). done.
Qed.

(** What flushing a cache leaves. *)
Record flushed (flag : bool) (n : nat) (c : buxn_jit_ctx_t) (m : mach) (c' : buxn_jit_ctx_t) (m' : mach)
    : Prop := {
  fl_evolves : evolves m m';
  fl_frame : frame c' = frame c;
  fl_other : get_cache (negb flag) c' = get_cache (negb flag) c;
  fl_values : value <$> live (get_cache flag c') = value <$> live (get_cache flag c);
  fl_sp : u8 (regs m' (sp_reg flag)) = u8 (regs m (sp_reg flag) + Z.of_nat n);
}.

Lemma flushed_refl flag c m : flushed flag 0 c m c m.
Proof. split; [apply evolves_refl|done..|f_equal; simpl; lia]. Qed.

Lemma flushed_trans flag n1 n2 c1 m1 c2 m2 c3 m3 :
  flushed flag n1 c1 m1 c2 m2 -> flushed flag n2 c2 m2 c3 m3 -> flushed flag (n1 + n2) c1 m1 c3 m3.
Proof.
  intros [] []. split; [by eapply evolves_trans|congruence..|].
  rewrite fl_sp1. unfold u8 in *. rewrite Zplus_mod, fl_sp0, <- Zplus_mod. f_equal. lia.
Qed.

(** The bytes of the cells, by their operands alone. *)
Lemma expand_length rv rv' l l' :
  value <$> l = value <$> l' -> length (expand rv l) = length (expand rv' l').
Proof.
  revert l'. induction l as [|x l IH]; intros [|y l'] E; try done.
  simpl in E. injection E as Exy E. simpl. rewrite !length_app, (IH _ E). f_equal.
  unfold cell_bytes. rewrite Exy. by destruct (is_short (value y)).
Qed.

Lemma expand_values rv l l' : value <$> l = value <$> l' -> expand rv l = expand rv l'.
Proof.
  revert l'. induction l as [|x l IH]; intros [|y l'] E; try done.
  simpl in E. injection E as Exy E. simpl. rewrite (IH _ E). f_equal. unfold cell_bytes. by rewrite Exy.
Qed.

Lemma hwp_flush_loop flag n : forall i c m H st,
  Rep c m H st -> flushed_to i (live (get_cache flag c)) ->
  (i + n = len (get_cache flag c))%nat ->
  hwp (flush_loop (seq i n) flag)
    (fun _ c' m' => Rep c' m' H st /\ flushed_to (i + n) (live (get_cache flag c')) /\
       flushed flag (length (expand (regs m) (drop i (live (get_cache flag c))))) c m c' m') c m.
Proof.
  induction n as [|n IH]; intros i c m H st Hr Hfl Hlen; cbn [seq flush_loop];
    pose proof (inv_cache_ok c H flag (rp_inv _ _ _ _ Hr)) as Hk;
    pose proof (live_length _ Hk) as Hll.
  - apply hwp_ret. rewrite Nat.add_0_r in *. split; [done|]. split; [done|].
    rewrite drop_ge by lia. apply flushed_refl.
  - apply hwp_bind, hwp_gets.
    destruct (lookup_lt_is_Some_2 (live (get_cache flag c)) i) as [x Hx]; [lia|].
    assert (cell_at (get_cache flag c) i = x) as ->.
    { rewrite live_lookup in Hx by lia. rewrite cell_at_lookup in Hx by (done || destruct Hk; lia).
      by simplify_eq. }
    rewrite (drop_S _ _ _ Hx). destruct (flushed_next _ _ _ Hx Hfl) as [Hfl1 Hd].
    assert (need_flush x = true) as ->.
    { destruct Hfl as [_ Ht]. rewrite (drop_S _ _ _ Hx) in Ht. by apply Forall_cons in Ht as [? _]. }
    cbn [when]. apply hwp_bind. eapply hwp_mono; [by apply hwp_flush_next|].
    intros [] c1 m1 (Hr1 & Hev1 & Hf1 & Ho1 & Hl1 & Hsp1).
    assert (len (get_cache flag c1) = len (get_cache flag c)) as Hn1.
    { rewrite <- Hll, <- (live_length (get_cache flag c1)), Hl1, length_insert; [done|].
      apply (inv_cache_ok c1 H), Hr1. }
    eapply hwp_mono; [apply IH; [exact Hr1|by rewrite Hl1|lia]|]. intros [] c2 m2 (Hr2 & Hfl2 & Hfd2).
    split; [done|]. split; [by replace (i + S n)%nat with (S i + n)%nat by lia|].
    cbn [expand]. rewrite length_app, Nat.add_comm. eapply flushed_trans; [|].
    + split; [exact Hev1|exact Hf1|exact Ho1| |exact Hsp1].
      rewrite Hl1, list_fmap_insert. cbn. apply list_insert_id. by rewrite list_lookup_fmap, Hx.
    + rewrite Hl1, Hd in Hfd2. by rewrite (expand_length _ (regs m) _ _ eq_refl) in Hfd2.
Qed.

Lemma hwp_flush flag c m H st :
  Rep c m H st -> flushed_to 0 (live (get_cache flag c)) ->
  hwp (buxn_jit_stack_cache_flush flag)
    (fun _ c' m' => Rep c' m' H st /\ Forall (fun x => need_flush x = false) (live (get_cache flag c')) /\
       flushed flag (length (expand (regs m) (live (get_cache flag c)))) c m c' m') c m.
Proof.
  intros Hr Hfl. unfold buxn_jit_stack_cache_flush. apply hwp_bind, hwp_gets.
  eapply hwp_mono; [by apply hwp_flush_loop|]. intros [] c' m' (Hr' & [Hfl' _] & Hfd).
  split; [done|]. split; [|by rewrite drop_0 in Hfd].
  pose proof (inv_cache_ok c H flag (rp_inv _ _ _ _ Hr)) as Hk.
  pose proof (inv_cache_ok c' H flag (rp_inv _ _ _ _ Hr')) as Hk'.
  rewrite take_ge in Hfl'; [done|]. rewrite <- (length_fmap value), (fl_values _ _ _ _ _ _ Hfd).
  rewrite length_fmap, live_length; simpl; done || lia.
Qed.

(** ** The cells that stay *)

Lemma rep_retained c m H st n c' :
  Rep c m H st ->
  c' = recount n (set_cache true (cache_shift (num_flushed (get_cache true c)))
    (set_cache false (cache_shift (num_flushed (get_cache false c))) c)) ->
  Inv c' [] -> Rep c' m [] st /\ (forall r, live (get_cache r c') = unflushed (get_cache r c)) /\
    (forall r, flushed_to 0 (live (get_cache r c'))).
Proof.
  intros [Hi Hco Hce Hst Hla] -> Hi'.
  assert (forall r, get_cache r (recount n (set_cache true (cache_shift (num_flushed (get_cache true c)))
    (set_cache false (cache_shift (num_flushed (get_cache false c))) c))) =
    cache_shift (num_flushed (get_cache r c)) (get_cache r c)) as Hk by (by intros [|]).
  assert (forall r, live (cache_shift (num_flushed (get_cache r c)) (get_cache r c)) =
    unflushed (get_cache r c)) as Hlive.
  { intros r. apply layered_shift; [by eapply inv_cache_ok|apply Hla]. }
  assert (forall r, Forall (fun x => need_flush x = true) (unflushed (get_cache r c))) as Ht.
  { intros r. apply Forall_forall. intros x Hx. unfold unflushed in Hx.
    by apply list_elem_of_filter in Hx as [? _]. }
  split; [split; [done| |..]|split]; try (intros r; rewrite Hk, Hlive).
  - by apply (core_same c).
  - specialize (Hce r). rewrite Forall_forall in *. intros x Hx. apply Hce. by apply unflushed_live.
  - intros r. destruct (Hst r) as (Hlen & lm & El & Hlm). split; [done|]. exists lm. split; [|done].
    rewrite Hk. unfold unflushed at 1. by rewrite Hlive, (filter_true _ (Ht r)).
  - by eapply layered_all.
  - done.
  - split; [apply Forall_nil_2|]. apply Ht.
Qed.

Lemma h_refresh {B} c m H st (K : unit -> J B) Q :
  Rep c m H st ->
  (forall c', Rep c' m [] st -> (forall r, live (get_cache r c') = unflushed (get_cache r c)) ->
     (forall r, flushed_to 0 (live (get_cache r c'))) -> frame c' = frame c -> hwp (K tt) Q c' m) ->
  hwp (modify (set_reg_ref_counts (fun _ => replicate NUM_OP_REGS 0)) ;;;
      buxn_jit_stack_cache_retain false ;;; bind (buxn_jit_stack_cache_retain true) K) Q c m.
Proof.
  intros Hr HK. pose proof (rp_inv _ _ _ _ Hr) as [Hc HH].
  assert (forall r, Forall is_op (regs_of (get_cache r c))) as Ho.
  { pose proof (inv_op _ _ Hc) as Ho. unfold owned in Ho. rewrite !Forall_app in Ho.
    intros [|]; apply Ho. }
  apply hwp_bind, hwp_modify; [done|]. pose proof (counted_reset _ _ Hc) as Hc0.
  apply hwp_bind, hwp_silent.
  eapply wp_mono; [apply wp_both;
    [apply wp_cache_retain; [exact Hc0|apply (Ho false)|simpl; lia]|
     eapply wp_retain_exact; [exact Hc0|apply (Ho false)]]|].
  intros [] c1 [(Hc1 & Hf1 & Hk1) [n1 E1]]. cbn [negb get_cache] in *.
  split; [by rewrite E1|]. apply hwp_bind, hwp_silent.
  assert (get_cache true c1 = get_cache true c) as Ek by (by rewrite E1).
  eapply wp_mono; [apply wp_both;
    [apply (wp_cache_retain true); [exact Hc1|rewrite Ek; apply (Ho true)|]|
     eapply wp_retain_exact; [exact Hc1|rewrite Ek; apply (Ho true)]]|].
  { pose proof (inv_cache _ _ Hc1 false) as Hk0. rewrite length_app. unfold regs_of.
    rewrite length_fmap, live_length by exact Hk0.
    destruct Hk0 as [_ Hn]. cbn [get_cache] in Hn. unfold BUXN_JIT_CACHE_SIZE in *. simpl. lia. }
  intros [] c2 [(Hc2 & Hf2 & Hk2) [n2 E2]]. cbn [negb get_cache] in *.
  assert (Inv c2 []) as Hi2.
  { split; [|simpl; lia]. eapply counted_perm; [|exact Hc2].
    unfold owned. rewrite Hk2, !app_nil_r. apply Permutation_app_comm. }
  destruct (rep_retained c m H st n2 c2 Hr) as (Hr2 & Hl2 & Hfl2); [|done|].
  { rewrite E2, E1. done. }
  split; [by rewrite E2, E1|]. apply HK; [done..|]. by rewrite Hf2, Hf1.
Qed.

(** ** The hook *)

Lemma hwp_label (Q : nat -> _ -> _ -> Prop) c m :
  is_Some (compiler_ptr c) -> (forall l c', Like c c' -> Q l c' m) -> hwp sljit_emit_label Q c m.
Proof.
  intros [x Hx] HQ H0. unfold wp, sljit_emit_label, with_compiler. rewrite Hx. cbn.
  exists m. split; [split; [split|]|by apply HQ]; [done| |done].
  exists [LLabel (next_label (comp c))]. split; [done|]. intros B _. done.
Qed.

Lemma rep_like_view c m H st c' :
  Rep c m H st -> view c' = view c -> reg_ref_counts c' = reg_ref_counts c -> Rep c' m H st.
Proof.
  intros Hr Hv Hn. apply (rep_view c c' m H); [done| |done]. destruct (rp_inv _ _ _ _ Hr) as [Hc HH].
  unfold view in Hv. split; [|done]. replace (owned c' H) with (owned c H) by (unfold owned; congruence).
  apply (counted_same c); congruence.
Qed.

(** What the fetch leaves alone. *)
Definition kept (c c' : buxn_jit_ctx_t) : Prop :=
  view c' = view c /\ reg_ref_counts c' = reg_ref_counts c /\ pc c' = pc c /\
  current_opcode c' = current_opcode c /\ vm_memory (jit c') = vm_memory (jit c).

Lemma like_kept c c' : Like c c' -> kept c c'.
Proof.
  intros [Hs Hb]. unfold kept, view. unfold shape, frame in Hs. split_and!; congruence.
Qed.

Lemma h_call_jit_opcode `{VM : BuxnVm} {B} c m (K : unit -> J B) Q :
  is_Some (compiler_ptr c) ->
  (forall c', kept c c' -> hwp (K tt) Q c' m) -> hwp (bind call_jit_opcode K) Q c m.
Proof.
  intros Hp HK. apply hwp_bind. unfold call_jit_opcode, buxn_jit_hook_mark_addr. apply hwp_bind, hwp_gets.
  destruct (hook (jit c)) as [h|]; [|by apply hwp_ret, HK].
  destruct (jit_opcode h) as [marks|]; [|by apply hwp_ret, HK].
  do 3 apply hwp_bind, hwp_gets. apply hwp_bind. destruct (marks _ _ _).
  - apply hwp_bind, hwp_label; [done|]. intros l c' Hl. apply hwp_ret, hwp_modify; [done|].
    apply HK. by apply like_kept in Hl.
  - apply hwp_ret, hwp_modify; [done|]. by apply HK.
Qed.

(** ** The registers an opcode may take

    [spare k pm]: there are [k] registers besides what the pops need. *)
Definition spare (k : nat) (pm : popmode) (flag : bool) (c : buxn_jit_ctx_t) (H : list sreg) : Prop :=
  match pm with
  | Distinct n => NoDup (owned c H) /\ (in_use c H + k + n <= NUM_OP_REGS)%nat
  | Whole szs =>
      fits szs (reverse (live (get_cache flag c))) = true /\
      (length szs - len (get_cache flag c) + k <= length (free_regs (owned c H)))%nat /\
      (length H + k + length szs <= NUM_OP_REGS)%nat
  end.

Lemma spare_own pm flag c H :
  spare 0 pm flag c H -> private c (stack_ptr_reg flag c) -> own pm flag c H.
Proof.
  destruct pm as [n|szs]; cbn [spare own]; [rewrite Nat.add_0_r; tauto|].
  intros (Hf & Hn & Hl) Hp. split_and!; [done|done|lia|lia].
Qed.

Lemma spare_free k pm flag c H :
  Inv c H -> spare (S k) pm flag c H -> buxn_jit_find_free_reg c <> None /\ (length H < NUM_OP_REGS)%nat.
Proof.
  intros Hi. destruct pm as [n|szs]; cbn [spare].
  - intros [_ Hn]. split; [|unfold in_use in Hn; lia].
    apply (find_free_some _ H); [done|]. rewrite owned_size by done. unfold in_use in Hn. lia.
  - intros (_ & Hn & Hl). split; [|lia]. apply (find_free_regs _ H); [done|lia].
Qed.

Lemma spare_caches k pm flag c c' H :
  (forall q, get_cache q c' = get_cache q c) -> spare k pm flag c H -> spare k pm flag c' H.
Proof.
  intros Hk. destruct pm as [n|szs]; cbn [spare];
    by rewrite ?Hk, ?(owned_caches _ _ _ Hk), ?(in_use_caches _ _ _ Hk).
Qed.

Lemma spare_cons k pm flag c H r :
  spare (S k) pm flag c H -> r ∉ owned c H -> spare k pm flag c (r :: H).
Proof.
  intros Hs Hr. destruct pm as [n|szs]; cbn [spare] in *.
  - destruct Hs as [Hn Hl]. split; [by apply owned_nodup_cons|]. unfold in_use in *. cbn [length]. lia.
  - destruct Hs as (Hf & Hn & Hl). split_and!; [done| |cbn [length]; lia].
    pose proof (free_regs_cons r (owned c H)).
    assert (owned c (r :: H) ⊆ r :: owned c H) as Hsub by (intros q; by rewrite owned_cons).
    pose proof (free_regs_subset _ _ Hsub). lia.
Qed.

(** Only the values of the cells matter. *)
Lemma fits_values szs : forall l l', value <$> l' = value <$> l -> fits szs l' = fits szs l.
Proof.
  induction szs as [|sz szs IH]; intros [|x l] [|x' l']; cbn; try done.
  intros [= E El]. by rewrite E, (IH l).
Qed.

Lemma own_values pm flag c c' H :
  Inv c H -> Inv c' H -> value <$> live (get_cache flag c') = value <$> live (get_cache flag c) ->
  get_cache (negb flag) c' = get_cache (negb flag) c -> ctl c' = ctl c ->
  own pm flag c H -> own pm flag c' H.
Proof.
  intros Hi Hi' Hv Hk Hctl.
  assert (len (get_cache flag c') = len (get_cache flag c)) as El.
  { rewrite <- !live_length by (by eapply inv_cache_ok). by rewrite <- (length_fmap value), Hv, length_fmap. }
  assert (regs_of (get_cache flag c') = regs_of (get_cache flag c)) as Er.
  { unfold regs_of. rewrite !(list_fmap_compose value reg). by rewrite Hv. }
  assert (Permutation (owned c' H) (owned c H)) as Hp
    by (rewrite !(owned_split flag); unfold others; by rewrite Hk, Er).
  assert (in_use c' H = in_use c H) as Eu
    by (unfold in_use; destruct flag; cbn [get_cache negb] in *; congruence).
  destruct pm as [n|szs]; cbn [own].
  - by rewrite Hp, Eu.
  - intros (Hf & Hpr & Hn & Hl). split_and!; [| | |done].
    + rewrite <- Hf. apply fits_values. by rewrite !fmap_reverse, Hv.
    + rewrite (ctl_sp _ _ _ Hctl). intros q x Hx. destruct (flag_case flag q) as [-> | ->].
      * assert (value x ∈ value <$> live (get_cache flag c')) as Hin by (apply list_elem_of_fmap; eauto).
        rewrite Hv in Hin. apply list_elem_of_fmap in Hin as (y & -> & Hy). by apply (Hpr flag).
      * rewrite Hk in Hx. by apply (Hpr (negb flag)).
    + rewrite El. etrans; [exact Hn|]. apply free_regs_subset. intros q. by rewrite Hp.
Qed.

(** ** The copies of the stack pointers *)

Lemma h_alloc_free {B} op c m H vals st (K : sreg -> J B) Q :
  Holds (vmb := vmb) op c m H vals st ->
  buxn_jit_find_free_reg c <> None /\ (length H < NUM_OP_REGS)%nat ->
  (forall r c', Holds (vmb := vmb) op c' m (r :: H) vals st -> private c' r -> r ∉ owned c' H ->
     recounted c c' -> hwp (K r) Q c' m) ->
  hwp (bind buxn_jit_alloc_reg K) Q c m.
Proof.
  intros [Hr Hop Hv] [Hfree HH] HK. pose proof (rp_inv _ _ _ _ Hr) as Hi. apply hwp_bind.
  eapply hwp_mono; [by apply hwp_alloc_free|].
  intros r c' m' (-> & Hrec & Hi' & Hfresh). apply HK; [|intros q x Hx <-|done|done].
  - split; [|destruct Hrec as (i & n & ->); done|].
    + apply (rep_view c c' m H); [by apply view_recounted|done|done].
    + eapply hold_sub; [|done]. set_solver.
  - apply Hfresh. by eapply cell_owned.
Qed.

Lemma stk_drop mm b p l1 l2 : stk mm b p (l1 ++ l2) -> stk mm b (p - Z.of_nat (length l1)) l2.
Proof.
  intros [Hl H]. rewrite length_app in Hl. split; [lia|]. intros i x Hi.
  rewrite <- (H (length l1 + i)%nat x); [|by rewrite lookup_app_r, Nat.add_comm, Nat.add_sub by lia].
  do 2 f_equal. f_equal. lia.
Qed.

#[local] Abbreviation PopAt := (PopAt (vmb := vmb)).

Lemma unflushed_true k : flushed_to 0 (live k) -> unflushed k = live k.
Proof. intros [_ Ht]. by apply filter_true. Qed.

(** Out of keep mode the opcode pops through the stack pointers. *)
Lemma pop_direct c m st sh szs c' :
  Rep c m [] st -> (forall r, flushed_to 0 (live (get_cache r c))) ->
  spare 0 (pops_mode sh szs) (buxn_jit_op_flag_r c) c [] -> buxn_jit_op_flag_k c = false ->
  view c' = view c -> reg_ref_counts c' = reg_ref_counts c -> current_opcode c' = current_opcode c ->
  (forall r, stack_ptr_reg r c' = sp_reg r) ->
  PopAt c' m st sh szs c' m [] [] (st (buxn_jit_op_flag_r c)).
Proof.
  intros Hr Hfl Hspare Hk Hv Hn Hop Hsp. pose proof (rep_like_view _ _ _ _ _ Hr Hv Hn) as Hr'.
  pose proof (view_cache _ _ Hv) as Hkc. destruct (op_flags_eq c c' Hop) as (_ & Er & Ek).
  split; [|done]. rewrite Er, Ek, Hk. set (flag := buxn_jit_op_flag_r c).
  destruct Hr' as [Hi Hco Hce Hst Hla]. destruct (Hst flag) as (Hlen & lm & El & Hlm).
  split; [|done|by apply Forall_nil_2|by apply Forall_nil_2|destruct (pops_mode sh szs); [by apply NoDup_nil_2|done]].
  split; [split|..]; try done.
  - apply spare_own; [by apply (spare_caches _ _ _ c)|]. rewrite Hsp.
    eapply private_fixed; [exact Hi|by destruct flag].
  - left. by rewrite Hsp.
  - exists lm. rewrite Hsp. split; [|done]. rewrite El, unflushed_true; [done|]. rewrite Hkc. apply Hfl.
  - rewrite Hkc. by apply (Hfl flag).
Qed.

(** In keep mode it pops through a copy, below the flushed cells. *)
Lemma pop_copy flag c m H lm st c' m' :
  Rep c m H st -> flushed_to 0 (live (get_cache flag c)) ->
  st flag = expand (regs m) (live (get_cache flag c)) ++ lm ->
  Rep c' m' H st -> Forall (fun x => need_flush x = false) (live (get_cache flag c')) ->
  flushed flag (length (expand (regs m) (live (get_cache flag c)))) c m c' m' ->
  stack_ptr_reg flag c ∈ H -> u8 (regs m (stack_ptr_reg flag c)) = u8 (regs m (sp_reg flag)) ->
  pop_view (vmb := vmb) flag c' m' (st flag).
Proof.
  intros Hr Hfl El Hr' Hff [Hev Hf Ho Hvals Hsp] Hin Eu.
  assert (stack_ptr_reg flag c' = stack_ptr_reg flag c) as Esp by (apply ctl_sp, ctl_frame; done).
  assert (expand (regs m') (live (get_cache flag c')) = expand (regs m) (live (get_cache flag c))) as Eexp.
  { rewrite (expand_values _ _ _ Hvals). eapply (expand_evolves c H _ _ flag); [apply Hr|apply Hev|auto]. }
  exists lm. rewrite Eexp, Esp. split; [done|].
  destruct (rp_stack _ _ _ _ Hr' flag) as (Hlen & lm' & El' & Hlm').
  assert (unflushed (get_cache flag c') = []) as Eu' by (by apply filter_false).
  rewrite Eu' in El'. cbn in El'. subst lm'. rewrite El in Hlm'. apply stk_drop in Hlm'.
  eapply stk_u8; [|exact Hlm'].
  rewrite (ev_op _ _ Hev (stack_ptr_reg flag c)) by (eapply inv_held_op; [apply Hr|done]). rewrite Eu.
  unfold u8 in *. rewrite Zminus_mod, Hsp, <- Zminus_mod. f_equal. lia.
Qed.

Lemma pop_copied c m st sh szs H vals c' m' :
  let flag := buxn_jit_op_flag_r c in
  Rep c m H st -> (forall r, flushed_to 0 (live (get_cache r c))) ->
  own (pops_mode sh szs) flag c H -> buxn_jit_op_flag_k c = true ->
  hold H m vals -> (stack_ptr_reg flag c, u8 (regs m (sp_reg flag))) ∈ vals ->
  Rep c' m' H st -> Forall (fun x => need_flush x = false) (live (get_cache flag c')) ->
  flushed flag (length (expand (regs m) (live (get_cache flag c)))) c m c' m' ->
  PopAt c' m' st sh szs c' m' H [] (st flag).
Proof.
  intros flag Hr Hfl Hown Hk Hv Hin Hr' Hff Hfd.
  pose proof Hfd as [Hev Hf Ho Hvals Hsp]. pose proof (ctl_frame _ _ Hf) as Hctl.
  destruct (op_flags_eq c c' (ctl_opcode _ _ Hctl)) as (_ & Er & Ek).
  unfold hold in Hv. rewrite Forall_forall in Hv. destruct (Hv _ Hin) as [HinH Ev]. cbn [fst snd] in *.
  assert (stack_ptr_reg flag c' = stack_ptr_reg flag c) as Esp by (by apply ctl_sp).
  destruct (rp_stack _ _ _ _ Hr flag) as (Hlen & lm & El & Hlm).
  rewrite unflushed_true in El by apply Hfl.
  split; [|done]. rewrite Er, Ek, Hk. fold flag.
  split; [|done|by apply Forall_nil_2|by apply Forall_nil_2|destruct (pops_mode sh szs); [by apply NoDup_nil_2|done]].
  split; [split|..].
  - apply Hr'.
  - apply Hr'.
  - apply Hr'.
  - eapply (own_values _ flag c); [apply Hr|apply Hr'|exact Hvals|exact Ho|exact Hctl|exact Hown].
  - right. by rewrite Esp.
  - eapply (pop_copy flag c m H lm st); [done..| |]; [done|]. rewrite Ev. unfold u8. by rewrite Zmod_mod.
  - apply Hr'.
  - apply Hr'.
  - done.
  - done.
  - rewrite Esp. split; [done|apply Hr'].
Qed.

(** The registers an opcode may need besides the cached ones. *)
Definition shadow_regs (c : buxn_jit_ctx_t) : nat := if buxn_jit_op_flag_k c then 2 else 0.

Definition Poppable (sh : bool) (szs : list bool) (st : bool -> list Z) (c0 : buxn_jit_ctx_t) (m0 : mach) (u : unit)
    (c : buxn_jit_ctx_t) (m : mach) : Prop :=
  pc c = pc c0 /\ current_opcode c = current_opcode c0 /\ jit c = jit c0 /\
  keeps (vmb := vmb) m0 m /\ exists H, (length H <= 2)%nat /\ PopAt c m st sh szs c m H [] (st (buxn_jit_op_flag_r c)).

Lemma h_copies c c3 m H st r1 r2 sh szs :
  Holds (vmb := vmb) (current_opcode c) c3 m H [] st -> private c3 r1 -> private c3 r2 ->
  r1 ∈ H -> r2 ∈ H -> r1 <> r2 -> (length H <= 2)%nat ->
  (forall r, flushed_to 0 (live (get_cache r c3))) ->
  spare 0 (pops_mode sh szs) (buxn_jit_op_flag_r c) c3 H -> buxn_jit_op_flag_k c = true -> pc c3 = pc c ->
  jit c3 = jit c ->
  hwp (sljit_emit_op1 SLJIT_MOV_U8 (AReg r1) (AReg BUXN_JIT_S_WSP) ;;;
       sljit_emit_op1 SLJIT_MOV_U8 (AReg r2) (AReg BUXN_JIT_S_RSP) ;;;
       modify (set_wsp_reg (fun _ => r1)) ;;; modify (set_rsp_reg (fun _ => r2)) ;;;
       flag_r <-- gets buxn_jit_op_flag_r ;; buxn_jit_stack_cache_flush flag_r)
    (Poppable sh szs st c m) c3 m.
Proof.
  intros Hh Hp1 Hp2 H1 H2 Hne HH Hfl Hspare Hk Hpc Hj.
  pose proof (rp_core _ _ _ _ (hd_rep _ _ _ _ _ _ Hh)) as [Hcp Hw Hby _ _].
  pose proof (rp_inv _ _ _ _ (hd_rep _ _ _ _ _ _ Hh)) as Hi.
  assert (is_op r1) as Ho1 by (by eapply inv_held_op). assert (is_op r2) as Ho2 by (by eapply inv_held_op).
  assert (Like c3 c3) as Hl by done.
  inst ex_mov_u8. intros c4 Hl4. inst ex_mov_u8. intros c5 Hl5.
  set (m4 := set_reg r1 _ m). set (m5 := set_reg r2 _ m4).
  assert (words m4) as Hw4 by (unfold m4; auto with words).
  destruct (holds_write _ c3 m H [] st r1 c4 m4 Hh H1 Hp1) as [Hh4 Hp14];
    [by apply Forall_nil_2|done|done|done|by intros q Hq; apply regs_set_ne; set_solver|].
  assert (Like c4 c5) as Hl45 by (destruct Hl4, Hl5; split; congruence).
  assert (private c4 r2) as Hp24.
  { intros q x Hx. apply (Hp2 q). destruct Hl4 as [Hs4 _]. unfold shape in Hs4.
    destruct q; cbn [get_cache] in *; congruence. }
  destruct (holds_write _ c4 m4 H _ st r2 c5 m5 Hh4 H2 Hp24) as [Hh5 _];
    [by apply Forall_singleton|done|unfold m5; auto with words|done
    |by intros q Hq; apply regs_set_ne; set_solver|].
  apply hwp_bind, hwp_modify; [done|]. apply hwp_bind, hwp_modify; [done|]. apply hwp_bind, hwp_gets.
  match goal with |- hwp (_ (buxn_jit_op_flag_r ?x)) _ _ _ => set (c7 := x) end.
  assert (Rep c7 m5 H st) as Hr7 by (by apply (rep_like_view c5 m5 H st); [apply Hh5| |]).
  assert (forall q, get_cache q c7 = get_cache q c3) as Hk7.
  { intros q. destruct Hl5 as [Hs5 _]. unfold shape in Hs5. destruct q; cbn; congruence. }
  assert (current_opcode c7 = current_opcode c) as Eop by apply (hd_op _ _ _ _ _ _ Hh5).
  assert (pc c7 = pc c /\ jit c7 = jit c) as [Epc Ej].
  { destruct Hl5 as [Hs5 _]. unfold shape, frame in Hs5. cbn. split; congruence. }
  destruct (op_flags_eq c c7 Eop) as (_ & Er & Ek). rewrite Hk in Ek.
  assert (own (pops_mode sh szs) (buxn_jit_op_flag_r c7) c7 H) as Hown.
  { apply spare_own; [rewrite Er; by apply (spare_caches _ _ _ c3)|].
    apply (private_same c3); [done|]. by destruct (buxn_jit_op_flag_r c7). }
  set (flag := buxn_jit_op_flag_r c7) in *.
  eapply hwp_mono; [apply (hwp_flush flag c7 m5 H st Hr7); by rewrite Hk7|].
  intros [] c8 m8 (Hr8 & Hff & Hfd). pose proof (fl_frame _ _ _ _ _ _ Hfd) as Hf8.
  pose proof (ctl_frame _ _ Hf8) as Hctl8.
  split; [unfold ctl in Hctl8; congruence|].
  split; [unfold ctl in Hctl8; congruence|]. split; [unfold ctl in Hctl8; congruence|]. split.
  { intros a Ha. rewrite (evolves_keeps _ _ (fl_evolves _ _ _ _ _ _ Hfd) a Ha). done. }
  exists H. split; [done|].
  assert (buxn_jit_op_flag_r c8 = flag) as -> by (apply op_flags_eq; unfold ctl in Hctl8; congruence).
  eapply (pop_copied c7 m5 st sh szs H); [exact Hr7| |exact Hown|exact Ek
    |exact (hd_vals _ _ _ _ _ _ Hh5)| |exact Hr8|exact Hff|exact Hfd].
  - intros r. by rewrite Hk7.
  - fold flag. assert (regs m5 r2 = u8 (regs m BUXN_JIT_S_RSP)) as -> by (unfold m5, m4; by msimp).
    assert (regs m4 r1 = u8 (regs m BUXN_JIT_S_WSP)) as -> by (unfold m4; by msimp).
    assert (forall q, regs m5 (sp_reg q) = regs m (sp_reg q)) as ->.
    { intros q. unfold m5, m4. destruct q; cbn [sp_reg]; by msimp. }
    destruct flag; cbn; rewrite !elem_of_cons; auto.
Qed.

Lemma hwp_shadow c m st sh szs :
  Rep c m [] st -> (forall r, flushed_to 0 (live (get_cache r c))) ->
  spare (shadow_regs c) (pops_mode sh szs) (buxn_jit_op_flag_r c) c [] ->
  hwp shadow_stack (Poppable sh szs st c m) c m.
Proof.
  intros Hr Hfl Hspare. unfold shadow_stack, shadow_regs in *. apply hwp_bind, hwp_gets.
  destruct (buxn_jit_op_flag_k c) eqn:Ek.
  - do 3 (apply hwp_bind, hwp_modify; [done|]).
    match goal with |- hwp _ _ ?x _ => set (c1 := x) end.
    assert (Holds (vmb := vmb) (current_opcode c) c1 m [] [] st) as Hh1.
    { split; [by apply (rep_like_view c)|done|apply Forall_nil_2]. }
    set (pm := pops_mode sh szs) in *. set (flag := buxn_jit_op_flag_r c) in *.
    assert (spare 2 pm flag c1 []) as Hs1 by (by apply (spare_caches _ _ _ c)).
    eapply h_alloc_free; [exact Hh1|eapply spare_free; [apply Hh1|exact Hs1]|]. intros r1 c2 Hh2 Hpr1 Hf1 Hrec1.
    assert (forall q, get_cache q c2 = get_cache q c1) as Hk2
      by (destruct Hrec1 as (i1 & k1 & ->); by intros [|]).
    assert (spare 1 pm flag c2 [r1]) as Hs2
      by (apply spare_cons; [by apply (spare_caches _ _ _ c1)|done]).
    eapply h_alloc_free; [exact Hh2|eapply spare_free; [apply Hh2|exact Hs2]|]. intros r2 c3 Hh3 Hpr2 Hf2 Hrec2.
    assert (forall q, get_cache q c3 = get_cache q c2) as Hk3
      by (destruct Hrec2 as (i1 & k1 & ->); by intros [|]).
    assert (spare 0 pm flag c3 [r2; r1]) as Hs3
      by (apply spare_cons; [by apply (spare_caches _ _ _ c2)|done]).
    assert (r1 <> r2) as Hne.
    { intros ->. apply Hf2. rewrite owned_cons. by left. }
    assert (pc c3 = pc c /\ jit c3 = jit c) as [Hpc3 Hj3]
      by (destruct Hrec1 as (i1 & k1 & ->), Hrec2 as (i2 & k2 & ->); done).
    apply (h_copies c c3 m [r2; r1] st r1 r2 sh szs).
    + done.
    + by apply (private_same c2).
    + done.
    + by right; left.
    + by left.
    + done.
    + simpl. lia.
    + intros r. rewrite Hk3, Hk2. apply Hfl.
    + done.
    + done.
    + done.
    + done.
  - do 3 (apply hwp_bind, hwp_modify; [done|]). apply hwp_modify; [done|].
    do 4 (split; [done|]). exists []. split; [simpl; lia|].
    apply (pop_direct c); try done; by intros [|].
Qed.

(** ** The fetch *)

(** The registers of the cells that are not in memory yet. *)
Definition top_regs (c : buxn_jit_ctx_t) : list sreg :=
  cell_regs (unflushed (wst_cache c)) ++ cell_regs (unflushed (rst_cache c)).

Lemma retained_owned c c' H :
  Inv c' H -> (forall r, live (get_cache r c') = unflushed (get_cache r c)) ->
  owned c' [] = top_regs c /\ in_use c' [] = length (top_regs c).
Proof.
  intros Hi Hl. pose proof (Hl false) as E1. pose proof (Hl true) as E2. cbn [get_cache] in E1, E2.
  pose proof (inv_cache_ok _ _ false Hi) as K1. pose proof (inv_cache_ok _ _ true Hi) as K2.
  cbn [get_cache] in K1, K2. unfold owned, in_use, top_regs, regs_of, cell_regs. split.
  - by rewrite E1, E2, app_nil_r.
  - rewrite length_app, !length_fmap, <- E1, <- E2, !live_length by done. simpl. lia.
Qed.

(** What is asked of the cells that are kept: [k] registers are taken before
    operands of the sizes [szs] are popped from [flag]. *)
Definition ready (sh : bool) (szs : list bool) (k : nat) (flag : bool) (c : buxn_jit_ctx_t) : Prop :=
  if sh then
    fits szs (reverse (unflushed (get_cache flag c))) = true /\
    (length szs - length (unflushed (get_cache flag c)) + k <= length (free_regs (top_regs c)))%nat
  else NoDup (top_regs c) /\ (length (top_regs c) + k + length szs <= NUM_OP_REGS)%nat.

#[global] Instance ready_dec sh szs k flag c : Decision (ready sh szs k flag c).
Proof. destruct sh; apply _. Defined.

Lemma ready_spare sh szs k flag c c' :
  ready sh szs k flag c -> (k + length szs <= NUM_OP_REGS)%nat ->
  Inv c' [] -> (forall r, live (get_cache r c') = unflushed (get_cache r c)) ->
  spare k (pops_mode sh szs) flag c' [].
Proof.
  intros Hr Hl Hi Hlive. destruct (retained_owned c c' [] Hi Hlive) as [Eo Eiu].
  unfold ready, pops_mode in *. destruct sh; cbn [spare]; rewrite Eo.
  - rewrite Hlive, <- (live_length (get_cache flag c')), Hlive by (by eapply inv_cache_ok). tauto.
  - by rewrite Eiu.
Qed.

Lemma hwp_fetch `{VM : BuxnVm} c m H st sh szs :
  let op := read_memory c (pc c) in
  Rep c m H st -> is_u8 op -> (length szs <= 3)%nat ->
  ready sh szs (if op_keep op then 2 else 0) (op_return op) c ->
  hwp fetch_opcode (fun _ c' m' =>
    current_opcode c' = op /\ pc c' = u16 (pc c + 1) /\ vm_memory (jit c') = vm_memory (jit c) /\
    keeps (vmb := vmb) m m' /\ exists H', (length H' <= 2)%nat /\ PopAt c' m' st sh szs c' m' H' [] (st (buxn_jit_op_flag_r c'))) c m.
Proof.
  intros op Hr Hop Hszs Hready. unfold fetch_opcode. eapply h_refresh; [exact Hr|].
  intros c1 Hr1 Hl1 Hfl1 Hf1.
  pose proof (ready_spare _ _ _ _ c c1 Hready) as Hsp.
  assert (read_memory c1 (pc c1) = op) as Eop by (unfold frame in Hf1; unfold op, read_memory; congruence).
  assert (pc c1 = pc c) as Epc by (unfold frame in Hf1; congruence).
  do 2 (apply hwp_bind, hwp_modify; [done|]).
  match goal with |- hwp _ _ ?x _ => set (c3 := x) end.
  assert (Rep c3 m [] st) as Hr3 by (by apply (rep_like_view c1 m [] st)).
  eapply h_call_jit_opcode; [apply (rp_core _ _ _ _ Hr3)|].
  intros c4 (Hv4 & Hn4 & Hpc4 & Hop4 & Hj4). pose proof (rep_like_view _ _ _ _ _ Hr3 Hv4 Hn4) as Hr4.
  pose proof (view_cache _ _ Hv4) as Hk4.
  assert (forall r, get_cache r c4 = get_cache r c1) as Hk41 by (intros r; rewrite Hk4; by destruct r).
  assert (current_opcode c4 = op) as Hop4' by (rewrite Hop4; exact Eop).
  destruct (flags_bits c4) as (_ & Er & Ek); [by rewrite Hop4'|].
  eapply hwp_mono; [apply (hwp_shadow c4 m st sh szs Hr4)|].
  - intros r. by rewrite Hk41.
  - unfold shadow_regs. rewrite Er, Ek, Hop4'. apply (spare_caches _ _ _ c1); [done|].
    apply Hsp; [destruct (op_keep op); change NUM_OP_REGS with 6%nat; lia|apply Hr1|done].
  - intros [] c' m' (Hpc' & Hop' & Hj' & Hkeep & HH). split; [congruence|]. split; [|split; [|done]].
    + rewrite Hpc', Hpc4. cbn. by rewrite Epc.
    + rewrite Hj', Hj4. cbn. unfold frame in Hf1. congruence.
Qed.
End FetchSim.
