(* ===== verification/OpcodeCorrect.v ===== *)
(** * One opcode, compiled and executed

    [dispatch_sim]: the code of a handler takes the machine from the state the
    fetch left to the state the specification of Uxn.v computes;
    [next_opcode_sim]: so does [buxn_jit_next_opcode] from any state between
    two opcodes. *)
From S2P Require Import Prelude Lir Hamt Jit StackCache Uxn MicroOps Opcodes Compile Concrete Invariant CacheSafety OpcodeSafety BlockSafety Machine StackSim PopSim OperandSim StepSim OpcodeSim MemSim DivSim FetchSim.
Local Open Scope jit_scope.

(** ** Operands of the specification *)

Lemma pop1_u8 f l v l' :
  Forall is_u8 l -> pop1 f l = Some (v, l') -> val_in f v /\ Forall is_u8 l'.
Proof.
  intros Hl Hp. destruct (pop1_bytes f l v l' Hl Hp) as [-> Hv].
  by apply Forall_app in Hl as [_ ?].
Qed.

(** ** The specification reads the memory at 16-bit addresses only *)

Definition alike (s s' : vm) : Prop :=
  vm_stacks s' = vm_stacks s /\ vm_pc s' = vm_pc s /\ forall y, is_u16 y -> vm_ram s' y = vm_ram s y.

Lemma put_alike f l s s' s1 :
  alike s s' -> put f l s = Some s1 -> exists s2, put f l s' = Some s2 /\ alike s1 s2.
Proof.
  intros (Es & Ep & Er). unfold put. destruct (Nat.leb_spec (length l) 256); [|done].
  intros [= <-]. eexists. split; [done|]. split; [by rewrite Es|done].
Qed.

Lemma ram_read_alike f w mu mu' a :
  (forall y, is_u16 y -> mu' y = mu y) -> is_u16 a -> is_u16 (w (a + 1)) ->
  ram_read f w mu' a = ram_read f w mu a.
Proof. intros E Ha Hw. unfold ram_read. by rewrite !E. Qed.

Lemma u16_u8 x : is_u16 (u8 x).
Proof. pose proof (u8_range x). mlia. Qed.

(** The result of the first pop of a specification that succeeds. *)
Ltac spec_pop :=
  match goal with
  | Hs : context [mbind _ (pop1 ?f ?l)] |- _ =>
      let v := fresh "v" in let l' := fresh "l" in let E := fresh "E" in
      destruct (pop1 f l) as [[v l']|] eqn:E; cbn in Hs; [|discriminate Hs];
      try match goal with Hu : Forall is_u8 l |- _ =>
        let Hv := fresh "Hv" in let Hu' := fresh "Hu" in
        destruct (pop1_u8 f l v l' Hu E) as [Hv Hu'] end
  end.

Ltac bytes_of := rewrite ?to_bytes_val in * by (assumption || apply size_mask_in).

Lemma vm_step_alike n op s s' s1 :
  Forall is_u8 (vm_stacks s (op_return op)) -> is_u16 (vm_pc s) -> alike s s' ->
  vm_step n op s = Some s1 -> exists s2, vm_step n op s' = Some s2 /\ alike s1 s2.
Proof.
  destruct s as [st mu p], s' as [st' mu' p']. intros Hu Hp (Es & Ep & Er).
  cbn [vm_stacks vm_pc vm_ram] in *. subst st' p'. unfold vm_step. cbn [vm_stacks vm_pc vm_ram].
  assert (alike (mkVm st mu p) (mkVm st mu' p)) as Hal by done.
  intros Hs. destruct n; try discriminate;
    try (destruct (stack_spec _ _ _) as [[new rest]|]; cbn in Hs |- *; [|discriminate];
         eapply put_alike; [exact Hal|exact Hs]).
  all: unfold id in *; repeat (spec_pop; cbn in Hs |- * ).
  all: repeat match goal with Hv : val_in _ ?v |- _ => apply val_in_u16 in Hv end.
  all: rewrite ?(ram_read_alike _ _ mu mu') by (first [done|apply u16_range|apply u16_u8]).
  all: try (eapply put_alike; [|exact Hs]; done).
  all: injection Hs as <-; eexists; (split; [done|]); split; [done|]; split; [done|]; intros y Hy.
  all: cbn; unfold ram_write; by rewrite Er.
Qed.

Section OpcodeCorrect.
Context {Lay : VmLayout} {SL : Sljit} {SP : SljitSpec} {HO : Host} {vmb : Z} {LS : LayoutSpec vmb}.

(** The handlers that compute in a register they popped. *)
Definition in_place (n : opname) : bool :=
  match n with INC | LDR | STR => true | _ => false end.

Section Dispatch.
Context (c0 : buxn_jit_ctx_t) (m0 : mach) (st0 : bool -> list Z) (sh : bool).

#[local] Abbreviation short := (buxn_jit_op_flag_2 c0).
#[local] Abbreviation flag := (buxn_jit_op_flag_r c0).
#[local] Abbreviation PopAt := (PopAt (vmb := vmb) c0 m0 st0 sh).
#[local] Abbreviation Ends := (Ends (vmb := vmb) c0 m0 st0).
#[local] Abbreviation below := (below c0 st0).

Lemma popat_u8 n c m H vals l : PopAt n c m H vals l -> Forall is_u8 l.
Proof. intros [Hp _]. by eapply pv_u8, pops_pv. Qed.

Lemma sl_compare (cc : cond) f :
  (forall a b, is_word a -> is_word b -> sl_test cc a b = f a b) -> compares cc f.
Proof. done. Qed.

(** The opcodes that only change the current stack. *)
Lemma stack_sim next n H l new rest :
  PopAt (op_sizes n short) c0 m0 H [] l -> (sh = true -> in_place n = false) -> (length H <= 2)%nat ->
  stack_spec n short l = Some (new, rest) -> (length (new ++ below rest) <= 256)%nat ->
  hwp (dispatch next n) (Ends (new ++ below rest)) c0 m0.
Proof.
  intros Hp Hsh HH Hs Hlen. pose proof (popat_u8 _ _ _ _ _ _ Hp) as Hu.
  destruct n; try discriminate; cbn [stack_spec op_sizes dispatch in_place] in *; repeat spec_pop;
    simplify_eq; bytes_of; rewrite <- ?app_assoc in *;
    [eapply sim_INC; try done; by destruct sh; [specialize (Hsh eq_refl)|]|by eapply sim_POP|by eapply sim_NIP|by eapply sim_SWP|by eapply sim_ROT
    |by eapply sim_DUP|by eapply sim_OVR|..].
  - eapply (sim_compare c0 m0 st0 sh _ _ Z.eqb); try done. by intros ????; apply sl_equal.
  - eapply (sim_compare c0 m0 st0 sh _ _ (fun a b => negb (a =? b))); try done.
    by intros ????; apply sl_not_equal.
  - eapply (sim_compare c0 m0 st0 sh _ _ (fun a b => b <? a)); try done. by intros ????; apply sl_greater.
  - eapply (sim_compare c0 m0 st0 sh _ _ Z.ltb); try done. by intros ????; apply sl_less.
  - eapply (sim_arith c0 m0 st0 sh _ Z.add); try done. apply computes_add.
  - eapply (sim_arith c0 m0 st0 sh _ Z.sub); try done. apply computes_sub.
  - eapply (sim_arith c0 m0 st0 sh _ Z.mul); try done. apply computes_mul.
  - rewrite (size_mask_id short) in * by (by apply div_in).
    by eapply (sim_DIV c0 m0 st0 sh).
  - eapply (sim_arith c0 m0 st0 sh _ Z.land); try done. apply computes_and.
  - eapply (sim_arith c0 m0 st0 sh _ Z.lor); try done. apply computes_or.
  - eapply (sim_arith c0 m0 st0 sh _ Z.lxor); try done. apply computes_xor.
  - by eapply sim_SFT.
Qed.

(** ** Every opcode of the straight line *)

(** The state of the specification after an opcode. *)
Definition Reaches (s : vm) (m1 : mach) (u : unit) (c : buxn_jit_ctx_t) (m : mach) : Prop :=
  (exists H, Rep (vmb := vmb) c m H (vm_stacks s)) /\ pc c = vm_pc s /\ jit c = jit c0 /\
  (forall y, is_u16 y -> ram (vmb := vmb) m y = vm_ram s y) /\ elsewhere (vmb := vmb) m1 m.

Lemma reaches_ends c1 st mu u c m :
  jit c1 = jit c0 -> EndsWith (vmb := vmb) c1 m0 st mu u c m -> Reaches (mkVm st mu (pc c1)) m0 u c m.
Proof.
  intros Hj (Hr & Hc & Hram & He). split; [done|]. unfold ctl in Hc. split; [cbn; congruence|].
  split; [congruence|done].
Qed.

Lemma ram_read_in f w a m : bytes m -> val_in f (ram_read f w (ram (vmb := vmb) m) a).
Proof.
  intros Hb. pose proof (fun y => ram_u8 (vmb := vmb) m y Hb) as Hr. unfold ram_read.
  destruct f; cbn [val_in]; [by apply byte_join|done].
Qed.

Lemma put_some f l s s' : put f l s = Some s' ->
  (length l <= 256)%nat /\ s' = mkVm (set_stack f l (vm_stacks s)) (vm_ram s) (vm_pc s).
Proof. unfold put. destruct (Nat.leb_spec (length l) 256); [|done]. by intros [= <-]. Qed.

Lemma reaches_stack next n s' l :
  (length l <= 256)%nat -> put flag l (mkVm st0 (ram (vmb := vmb) m0) (pc c0)) = Some s' ->
  hwp (dispatch next n) (Ends l) c0 m0 -> hwp (dispatch next n) (Reaches s' m0) c0 m0.
Proof.
  intros Hl Hput Hh. apply put_some in Hput as [_ ->]. eapply hwp_mono; [exact Hh|].
  intros u c m He. apply reaches_ends; [done|]. by apply ends_with.
Qed.

Lemma dispatch_sim H n next s' :
  PopAt (op_sizes n short) c0 m0 H [] (st0 flag) -> (sh = true -> in_place n = false) ->
  (length H <= 2)%nat ->
  is_u8 (current_opcode c0) -> is_u16 (pc c0) ->
  vm_step n (current_opcode c0) (mkVm st0 (ram (vmb := vmb) m0) (pc c0)) = Some s' ->
  hwp (dispatch next n) (Reaches s' m0) c0 m0.
Proof.
  intros Hpop Hsh Hheld Hop Hpc Hs.
  assert (bytes m0) as Hby by (eapply co_bytes, pv_core, pops_pv, (proj1 Hpop)).
  pose proof (flags_bits c0 Hop) as (E2 & Er & Ek). pose proof (popat_u8 _ _ _ _ _ _ Hpop) as Hu.
  unfold vm_step in Hs. rewrite <- E2, <- Er, <- Ek in Hs.
  cbn [vm_stacks vm_ram vm_pc] in Hs.
  assert (forall new rest, stack_spec n short (st0 flag) = Some (new, rest) ->
    put flag (new ++ below rest) (mkVm st0 (ram (vmb := vmb) m0) (pc c0)) = Some s' ->
    hwp (dispatch next n) (Reaches s' m0) c0 m0) as Hstack.
  { intros new rest Hst Hput. pose proof (put_some _ _ _ _ Hput) as [Hlen _].
    eapply reaches_stack; [exact Hlen|exact Hput|]. by eapply stack_sim. }
  assert (in_place n = true -> sh = false) as Hin by (intros E; destruct sh; [by rewrite Hsh in E|done]).
  destruct n; try discriminate;
    try (destruct (stack_spec _ short (st0 flag)) as [[new rest]|] eqn:Est; cbn in Hs; [|discriminate];
         by eapply Hstack).
  - spec_pop. bytes_of. apply put_some in Hs as [Hlen ->]. cbn [vm_stacks vm_ram vm_pc] in *.
    eapply hwp_mono; [by eapply sim_STH|]. intros u c m He. apply reaches_ends; [done|]. by apply ends_with.
  - spec_pop. rewrite (to_bytes_val short) in Hs by (by apply ram_read_in).
    pose proof (put_some _ _ _ _ Hs) as [Hlen _]. eapply reaches_stack; [exact Hlen|exact Hs|].
    by eapply sim_LDZ.
  - do 2 spec_pop. simplify_eq. eapply hwp_mono; [by eapply sim_STZ|]. intros u c m. by apply reaches_ends.
  - spec_pop. rewrite (to_bytes_val short) in Hs by (by apply ram_read_in).
    pose proof (put_some _ _ _ _ Hs) as [Hlen _]. eapply reaches_stack; [exact Hlen|exact Hs|].
    pose proof (Hin eq_refl) as Ef. by eapply sim_LDR.
  - do 2 spec_pop. simplify_eq. pose proof (Hin eq_refl) as Ef. eapply hwp_mono; [by eapply sim_STR|]. intros u c m. by apply reaches_ends.
  - spec_pop. rewrite (to_bytes_val short) in Hs by (by apply ram_read_in).
    pose proof (put_some _ _ _ _ Hs) as [Hlen _]. eapply reaches_stack; [exact Hlen|exact Hs|].
    by eapply sim_LDA.
  - do 2 spec_pop. simplify_eq. eapply hwp_mono; [by eapply sim_STA|]. intros u c m. by apply reaches_ends.
  - rewrite (to_bytes_val short) in Hs by (by apply ram_read_in).
    apply put_some in Hs as [Hlen ->]. cbn [vm_stacks vm_ram vm_pc] in *.
    assert (below (st0 flag) = st0 flag) as Eb by (unfold StepSim.below; by destruct (buxn_jit_op_flag_k c0)).
    apply s_hold in Hpop as Hh. rewrite Eb in Hh.
    eapply hwp_mono; [by eapply sim_LIT|]. intros u c m He.
    apply (reaches_ends (set_pc (fun p => u16 (p + (if short then 2 else 1))) c0)); [done|]. apply ends_with. exact He.
Qed.
End Dispatch.

(** ** From one opcode to the next *)

(** The machine [m] about to run the code of the next opcode of the context
    [c] is in the state [s] of the specification. *)
Definition Shows (c : buxn_jit_ctx_t) (m : mach) (s : vm) : Prop :=
  (exists H, Rep (vmb := vmb) c m H (vm_stacks s)) /\ pc c = vm_pc s /\
  forall y, is_u16 y -> ram (vmb := vmb) m y = vm_ram s y.

Lemma shows_alike c m s s' : Shows c m s -> alike s s' -> Shows c m s'.
Proof.
  intros (Hr & Hp & Hram) (Es & Ep & Er). split; [by rewrite Es|]. split; [by rewrite Ep|].
  intros y Hy. by rewrite Er, Hram.
Qed.

Lemma elsewhere_trans m1 m2 m3 :
  elsewhere (vmb := vmb) m1 m2 -> elsewhere (vmb := vmb) m2 m3 -> elsewhere (vmb := vmb) m1 m3.
Proof. intros H12 H23 a Ha Hn. by rewrite H23, H12. Qed.

Context {VM : BuxnVm}.

(** The opcode byte of the next opcode and what the code generator needs to
    compile it without a fault: no register that is changed in place is
    shared, by a split short or by the handler, and there are enough of them. *)
Definition next_byte (c : buxn_jit_ctx_t) : Z := read_memory c (pc c).

Definition pop_ready (sh : bool) (op : Z) (c : buxn_jit_ctx_t) : Prop :=
  ready sh (op_sizes (opcode_name op) (op_short op)) (if op_keep op then 2 else 0) (op_return op) c.

#[global] Instance pop_ready_dec sh op c : Decision (pop_ready sh op c).
Proof. apply ready_dec. Defined.

Definition poppable (c : buxn_jit_ctx_t) : bool :=
  (256 <=? pc c) && (pc c <? 65536) && (0 <=? next_byte c) && (next_byte c <? 256) &&
  (bool_decide (pop_ready false (next_byte c) c) ||
   negb (in_place (opcode_name (next_byte c))) && bool_decide (pop_ready true (next_byte c) c)).

Lemma poppable_spec c : poppable c = true ->
  256 <= pc c < 65536 /\ is_u8 (next_byte c) /\
  exists sh, (sh = true -> in_place (opcode_name (next_byte c)) = false) /\
    pop_ready sh (next_byte c) c.
Proof.
  unfold poppable. rewrite !andb_true_iff, orb_true_iff, andb_true_iff, !bool_decide_eq_true.
  intros ((((H1 & H2) & H3) & H4) & H5). split; [lia|]. split; [unfold is_u8; lia|].
  destruct H5 as [H5|[Hn%Bool.negb_true_iff H5]]; [by exists false|by exists true].
Qed.

(** The opcode, fetched. *)
Lemma fetch_popped c m H st sh :
  Rep (vmb := vmb) c m H st -> is_u8 (next_byte c) -> pop_ready sh (next_byte c) c ->
  hwp fetch_opcode (fun _ c' m' =>
    current_opcode c' = next_byte c /\ pc c' = u16 (pc c + 1) /\
    vm_memory (jit c') = vm_memory (jit c) /\ keeps (vmb := vmb) m m' /\
    exists H', (length H' <= 2)%nat /\
      PopAt (vmb := vmb) c' m' st sh (op_sizes (opcode_name (current_opcode c')) (buxn_jit_op_flag_2 c'))
        c' m' H' [] (st (buxn_jit_op_flag_r c'))) c m.
Proof.
  intros Hr Hop Hready. eapply hwp_mono.
  { apply (hwp_fetch c m H st sh (op_sizes (opcode_name (next_byte c)) (op_short (next_byte c))) Hr Hop);
      [apply op_sizes_le|exact Hready]. }
  intros [] c1 m1 (Hop1 & Hpc1 & Hj1 & Hk1 & H1 & HH1 & Hpop). fold (next_byte c) in Hop1.
  do 4 (split; [done|]). exists H1. split; [done|].
  destruct (flags_bits c1) as (-> & _); [by rewrite Hop1|]. by rewrite Hop1.
Qed.

(** One step of the specification, from the pc of the opcode. *)
Definition vm_next (op : Z) (s : vm) : option vm :=
  vm_step (opcode_name op) op (mkVm (vm_stacks s) (vm_ram s) (u16 (vm_pc s + 1))).

Lemma next_opcode_sim fuel c m s s' :
  Shows c m s -> poppable c = true -> vm_next (next_byte c) s = Some s' ->
  hwp (buxn_jit_next_opcode (S fuel)) (fun _ c' m' =>
    Shows c' m' s' /\ vm_memory (jit c') = vm_memory (jit c) /\ elsewhere (vmb := vmb) m m') c m.
Proof.
  intros ([H Hr] & Hp & Hram) (Hpc & Hop & sh & Hsh & Hready)%poppable_spec Hs.
  cbn [buxn_jit_next_opcode]. unfold opcode_step. apply hwp_bind, hwp_gets.
  destruct (Z.ltb_spec (pc c) 256); [lia|]. apply hwp_bind.
  eapply hwp_mono; [by eapply (fetch_popped c m H (vm_stacks s) sh)|].
  intros [] c1 m1 (Hop1 & Hpc1 & Hj1 & Hk1 & H1 & HH1 & Hpop). apply hwp_bind, hwp_gets.
  assert (is_u8 (current_opcode c1)) as Hop1' by (by rewrite Hop1).
  assert (is_u16 (pc c1)) as Hpc1' by (rewrite Hpc1; apply u16_range).
  destruct (flags_bits c1 Hop1') as (_ & Er & _).
  destruct (vm_step_alike (opcode_name (next_byte c)) (next_byte c)
    (mkVm (vm_stacks s) (vm_ram s) (u16 (vm_pc s + 1)))
    (mkVm (vm_stacks s) (ram (vmb := vmb) m1) (pc c1)) s') as (s2 & Hs2 & Hal).
  - cbn. rewrite <- Hop1, <- Er. by eapply popat_u8.
  - apply u16_range.
  - split; [done|]. split; [cbn; by rewrite Hpc1, Hp|]. intros y Hy. cbn.
    by rewrite (off_stacks_ram m m1 Hk1 y Hy), Hram.
  - exact Hs.
  - rewrite <- Hop1 in Hs2.
    eapply hwp_mono; [eapply (dispatch_sim c1 m1 (vm_stacks s) sh H1); [exact Hpop|by rewrite Hop1|done..|exact Hs2]|].
    intros [] c2 m2 (Hr2 & Hpc2 & Hj2 & Hram2 & He2). split; [|split; [by rewrite Hj2|]].
    + destruct Hal as (Es & Ep & Era). split; [by rewrite <- Es|]. split; [by rewrite Hpc2, Ep|].
      intros y Hy. by rewrite Hram2, Era.
    + intros a Ha Hn. by rewrite He2, Hk1.
Qed.

(** ** Straight-line code *)

(** Compile [k] opcodes, each of them [poppable]. *)
Fixpoint compile_straight (k fuel : nat) (c : buxn_jit_ctx_t) : option buxn_jit_ctx_t :=
  match k with
  | O => Some c
  | S k =>
      if poppable c then
        match buxn_jit_next_opcode (S fuel) c with
        | Ok (_, c') => compile_straight k fuel c'
        | _ => None
        end
      else None
  end.

(** [k] steps of the specification of the program [prog]. *)
Fixpoint vm_run (prog : Z -> Z) (k : nat) (s : vm) : option vm :=
  match k with
  | O => Some s
  | S k => s' ← vm_next (prog (u16 (vm_pc s))) s; vm_run prog k s'
  end.

Lemma straight_sim k fuel : forall c m s s' c',
  bound_ok (comp c) -> Shows c m s -> compile_straight k fuel c = Some c' ->
  vm_run (vm_memory (jit c)) k s = Some s' ->
  exists m', runs (comp c) (comp c') m m' /\ bound_ok (comp c') /\ Shows c' m' s' /\
    elsewhere (vmb := vmb) m m'.
Proof.
  induction k as [|k IH]; intros c m s s' c' Hb Hsh Hc Hs;
    cbn [compile_straight vm_run] in Hc, Hs.
  - simplify_eq. exists m. split; [apply runs_refl|done].
  - destruct (poppable c) eqn:Hp; [|done].
    destruct (vm_next _ s) as [s1|] eqn:E1; cbn in Hs; [|done].
    assert (vm_next (next_byte c) s = Some s1) as E1'.
    { unfold next_byte, read_memory. destruct Hsh as (_ & -> & _). exact E1. }
    pose proof (next_opcode_sim fuel c m s s1 Hsh Hp E1' Hb) as Hone. unfold wp in Hone.
    destruct (buxn_jit_next_opcode (S fuel) c) as [[[] c1]| |]; [|done|done].
    destruct Hone as (m1 & [Hr1 Hb1] & Hsh1 & Hj1 & He1).
    destruct (IH c1 m1 s1 s' c' Hb1 Hsh1 Hc) as (m' & Hr & Hb' & Hsh' & He'); [by rewrite Hj1|].
    exists m'. split; [by eapply runs_trans|]. split; [done|]. split; [done|].
    by eapply elsewhere_trans.
Qed.
End OpcodeCorrect.
