(* ===== verification/ExitSim.v ===== *)
(** * Leaving a block

    Before a block returns or jumps, [buxn_jit_clear_stack_caches] writes the
    cached cells back, so that the next block, the trampoline and the
    interpreter find both stacks in the memory of the virtual machine.
    [exits] describes code that ends in a return or a jump. *)
From S2P Require Import Prelude Lir Hamt Jit StackCache Uxn MicroOps Opcodes Compile Invariant CacheSafety OpcodeSafety BlockSafety Machine StackSim PopSim OperandSim StepSim MemSim FetchSim OpcodeCorrect.
Local Open Scope jit_scope.

Section ExitSim.
Context {Lay : VmLayout} {SL : Sljit} {SP : SljitSpec} {HO : Host} {vmb : Z} {LS : LayoutSpec vmb}.

#[local] Abbreviation base := (base (vmb := vmb)).
#[local] Abbreviation Rep := (Rep (vmb := vmb)).
#[local] Abbreviation evolves := (evolves (vmb := vmb)).

(** ** Writing the caches back *)

Lemma hwp_clear_loop flag fuel : forall c m H st,
  Rep c m H st -> (len (get_cache flag c) <= fuel)%nat ->
  hwp (clear_loop fuel flag) (fun _ c' m' => Rep c' m' H st /\ evolves m m') c m.
Proof.
  induction fuel as [|fuel IH]; intros c m H st Hr Hlen; cbn [clear_loop]; apply hwp_bind;
    (eapply hwp_mono; [eapply hwp_wp; [by apply hwp_spill|apply wp_spill, Hr]|]);
    intros b c1 m1 [[Hr1 Hev1] (_ & _ & _ & Hl1 & ->)];
    destruct (Nat.eqb_spec (len (get_cache flag c)) 0) as [H0|H0]; cbn [negb]; try by apply hwp_ret.
  { lia. }
  eapply hwp_mono; [apply (IH c1 m1 H st Hr1); lia|]. intros u c2 m2 [Hr2 Hev2].
  split; [done|by eapply evolves_trans].
Qed.

(** Both stacks in the memory of the virtual machine. *)
Definition in_memory (m : mach) (st : bool -> list Z) : Prop :=
  forall r, stk (mem m) (base r) (regs m (sp_reg r)) (st r).

Lemma rep_in_memory c m H st :
  Rep c m H st -> len (wst_cache c) = 0%nat -> len (rst_cache c) = 0%nat -> in_memory m st.
Proof.
  intros Hr Hw Hrt r. destruct (rp_stack _ _ _ _ Hr r) as (_ & lm & -> & Hlm).
  assert (unflushed (get_cache r c) = []) as ->; [|done].
  unfold unflushed, live. by destruct r; cbn [get_cache]; rewrite ?Hw, ?Hrt.
Qed.

Lemma hwp_clear c m H st :
  Rep c m H st ->
  hwp buxn_jit_clear_stack_caches (fun _ c' m' => Rep c' m' H st /\ evolves m m' /\ in_memory m' st /\
    frame c' = frame c /\ len (wst_cache c') = 0%nat /\ len (rst_cache c') = 0%nat) c m.
Proof.
  intros Hr. pose proof (rp_inv _ _ _ _ Hr) as Hi.
  assert (hwp buxn_jit_clear_stack_caches (fun _ c' m' => Rep c' m' H st /\ evolves m m') c m) as Hc.
  { unfold buxn_jit_clear_stack_caches, buxn_jit_stack_cache_clear. apply hwp_bind.
    eapply hwp_mono; [by apply hwp_clear_loop, (inv_cache_ok _ _ _ Hi)|]. intros u c1 m1 [Hr1 Hev1].
    eapply hwp_mono; [by apply hwp_clear_loop, (inv_cache_ok _ _ _ (rp_inv _ _ _ _ Hr1))|].
    intros u2 c2 m2 [Hr2 Hev2]. split; [done|by eapply evolves_trans]. }
  eapply hwp_mono; [eapply hwp_wp; [exact Hc|by eapply wp_clear]|].
  intros u c' m' [[Hr' Hev] (_ & [Hf _] & H1 & H2)]. split_and!; try done. by eapply rep_in_memory.
Qed.

(** ** Code that ends *)

Definition ended (f : flow) : Prop :=
  match f with Leave _ _ | Calling _ _ | Return _ _ => True | _ => False end.

Lemma exec_ended B l f : ended f -> exec B l f = f.
Proof. unfold exec. destruct f; try done; intros _; by induction l. Qed.

(** Emission, whatever the code does. *)
Definition extends (k k' : compiler) : Prop :=
  binds k ⊆ binds k' /\ exists new, code k' = code k ++ new.

Lemma extends_refl k : extends k k.
Proof. split; [done|]. exists []. by rewrite app_nil_r. Qed.

(** The code emitted by [f] ends with [fl] as [Q] says. *)
Definition exits {A} (f : J A) (Q : flow -> buxn_jit_ctx_t -> Prop) (c : buxn_jit_ctx_t) (m : mach) : Prop :=
  bound_ok (comp c) ->
  wp f (fun _ c' => bound_ok (comp c') /\ binds (comp c) ⊆ binds (comp c') /\ exists new fl,
    code (comp c') = code (comp c) ++ new /\
    (forall B, binds (comp c') ⊆ B -> exec B new (Run m) = fl) /\ ended fl /\ Q fl c') c.

Lemma exits_bind {A B} (f : J A) (k : A -> J B) Q c m :
  hwp f (fun a c' m' => exits (k a) Q c' m') c m -> exits (bind f k) Q c m.
Proof.
  intros Hf H0. apply wp_bind. eapply wp_mono; [by apply Hf|].
  intros a c1 (m1 & [[Hb1 (n1 & E1 & R1)] H1] & Hk). eapply wp_mono; [by apply Hk|].
  intros b c2 (H2 & Hb2 & n2 & fl & E2 & R2 & Hend & HQ). split; [done|]. split; [by etrans|].
  exists (n1 ++ n2), fl. split; [by rewrite E2, E1, app_assoc|]. split; [|done].
  intros B0 HB. rewrite exec_app, R1, R2; [done|done|]. by etrans.
Qed.

(** The instruction that ends the code, and what is emitted after it. *)
Lemma exits_lir {B} i (k : unit -> J B) Q c m fl :
  is_Some (compiler_ptr c) -> (forall Bd, exec_one Bd i m = fl) -> ended fl ->
  (forall c', Like c c' -> comp c' = emit i (comp c) -> bound_ok (comp c') ->
     wp (k tt) (fun _ c2 => bound_ok (comp c2) /\ extends (comp c') (comp c2) /\ Q fl c2) c') ->
  exits (bind (emit_lir i) k) Q c m.
Proof.
  intros [x Hx] He Hend HK H0. apply wp_bind. unfold wp at 1, emit_lir, with_compiler. rewrite Hx.
  eapply wp_mono; [by apply HK|]. intros u c2 (Hb2 & [Hsub [new Enew]] & HQ). cbn in *.
  split; [done|]. split; [done|]. exists (i :: new), fl.
  split; [by rewrite Enew, <- app_assoc|]. split; [|done].
  intros B0 _. change (i :: new) with ([i] ++ new). rewrite exec_app. cbn. rewrite He. by apply exec_ended.
Qed.

Lemma exits_mono {A} (f : J A) (Q Q' : flow -> buxn_jit_ctx_t -> Prop) c m :
  exits f Q c m -> (forall fl c', Q fl c' -> Q' fl c') -> exits f Q' c m.
Proof.
  intros Hf HQ H0. eapply wp_mono; [by apply Hf|].
  intros a c' (? & ? & new & fl & ? & ? & ? & ?). split_and!; try done. exists new, fl. auto.
Qed.

(** ** Returning to the trampoline *)

Lemma word_page : is_word 0x10000.
Proof. unfold is_word. destruct word_size as [-> | ->]; lia. Qed.

(** [BRK] returns 0x10000 with both stacks in memory. *)
Lemma exits_BRK c m H st :
  Rep c m H st ->
  exits buxn_jit_BRK (fun fl c' => compiler_ptr c' = None /\ exists m', fl = Return 0x10000 m' /\
    evolves m m' /\ in_memory m' st) c m.
Proof.
  intros Hr. unfold buxn_jit_BRK. apply exits_bind. eapply hwp_mono; [by apply hwp_clear|].
  intros [] c1 m1 (Hr1 & Hev & Hm & _).
  eapply exits_lir; [apply Hr1|intros; cbn; rewrite wrap_id; [done|apply word_page]|done|].
  intros c2 [Hs Hb] Ec Hbo. apply wp_modify. split; [done|]. split; [by apply extends_refl|].
  split; [done|]. by exists m1.
Qed.

(** Below 0x0100 the block returns its pc, for the interpreter. *)
Lemma exits_zero_page c m H st :
  Rep c m H st -> is_u16 (pc c) ->
  exits zero_page_exit (fun fl c' => compiler_ptr c' = None /\ exists m', fl = Return (pc c) m' /\
    evolves m m' /\ in_memory m' st) c m.
Proof.
  intros Hr Hpc. unfold zero_page_exit. apply exits_bind. eapply hwp_mono; [by apply hwp_clear|].
  intros [] c1 m1 (Hr1 & Hev & Hm & Hf & _). apply exits_bind, hwp_gets.
  assert (pc c1 = pc c) as -> by (unfold frame in Hf; congruence).
  eapply exits_lir; [apply Hr1|intros; cbn; rewrite wrap_u16, u32_id by (unfold is_u16, is_u32 in *; lia); done|done|].
  intros c2 [Hs Hb] Ec Hbo. apply wp_modify. split; [done|]. split; [by apply extends_refl|].
  split; [done|]. by exists m1.
Qed.

(** What the program finds after the block: both stacks and the memory. *)
Definition Leaves (s : vm) (v : Z) (m1 : mach) (fl : flow) (c : buxn_jit_ctx_t) : Prop :=
  compiler_ptr c = None /\ exists m, fl = Return v m /\ in_memory m (vm_stacks s) /\
    (forall y, is_u16 y -> ram (vmb := vmb) m y = vm_ram s y) /\ elsewhere (vmb := vmb) m1 m.

Lemma leaves s v m0 m1 fl c :
  (forall y, is_u16 y -> ram (vmb := vmb) m1 y = vm_ram s y) -> elsewhere (vmb := vmb) m0 m1 ->
  (compiler_ptr c = None /\ exists m, fl = Return v m /\ evolves m1 m /\ in_memory m (vm_stacks s)) ->
  Leaves s v m0 fl c.
Proof.
  intros Hram He (Hc & m & -> & Hev & Hm). split; [done|]. exists m. split; [done|]. split; [done|].
  pose proof (evolves_keeps _ _ Hev) as Hk. split.
  - intros y Hy. by rewrite (off_stacks_ram _ _ Hk), Hram.
  - intros a Ha Hn. by rewrite Hk, He.
Qed.

Context {VM : BuxnVm}.

Lemma popat_rep sh szs c m st H l :
  PopAt (vmb := vmb) c m st sh szs c m H [] l -> l = st (buxn_jit_op_flag_r c) -> Rep c m H st.
Proof.
  intros Hp ->. apply s_hold in Hp. eapply rep_ext; [|apply (hd_rep _ _ _ _ _ _ (proj1 Hp))].
  intros r. unfold set_stack, StepSim.below. destruct (Bool.eqb_spec r (buxn_jit_op_flag_r c)) as [->|]; [|done].
  by destruct (buxn_jit_op_flag_k c).
Qed.

(** The opcode that ends a block, compiled and executed. *)
Lemma next_opcode_BRK fuel c m s :
  Shows (vmb := vmb) c m s -> poppable c = true -> opcode_name (next_byte c) = BRK ->
  exits (buxn_jit_next_opcode (S fuel)) (Leaves s 0x10000 m) c m.
Proof.
  intros ([H Hr] & Hp & Hram) (Hpc & Hop & sh & _ & Hready)%poppable_spec Hbrk.
  cbn [buxn_jit_next_opcode]. unfold opcode_step. apply exits_bind, hwp_gets.
  destruct (Z.ltb_spec (pc c) 256); [lia|]. apply exits_bind.
  eapply hwp_mono; [by eapply (fetch_popped c m H (vm_stacks s) sh)|].
  intros [] c1 m1 (Hop1 & _ & _ & Hk1 & H1 & HH1 & Hpop). apply exits_bind, hwp_gets.
  rewrite Hop1, Hbrk. eapply exits_mono; [eapply exits_BRK, popat_rep; [exact Hpop|done]|].
  intros fl c'. apply leaves.
  - intros y Hy. by rewrite (off_stacks_ram m m1 Hk1 y Hy), Hram.
  - intros a Ha _. by apply Hk1.
Qed.

Lemma next_opcode_zero_page fuel c m s :
  Shows (vmb := vmb) c m s -> is_u16 (pc c) -> pc c < 256 ->
  exits (buxn_jit_next_opcode (S fuel)) (Leaves s (vm_pc s) m) c m.
Proof.
  intros ([H Hr] & Hp & Hram) Hpc Hz. cbn [buxn_jit_next_opcode]. unfold opcode_step.
  apply exits_bind, hwp_gets. destruct (Z.ltb_spec (pc c) 256); [|lia].
  eapply exits_mono; [by eapply exits_zero_page|]. intros fl c'. rewrite Hp. by apply leaves.
Qed.
End ExitSim.
