(* ===== verification/UxnControl.v ===== *)
(** * An abstract specification of uxn's jumps

    [vm_exec] extends [vm_step] of Uxn.v with the opcodes that change the
    program counter, [vm_tick] is one step of the machine without devices.  The
    program is read from [prog]: it does not change while it runs.  A relative
    jump out of the 16-bit address space has no successor: uxn wraps it around
    and the compiled code does not. *)
From S2P Require Import Prelude Jit StackCache Uxn.

(** Where a jump with the operand [v] goes, from the pc after the opcode. *)
Definition jump_target (short : bool) (pc v : Z) : option Z :=
  if short then Some v
  else let t := pc + s8 v in if (0 <=? t) && (t <? 65536) then Some t else None.

(** The operand of an immediate jump, relative to the opcode after it. *)
Definition immediate_target (prog : Z -> Z) (pc : Z) : Z :=
  u16 (prog (u16 pc) * 256 + prog (u16 (pc + 1)) + u16 (pc + 2)).

Definition with_pc (t : Z) (s : vm) : vm := mkVm (vm_stacks s) (vm_ram s) t.
Definition with_stack (flag : bool) (l : list Z) (s : vm) : vm :=
  mkVm (set_stack flag l (vm_stacks s)) (vm_ram s) (vm_pc s).

(** [JCI] and [JSI] exist as the opcodes 0x20 and 0x60 only. *)
Definition vm_exec (prog : Z -> Z) (n : opname) (op : Z) (s : vm) : option vm :=
  let short := op_short op in
  let flag := op_return op in
  let l := vm_stacks s flag in
  let below rest := if op_keep op then l else rest in
  match n with
  | JMP =>
      '(v, rest) ← pop1 short l; t ← jump_target short (vm_pc s) v;
      Some (with_pc t (with_stack flag (below rest) s))
  | JCN =>
      '(v, rest) ← pop1 short l; '(x, rest) ← pop1 false rest;
      if x =? 0 then Some (with_stack flag (below rest) s)
      else t ← jump_target short (vm_pc s) v; Some (with_pc t (with_stack flag (below rest) s))
  | JSR =>
      '(v, rest) ← pop1 short l; t ← jump_target short (vm_pc s) v;
      put (negb flag) (to_bytes true (vm_pc s) ++ vm_stacks s (negb flag))
        (with_pc t (with_stack flag (below rest) s))
  | JCI =>
      if op =? 0x20 then
        '(x, rest) ← pop1 false (vm_stacks s false);
        Some (with_pc (if x =? 0 then u16 (vm_pc s + 2) else immediate_target prog (vm_pc s))
                (with_stack false rest s))
      else None
  | JMI => Some (with_pc (immediate_target prog (vm_pc s)) s)
  | JSI =>
      if op =? 0x60 then
        put true (to_bytes true (u16 (vm_pc s + 2)) ++ vm_stacks s true)
          (with_pc (immediate_target prog (vm_pc s)) s)
      else None
  | _ => vm_step n op s
  end.

Section WithOpcodes.
Context `{BuxnVm}.

(** One step, from the pc of the opcode; none at [BRK] and below 0x0100. *)
Definition vm_tick (prog : Z -> Z) (s : vm) : option vm :=
  let op := prog (u16 (vm_pc s)) in
  if vm_pc s <? 256 then None
  else vm_exec prog (opcode_name op) op (with_pc (u16 (vm_pc s + 1)) s).

(** The machine stops: at [BRK], or in the zero page, which the interpreter
    runs.  [exit_value] is what compiled code returns there. *)
Definition stops (prog : Z -> Z) (s : vm) : Prop :=
  vm_pc s < 256 \/ opcode_name (prog (u16 (vm_pc s))) = BRK.

Definition exit_value (s : vm) : Z := if vm_pc s <? 256 then vm_pc s else 0x10000.

Lemma stops_tick prog s : stops prog s -> vm_tick prog s = None.
Proof.
  unfold vm_tick. intros [Hz|Hb]; destruct (Z.ltb_spec (vm_pc s) 256); try done; [lia|].
  by rewrite Hb.
Qed.
End WithOpcodes.
