(* ===== verification/UxnDevices.v ===== *)
(** * An abstract specification of uxn with its devices

    [DevModel] is what a program sees of the devices: a state, what it does
    with a byte of the device page, what an input answers and an output does.
    A device may change the stacks and the memory (uxn's system device does).
    [uxn] is the machine with its devices, [uxn_tick] one step of it: [DEI] and
    [DEO] here, every other opcode in UxnControl.v. *)
From S2P Require Import Prelude Jit StackCache Uxn UxnControl.

Class DevModel := {
  dev : Type;
  dev_write : Z -> Z -> dev -> dev;
  dev_in : Z -> vm -> dev -> Z * (vm * dev);
  dev_out : Z -> vm -> dev -> vm * dev;
}.

Record uxn {DM : DevModel} := mkUxn {
  u_vm : vm;
  u_dev : dev;
}.

Section Devices.
Context {DM : DevModel}.

Definition on_vm (f : vm -> vm) (u : uxn) : uxn := mkUxn _ (f (u_vm u)) (u_dev u).
Definition on_dev (f : dev -> dev) (u : uxn) : uxn := mkUxn _ (u_vm u) (f (u_dev u)).

(** One byte from and to the address [a].  Devices do not see the pc. *)
Definition dei (a : Z) (u : uxn) : Z * uxn :=
  let '(v, (s, d)) := dev_in a (u_vm u) (u_dev u) in (v, mkUxn _ (with_pc (vm_pc (u_vm u)) s) d).

Definition deo (a : Z) (u : uxn) : uxn :=
  let '(s, d) := dev_out a (u_vm u) (u_dev u) in mkUxn _ (with_pc (vm_pc (u_vm u)) s) d.

(** A value of the size of the opcode: the high byte first, at [a]. *)
Definition input (short : bool) (a : Z) (u : uxn) : Z * uxn :=
  let '(hi, u1) := dei a u in
  if short then let '(lo, u2) := dei (u8 (a + 1)) u1 in (hi * 256 + lo, u2) else (hi, u1).

Definition output (short : bool) (a : Z) (u : uxn) : uxn :=
  if short then deo (u8 (a + 1)) (deo a u) else deo a u.

(** The bytes of a value in the device page. *)
Definition page_write (short : bool) (a v : Z) (d : dev) : dev :=
  if short then dev_write (u8 (a + 1)) (v mod 256) (dev_write a (v / 256) d) else dev_write a v d.

(** [DEI] pushes on the stack the device left; [DEO] stores in the device page,
    then tells the device. *)
Definition device_exec (n : opname) (op : Z) (u : uxn) : option uxn :=
  let short := op_short op in
  let flag := op_return op in
  let l := vm_stacks (u_vm u) flag in
  let below rest := if op_keep op then l else rest in
  match n with
  | DEI =>
      '(a, rest) ← pop1 false l;
      let '(v, u') := input short a (on_vm (with_stack flag (below rest)) u) in
      s ← put flag (to_bytes short v ++ vm_stacks (u_vm u') flag) (u_vm u');
      Some (mkUxn _ s (u_dev u'))
  | DEO =>
      '(a, rest) ← pop1 false l; '(v, rest) ← pop1 short rest;
      Some (output short a (on_dev (page_write short a v) (on_vm (with_stack flag (below rest)) u)))
  | _ => None
  end.

Definition is_device (n : opname) : bool := match n with DEI | DEO => true | _ => false end.
End Devices.

Section Ticks.
Context {DM : DevModel} {VM : BuxnVm}.

(** One step, from the pc of the opcode; none at [BRK] and below 0x0100. *)
Definition uxn_tick (prog : Z -> Z) (u : uxn) : option uxn :=
  let s := u_vm u in
  let op := prog (u16 (vm_pc s)) in
  if negb (is_device (opcode_name op)) then s' ← vm_tick prog s; Some (mkUxn _ s' (u_dev u))
  else if vm_pc s <? 256 then None
  else device_exec (opcode_name op) op (on_vm (with_pc (u16 (vm_pc s + 1))) u).

Fixpoint uxn_ticks (prog : Z -> Z) (k : nat) (u : uxn) : option uxn :=
  match k with
  | O => Some u
  | S k => u' ← uxn_tick prog u; uxn_ticks prog k u'
  end.

Lemma stops_no_tick prog u : stops prog (u_vm u) -> uxn_tick prog u = None.
Proof.
  unfold uxn_tick. intros Hs. destruct (is_device _) eqn:Ed; cbn [negb].
  - destruct Hs as [Hz|Hb]; [|by rewrite Hb in Ed]. by destruct (Z.ltb_spec (vm_pc (u_vm u)) 256); [|lia].
  - by rewrite (stops_tick _ _ Hs).
Qed.
End Ticks.
