(* ===== verification/Emission.v ===== *)
(** * What compiling adds to the code

    [grown p p']: the code at the point [p] is a prefix of that at [p'], the
    new labels have numbers below the next one, no jump emitted before is bound
    again, and the link entries added are for new jumps, one for each at most.
    [Logs]: so does an operation, whatever it compiles, and the labels of the
    block's entries stay; in particular
    [buxn_jit_next_opcode] and the loop over a block, also where the emitted
    code is never reached. *)
From S2P Require Import Prelude Lir Hamt Jit Queues StackCache MicroOps Opcodes Compile Invariant.
Local Open Scope jit_scope.

(** The emitted code, the jumps to link, and [ctx->compiler]. *)
Definition point : Type := compiler * (list buxn_jit_entry_t * option nat).
Definition out (c : buxn_jit_ctx_t) : point := (comp c, (link_queue (jit c), compiler_ptr c)).

(** An entry for a jump of the compiler [o] with a number in a range. *)
Definition new_jump (o : option nat) (lo hi : nat) (e : buxn_jit_entry_t) : Prop :=
  o = Some (e_compiler e) /\ exists j, e_union e = UJump j /\ (lo <= j < hi)%nat.

Record grown (p p' : point) : Prop := {
  gn_jump : (next_jump (fst p) <= next_jump (fst p'))%nat;
  gn_label : (next_label (fst p) <= next_label (fst p'))%nat;
  gn_code : exists new, code (fst p') = code (fst p) ++ new /\
    forall l, LLabel l ∈ new -> (l < next_label (fst p'))%nat;
  gn_binds : forall j, (j < next_jump (fst p))%nat -> binds (fst p') !! j = binds (fst p) !! j;
  gn_links : exists new, fst (snd p') = new ++ fst (snd p) /\ NoDup (e_union <$> new) /\
    Forall (new_jump (snd (snd p)) (next_jump (fst p)) (next_jump (fst p'))) new;
  gn_ptr : snd (snd p') = snd (snd p) \/ snd (snd p') = None;
}.

Lemma no_new_links (p : point) : exists new, fst (snd p) = new ++ fst (snd p) /\ NoDup (e_union <$> new) /\
  forall o lo hi, Forall (new_jump o lo hi) new.
Proof. exists []. split; [done|]. split; [apply NoDup_nil_2|intros; apply Forall_nil_2]. Qed.

Lemma grown_refl p : grown p p.
Proof.
  split; try done; [|destruct (no_new_links p) as (new & ? & ? & ?); by exists new|by left].
  exists []. rewrite app_nil_r. split; [done|]. intros l Hl. by apply elem_of_nil in Hl.
Qed.

Lemma new_jump_mono o o' lo hi lo' hi' e :
  o = o' \/ o = None -> (lo' <= lo)%nat -> (hi <= hi')%nat -> new_jump o lo hi e -> new_jump o' lo' hi' e.
Proof. intros [-> | ->] ?? (Ho & j & ? & ?); [|done]. split; [done|]. exists j. split; [done|lia]. Qed.

Lemma grown_trans p1 p2 p3 : grown p1 p2 -> grown p2 p3 -> grown p1 p3.
Proof.
  intros [? ? (n1 & E1 & L1) B1 (q1 & F1 & D1 & U1) P1] [? ? (n2 & E2 & L2) B2 (q2 & F2 & D2 & U2) P2].
  split; [lia..| | | |].
  - exists (n1 ++ n2). rewrite E2, E1, app_assoc. split; [done|].
    intros l [Hl|Hl]%elem_of_app; [apply L1 in Hl; lia|by apply L2].
  - intros j Hj. rewrite B2, B1; [done|done|lia].
  - exists (q2 ++ q1). rewrite F2, F1, app_assoc. split; [done|]. rewrite fmap_app. split.
    + apply NoDup_app. split; [done|]. split; [|done].
      intros u (x & -> & Hx)%list_elem_of_fmap (y & Exy & Hy)%list_elem_of_fmap.
      rewrite Forall_forall in U1, U2. destruct (U2 x Hx) as (_ & i & Ei & ?), (U1 y Hy) as (_ & j & Ej & ?).
      assert (i = j) by congruence. lia.
    + apply Forall_app. split; (eapply Forall_impl; [eassumption|]); intros e; apply new_jump_mono; auto; lia.
  - destruct P1, P2; first [left; congruence|right; congruence].
Qed.

(** Nothing but the code, with labels below the next one. *)
Lemma grown_code k k' q new :
  (next_jump k <= next_jump k')%nat -> (next_label k <= next_label k')%nat -> code k' = code k ++ new ->
  (forall l, LLabel l ∈ new -> (l < next_label k')%nat) -> binds k' = binds k -> grown (k, q) (k', q).
Proof.
  intros ??? Hl Hb. split; cbn; [done..| | | |by left].
  - by exists new.
  - by rewrite Hb.
  - destruct (no_new_links (k, q)) as (n & ? & ? & ?). by exists n.
Qed.

Lemma grown_emit i k q : (forall l, i <> LLabel l) -> grown (k, q) (emit i k, q).
Proof.
  intros Hi. apply (grown_code _ _ _ [i]); try done.
  intros l Hl%list_elem_of_singleton. by destruct (Hi l).
Qed.

Lemma grown_label k q : grown (k, q) (snd (emit_label k), q).
Proof.
  eapply grown_code; [done|cbn; lia|done| |done]. intros l Hl%list_elem_of_singleton.
  injection Hl as ->. cbn. lia.
Qed.

Lemma grown_site i k q : (forall j l, i j <> LLabel l) -> grown (k, q) (snd (emit_jump_site i k), q).
Proof.
  intros Hi. eapply grown_code; [cbn; lia|done|done| |done]. intros l Hl%list_elem_of_singleton.
  by destruct (Hi (next_jump k) l).
Qed.

(** Binding a jump that was not there at [p]. *)
Lemma grown_bind p k q j l :
  grown p (k, q) -> (next_jump (fst p) <= j)%nat -> grown p (sljit_set_label j l k, q).
Proof.
  intros [? ? ? B ? ?] Hj. split; try done. intros i Hi. cbn. rewrite lookup_insert_ne by lia. by apply B.
Qed.

(** ** Operations *)

(** The labels of the head and the body. *)
Definition entries (c : buxn_jit_ctx_t) : nat * nat := (head_label c, body_label c).

(** From any context grown from [p] to another one. *)
Definition LogsFrom {A} (p : point) (f : J A) : Prop := forall c a c',
  grown p (out c) -> f c = Ok (a, c') -> grown p (out c') /\ entries c' = entries c.

Abbreviation Logs f := (forall p, LogsFrom p f).

Lemma logs_grown {A} (f : J A) c a c' : Logs f -> f c = Ok (a, c') -> grown (out c) (out c').
Proof. intros Hf. apply Hf, grown_refl. Qed.

Lemma logs_entries {A} (f : J A) c a c' : Logs f -> f c = Ok (a, c') -> entries c' = entries c.
Proof. intros Hf. apply (Hf (out c)), grown_refl. Qed.

Section Rules.
Context (k0 : point).

Lemma logs_ret {A} (a : A) : LogsFrom k0 (ret a).
Proof. by intros c b c' Hk [= _ <-]. Qed.

Lemma logs_gets {A} (f : _ -> A) : LogsFrom k0 (gets f).
Proof. by intros c b c' Hk [= _ <-]. Qed.

Lemma logs_modify f : (forall c, out (f c) = out c /\ entries (f c) = entries c) -> LogsFrom k0 (modify f).
Proof. intros Hf c b c' Hk [= _ <-]. destruct (Hf c) as [-> ->]. done. Qed.

(** [ctx->compiler] cleared, saved and put back. *)
Lemma logs_finalize : LogsFrom k0 (modify (set_compiler_ptr (fun _ => None))).
Proof. intros c b c' [] [= _ <-]. split; [|done]. split; try done. by right. Qed.

Lemma logs_save {B} (k : option nat -> J B) :
  (forall o, o = snd (snd k0) \/ o = None -> LogsFrom k0 (k o)) -> LogsFrom k0 (bind (gets compiler_ptr) k).
Proof. intros Hk c b c' H0. apply Hk; [apply H0|done]. Qed.

Lemma logs_restore o :
  o = snd (snd k0) \/ o = None -> LogsFrom k0 (modify (set_compiler_ptr (fun _ => o))).
Proof. intros Ho c b c' [] [= _ <-]. split; [by split|done]. Qed.

Lemma logs_assert b msg : LogsFrom k0 (assert_that b msg).
Proof. intros c a c' Hk. unfold assert_that. destruct b; [|done]. by intros [= _ <-]. Qed.

Lemma logs_fail {A} msg : LogsFrom k0 (fun _ => AssertFailed msg : res (A * _)).
Proof. done. Qed.

Lemma logs_fuel {A} : LogsFrom k0 (out_of_fuel : J A).
Proof. done. Qed.

Lemma logs_retain r : LogsFrom k0 (buxn_jit_retain_reg r).
Proof. intros c a c' Hk. unfold buxn_jit_retain_reg. destruct (op_index r); [|done]. by intros [= _ <-]. Qed.

Lemma logs_release r : LogsFrom k0 (buxn_jit_release_reg r).
Proof.
  intros c a c' Hk. unfold buxn_jit_release_reg. destruct (op_index r); [|done].
  destruct (_ <? _); [|done]. by intros [= _ <-].
Qed.

Lemma logs_bind {A B} (f : J A) (k : A -> J B) :
  LogsFrom k0 f -> (forall a, LogsFrom k0 (k a)) -> LogsFrom k0 (bind f k).
Proof.
  intros Hf Hk c b c' H0. unfold bind. destruct (f c) as [[a c1]| |] eqn:E; [|done|done].
  destruct (Hf c a c1 H0 E) as [H1 <-]. by apply Hk.
Qed.

Lemma logs_when b (f : J unit) : LogsFrom k0 f -> LogsFrom k0 (when b f).
Proof. destruct b; [done|]. intros _. apply logs_ret. Qed.

Lemma logs_with {A} (f : compiler -> A * compiler) :
  (forall k q, grown (k, q) (snd (f k), q)) -> LogsFrom k0 (with_compiler f).
Proof.
  intros Hf c a c' Hk. unfold with_compiler. destruct (compiler_ptr c); [|done].
  specialize (Hf (comp c) (link_queue (jit c), compiler_ptr c)). destruct (f (comp c)). intros [= _ <-].
  split; [by eapply grown_trans|done].
Qed.

Lemma logs_lir i : (forall l, i <> LLabel l) -> LogsFrom k0 (emit_lir i).
Proof. intros Hi. apply logs_with. intros k q. by apply grown_emit. Qed.

Lemma logs_label : LogsFrom k0 sljit_emit_label.
Proof. apply logs_with. apply grown_label. Qed.

Lemma logs_set_label j l : (next_jump (fst k0) <= j)%nat -> LogsFrom k0 (set_label j l).
Proof.
  intros Hj c a c' Hk. unfold set_label, with_compiler. destruct (compiler_ptr c); [|done].
  intros [= _ <-]. split; [by apply grown_bind|done].
Qed.

Lemma logs_set_label_here j : (next_jump (fst k0) <= j)%nat -> LogsFrom k0 (set_label_here j).
Proof. intros Hj. apply logs_bind; [apply logs_label|]. intros l. by apply logs_set_label. Qed.

(** The number of an emitted jump is a new one. *)
Lemma logs_site {B} i (k : nat -> J B) :
  (forall j l, i j <> LLabel l) -> (forall j, (next_jump (fst k0) <= j)%nat -> LogsFrom k0 (k j)) ->
  LogsFrom k0 (bind (with_compiler (emit_jump_site i)) k).
Proof.
  intros Hi Hk c b c' H0. unfold bind, with_compiler. destruct (compiler_ptr c); [|done]. cbn. intros E.
  apply (Hk (next_jump (comp c)) ltac:(apply H0) _ _ _) in E; [exact E|].
  eapply grown_trans; [exact H0|]. by apply (grown_site i (comp c)).
Qed.
End Rules.

Lemma logs_bind_assoc {A B C} k0 (f : J A) (g : A -> J B) (h : B -> J C) :
  LogsFrom k0 (bind f (fun a => bind (g a) h)) -> LogsFrom k0 (bind (bind f g) h).
Proof.
  intros Hf c b c' H0. specialize (Hf c b c' H0). unfold bind in *.
  by destruct (f c) as [[a c1]| |].
Qed.

Create HintDb logs.
#[export] Hint Resolve logs_ret logs_gets logs_finalize logs_restore logs_assert logs_fail logs_fuel logs_retain
  logs_release logs_label logs_set_label logs_set_label_here : logs.
#[export] Hint Extern 1 (LogsFrom _ (modify _)) => apply logs_modify; by intros [] : logs.
#[export] Hint Extern 1 (LogsFrom _ (emit_lir _)) => apply logs_lir; discriminate : logs.
#[export] Hint Extern 2 (LogsFrom _ (sljit_emit_op1 _ _ _)) => apply logs_lir; discriminate : logs.
#[export] Hint Extern 2 (LogsFrom _ (sljit_emit_op2 _ _ _ _)) => apply logs_lir; discriminate : logs.
#[export] Hint Extern 2 (LogsFrom _ (sljit_emit_return _ _)) => apply logs_lir; discriminate : logs.

(** Decide that an operation logs. *)
Ltac logs :=
  repeat lazymatch goal with
    | |- forall _, _ => intro
    | |- LogsFrom _ (let _ := _ in _) => cbv zeta
    | |- LogsFrom _ (bind (bind _ _) _) => apply logs_bind_assoc
    | |- LogsFrom _ (bind (gets compiler_ptr) _) => apply logs_save
    | |- LogsFrom _ (bind (sljit_emit_jump _ _) _) => apply logs_site; [discriminate|]
    | |- LogsFrom _ (bind (sljit_emit_cmp _ _ _ _) _) => apply logs_site; [discriminate|]
    | |- LogsFrom _ (bind (sljit_emit_call _) _) => apply logs_site; [discriminate|]
    | |- LogsFrom _ (bind _ _) => apply logs_bind
    | |- LogsFrom _ (when _ _) => apply logs_when
    | |- LogsFrom _ (if ?b then _ else _) => destruct b
    | |- LogsFrom _ (match ?b with _ => _ end) => destruct b
    | |- LogsFrom _ _ => solve [eauto 3 with logs]
    end.

#[export] Hint Extern 5 (LogsFrom ?k ?f) =>
  match goal with Hf : forall p, LogsFrom p _ |- _ => apply Hf end : logs.

(** ** What an absolute jump emits *)

Section JumpCode.
Context (target : buxn_jit_operand_t) (return_addr : Z).

#[local] Abbreviation r := (AReg (reg target)).
#[local] Abbreviation is_const := (has_bit (semantics target) BUXN_JIT_SEM_CONST).
#[local] Abbreviation immediate := (has_bit (semantics target) BUXN_JIT_SEM_IMM_JMP).

(** The code: a patchable jump, a patchable call and the check of the address
    it returned, or a return to the trampoline. *)
Definition jump_code (j l : nat) : list lir :=
  if is_const then
    if return_addr =? 0 then
      [if immediate then LJump j true None else LCmp j SLJIT_EQUAL true r (AImm (const_value target));
       LLabel l; LReturn SLJIT_MOV32 r]
    else if immediate then
      [LCall j true; LCmp (S j) SLJIT_EQUAL false (AReg (SR 0)) (AImm return_addr);
       LReturn SLJIT_MOV32 (AReg (SR 0)); LReturn SLJIT_MOV32 r; LLabel l]
    else
      [LCmp j SLJIT_NOT_EQUAL false r (AImm (const_value target)); LCall (S j) true;
       LCmp (S (S j)) SLJIT_EQUAL false (AReg (SR 0)) (AImm return_addr);
       LReturn SLJIT_MOV32 (AReg (SR 0)); LLabel l; LReturn SLJIT_MOV32 r; LLabel (S l)]
  else [LReturn SLJIT_MOV32 r].

Definition jump_binds (fallback j l : nat) (b : gmap nat nat) : gmap nat nat :=
  if is_const then
    if return_addr =? 0 then <[j := l]> b
    else if immediate then <[S j := l]> (<[j := fallback]> b)
    else <[S (S j) := S l]> (<[j := l]> (<[S j := fallback]> b))
  else b.

(** The number of jumps and labels used. *)
Definition jump_jumps : nat :=
  if is_const then if return_addr =? 0 then 1 else if immediate then 2 else 3 else 0.
Definition jump_labels : nat :=
  if is_const then if return_addr =? 0 then 1 else if immediate then 1 else 2 else 0.

Definition jump_compiler (fallback : nat) (k : compiler) : compiler :=
  let j := next_jump k in let l := next_label k in
  mkCompiler (code k ++ jump_code j l) (jump_labels + l) (jump_jumps + j) (jump_binds fallback j l (binds k)).

(** The link that is queued: its type and its jump. *)
Definition jump_link (k : compiler) : option (buxn_jit_link_type_t * nat) :=
  if is_const then
    if return_addr =? 0 then Some (BUXN_JIT_LINK_TO_BODY, next_jump k)
    else Some (BUXN_JIT_LINK_TO_HEAD, if immediate then next_jump k else S (next_jump k))
  else None.

(** The JIT before the link is queued: only the pool of entries may differ. *)
Definition link_added (id : nat) (k : compiler) (s s' : buxn_jit_t) : Prop :=
  match jump_link k with
  | None => s' = s
  | Some (t, j) => exists pool b s2,
      buxn_jit_queue_block (set_entry_pool (fun _ => pool) s) (const_value target) = (b, s2) /\
      s' = set_link_queue (buxn_jit_enqueue (mkEntry t b id (UJump j))) s2
  end.

Definition jump_base (base : Z) : Z := if is_const && negb (return_addr =? 0) then 0 else base.

(** Everything but the code and the JIT. *)
Definition after_jump (c c' : buxn_jit_ctx_t) : Prop :=
  exists s k, c' = set_jit (fun _ => s) (set_comp (fun _ => k) (set_mem_base (fun _ => jump_base (mem_base c)) c)).

Lemma queue_link_run t pc j c id :
  compiler_ptr c = Some id ->
  exists s', queue_link t pc j c = Ok (tt, set_jit (fun _ => s') c) /\
    exists pool b s2, buxn_jit_queue_block (set_entry_pool (fun _ => pool) (jit c)) pc = (b, s2) /\
      s' = set_link_queue (buxn_jit_enqueue (mkEntry t b id (UJump j))) s2.
Proof.
  intros Hp. unfold queue_link, on_jit, bind, gets, modify.
  destruct (alloc_entry_pool (jit c)) as [pool Hpool].
  destruct (buxn_jit_alloc_entry (jit c)) as [e s1]. cbn in Hpool. subst s1. cbn [jit set_jit].
  destruct (buxn_jit_queue_block _ pc) as [b s2] eqn:E. eexists. split.
  - cbn. rewrite Hp. reflexivity.
  - by exists pool, b, s2.
Qed.

Ltac emission := unfold sljit_emit_jump, sljit_emit_cmp, sljit_emit_call, sljit_emit_return,
  set_label_here, sljit_emit_label, set_label, emit_lir, with_compiler, bind, gets, modify, ret.

Lemma jump_abs_run id c :
  compiler_ptr c = Some id ->
  wp (buxn_jit_jump_abs target return_addr) (fun _ c' =>
    comp c' = jump_compiler (call_fallback c) (comp c) /\ link_added id (comp c) (jit c) (jit c') /\
    after_jump c c') c.
Proof.
  intros Hp. unfold jump_compiler, link_added, jump_link, jump_code, jump_binds, jump_jumps, jump_labels,
    after_jump, jump_base, buxn_jit_jump_abs, wp.
  destruct is_const; [destruct (return_addr =? 0); destruct immediate|]; emission; cbn;
    repeat (rewrite Hp; cbn);
    try (match goal with |- context [queue_link ?t ?a ?j ?x] =>
      destruct (queue_link_run t a j x id Hp) as (s' & Hrun & pool & b & s2 & E & ->) end;
      rewrite Hrun; clear Hrun; cbn; repeat (rewrite Hp; cbn));
    unfold emit, sljit_set_label; cbn [code next_label next_jump binds]; rewrite <- ?app_assoc;
    (split; [done|split; [first [done|exists pool, b, s2; exact (conj E eq_refl)]|match goal with |- exists s k, ?x = _ => exists (jit x), (comp x); by destruct c end]]).
Qed.

Lemma queue_block_links s pc b s' :
  buxn_jit_queue_block s pc = (b, s') -> link_queue s' = link_queue s.
Proof.
  intros E. destruct (blocks_get (blocks_root s) pc) as [b0|] eqn:Eb.
  - unfold buxn_jit_queue_block in E. rewrite Eb in E. by injection E as _ <-.
  - destruct (queue_block_new s pc Eb) as (s2 & t & E2 & _ & _ & _ & _ & _ & _ & _ & Hl & _).
    rewrite E2 in E. by injection E as _ <-.
Qed.

Lemma link_added_queue id k s s' :
  link_added id k s s' -> exists new, link_queue s' = new ++ link_queue s /\ NoDup (e_union <$> new) /\
    Forall (new_jump (Some id) (next_jump k) (jump_jumps + next_jump k)) new.
Proof.
  unfold link_added. destruct (jump_link k) as [[t j]|] eqn:El.
  - intros (pool & b & s2 & Eb & ->). exists [mkEntry t b id (UJump j)]. cbn.
    rewrite (queue_block_links _ _ _ _ Eb). split; [done|]. split; [apply NoDup_singleton|].
    apply Forall_singleton. split; [done|]. exists j. split; [done|]. unfold jump_link, jump_jumps in *.
    destruct is_const; [|done]. destruct (return_addr =? 0); [|destruct immediate]; injection El as <- <-; lia.
  - intros ->. exists []. split; [done|]. split; [apply NoDup_nil_2|apply Forall_nil_2].
Qed.

Lemma jump_code_labels j l l' : LLabel l' ∈ jump_code j l -> (l' < jump_labels + l)%nat.
Proof.
  unfold jump_code, jump_labels. intros Hl.
  destruct is_const; [destruct (return_addr =? 0); [|]|]; destruct immediate;
    rewrite ?elem_of_cons, ?elem_of_nil in Hl; intuition (simplify_eq; lia).
Qed.

Lemma jump_binds_old fallback j l b i : (i < j)%nat -> jump_binds fallback j l b !! i = b !! i.
Proof.
  intros Hi. unfold jump_binds. destruct is_const; [|done].
  destruct (return_addr =? 0); [|destruct immediate]; rewrite !lookup_insert_ne by lia; done.
Qed.

Lemma logs_jump_abs : Logs (buxn_jit_jump_abs target return_addr).
Proof.
  intros p c [] c' Hp E.
  destruct (compiler_ptr c) as [id|] eqn:Ec.
  - pose proof (jump_abs_run id c Ec) as Hw. unfold wp in Hw. rewrite E in Hw.
    destruct Hw as (Ek & (new & Eq & Hd & Hf)%link_added_queue & s & k & Eaf).
    split; [|by rewrite Eaf]. eapply grown_trans; [exact Hp|]. unfold out. rewrite Ek. split; cbn; [lia|lia| | | |rewrite Eaf; by left].
    + eexists. split; [done|]. intros l. apply jump_code_labels.
    + intros j Hj. by apply jump_binds_old.
    + rewrite Ec. by exists new.
  - exfalso. unfold buxn_jit_jump_abs in E.
    destruct is_const; [destruct (return_addr =? 0); destruct immediate|]; revert E; emission; cbn;
      rewrite Ec; done.
Qed.
End JumpCode.

#[export] Hint Resolve logs_jump_abs : logs.

(** ** Every operation logs *)

Section Operations.
Context {Lay : VmLayout} {SL : Sljit} {VM : BuxnVm}.

Lemma logs_set_mem_base b : Logs (buxn_jit_set_mem_base b).
Proof. unfold buxn_jit_set_mem_base. logs. Qed.
#[local] Hint Resolve logs_set_mem_base : logs.

Lemma logs_do_push o flag_r : Logs (buxn_jit_do_push o flag_r).
Proof. unfold buxn_jit_do_push. logs. Qed.
#[local] Hint Resolve logs_do_push : logs.

Lemma logs_flush_cell i flag_r : Logs (buxn_jit_flush_cell i flag_r).
Proof. unfold buxn_jit_flush_cell. destruct flag_r; logs. Qed.
#[local] Hint Resolve logs_flush_cell : logs.

Lemma logs_spill flag_r : Logs (buxn_jit_stack_cache_spill flag_r).
Proof. unfold buxn_jit_stack_cache_spill. destruct flag_r; logs. Qed.
#[local] Hint Resolve logs_spill : logs.

Lemma logs_alloc_loop fuel : Logs (alloc_loop fuel).
Proof. induction fuel as [|fuel IH]; cbn [alloc_loop]; logs. Qed.
#[local] Hint Resolve logs_alloc_loop : logs.

Lemma logs_alloc : Logs buxn_jit_alloc_reg.
Proof. unfold buxn_jit_alloc_reg. logs. Qed.
#[local] Hint Resolve logs_alloc : logs.

Lemma logs_cache_push flag_r v : Logs (buxn_jit_stack_cache_push flag_r v).
Proof. unfold buxn_jit_stack_cache_push. destruct flag_r; logs. Qed.

Lemma logs_pop_from_mem flag_2 flag_r : Logs (buxn_jit_pop_from_mem flag_2 flag_r).
Proof. unfold buxn_jit_pop_from_mem. logs. Qed.
#[local] Hint Resolve logs_cache_push logs_pop_from_mem : logs.

Lemma logs_narrow flag_r i : Logs (narrow_cell flag_r i).
Proof. unfold narrow_cell. destruct flag_r; logs. Qed.
#[local] Hint Resolve logs_narrow : logs.

Lemma logs_pop_byte flag_r : Logs (stack_cache_pop_byte flag_r).
Proof. unfold stack_cache_pop_byte. destruct flag_r; logs. Qed.
#[local] Hint Resolve logs_pop_byte : logs.

Lemma logs_cache_pop flag_r flag_2 : Logs (buxn_jit_stack_cache_pop flag_r flag_2).
Proof. unfold buxn_jit_stack_cache_pop. destruct flag_r; logs. Qed.

Lemma logs_discard flag_r flag_2 : Logs (buxn_jit_stack_cache_discard flag_r flag_2).
Proof.
  unfold buxn_jit_stack_cache_discard, stack_cache_discard_byte, buxn_jit_discard_from_mem.
  destruct flag_r; logs.
Qed.
#[local] Hint Resolve logs_cache_pop logs_discard : logs.

Lemma logs_flush flag_r : Logs (buxn_jit_stack_cache_flush flag_r).
Proof.
  unfold buxn_jit_stack_cache_flush. intros p. apply logs_bind; [apply logs_gets|]. intros k.
  generalize (seq 0 (len k)). intros idx. revert p.
  induction idx as [|i idx IH]; cbn [flush_loop]; logs.
Qed.

Lemma logs_clear : Logs buxn_jit_clear_stack_caches.
Proof.
  unfold buxn_jit_clear_stack_caches, buxn_jit_stack_cache_clear.
  assert (forall flag_r fuel, Logs (clear_loop fuel flag_r)) as Hc
    by (intros flag_r fuel; induction fuel as [|fuel IH]; cbn [clear_loop]; logs).
  intros p. apply logs_bind; [apply Hc|]. intros []. apply Hc.
Qed.
#[local] Hint Resolve logs_flush logs_clear : logs.

Lemma logs_retain_cache flag_r : Logs (buxn_jit_stack_cache_retain flag_r).
Proof.
  unfold buxn_jit_stack_cache_retain.
  assert (forall l, Logs (retain_all l)) as Hl by (induction l; cbn [retain_all]; logs).
  destruct flag_r; logs; apply Hl.
Qed.
#[local] Hint Resolve logs_retain_cache : logs.

(** *** Micro operations *)

Lemma logs_pop_ex flag_2 flag_r : Logs (buxn_jit_pop_ex flag_2 flag_r).
Proof.
  assert (Logs (pop_value flag_r)) as Hv.
  { intros p. unfold pop_value. destruct flag_r; (apply logs_bind; [|intros []; apply logs_gets]);
      apply logs_modify; intros c; [by destruct (ersp c)|by destruct (ewsp c)]. }
  unfold buxn_jit_pop_ex. destruct flag_2; logs.
Qed.

Lemma logs_push_ex o flag_r : Logs (buxn_jit_push_ex o flag_r).
Proof. unfold buxn_jit_push_ex, push_value. destruct flag_r; logs. Qed.
#[local] Hint Resolve logs_pop_ex logs_push_ex : logs.

Lemma logs_pop : Logs buxn_jit_pop.
Proof. unfold buxn_jit_pop. logs. Qed.

Lemma logs_push o : Logs (buxn_jit_push o).
Proof. unfold buxn_jit_push. logs. Qed.

Lemma logs_load r addr : Logs (buxn_jit_load r addr).
Proof. unfold buxn_jit_load. logs. Qed.

Lemma logs_store addr v : Logs (buxn_jit_store addr v).
Proof. unfold buxn_jit_store. logs. Qed.

Lemma logs_immediate short : Logs (buxn_jit_immediate short).
Proof. unfold buxn_jit_immediate, advance_pc. logs. Qed.

Lemma logs_immediate_target : Logs buxn_jit_immediate_jump_target.
Proof. unfold buxn_jit_immediate_jump_target, advance_pc. logs. Qed.

Lemma logs_wrap o : Logs (buxn_jit_wrap_around o).
Proof. unfold buxn_jit_wrap_around. logs. Qed.

Lemma logs_relative o : Logs (relative_addr o).
Proof. unfold relative_addr. logs. Qed.

Lemma logs_return_addr flag_r : Logs (push_return_addr flag_r).
Proof. unfold push_return_addr. logs. Qed.

Lemma logs_device addr f : Logs (device_call addr f).
Proof. unfold device_call, buxn_jit_save_state. logs. Qed.
#[local] Hint Resolve logs_pop logs_push logs_load logs_store logs_immediate logs_immediate_target
  logs_wrap logs_relative logs_return_addr logs_device : logs.

(** *** Jumps, opcodes, blocks *)

Lemma logs_jump next target return_addr : Logs next -> Logs (buxn_jit_jump next target return_addr).
Proof. intros Hn. unfold buxn_jit_jump. logs. Qed.
#[local] Hint Resolve logs_jump : logs.

Lemma logs_conditional next condition target :
  Logs next -> Logs (buxn_jit_conditional_jump next condition target).
Proof. intros Hn. unfold buxn_jit_conditional_jump. logs. Qed.
#[local] Hint Resolve logs_conditional : logs.

Lemma logs_dispatch next n : Logs next -> Logs (dispatch next n).
Proof.
  intros Hn. destruct n; cbn [dispatch];
    [unfold buxn_jit_BRK|unfold buxn_jit_INC|unfold buxn_jit_POP|unfold buxn_jit_NIP, buxn_jit_POP
    |unfold buxn_jit_SWP|unfold buxn_jit_ROT|unfold buxn_jit_DUP|unfold buxn_jit_OVR
    |unfold buxn_jit_EQU, compare_op|unfold buxn_jit_NEQ, compare_op|unfold buxn_jit_GTH, compare_op
    |unfold buxn_jit_LTH, compare_op|unfold buxn_jit_JMP|unfold buxn_jit_JCN|unfold buxn_jit_JSR
    |unfold buxn_jit_STH|unfold buxn_jit_LDZ|unfold buxn_jit_STZ|unfold buxn_jit_LDR
    |unfold buxn_jit_STR|unfold buxn_jit_LDA|unfold buxn_jit_STA
    |unfold buxn_jit_DEI, buxn_jit_load_state|unfold buxn_jit_DEO, store_device_page, buxn_jit_load_state
    |unfold buxn_jit_ADD, arith_op|unfold buxn_jit_SUB, arith_op|unfold buxn_jit_MUL, arith_op
    |unfold buxn_jit_DIV|unfold buxn_jit_AND, arith_op|unfold buxn_jit_ORA, arith_op
    |unfold buxn_jit_EOR, arith_op|unfold buxn_jit_SFT|unfold buxn_jit_JCI|unfold buxn_jit_JMI
    |unfold buxn_jit_JSI|unfold buxn_jit_LIT];
    unfold buxn_jit_finalize; logs.
Qed.

Lemma logs_fetch : Logs fetch_opcode.
Proof.
  unfold fetch_opcode, call_jit_opcode, buxn_jit_hook_mark_addr, shadow_stack, advance_pc. logs.
Qed.
#[local] Hint Resolve logs_dispatch logs_fetch : logs.

Lemma logs_next_opcode fuel : Logs (buxn_jit_next_opcode fuel).
Proof.
  induction fuel as [|fuel IH]; cbn [buxn_jit_next_opcode]; [logs|].
  unfold opcode_step, zero_page_exit, buxn_jit_finalize. logs.
Qed.

Lemma logs_compile_loop fuel : Logs (compile_loop fuel).
Proof.
  induction fuel as [|fuel IH]; cbn [compile_loop]; [logs|]. logs. apply logs_next_opcode.
Qed.
End Operations.

#[export] Hint Resolve logs_clear logs_pop_ex logs_jump logs_conditional logs_dispatch logs_fetch
  logs_next_opcode logs_compile_loop : logs.
