(* ===== verification/Flows.v ===== *)
(** * Code that calls other blocks, and where it leads

    [xexec call]: executing a log when a patchable call is answered by
    [call].  [flows f Q c m]: the code the operation [f] emits in the context
    [c], executed from [m], leads to a flow [fl] with [Q a fl c'] - control
    falls through, a patched jump is taken, or the function returns. *)
From S2P Require Import Prelude Lir Hamt Jit Queues StackCache Uxn MicroOps Opcodes Compile Invariant CacheSafety OpcodeSafety BlockSafety Machine StackSim PopSim OperandSim StepSim MemSim DivSim FetchSim OpcodeCorrect ExitSim Emission.
Local Open Scope jit_scope.

(** ** Calls *)

Section Calls.
Context {SL : Sljit} {HO : Host}.

(** The machine after a call that returned [v]: the saved registers are kept,
    the scratch registers hold anything. *)
Definition returned (v : Z) (m : mach) : mach :=
  mkMach (fun r => match r with SR O => wrap v | SR _ => wrap (clobber r) | SS _ => regs m r end)
    (mem m) (flags m).

Context (call : nat -> mach -> option (Z * mach)).

Definition after_call (o : option (Z * mach)) : flow :=
  match o with Some (v, m) => Run (returned v m) | None => Stuck end.

Definition xstep (B : gmap nat nat) (f : flow) (i : lir) : flow :=
  match f, i with
  | Run m, LCall j _ => after_call (call j m)
  | _, _ => exec_step B f i
  end.

Definition xexec (B : gmap nat nat) (c : list lir) (f : flow) : flow := fold_left (xstep B) c f.

Lemma xexec_app B c1 c2 f : xexec B (c1 ++ c2) f = xexec B c2 (xexec B c1 f).
Proof. apply fold_left_app. Qed.

(** Control has left the code. *)
Definition final (f : flow) : Prop :=
  match f with Leave _ _ | Return _ _ | Stuck => True | _ => False end.

Lemma xexec_final B c f : final f -> xexec B c f = f.
Proof. unfold xexec. destruct f; try done; intros _; by induction c. Qed.

(** A taken jump passes over code without its label. *)
Lemma xexec_skip B c l m : LLabel l ∉ c -> xexec B c (Skip l m) = Skip l m.
Proof.
  unfold xexec. induction c as [|i c IH]; [done|]. rewrite not_elem_of_cons. intros [Hi Hc].
  cbn [fold_left xstep exec_step]. destruct i; try (by apply IH). rewrite decide_False; [by apply IH|].
  by intros ->.
Qed.

(** Without calls it is [exec]. *)
Lemma xexec_exec B c f : (forall j m, exec B c f <> Calling j m) -> xexec B c f = exec B c f.
Proof.
  revert f. induction c as [|i c IH]; intros f Hn; [done|]. unfold exec, xexec in *. cbn [fold_left] in *.
  rewrite <- IH by done. f_equal. destruct f as [m| | | | |]; try done. destruct i; try done.
  exfalso. apply (Hn j m). cbn. clear. by induction c.
Qed.

(** ** Where the code of an operation leads *)

Definition flows {A} (f : J A) (Q : A -> flow -> buxn_jit_ctx_t -> Prop) (c : buxn_jit_ctx_t) (m : mach) :
    Prop :=
  bound_ok (comp c) ->
  wp f (fun a c' => bound_ok (comp c') /\ binds (comp c) ⊆ binds (comp c') /\ exists new fl,
    code (comp c') = code (comp c) ++ new /\
    (forall B, binds (comp c') ⊆ B -> xexec B new (Run m) = fl) /\ Q a fl c') c.

Lemma flows_mono {A} (f : J A) (Q Q' : A -> flow -> _ -> Prop) c m :
  flows f Q c m -> (forall a fl c', Q a fl c' -> Q' a fl c') -> flows f Q' c m.
Proof.
  intros Hf HQ H0. eapply wp_mono; [by apply Hf|].
  intros a c' (? & ? & new & fl & ? & ? & ?). split_and!; try done. exists new, fl. auto.
Qed.

Lemma flows_wp {A} (f : J A) Q P c m :
  flows f Q c m -> wp f P c -> flows f (fun a fl c' => Q a fl c' /\ P a c') c m.
Proof.
  intros Hf Hp H0. specialize (Hf H0). unfold wp in *. destruct (f c) as [[a c']| |]; [|done|done].
  destruct Hf as (? & ? & new & fl & ? & ? & ?). split_and!; try done. exists new, fl. auto.
Qed.

(** Code that falls through first. *)
Lemma flows_bind {A B} (f : J A) (k : A -> J B) Q c m :
  hwp f (fun a c' m' => flows (k a) Q c' m') c m -> flows (bind f k) Q c m.
Proof.
  intros Hf H0. apply wp_bind. eapply wp_mono; [by apply Hf|].
  intros a c1 (m1 & [[Hb1 (n1 & E1 & R1)] H1] & Hk). eapply wp_mono; [by apply Hk|].
  intros b c2 (H2 & Hb2 & n2 & fl & E2 & R2 & HQ). split; [done|]. split; [by etrans|].
  exists (n1 ++ n2), fl. split; [by rewrite E2, E1, app_assoc|]. split; [|done].
  intros B0 HB. rewrite xexec_app. assert (exec B0 n1 (Run m) = Run m1) as E by (apply R1; by etrans).
  rewrite (xexec_exec B0 n1), E; [by apply R2|]. intros. by rewrite E.
Qed.

Lemma flows_hwp {A} (f : J A) (Q : A -> flow -> _ -> Prop) c m :
  hwp f (fun a c' m' => Q a (Run m') c') c m -> flows f Q c m.
Proof.
  intros Hf H0. eapply wp_mono; [by apply Hf|].
  intros a c1 (m1 & [[Hb1 (n1 & E1 & R1)] H1] & HQ). split_and!; try done.
  exists n1, (Run m1). split; [done|]. split; [|done]. intros B0 HB. rewrite xexec_exec; [by apply R1|].
  intros. by rewrite R1.
Qed.

Lemma flows_exits {A} (f : J A) Q c m :
  exits f (fun fl c' => (forall j m', fl <> Calling j m') /\ Q fl c') c m -> flows f (fun _ => Q) c m.
Proof.
  intros Hf H0. eapply wp_mono; [by apply Hf|].
  intros a c1 (Hb & Hs & n & fl & E & R & _ & Hn & HQ). split_and!; try done.
  exists n, fl. split; [done|]. split; [|done]. intros B0 HB. rewrite xexec_exec; [by apply R|].
  intros. by rewrite R.
Qed.

(** More compilation after control has left. *)
Lemma flows_then {A B} (f : J A) (k : A -> J B) (Q : B -> flow -> _ -> Prop) c m :
  flows f (fun a fl c' => final fl /\ Logs (k a) /\
    (bound_ok (comp c') -> wp (k a) (fun b c2 => bound_ok (comp c2) /\ Q b fl c2) c')) c m ->
  flows (bind f k) Q c m.
Proof.
  intros Hf H0. apply wp_bind. eapply wp_mono; [by apply Hf|].
  intros a c1 (H1 & Hb1 & n1 & fl & E1 & R1 & Hfin & Hl & Hk). specialize (Hk H1).
  unfold wp in *. destruct (k a c1) as [[b c2]| |] eqn:E; [|done|done]. destruct Hk as [Hb2 HQ].
  apply (logs_grown _ _ _ _ Hl) in E as [_ _ (n2 & E2 & _) Hold _ _]. cbn in *. split; [done|]. split.
  - etrans; [exact Hb1|]. apply map_subseteq_spec. intros j l Hj. by rewrite Hold; [|by eapply H1].
  - exists (n1 ++ n2), fl. split; [by rewrite E2, E1, app_assoc|]. split; [|done]. intros B0 HB.
    rewrite xexec_app, R1; [by apply xexec_final|]. etrans; [|exact HB].
    apply map_subseteq_spec. intros j l Hj. by rewrite Hold; [|by eapply H1].
Qed.
End Calls.

(** ** Machines between two blocks *)

Section Parked.
Context {Lay : VmLayout} {SL : Sljit} {SP : SljitSpec} {HO : Host} {vmb : Z} {LS : LayoutSpec vmb}.

#[local] Abbreviation Rep := (Rep (vmb := vmb)).
#[local] Abbreviation Shows := (Shows (vmb := vmb)).

(** Both stacks and the memory of the state [s] are in the memory of the
    machine. *)
Record Parked (m : mach) (s : vm) : Prop := {
  pk_words : words m;
  pk_bytes : bytes m;
  pk_vm : regs m BUXN_JIT_S_VM = vmb;
  pk_stacks : in_memory (vmb := vmb) m (vm_stacks s);
  pk_ram : forall y, is_u16 y -> ram (vmb := vmb) m y = vm_ram s y;
}.

Definition uncached (c : buxn_jit_ctx_t) : Prop :=
  len (wst_cache c) = 0%nat /\ len (rst_cache c) = 0%nat.

Lemma uncached_live c flag_r : uncached c -> live (get_cache flag_r c) = [].
Proof. intros [Hw Hr]. unfold live. by destruct flag_r; cbn [get_cache]; rewrite ?Hw, ?Hr. Qed.

Lemma rep_parked c m H s :
  Rep c m H (vm_stacks s) -> uncached c -> (forall y, is_u16 y -> ram (vmb := vmb) m y = vm_ram s y) ->
  Parked m s.
Proof.
  intros Hr [Hw Hrt] Hram. split; [apply Hr|apply Hr|apply Hr| |done]. by eapply rep_in_memory.
Qed.

(** Code may start from a parked machine when nothing is cached and the base
    register is not relied on. *)
Lemma parked_rep c m H s :
  Parked m s -> Inv c H -> uncached c -> mem_base c = 0 -> Rep c m H (vm_stacks s).
Proof.
  intros [] Hi Hu Hb. split; [done|..].
  - split; [apply Hi|done|done|done|by left].
  - intros flag_r. rewrite uncached_live by done. apply Forall_nil_2.
  - intros flag_r. unfold on_stack, unflushed. rewrite uncached_live by done.
    split; [apply pk_stacks0|]. exists (vm_stacks s flag_r). split; [done|]. apply pk_stacks0.
  - intros flag_r. rewrite uncached_live by done. apply (layered_all _ true), Forall_nil_2.
Qed.

Lemma parked_returned v m s : Parked m s -> Parked (returned v m) s.
Proof.
  intros [Hw]. split; [|done|done| |done].
  - intros r. cbn. destruct r as [[|i]|i]; [apply word_wrap|apply word_wrap|apply Hw].
  - intros r. by destruct r; apply (pk_stacks0 false) || apply (pk_stacks0 true).
Qed.

(** What is compiled after a call continues from any parked machine. *)
Definition Resumes (c : buxn_jit_ctx_t) : Prop :=
  (exists H, Inv c H) /\ uncached c /\ mem_base c = 0.

Lemma resumes_shows c m s : Parked m s -> Resumes c -> pc c = vm_pc s -> Shows c m s.
Proof.
  intros Hp ([H Hi] & Hu & Hb) Hpc. split; [exists H; by apply parked_rep|]. split; [done|apply Hp].
Qed.
End Parked.
