(* ===== verification/HostSim.v ===== *)
(** * Between compiled code and C code

    Before compiled code returns to its caller or calls a device, it stores
    the two stack pointers; the memory of the virtual machine then holds the
    whole state ([Image]).  Afterwards it loads them again.  [HostSpec] states
    what the theorems rely on about the devices of the program that links the
    JIT: they keep to this memory, and their answers depend on nothing else
    but their own state. *)
From S2P Require Import Prelude Lir Hamt Jit StackCache Uxn MicroOps Invariant Machine StackSim PopSim OperandSim StepSim MemSim Flows UxnControl UxnDevices.
Local Open Scope jit_scope.

Section HostSim.
Context {Lay : VmLayout} {SL : Sljit} {SP : SljitSpec} {HO : Host} {vmb : Z} {LS : LayoutSpec vmb}.
#[local] Abbreviation Parked := (Parked (vmb := vmb)).
#[local] Abbreviation ram := (ram (vmb := vmb)).
#[local] Abbreviation base := (base (vmb := vmb)).
#[local] Abbreviation elsewhere := (elsewhere (vmb := vmb)).

(** ** The stack pointers in memory *)

Definition off_sp (flag_r : bool) : Z := if flag_r then off_rsp else off_wsp.

(** The state [s] in the memory of the virtual machine, stack pointers
    included. *)
Record Image (mm : Z -> Z) (s : vm) : Prop := {
  im_bytes : forall a, is_u8 (mm a);
  im_stacks : forall r, stk mm (base r) (mm (vmb + off_sp r)) (vm_stacks s r);
  im_ram : forall y, is_u16 y -> mm (vmb + off_memory + y) = vm_ram s y;
}.

(** Nothing but the stacks, their pointers and the memory has changed. *)
Definition outside (mm mm' : Z -> Z) : Prop := forall a,
  off_stacks (vmb := vmb) a -> ~ (vmb + off_memory <= a < vmb + off_memory + 65536) ->
  a <> vmb + off_wsp -> a <> vmb + off_rsp -> mm' a = mm a.

Lemma sp_bounds r :
  0 < off_sp r /\ is_word (vmb + off_sp r) /\ off_stacks (vmb := vmb) (vmb + off_sp r) /\
  ~ (vmb + off_memory <= vmb + off_sp r < vmb + off_memory + 65536).
Proof.
  pose proof lay_vmb. set (i := if r then 3%nat else 2%nat).
  assert (regions !! i = Some (off_sp r, 1)) as Hi by (by destruct r).
  destruct (lay_bounds (off_sp r, 1)) as [Hlo Hhi]; [by eapply list_elem_of_lookup_2|]. cbn [fst snd] in *.
  assert (forall j x, regions !! j = Some x -> j <> i -> no_overlap (off_sp r, 1) x) as Hd
    by (intros j x Hj Hne; by eapply lay_disjoint).
  split; [done|]. split; [unfold is_word; lia|]. split.
  - intros f. pose proof (Hd (if f then 1%nat else 0%nat) (stack_offset f, 256)) as Hf.
    unfold no_overlap, base in *. cbn [fst snd] in Hf.
    destruct Hf; [by destruct f|by destruct f, r|lia|lia].
  - destruct (Hd 5%nat (off_memory, 65536)) as [Hm|Hm]; [done|by destruct r|..]; cbn [fst snd] in Hm; lia.
Qed.

(** A byte of the device page. *)
Lemma device_bounds x : is_u8 x ->
  0 < off_device /\ is_word (vmb + off_device) /\ is_word (vmb + off_device + x) /\
  off_stacks (vmb := vmb) (vmb + off_device + x) /\
  ~ (vmb + off_memory <= vmb + off_device + x < vmb + off_memory + 65536).
Proof.
  intros Hx. pose proof lay_vmb. unfold is_u8 in Hx.
  assert (regions !! 4%nat = Some (off_device, 256)) as Hi by done.
  destruct (lay_bounds (off_device, 256)) as [Hlo Hhi]; [by eapply list_elem_of_lookup_2|]. cbn [fst snd] in *.
  assert (forall j x, regions !! j = Some x -> j <> 4%nat -> no_overlap (off_device, 256) x) as Hd
    by (intros j y Hj Hne; by eapply lay_disjoint).
  split; [done|]. split; [unfold is_word; lia|]. split; [unfold is_word; lia|]. split.
  - intros f. pose proof (Hd (if f then 1%nat else 0%nat) (stack_offset f, 256)) as Hf.
    unfold no_overlap, base in *. cbn [fst snd] in Hf. destruct Hf; [by destruct f|by destruct f|lia|lia].
  - destruct (Hd 5%nat (off_memory, 65536)) as [Hm|Hm]; [done|done|..]; cbn [fst snd] in Hm; lia.
Qed.

Lemma sp_apart : vmb + off_wsp <> vmb + off_rsp.
Proof.
  destruct (lay_disjoint 2 3 (off_wsp, 1) (off_rsp, 1)) as [Hd|Hd]; try done; cbn [fst snd] in Hd; lia.
Qed.

Lemma off_sp_ram m r v y : is_u16 y -> ram (store8 (vmb + off_sp r) v m) y = ram m y.
Proof.
  intros Hy. destruct (sp_bounds r) as (_ & _ & _ & Hout). unfold MemSim.ram. apply mem_store_ne.
  unfold is_u16 in Hy. lia.
Qed.

Lemma sp_address m r : words m -> regs m BUXN_JIT_S_VM = vmb ->
  wrap (regs m BUXN_JIT_S_VM + off_sp r) = vmb + off_sp r.
Proof. intros _ ->. apply wrap_id, sp_bounds. Qed.

Lemma elsewhere_outside m m' mm : elsewhere m m' -> outside (mem m') mm -> outside (mem m) mm.
Proof. intros He Ho a H1 H2 H3 H4. rewrite Ho, He; done. Qed.

Lemma outside_elsewhere m m' : elsewhere m m' -> outside (mem m) (mem m').
Proof. intros He a H1 H2 _ _. by apply He. Qed.

(** ** Loading and storing them *)

Definition loaded (m : mach) : mach :=
  set_reg BUXN_JIT_S_RSP (mem m (vmb + off_rsp)) (set_reg BUXN_JIT_S_WSP (mem m (vmb + off_wsp)) m).

Definition saved (m : mach) : mach :=
  store8 (vmb + off_rsp) (u8 (regs m BUXN_JIT_S_RSP)) (store8 (vmb + off_wsp) (u8 (regs m BUXN_JIT_S_WSP)) m).

Lemma loaded_parked m s :
  words m -> regs m BUXN_JIT_S_VM = vmb -> Image (mem m) s -> Parked (loaded m) s.
Proof.
  intros Hw Hvm [Hb Hst Hram]. split; [|done|done| |done].
  - unfold loaded. apply words_set; [apply words_set; [done|]|]; by apply word_u8.
  - intros r. specialize (Hst r). destruct r; exact Hst.
Qed.

Lemma saved_ne m a : a <> vmb + off_wsp -> a <> vmb + off_rsp -> mem (saved m) a = mem m a.
Proof. intros H1 H2. unfold saved. by rewrite !mem_store_ne. Qed.

Lemma saved_outside m : outside (mem m) (mem (saved m)).
Proof. intros a _ _. apply saved_ne. Qed.

Lemma saved_image m s : Parked m s -> Image (mem (saved m)) s.
Proof.
  intros [Hw Hb Hvm Hst Hram]. split.
  - apply bytes_store; [apply u8_range|]. apply bytes_store; [apply u8_range|done].
  - intros r. assert (mem (saved m) (vmb + off_sp r) = u8 (regs m (sp_reg r))) as ->.
    { unfold saved. destruct r; cbn [off_sp sp_reg]; [apply mem_store_eq|].
      rewrite mem_store_ne by (apply sp_apart). apply mem_store_eq. }
    eapply stk_u8; [symmetry; apply (u8_id (u8 _)), u8_range|].
    eapply stk_mem; [|apply Hst]. intros x Hx.
    apply saved_ne; intros E; [pose proof (sp_bounds false) as (_ & _ & Hoff & _)|
      pose proof (sp_bounds true) as (_ & _ & Hoff & _)]; cbn [off_sp] in Hoff; apply (Hoff r); rewrite <- E; mlia.
  - intros y Hy. change (ram (saved m) y = vm_ram s y). unfold saved.
    rewrite (off_sp_ram _ true), (off_sp_ram _ false) by done. by apply Hram.
Qed.

(** The code that does so. *)
Lemma ex_load_sp m r B : words m -> regs m BUXN_JIT_S_VM = vmb ->
  exec_one B (LOp1 SLJIT_MOV_U8 (AReg (sp_reg r)) (AMem1 BUXN_JIT_S_VM (off_sp r))) m =
  Run (set_reg (sp_reg r) (mem m (vmb + off_sp r)) m).
Proof. intros Hw Hvm. cbn [exec_one exec_op1 Lir.val ea]. by rewrite sp_address. Qed.

Lemma ex_save_sp m r B : words m -> regs m BUXN_JIT_S_VM = vmb ->
  exec_one B (LOp1 SLJIT_MOV_U8 (AMem1 BUXN_JIT_S_VM (off_sp r)) (AReg (sp_reg r))) m =
  Run (store8 (vmb + off_sp r) (u8 (regs m (sp_reg r))) m).
Proof. intros Hw Hvm. cbn [exec_one exec_op1 Lir.val ea]. by rewrite sp_address. Qed.

Lemma h_load_state {B} (K : unit -> J B) Q c0 c m :
  Like c0 c -> is_Some (compiler_ptr c0) -> words m -> bytes m -> regs m BUXN_JIT_S_VM = vmb ->
  (forall c', Like c0 c' -> hwp (K tt) Q c' (loaded m)) -> hwp (bind buxn_jit_load_state K) Q c m.
Proof.
  intros Hl Hp Hw Hb Hvm HK. unfold buxn_jit_load_state. hassoc.
  eapply h_lir; [exact Hl|exact Hp|intros; apply (ex_load_sp m false); done|]. intros c1 Hl1. hassoc.
  eapply h_lir; [exact Hl1|exact Hp| |exact HK].
  intros B1. apply (ex_load_sp (set_reg BUXN_JIT_S_WSP (mem m (vmb + off_wsp)) m) true B1); [|done].
  apply words_set; [done|by apply word_u8].
Qed.

Lemma h_save_state {B} (K : unit -> J B) Q c0 c m :
  Like c0 c -> is_Some (compiler_ptr c0) -> words m -> regs m BUXN_JIT_S_VM = vmb ->
  (forall c', Like c0 c' -> hwp (K tt) Q c' (saved m)) -> hwp (bind buxn_jit_save_state K) Q c m.
Proof.
  intros Hl Hp Hw Hvm HK. unfold buxn_jit_save_state. hassoc.
  eapply h_lir; [exact Hl|exact Hp|intros; apply (ex_save_sp m false); done|]. intros c1 Hl1. hassoc.
  eapply h_lir; [exact Hl1|exact Hp| |exact HK].
  intros B1. by apply (ex_save_sp (store8 (vmb + off_wsp) (u8 (regs m BUXN_JIT_S_WSP)) m) true B1).
Qed.
End HostSim.

(** ** The devices of the host *)

(** [world mm d]: in the memory [mm] the devices are in the state [d].  The
    functions of the host called with the state [s] in memory answer as the
    model of the devices does, and leave a state in memory. *)
Class HostSpec {Lay : VmLayout} {SL : Sljit} {HO : Host} {DM : DevModel} (vmb : Z) := {
  world : (Z -> Z) -> dev -> Prop;
  world_frame mm mm' d : outside (vmb := vmb) mm mm' -> world mm d -> world mm' d;
  world_write mm d a v : is_u8 a -> is_u8 v -> world mm d ->
    world (fun x => if x =? vmb + off_device + a then v else mm x) (dev_write a v d);
  host_in mm s d a : is_u8 a -> Image (vmb := vmb) mm s -> world mm d ->
    exists s' d', dev_in a s d = (u8 (fst (vm_dei a mm)), (s', d')) /\
      Image (vmb := vmb) (snd (vm_dei a mm)) s' /\ world (snd (vm_dei a mm)) d';
  host_out mm s d a : is_u8 a -> Image (vmb := vmb) mm s -> world mm d ->
    exists s' d', dev_out a s d = (s', d') /\
      Image (vmb := vmb) (vm_deo a mm) s' /\ world (vm_deo a mm) d';
}.
