(* ===== verification/JumpSim.v ===== *)
(** * Jumps at run time

    [buxn_jit_jump] and [buxn_jit_conditional_jump], for targets that are not
    booleans: where the emitted code goes, and which link makes it arrive. *)
From S2P Require Import Prelude Lir Hamt Jit Queues StackCache Uxn MicroOps Opcodes Compile Invariant CacheSafety OpcodeSafety BlockSafety Machine StackSim PopSim OperandSim StepSim MemSim DivSim FetchSim OpcodeCorrect ExitSim UxnControl Emission Flows.
Local Open Scope jit_scope.

(** The link of jump [j] of the compiler [id]: to the block of address [t]. *)
Definition Linked (id j : nat) (ty : buxn_jit_link_type_t) (t : Z) (s : buxn_jit_t) : Prop :=
  exists b, mkEntry ty b id (UJump j) ∈ link_queue s /\ key_at s b = Some t.

Lemma linked_grows id j ty t s s' : grows s s' -> Linked id j ty t s -> Linked id j ty t s'.
Proof.
  intros Hg (b & Hin & Hk). exists b. split; [|by eapply key_at_prefix; [apply Hg|]].
  destruct (gr_link _ _ Hg) as [l ->]. apply elem_of_app. by right.
Qed.

Lemma link_added_linked target ra id k s s' :
  jit_ok s -> is_u16 (const_value target) -> link_added target ra id k s s' ->
  jit_ok s' /\ grows s s' /\
  forall ty j, jump_link target ra k = Some (ty, j) -> Linked id j ty (const_value target) s'.
Proof.
  intros Hok Hu. unfold link_added. destruct (jump_link target ra k) as [[ty j]|].
  - intros (pool & b & s2 & Eb & ->). apply (jit_ok_pool _ pool) in Hok.
    destruct (queue_block_spec _ _ Hok Hu) as (b' & s2' & Eb' & Hok2 & Hg2 & Hk).
    rewrite Eb in Eb'. injection Eb' as <- <-.
    destruct (jit_ok_link s2 ty b id j Hok2 ltac:(by eexists)) as [Hok3 Hg3].
    split; [done|]. split; [eapply grows_trans; [apply (grows_pool _ pool)|]; by eapply grows_trans|].
    intros ? ? [= <- <-]. exists b. split; [by left|]. by eapply key_at_prefix; [apply Hg3|].
  - intros ->. split; [done|]. split; [apply grows_refl|done].
Qed.

Section JumpSim.
Context {Lay : VmLayout} {SL : Sljit} {SP : SljitSpec} {HO : Host} {vmb : Z} {LS : LayoutSpec vmb}.
Context (call : nat -> mach -> option (Z * mach)).

(** After a call: on with the next opcode when the called code returned to
    it, and a return otherwise. *)
Definition call_flow (return_addr : Z) (o : option (Z * mach)) : flow :=
  match o with
  | Some (v, m) => if wrap v =? return_addr then Run (returned v m) else Return (u32 (wrap v)) (returned v m)
  | None => Stuck
  end.

Section Code.
Context (target : buxn_jit_operand_t) (return_addr : Z) (k : compiler) (t : Z) (m : mach).

#[local] Abbreviation is_const := (has_bit (semantics target) BUXN_JIT_SEM_CONST).
#[local] Abbreviation immediate := (has_bit (semantics target) BUXN_JIT_SEM_IMM_JMP).

Definition jump_flow : flow :=
  if is_const && (immediate || (t =? const_value target)) then
    if return_addr =? 0 then Leave (next_jump k) m
    else call_flow return_addr (call (if immediate then next_jump k else S (next_jump k)) m)
  else Return t m.

Lemma return_flow : is_u16 t -> regs m (reg target) = t -> forall B,
  xstep call B (Run m) (LReturn SLJIT_MOV32 (AReg (reg target))) = Return t m.
Proof. intros Ht Hr B. cbn. rewrite Hr, u32_id by (unfold is_u16, is_u32 in *; lia). done. Qed.

(** The check of the address a call returned. *)
Lemma call_checked B e l rest o :
  is_u16 return_addr -> B !! e = Some l -> LLabel l ∉ rest ->
  xexec call B (LCmp e SLJIT_EQUAL false (AReg (SR 0)) (AImm return_addr) ::
     LReturn SLJIT_MOV32 (AReg (SR 0)) :: rest ++ [LLabel l]) (after_call o) = call_flow return_addr o.
Proof.
  intros Hu He Hl. destruct o as [[v m']|]; [|by apply xexec_final].
  unfold xexec. cbn [fold_left after_call xstep exec_step exec_one val call_flow].
  rewrite sl_equal by (cbn; apply word_wrap). change (regs (returned v m') (SR 0)) with (wrap v).
  rewrite (wrap_u16 return_addr) by done.
  destruct (Z.eqb_spec (wrap v) return_addr) as [E|E]; cbn [jump_to xstep exec_step exec_one val].
  - rewrite He. cbn [xstep exec_step]. rewrite fold_left_app.
    fold (xexec call B rest (Skip l (returned v m'))). rewrite xexec_skip by done.
    cbn. by rewrite decide_True.
  - by apply xexec_final.
Qed.

Lemma exec_jump B fb :
  words m -> is_u16 t -> is_u16 return_addr -> is_u16 (const_value target) ->
  (immediate = true -> is_const = true) -> (immediate = false -> regs m (reg target) = t) ->
  jump_binds target return_addr fb (next_jump k) (next_label k) (binds k) ⊆ B ->
  xexec call B (jump_code target return_addr (next_jump k) (next_label k)) (Run m) = jump_flow.
Proof.
  intros Hw Ht Hra Hc Himm Hreg HB. unfold jump_code, jump_binds, jump_flow in *.
  pose proof (word_u16 _ Ht) as Hwt. pose proof (word_u16 _ Hc) as Hwc.
  assert (forall j l, jump_binds target return_addr fb (next_jump k) (next_label k) (binds k) !! j = Some l ->
    B !! j = Some l) as Hlk by (intros j l Hj; by eapply lookup_weaken).
  unfold jump_binds in Hlk.
  destruct is_const; cbn [andb].
  2:{ destruct immediate; [by specialize (Himm eq_refl)|]. unfold xexec. cbn [fold_left].
      by apply return_flow; [..|apply Hreg]. }
  destruct (return_addr =? 0) eqn:Era; [|destruct immediate].
  - destruct immediate; cbn [orb].
    + done.
    + unfold xexec. cbn [fold_left xstep exec_step exec_one val]. rewrite Hreg by done.
      rewrite sl_equal by (done || apply word_wrap). rewrite (wrap_u16 (const_value target)) by done.
      destruct (t =? const_value target) eqn:E; cbn [jump_to]; [done|]. by apply return_flow, Hreg.
  - cbn [orb]. unfold xexec. cbn [fold_left xstep].
    apply (call_checked B _ _ [LReturn SLJIT_MOV32 (AReg (reg target))]); [done| |].
    + apply Hlk, lookup_insert_eq.
    + by rewrite list_elem_of_singleton.
  - unfold xexec. cbn [fold_left xstep exec_step exec_one val orb]. rewrite Hreg by done.
    rewrite sl_not_equal by (done || apply word_wrap). rewrite (wrap_u16 (const_value target)) by done.
    destruct (t =? const_value target) eqn:E; cbn [negb jump_to].
    + cbn [xstep]. apply (call_checked B _ _ [LLabel (next_label k); LReturn SLJIT_MOV32 (AReg (reg target))]).
      * done.
      * apply Hlk, lookup_insert_eq.
      * rewrite !elem_of_cons, elem_of_nil. intros [[=]|[[=]|[]]]. lia.
    + rewrite (Hlk (next_jump k) (next_label k)) by
        (rewrite lookup_insert_ne by lia; apply lookup_insert_eq).
      cbn [xstep exec_step]. rewrite decide_True by done. by apply return_flow, Hreg.
Qed.

Lemma jump_bound fb : bound_ok k -> bound_ok (jump_compiler target return_addr fb k).
Proof.
  intros Hk j l. unfold jump_compiler, jump_binds, jump_jumps. cbn [binds next_jump].
  destruct is_const; [destruct (return_addr =? 0); [|destruct immediate]|];
    rewrite ?lookup_insert_Some; intros Hj; repeat destruct Hj as [[<- _]|[_ Hj]]; try lia;
    apply Hk in Hj; lia.
Qed.

Lemma jump_binds_sub fb : bound_ok k -> binds k ⊆ binds (jump_compiler target return_addr fb k).
Proof.
  intros Hk. apply map_subseteq_spec. intros j l Hj. cbn. rewrite jump_binds_old; [done|by eapply Hk].
Qed.
End Code.

(** ** [buxn_jit_jump] *)

Lemma clear_uncached c : uncached c -> buxn_jit_clear_stack_caches c = Ok (tt, c).
Proof.
  intros [Hw Hr]. unfold buxn_jit_clear_stack_caches, buxn_jit_stack_cache_clear, BUXN_JIT_CACHE_SIZE.
  cbn [clear_loop]. unfold buxn_jit_stack_cache_spill, bind, gets, ret. cbn [get_cache].
  rewrite Hw. cbn. by rewrite Hr.
Qed.

(** What a relative jump does to its target: the code and the operand. *)
Definition relative_code (target : buxn_jit_operand_t) (p : Z) : list lir :=
  if is_short target then []
  else [LOp1 SLJIT_MOV_S8 (AReg (reg target)) (AReg (reg target));
        LOp2 SLJIT_ADD (AReg (reg target)) (AReg (reg target)) (AImm p)].

Definition absolute (target : buxn_jit_operand_t) (p : Z) : buxn_jit_operand_t :=
  if is_short target then target
  else mkOperand (semantics target) (is_short target) (u16 (p + s8 (const_value target))) (reg target).

Definition emit_code (l : list lir) (k : compiler) : compiler :=
  mkCompiler (code k ++ l) (next_label k) (next_jump k) (binds k).

(** The jump, compiled with nothing cached. *)
Lemma jump_run next target ra id c :
  compiler_ptr c = Some id -> uncached c ->
  (is_short target = false -> has_bit (semantics target) BUXN_JIT_SEM_BOOLEAN = false) ->
  let k := emit_code (relative_code target (pc c)) (comp c) in
  let abs := absolute target (pc c) in
  wp (buxn_jit_jump next target ra) (fun _ c' =>
    comp c' = jump_compiler abs ra (call_fallback c) k /\ link_added abs ra id k (jit c) (jit c') /\
    after_jump abs ra c c') c.
Proof.
  intros Hp Hu Hb k abs. unfold buxn_jit_jump. apply wp_bind. unfold wp at 1. rewrite clear_uncached by done.
  unfold k, abs, relative_code, absolute, emit_code in *. destruct (is_short target).
  - rewrite app_nil_r. destruct (comp c) as [] eqn:Ec. rewrite <- Ec. by apply jump_abs_run.
  - rewrite Hb by done. apply wp_bind, wp_gets.
    do 2 (apply wp_bind; unfold wp at 1, sljit_emit_op1, sljit_emit_op2, emit_lir, with_compiler;
      cbn [compiler_ptr set_comp]; rewrite Hp).
    match goal with |- wp _ _ ?x => set (c2 := x) end.
    assert (comp c2 = emit_code [LOp1 SLJIT_MOV_S8 (AReg (reg target)) (AReg (reg target));
      LOp2 SLJIT_ADD (AReg (reg target)) (AReg (reg target)) (AImm (pc c))] (comp c)) as Ec.
    { unfold c2, emit, emit_code. cbn. by rewrite <- app_assoc. }
    eapply wp_mono; [by apply (jump_abs_run _ _ id c2)|]. rewrite Ec.
    intros [] c' (-> & Hl & s & k2 & ->). split; [done|]. split; [done|]. by exists s, k2.
Qed.

(** The target of a jump in its register, and what it stands for. *)
Definition holds_target (target : buxn_jit_operand_t) (v : Z) (m : mach) : Prop :=
  if has_bit (semantics target) BUXN_JIT_SEM_IMM_JMP then
    has_bit (semantics target) BUXN_JIT_SEM_CONST = true /\ is_short target = true /\ const_value target = v
  else regs m (reg target) = v /\ is_op (reg target).

Definition at_target (target : buxn_jit_operand_t) (p : Z) (m : mach) : mach :=
  if is_short target then m
  else let r := reg target in let m1 := set_reg r (wrap (s8 (regs m r))) m in
       set_reg r (wrap (regs m1 r + p)) m1.

Lemma jump_target_range short p v t :
  is_u16 p -> val_in short v -> jump_target short p v = Some t -> is_u16 t.
Proof.
  intros Hp Hv. unfold jump_target. destruct short; [by intros [= <-]|].
  destruct (Z.leb_spec 0 (p + s8 v)), (Z.ltb_spec (p + s8 v) 65536); cbn; try done. by intros [= <-].
Qed.

Lemma exec_relative target p v t m B :
  words m -> is_u16 p -> val_in (is_short target) v -> holds_target target v m ->
  jump_target (is_short target) p v = Some t ->
  xexec call B (relative_code target p) (Run m) = Run (at_target target p m) /\
  words (at_target target p m) /\ holds_target (absolute target p) t (at_target target p m).
Proof.
  intros Hw Hp Hv Hh Ht. unfold relative_code, at_target, holds_target, absolute in *.
  destruct (is_short target) eqn:Es.
  - cbn in Ht. injection Ht as <-. split; [done|]. split; [done|]. by rewrite Es.
  - destruct (has_bit (semantics target) BUXN_JIT_SEM_IMM_JMP) eqn:Ei.
    { destruct Hh as (_ & ? & _). congruence. }
    destruct Hh as [Ev Hop]. cbn [semantics reg]. rewrite Ei. pose proof (word_u16 _ Hp) as Hwp.
    split; [|split; [auto 12 with words|split; [|done]]].
    + rewrite xexec_exec; unfold exec; cbn [fold_left exec_step];
        rewrite ex_mov_s8 by done; cbn [exec_step]; rewrite ex_add_imm by auto with words; done.
    + rewrite !regs_set_eq, Ev. unfold jump_target in Ht.
      destruct (Z.leb_spec 0 (p + s8 v)), (Z.ltb_spec (p + s8 v) 65536); try discriminate.
      injection Ht as <-. unfold wrap. rewrite Zplus_mod_idemp_l, Z.add_comm.
      apply (wrap_u16 (p + s8 v)). unfold is_u16. lia.
Qed.

Lemma at_target_parked target p v m s :
  holds_target target v m -> words (at_target target p m) -> Parked (vmb := vmb) m s ->
  Parked (vmb := vmb) (at_target target p m) s /\ mem (at_target target p m) = mem m.
Proof.
  intros Hh Hw Hpk. unfold at_target, holds_target in *. destruct (is_short target); [done|].
  destruct (has_bit (semantics target) BUXN_JIT_SEM_IMM_JMP); [destruct Hh as (_ & ? & _); done|].
  destruct Hh as [_ Hop]. split; [|done]. destruct Hpk as [_ Hby Hvm Hst Hram]. split; [done|done|..].
  - msimp. done.
  - intros r. specialize (Hst r). destruct r; cbn [sp_reg] in *; msimp; done.
  - done.
Qed.

(** Where a jump to the pc of [s] goes, from a machine between two blocks. *)
Definition Goes (id : nat) (s : vm) (ra : Z) (m0 : mach) (fl : flow) (c' : buxn_jit_ctx_t) : Prop :=
  exists m, Parked (vmb := vmb) m s /\ elsewhere (vmb := vmb) m0 m /\
    (fl = Return (vm_pc s) m /\ is_u16 (vm_pc s) \/
     (exists j, Linked id j BUXN_JIT_LINK_TO_BODY (vm_pc s) (jit c') /\ fl = Leave j m) \/
     (ra <> 0 /\ mem_base c' = 0 /\
      exists j, Linked id j BUXN_JIT_LINK_TO_HEAD (vm_pc s) (jit c') /\ fl = call_flow ra (call j m))).

(** What compiling a jump does to the context. *)
Record jumped (ra : Z) (c c' : buxn_jit_ctx_t) : Prop := {
  jd_ok : jit_ok (jit c');
  jd_grows : grows (jit c) (jit c');
  jd_base : ra = 0 -> mem_base c' = mem_base c;
  jd_rest : (pc c', compiler_ptr c', wst_cache c', rst_cache c', reg_ref_counts c', current_opcode c') =
            (pc c, compiler_ptr c, wst_cache c, rst_cache c, reg_ref_counts c, current_opcode c);
}.

Lemma absolute_const target p : is_u16 (const_value target) -> is_u16 (const_value (absolute target p)).
Proof. intros. unfold absolute. destruct (is_short target); [done|apply u16_range]. Qed.

Lemma jump_wp next target ra id c :
  compiler_ptr c = Some id -> uncached c -> jit_ok (jit c) -> is_u16 (const_value target) ->
  (is_short target = false -> has_bit (semantics target) BUXN_JIT_SEM_BOOLEAN = false) ->
  wp (buxn_jit_jump next target ra) (fun _ c' =>
    (bound_ok (comp c) -> bound_ok (comp c')) /\ jumped ra c c') c.
Proof.
  intros Hp Hu Hok Hc Hb. eapply wp_mono; [by eapply jump_run|].
  intros [] c' (Ek & Hl & s & k & Ec). split.
  - intros Hbo. rewrite Ek. by apply jump_bound.
  - destruct (link_added_linked _ _ _ _ _ _ Hok (absolute_const _ (pc c) Hc) Hl) as (Hok' & Hg & _).
    subst c'. split; [done|done| |done]. intros ->. cbn. unfold jump_base. cbn.
    by rewrite andb_false_r.
Qed.

Lemma flows_jump next target ra id c m v s :
  compiler_ptr c = Some id -> uncached c -> jit_ok (jit c) -> is_u16 (pc c) -> is_u16 ra ->
  is_u16 (const_value target) ->
  (is_short target = false -> has_bit (semantics target) BUXN_JIT_SEM_BOOLEAN = false) ->
  Parked (vmb := vmb) m s -> val_in (is_short target) v -> holds_target target v m ->
  jump_target (is_short target) (pc c) v = Some (vm_pc s) ->
  flows call (buxn_jit_jump next target ra) (fun _ fl c' => Goes id s ra m fl c' /\ jumped ra c c') c m.
Proof.
  intros Hp Hu Hok Hpc Hra Hc Hb Hpk Hv Hh Ht. pose proof (pk_words _ _ Hpk) as Hw.
  set (m1 := at_target target (pc c) m).
  assert (words m1 /\ holds_target (absolute target (pc c)) (vm_pc s) m1) as [Hw1 Hh1]
    by (by eapply (exec_relative target (pc c) v (vm_pc s) m ∅)).
  destruct (at_target_parked target (pc c) v m s Hh Hw1 Hpk) as [Hpk1 Hm1]. fold m1 in Hpk1, Hm1.
  pose proof (absolute_const target (pc c) Hc) as Hca.
  pose proof (jump_target_range _ _ _ _ Hpc Hv Ht) as Hu16.
  intros Hbo. pose proof (jump_wp next target ra id c Hp Hu Hok Hc Hb) as Hwp.
  pose proof (jump_run next target ra id c Hp Hu Hb) as Hrun. unfold wp in *.
  destruct (buxn_jit_jump next target ra c) as [[[] c']| |]; [|done|done].
  destruct Hwp as [Hbo' Hj]. specialize (Hbo' Hbo).
  cbv zeta in Hrun. set (k := emit_code _ _) in *. set (abs := absolute target (pc c)) in *.
  destruct Hrun as (Ek & Hl & Haf). split; [done|]. split.
  { rewrite Ek. exact (jump_binds_sub abs ra k (call_fallback c) Hbo). }
  exists (relative_code target (pc c) ++ jump_code abs ra (next_jump k) (next_label k)), (jump_flow abs ra k (vm_pc s) m1).
  split; [by rewrite Ek; cbn; rewrite app_assoc|]. split.
  { intros B HB. rewrite xexec_app.
    destruct (exec_relative target (pc c) v (vm_pc s) m B Hw Hpc Hv Hh Ht) as (-> & _ & _). fold m1.
    rewrite Ek in HB. unfold holds_target in Hh1.
    apply (exec_jump _ _ _ _ _ B (call_fallback c)); try done.
    - intros E. rewrite E in Hh1. apply Hh1.
    - intros E. rewrite E in Hh1. apply Hh1. }
  split; [|done].
  destruct (link_added_linked _ _ _ _ _ _ Hok Hca Hl) as (_ & _ & Hlink).
  exists m1. split; [done|]. split; [intros a _ _; by rewrite Hm1|].
  unfold jump_flow, jump_link in *.
  destruct (has_bit (semantics abs) BUXN_JIT_SEM_CONST) eqn:Ecst; [|by left]. cbn [andb].
  destruct (has_bit (semantics abs) BUXN_JIT_SEM_IMM_JMP || (vm_pc s =? const_value abs)) eqn:Eg; [|by left].
  right. assert (const_value abs = vm_pc s) as Ect.
  { unfold holds_target in Hh1. destruct (has_bit (semantics abs) BUXN_JIT_SEM_IMM_JMP); [apply Hh1|].
    cbn in Eg. apply Z.eqb_eq in Eg. done. }
  rewrite Ect in Hlink. destruct (Z.eqb_spec ra 0) as [E0|E0].
  - left. eexists. split; [by apply Hlink|done].
  - right. split; [done|]. split.
    + destruct Haf as (? & ? & ->). cbn. unfold jump_base. rewrite Ecst. cbn.
      by destruct (Z.eqb_spec ra 0).
    + eexists. split; [by apply Hlink|done].
Qed.

End JumpSim.
