(* ===== verification/ControlSim.v ===== *)
(** * The opcodes that leave the straight line, compiled and executed

    [JMP], [JCN], [JSR] and the immediate jumps: their code falls through to
    the next opcode, jumps to the block of the target, or returns the target,
    in the state the specification of UxnControl.v computes. *)
From S2P Require Import Prelude Lir Hamt Jit Queues StackCache Uxn MicroOps Opcodes Compile Invariant CacheSafety OpcodeSafety BlockSafety Machine StackSim PopSim OperandSim StepSim OpcodeSim MemSim DivSim FetchSim OpcodeCorrect ExitSim UxnControl Emission Flows JumpSim.
Local Open Scope jit_scope.

Section ControlSim.
Context {Lay : VmLayout} {SL : Sljit} {SP : SljitSpec} {HO : Host} {vmb : Z} {LS : LayoutSpec vmb}.
Context (call : nat -> mach -> option (Z * mach)).

#[local] Abbreviation Holds := (Holds (vmb := vmb)).
#[local] Abbreviation Shows := (Shows (vmb := vmb)).
#[local] Abbreviation Rep := (Rep (vmb := vmb)).
#[local] Abbreviation elsewhere := (elsewhere (vmb := vmb)).
#[local] Abbreviation ram := (ram (vmb := vmb)).
#[local] Abbreviation flows := (flows call).

(** ** Outcomes *)

(** Where an opcode leads: on to the next one, or away - and back, when the
    jump was a call. *)
Definition Outcome (id : nat) (s : vm) (m0 : mach) (fl : flow) (c' : buxn_jit_ctx_t) : Prop :=
  (exists m, fl = Run m /\ Shows c' m s /\ elsewhere m0 m) \/
  (exists ra, Goes (vmb := vmb) call id s ra m0 fl c' /\
     (ra <> 0 -> pc c' = ra /\ uncached c' /\ exists H, Inv c' H)).

(** ** Steps *)

Lemma f_clear {B} op c m H vals st (K : unit -> J B) Q :
  Holds op c m H vals st ->
  (forall c' m', Holds op c' m' H vals st -> uncached c' -> ctl c' = ctl c ->
     compiler_ptr c' = compiler_ptr c -> evolves (vmb := vmb) m m' -> flows (K tt) Q c' m') ->
  flows (bind buxn_jit_clear_stack_caches K) Q c m.
Proof.
  intros [Hr Hop Hv] HK. apply flows_bind. eapply hwp_mono; [by apply hwp_clear|].
  intros [] c1 m1 (Hr1 & Hev & _ & Hf & Hl). apply HK; [|done|by apply ctl_frame| |done].
  - split; [done| |by eapply hold_evolves; [apply Hr|..]].
    rewrite <- Hop. apply ctl_opcode. by apply ctl_frame.
  - unfold frame in Hf. congruence.
Qed.

Lemma holds_parked op c m H vals s :
  Holds op c m H vals (vm_stacks s) -> uncached c -> (forall y, is_u16 y -> ram m y = vm_ram s y) ->
  Parked (vmb := vmb) m s.
Proof. intros [Hr _ _]. by apply rep_parked with H. Qed.

(** Emitted code that only changes the fixed scratch registers. *)
Lemma holds_like op c m H vals st c' m' :
  Holds op c m H vals st -> Like c c' -> words m' -> mem m' = mem m ->
  regs_but [BUXN_JIT_R_TMP; BUXN_JIT_R_MEM_OFFSET] m m' -> Holds op c' m' H vals st.
Proof.
  intros [[Hi Hco Hce Hst Hla] Hop Hv] Hl Hw Hm Hbut. pose proof Hl as [Hs _].
  assert (forall q, get_cache q c' = get_cache q c) as Hk
    by (intros q; unfold shape in Hs; destruct q; cbn [get_cache]; congruence).
  assert (forall q, is_op q -> regs m' q = regs m q) as Hops.
  { intros q Hq. apply Hbut. rewrite !not_elem_of_cons.
    split_and!; [by apply op_ne..|apply not_elem_of_nil]. }
  assert (forall q x, x ∈ live (get_cache q c) -> regs m' (reg (value x)) = regs m (reg (value x))) as Hcell
    by (intros q x Hx; apply Hops; by eapply inv_cell_op).
  split; [split|..].
  - by eapply inv_shape.
  - eapply core_like; [done..|exact Hbut| |]; rewrite !not_elem_of_cons; (split_and!; [done..|apply not_elem_of_nil]).
  - intros q. rewrite Hk. specialize (Hce q). rewrite Forall_forall in *. intros x Hx.
    unfold cell_ok. rewrite (Hcell q x Hx). by apply Hce.
  - intros q. destruct (Hst q) as [Hlen (lm & El & Hstk)]. split; [done|]. exists lm.
    assert (regs m' (sp_reg q) = regs m (sp_reg q)) as Esp by (apply Hbut; rewrite !not_elem_of_cons;
      split_and!; [by destruct q..|apply not_elem_of_nil]).
    rewrite Hk, Esp, Hm. split; [|done]. rewrite El. f_equal. symmetry. apply expand_ext.
    intros ? (x & -> & Hx)%list_elem_of_fmap. apply (Hcell q). by apply unflushed_live.
  - intros q. by rewrite Hk.
  - rewrite <- Hop. apply ctl_opcode, ctl_frame. unfold shape in Hs. congruence.
  - unfold hold in *. rewrite Forall_forall in *. intros x Hx. destruct (Hv x Hx) as [Hin E].
    split; [done|]. rewrite <- E. apply Hops. by eapply inv_held_op.
Qed.

(** ** A conditional around code that leaves *)

Lemma flows_guard mk (body : J unit) taken (P : buxn_jit_ctx_t -> Prop) Q1 Q c m :
  is_Some (compiler_ptr c) ->
  (forall j B, xstep call B (Run m) (mk j) = if taken : bool then jump_to B j false m else Run m) ->
  (forall j l, mk j <> LLabel l) -> (forall p, LogsFrom p body) ->
  (forall c1, Like c c1 -> wp body (fun _ c2 =>
     (bound_ok (comp c1) -> bound_ok (comp c2)) /\ is_Some (compiler_ptr c2) /\ P c2) c1) ->
  (taken = false -> forall c1, Like c c1 -> flows body (fun _ fl c2 => final fl /\ Q1 fl c2) c1 m) ->
  (forall c2 c3 fl, P c2 -> Like c2 c3 -> (if taken then fl = Run m else Q1 fl c2) -> Q tt fl c3) ->
  flows (j <-- with_compiler (emit_jump_site mk) ;; body ;;; set_label_here j) Q c m.
Proof.
  intros [x Hx] Hmk Hml Hlog Hwp Hfl HQ Hbo. apply wp_bind. unfold wp at 1, with_compiler. rewrite Hx.
  cbn -[wp]. set (k1 := mkCompiler _ _ _ _). set (c1 := set_comp (fun _ => k1) c).
  assert (Like c c1) as Hl1 by done. specialize (Hwp c1 Hl1). apply wp_bind. unfold wp in *.
  assert (bound_ok k1) as Hb1 by (intros j l Hj; apply Hbo in Hj; cbn; lia).
  destruct (body c1) as [[[] c2]| |] eqn:E2; [|done|done]. destruct Hwp as (Hb2 & [y Hy] & HP).
  pose proof (logs_grown _ _ _ _ Hlog E2) as [Hj2 _ (new & Ecode & Hlab) Hold _ _]. cbn in Hj2, Ecode, Hlab, Hold.
  specialize (Hb2 Hb1). set (j := next_jump (comp c)) in *.
  assert (binds (comp c2) !! j = None) as Hfresh.
  { rewrite Hold by (unfold j; lia). destruct (binds (comp c) !! j) eqn:Ej; [|done]. apply Hbo in Ej. unfold j in Ej. lia. }
  unfold set_label_here, sljit_emit_label, set_label, with_compiler, bind. rewrite Hy. cbn. rewrite Hy. cbn.
  set (l := next_label (comp c2)) in *. split; [|split].
  - intros i l'. cbn. rewrite lookup_insert_Some. intros [[<- _]|[_ Hi]]; [unfold j; lia|by apply Hb2 in Hi].
  - apply map_subseteq_spec. intros i l' Hi. rewrite lookup_insert_ne.
    + rewrite Hold; [done|]. apply Hbo in Hi. unfold j. lia.
    + intros <-. rewrite <- Hold, Hfresh in Hi; [done|unfold j; lia].
  - match goal with |- context [Q tt _ ?z] => set (c3 := z) end.
    assert (forall B, <[j := l]> (binds (comp c2)) ⊆ B -> B !! j = Some l /\ binds (comp c2) ⊆ B) as HB3.
    { intros B HB. split; [eapply lookup_weaken; [apply lookup_insert_eq|exact HB]|].
      etrans; [|exact HB]. by apply insert_subseteq. }
    destruct taken.
    + exists (mk j :: new ++ [LLabel l]), (Run m). split; [by rewrite Ecode, <- !app_assoc|]. split.
      * intros B HB. destruct (HB3 B HB) as [Ej _].
        change (xexec call B (mk j :: new ++ [LLabel l]) (Run m))
          with (xexec call B (new ++ [LLabel l]) (xstep call B (Run m) (mk j))).
        rewrite Hmk. cbn [jump_to]. rewrite Ej, xexec_app, xexec_skip.
        { unfold xexec. cbn. by rewrite decide_True. }
        intros Hin. apply Hlab in Hin. unfold l in Hin. lia.
      * by apply (HQ c2).
    + specialize (Hfl eq_refl c1 Hl1 Hb1). unfold wp in Hfl. rewrite E2 in Hfl.
      destruct Hfl as (_ & _ & new' & fl & Ecode' & Hrun & Hfin & HQ1). cbn in Ecode'.
      rewrite Ecode in Ecode'. apply app_inv_head in Ecode'. subst new'.
      exists (mk j :: new ++ [LLabel l]), fl. split; [by rewrite Ecode, <- !app_assoc|]. split.
      * intros B HB. destruct (HB3 B HB) as [_ HB2].
        change (xexec call B (mk j :: new ++ [LLabel l]) (Run m))
          with (xexec call B (new ++ [LLabel l]) (xstep call B (Run m) (mk j))).
        rewrite Hmk, xexec_app, Hrun by done. by apply xexec_final.
      * by apply (HQ c2).
Qed.
(** ** Conditional jumps *)

Lemma evolves_elsewhere m m' : evolves (vmb := vmb) m m' -> elsewhere m m'.
Proof. intros Hev a Ha _. by apply (evolves_keeps _ _ Hev). Qed.

Lemma evolves_ram m m' : evolves (vmb := vmb) m m' -> forall y, is_u16 y -> ram m' y = ram m y.
Proof. intros Hev. by apply off_stacks_ram, evolves_keeps. Qed.

Lemma goes_final id s m0 fl c : Goes (vmb := vmb) call id s 0 m0 fl c -> final fl.
Proof. intros (m & _ & _ & [[-> _]|[(j & _ & ->)|(Hn & _)]]); done. Qed.

Lemma goes_like id s ra m0 fl c c' :
  jit c' = jit c -> mem_base c' = mem_base c ->
  Goes (vmb := vmb) call id s ra m0 fl c -> Goes (vmb := vmb) call id s ra m0 fl c'.
Proof. unfold Goes. by intros -> ->. Qed.

Lemma goes_elsewhere id s ra m m0 fl c :
  elsewhere m m0 -> Goes (vmb := vmb) call id s ra m0 fl c -> Goes (vmb := vmb) call id s ra m fl c.
Proof. intros He (m1 & Hp & He1 & Hg). exists m1. split; [done|]. split; [by eapply elsewhere_trans|done]. Qed.

Lemma like_fields c c' : Like c c' ->
  jit c' = jit c /\ pc c' = pc c /\ compiler_ptr c' = compiler_ptr c /\ mem_base c' = mem_base c /\
  wst_cache c' = wst_cache c /\ rst_cache c' = rst_cache c /\ reg_ref_counts c' = reg_ref_counts c.
Proof. intros [Hs Hb]. unfold shape, frame in Hs. split_and!; congruence. Qed.

(** The test of the condition. *)
Lemma test_skip m x j B : is_u8 x ->
  xstep call B (Run (set_flags (sl_alu SLJIT_AND x (wrap 0xff)) 0 m)) (LJump j false (Some SLJIT_EQUAL)) =
  if x =? 0 then jump_to B j false (set_flags (sl_alu SLJIT_AND x (wrap 0xff)) 0 m)
  else Run (set_flags (sl_alu SLJIT_AND x (wrap 0xff)) 0 m).
Proof.
  intros Hx. assert (sl_alu SLJIT_AND x (wrap 0xff) = x) as ->.
  { rewrite wrap_u16 by mlia. rewrite sl_and by (apply word_u16; mlia).
    change 0xff with (Z.ones 8). rewrite Z.land_ones by lia. mlia. }
  cbn. rewrite sl_equal by (apply word_u16; mlia). done.
Qed.

Lemma flows_conditional op next condition target id c m H vals st x v t :
  Holds op c m H vals st -> compiler_ptr c = Some id -> jit_ok (jit c) -> is_u16 (pc c) ->
  (reg condition, x) ∈ vals -> is_u8 x -> is_u16 (const_value target) ->
  (is_short target = false -> has_bit (semantics target) BUXN_JIT_SEM_BOOLEAN = false) ->
  (forall m', hold H m' vals -> holds_target target v m') -> val_in (is_short target) v ->
  (x <> 0 -> jump_target (is_short target) (pc c) v = Some t) -> (forall p, LogsFrom p next) ->
  flows (buxn_jit_conditional_jump next condition target) (fun _ fl c' =>
    Outcome id (mkVm st (ram m) (if x =? 0 then pc c else t)) m fl c') c m.
Proof.
  intros Hh Hcp Hok Hpc Hx Hux Hc Hb Htar Hv Ht Hlog. unfold buxn_jit_conditional_jump.
  eapply f_clear; [exact Hh|]. intros c1 m1 Hh1 Hu1 Hctl1 Hcp1 Hev1.
  assert (jit c1 = jit c /\ pc c1 = pc c) as [Hj1 Hp1] by (unfold ctl in Hctl1; split; congruence).
  pose proof (hd_vals _ _ _ _ _ _ Hh1) as Hv1. rewrite Hcp in Hcp1.
  assert (regs m1 (reg condition) = x) as Ex
    by (unfold hold in Hv1; rewrite Forall_forall in Hv1; by apply (Hv1 _ Hx)).
  set (m2 := set_flags (sl_alu SLJIT_AND x (wrap 0xff)) 0 m1).
  apply flows_bind. eapply (hwp_lir _ m2); [by rewrite Hcp1|by intros B; cbn; rewrite Ex|].
  intros c2 Hs2 Hb2. assert (Like c1 c2) as Hl2 by done.
  destruct (like_fields _ _ Hl2) as (Hj2 & Hp2 & Hcp2 & _ & Hw2 & Hr2 & Hn2).
  assert (Parked (vmb := vmb) m2 (mkVm st (ram m) t)) as Hpk.
  { destruct (holds_parked op c1 m1 H vals (mkVm st (ram m) t) Hh1 Hu1 (evolves_ram _ _ Hev1)). by split. }
  assert (elsewhere m m2) as He2 by (exact (evolves_elsewhere _ _ Hev1)).
  assert (uncached c2) as Hu2 by (unfold uncached in *; by rewrite Hw2, Hr2).
  set (s := mkVm st (ram m) t) in *.
  assert (forall c3, Like c2 c3 -> compiler_ptr c3 = Some id /\ uncached c3 /\ jit_ok (jit c3) /\ is_u16 (pc c3))
    as H3.
  { intros c3 (Hj3 & Hp3 & Hcp3 & _ & Hw3 & Hr3 & _)%like_fields. unfold uncached in *.
    rewrite Hcp3, Hcp2, Hw3, Hr3, Hj3, Hj2, Hj1, Hp3, Hp2, Hp1. done. }
  unfold sljit_emit_jump.
  eapply (flows_guard _ _ (x =? 0) (fun c4 => exists c3, Like c2 c3 /\ jumped 0 c3 c4)
           (fun fl c4 => Goes (vmb := vmb) call id s 0 m2 fl c4)).
  - by rewrite Hcp2, Hcp1.
  - intros j B. by apply test_skip.
  - done.
  - by apply logs_jump.
  - intros c3 Hl3. destruct (H3 c3 Hl3) as (Hcp3 & Hu3 & Hok3 & Hpc3).
    eapply wp_mono; [by eapply (jump_wp next target 0 id c3)|]. intros [] c4 [Hb4 Hj4].
    split; [done|]. split; [|by exists c3]. pose proof (jd_rest _ _ _ Hj4).
    assert (compiler_ptr c4 = compiler_ptr c3) as -> by congruence. by rewrite Hcp3.
  - intros Hne%Z.eqb_neq c3 Hl3. destruct (H3 c3 Hl3) as (Hcp3 & Hu3 & Hok3 & Hpc3).
    eapply flows_mono; [eapply (flows_jump call next target 0 id c3 m2 v s); try done|].
    + by apply Htar.
    + destruct (like_fields _ _ Hl3) as (_ & -> & _). rewrite Hp2, Hp1. by apply Ht.
    + intros u fl c4 [Hg _]. split; [by eapply goes_final|exact Hg].
  - intros c4 c5 fl (c3 & Hl3 & Hj4) Hl5.
    destruct (like_fields _ _ Hl5) as (Hj5 & Hp5 & Hcp5 & Hmb5 & Hw5 & Hr5 & Hn5).
    destruct (like_fields _ _ Hl3) as (Hj3 & Hp3 & Hcp3 & Hmb3 & Hw3 & Hr3 & Hn3).
    pose proof (jd_rest _ _ _ Hj4) as Hrest. pose proof (jd_base _ _ _ Hj4 eq_refl) as Hmb4.
    destruct (x =? 0).
    + intros ->. left. exists m2. split; [done|]. split; [|done]. split; [|split].
      * exists H. destruct (hd_rep _ _ _ _ _ _ Hh1) as [Hi1 Hco1 Hce1 Hst1 Hla1].
        assert (Rep c1 m2 H st) as Hr1 by (by split; [|destruct Hco1; split|..]).
        apply (rep_view c1 c5 m2 H H st); [unfold view; congruence| |done].
        destruct Hi1 as [Hcn Hlen]. split; [|done].
        assert (owned c5 H = owned c1 H) as -> by (unfold owned; congruence).
        apply (counted_same c1); try done; congruence.
      * cbn. congruence.
      * intros y Hy. exact (evolves_ram _ _ Hev1 y Hy).
    + intros Hg. right. exists 0. split; [|done]. apply (goes_like id s 0 m fl c4); [done|done|].
      by eapply goes_elsewhere.
Qed.

(** ** The parts of a jump handler *)

Lemma logs_ptr {A} (f : J A) c a c' :
  (forall p, LogsFrom p f) -> f c = Ok (a, c') -> is_Some (compiler_ptr c') -> compiler_ptr c' = compiler_ptr c.
Proof.
  intros Hf E [x Hx]. destruct (gn_ptr _ _ (logs_grown f c a c' Hf E)) as [Hp|Hp]; cbn in Hp; congruence.
Qed.

(** Knowing the run that was verified. *)
Lemma hwp_run {A} (f : J A) Q c m :
  hwp f Q c m -> hwp f (fun a c' m' => Q a c' m' /\ f c = Ok (a, c')) c m.
Proof.
  intros Hf Hb. specialize (Hf Hb). unfold wp in *. destruct (f c) as [[a c']| |]; [|done|done].
  destruct Hf as (m' & ? & ?). by exists m'.
Qed.

Lemma flows_uncached {B} (K : unit -> J B) Q c m :
  uncached c -> flows (bind buxn_jit_clear_stack_caches K) Q c m -> flows (K tt) Q c m.
Proof. intros Hu Hf Hb. specialize (Hf Hb). unfold wp, bind in *. by rewrite clear_uncached in Hf. Qed.

Lemma f_jump op next target ra id c m H vals v s :
  Holds op c m H vals (vm_stacks s) -> (forall y, is_u16 y -> ram m y = vm_ram s y) ->
  compiler_ptr c = Some id -> jit_ok (jit c) -> is_u16 (pc c) -> is_u16 ra ->
  is_u16 (const_value target) ->
  (is_short target = false -> has_bit (semantics target) BUXN_JIT_SEM_BOOLEAN = false) ->
  (forall m', hold H m' vals -> holds_target target v m') -> val_in (is_short target) v ->
  jump_target (is_short target) (pc c) v = Some (vm_pc s) ->
  flows (buxn_jit_jump next target ra) (fun _ fl c' =>
    Goes (vmb := vmb) call id s ra m fl c' /\ pc c' = pc c /\ uncached c' /\ exists H, Inv c' H) c m.
Proof.
  intros Hh Hram Hcp Hok Hpc Hra Hc Hb Htar Hv Ht. unfold buxn_jit_jump.
  eapply f_clear; [exact Hh|]. intros c1 m1 Hh1 Hu1 Hctl1 Hcp1 Hev1.
  assert (jit c1 = jit c /\ pc c1 = pc c) as [Hj1 Hp1] by (unfold ctl in Hctl1; split; congruence).
  pose proof (hd_vals _ _ _ _ _ _ Hh1) as Hv1. rewrite Hcp in Hcp1.
  apply (flows_uncached (fun _ => _) _ c1 m1 Hu1). fold (buxn_jit_jump next target ra).
  eapply flows_mono; [eapply (flows_jump call next target ra id c1 m1 v s); try done|].
  - by rewrite Hj1.
  - by rewrite Hp1.
  - apply (holds_parked op c1 m1 H vals s Hh1 Hu1). intros y Hy. rewrite (evolves_ram _ _ Hev1); auto.
  - by apply Htar.
  - by rewrite Hp1.
  - intros [] fl c2 [Hg Hj2]. pose proof (jd_rest _ _ _ Hj2) as Hrest.
    split; [eapply goes_elsewhere; [by apply evolves_elsewhere|done]|]. split; [congruence|].
    split; [unfold uncached in *; assert (wst_cache c2 = wst_cache c1 /\ rst_cache c2 = rst_cache c1)
      as [-> ->] by (split; congruence); done|]. exists H.
    destruct (rp_inv _ _ _ _ (hd_rep _ _ _ _ _ _ Hh1)) as [Hcn Hlen]. split; [|done].
    assert (owned c2 H = owned c1 H) as -> by (unfold owned; congruence).
    apply (counted_same c1); try done; congruence.
Qed.

(** The return address, pushed on one of the stacks. *)
Lemma hwp_return_addr flag op c m H vals st :
  Holds op c m H vals st -> (length H < NUM_OP_REGS)%nat -> is_u16 (pc c) ->
  (2 + length (st flag) <= 256)%nat ->
  hwp (push_return_addr flag) (fun _ c' m' => exists H' vals', vals ⊆ vals' /\ H ⊆ H' /\
    Holds op c' m' H' vals' (set_stack flag (val_bytes true (pc c) ++ st flag) st) /\
    ctl c' = ctl c /\ keeps (vmb := vmb) m m') c m.
Proof.
  intros Hh HH Hpc Hlen. unfold push_return_addr. apply hwp_tail_tt.
  apply hwp_assoc. eapply h_alloc; [exact Hh|exact HH|]. intros r c1 m1 Hh1 Hpr Hr Hctl1 Hev1.
  apply hwp_assoc, hwp_bind, hwp_gets.
  assert (pc c1 = pc c) as -> by (unfold ctl in Hctl1; congruence).
  pose proof (rp_core _ _ _ _ (hd_rep _ _ _ _ _ _ Hh1)) as [Hcp Hw _ _ _].
  assert (is_op r) as Hop by (eapply inv_held_op; [apply Hh1|by left]).
  assert (Like c1 c1) as Hl by done. inst ex_mov_u16_imm. intros c2 Hl2.
  set (m2 := set_reg r (u16 (pc c)) m1).
  destruct (holds_write op c1 m1 (r :: H) vals st r c2 m2 Hh1) as [Hh2 _]; try done.
  - by left.
  - pose proof (hd_vals _ _ _ _ _ _ Hh) as Hv. unfold hold in Hv. rewrite Forall_forall in *.
    intros y Hy E. apply Hr. rewrite <- E. by apply (Hv _ Hy).
  - unfold m2. auto with words.
  - intros q Hq. rewrite !not_elem_of_cons in Hq. destruct Hq as (? & _). unfold m2. by msimp.
  - assert (regs m2 r = pc c) as Er by (unfold m2; msimp; by apply u16_id). rewrite Er in Hh2.
    eapply (h_push_ex op flag (mkOperand 0 true 0 r) (pc c)); [exact Hh2|by left|done| |].
    + cbn [is_short val_bytes length]. lia.
    + intros c3 m3 Hh3 Hctl3 Hev3. apply hwp_ret. exists (r :: H), ((r, pc c) :: vals).
      split; [set_solver|]. split; [set_solver|]. split; [exact Hh3|].
      destruct Hl2 as [Hs2 _]. assert (ctl c2 = ctl c1) as E by (apply ctl_frame; unfold shape in Hs2; congruence).
      split; [congruence|]. intros a Ha. rewrite (evolves_keeps (vmb := vmb) _ _ Hev3 a Ha).
      unfold m2. rewrite mem_set_reg. by apply (evolves_keeps (vmb := vmb) _ _ Hev1).
Qed.

(** The operand of an immediate jump, read when the block is compiled. *)
Lemma hwp_immediate_target op c m H vals st :
  Holds op c m H vals st -> rom_ok (jit c) ->
  hwp buxn_jit_immediate_jump_target (fun o c' m' =>
    o = mkOperand (Z.lor BUXN_JIT_SEM_CONST BUXN_JIT_SEM_IMM_JMP) true
          (immediate_target (vm_memory (jit c)) (pc c)) BUXN_JIT_R_TMP /\
    Holds op c' m' H vals st /\ pc c' = u16 (pc c + 2) /\ jit c' = jit c /\ mem m' = mem m) c m.
Proof.
  intros Hh Hrom. unfold buxn_jit_immediate_jump_target, advance_pc. do 3 apply hwp_bind, hwp_gets.
  apply hwp_bind, hwp_modify; [done|]. apply hwp_bind, hwp_gets.
  set (c1 := set_pc _ c). assert (Holds op c1 m H vals st) as Hh1.
  { destruct Hh as [Hr Hop Hv]. split; [|done|done]. apply (rep_view c _ _ H); [done| |done].
    destruct (rp_inv _ _ _ _ Hr) as [Hcn HH]. split; [|done]. by apply (counted_same c). }
  pose proof (rp_core _ _ _ _ (hd_rep _ _ _ _ _ _ Hh1)) as [Hcp Hw _ _ _].
  assert (Like c1 c1) as Hl by done. inst ex_mov_u16_imm. intros c2 Hl2. apply hwp_ret.
  destruct (like_fields _ _ Hl2) as (Hj2 & Hp2 & _).
  split; [|split; [|split; [by rewrite Hp2|split; [by rewrite Hj2|done]]]].
  - unfold immediate_target, read_memory. rewrite lor_bytes by apply Hrom.
    rewrite Z.add_0_r. reflexivity.
  - eapply holds_like; [exact Hh1|done| |done|].
    + apply words_set; [done|]. apply word_u16, u16_range.
    + intros q Hq. rewrite !not_elem_of_cons in Hq. destruct Hq. by apply regs_set_ne.
Qed.

End ControlSim.
