(* ===== verification/ControlOps.v ===== *)
(** * The handlers that leave the straight line

    [control_sim]: the code of a handler - [JMP], [JCN], [JSR], the immediate
    jumps and every other opcode - leads where the specification of
    UxnControl.v says. *)
From S2P Require Import Prelude Lir Hamt Jit Queues StackCache Uxn MicroOps Opcodes Compile Invariant CacheSafety OpcodeSafety BlockSafety Machine StackSim PopSim OperandSim StepSim OpcodeSim MemSim DivSim FetchSim OpcodeCorrect ExitSim UxnControl Emission Flows JumpSim ControlSim.
Local Open Scope jit_scope.

(** The target of a jump is not a comparison's result, which is compiled by
    unfolding both branches. *)
Definition plain_target `{VmLayout} (c : buxn_jit_ctx_t) : bool :=
  match buxn_jit_pop c with
  | Ok (o, _) =>
      (is_short o || negb (has_bit (semantics o) BUXN_JIT_SEM_BOOLEAN)) &&
      negb (has_bit (semantics o) BUXN_JIT_SEM_IMM_JMP)
  | _ => false
  end.

Definition takes_target (n : opname) : bool :=
  match n with JMP | JCN | JSR => true | _ => false end.

Section ControlOps.
Context {Lay : VmLayout} {SL : Sljit} {SP : SljitSpec} {HO : Host} {vmb : Z} {LS : LayoutSpec vmb}.
Context (call : nat -> mach -> option (Z * mach)).

#[local] Abbreviation Holds := (Holds (vmb := vmb)).
#[local] Abbreviation ram := (ram (vmb := vmb)).
#[local] Abbreviation elsewhere := (elsewhere (vmb := vmb)).
#[local] Abbreviation Outcome := (Outcome (vmb := vmb) call).
#[local] Abbreviation Goes := (Goes (vmb := vmb) call).
#[local] Abbreviation flows := (flows call).

(** ** Outcomes *)

Lemma keeps_elsewhere m m' : keeps (vmb := vmb) m m' -> elsewhere m m'.
Proof. intros Hk a Ha _. by apply Hk. Qed.

Lemma outcome_elsewhere id s m m0 fl c : elsewhere m m0 -> Outcome id s m0 fl c -> Outcome id s m fl c.
Proof.
  intros He [(m1 & -> & Hs & He1)|(ra & Hg & Hc)].
  - left. exists m1. split; [done|]. split; [done|]. by eapply elsewhere_trans.
  - right. exists ra. split; [|done]. by eapply goes_elsewhere.
Qed.

Lemma parked_alike m s s' : Parked (vmb := vmb) m s -> alike s s' -> Parked (vmb := vmb) m s'.
Proof.
  intros [] (Es & _ & Er). split; [done|done|done|by rewrite Es|]. intros y Hy. rewrite Er; auto.
Qed.

Lemma outcome_alike id s s' m0 fl c : alike s s' -> Outcome id s m0 fl c -> Outcome id s' m0 fl c.
Proof.
  intros Hal [(m1 & -> & Hs & He)|(ra & (m1 & Hp & He & Hg) & Hc)].
  - left. exists m1. split; [done|]. split; [by eapply shows_alike|done].
  - right. exists ra. split; [|done]. exists m1. split; [by eapply parked_alike|]. split; [done|].
    destruct Hal as (_ & -> & _). exact Hg.
Qed.

Section Handler.
Context (c0 : buxn_jit_ctx_t) (m0 : mach) (st0 : bool -> list Z) (sh : bool) (next : J unit) (id : nat).

#[local] Abbreviation short := (buxn_jit_op_flag_2 c0).
#[local] Abbreviation flag := (buxn_jit_op_flag_r c0).
#[local] Abbreviation PopAt := (PopAt (vmb := vmb) c0 m0 st0 sh).
#[local] Abbreviation HoldAt := (HoldAt (vmb := vmb) c0 m0 st0).
#[local] Abbreviation below := (below c0 st0).
#[local] Abbreviation start := (mkVm st0 (ram m0) (pc c0)).

Hypothesis Hid : compiler_ptr c0 = Some id.
Hypothesis Hvals : vals_ok c0.
Hypothesis Hjit : jit_ok (jit c0).
Hypothesis Hnext : forall p, LogsFrom p next.

Let Hpc : is_u16 (pc c0).
Proof. apply Hvals. Qed.

Lemma since_ctl c m : Since (vmb := vmb) c0 m0 c m -> jit c = jit c0 /\ pc c = pc c0.
Proof. intros [E _]. unfold ctl in E. split; congruence. Qed.

Lemma since_ram c m : Since (vmb := vmb) c0 m0 c m -> forall y, is_u16 y -> ram m y = ram m0 y.
Proof. intros [_ Hk]. by apply off_stacks_ram. Qed.

(** A popped target: what is known of it at compile time and at run time. *)
Record popped_target (o : buxn_jit_operand_t) (v : Z) : Prop := {
  pt_short : is_short o = short;
  pt_val : val_in short v;
  pt_const : is_u16 (const_value o);
  pt_plain : is_short o = false -> has_bit (semantics o) BUXN_JIT_SEM_BOOLEAN = false;
  pt_popped : has_bit (semantics o) BUXN_JIT_SEM_IMM_JMP = false;
}.

Lemma pop_target szs H l v l' :
  PopAt (short :: szs) c0 m0 H [] l -> (length H <= 2)%nat -> pop1 short l = Some (v, l') -> plain_target c0 = true ->
  hwp buxn_jit_pop (fun o c m =>
    popped_target o v /\ PopAt szs c m (reg o :: H) [(reg o, v)] l' /\ compiler_ptr c = Some id) c0 m0.
Proof.
  intros Hp HH Hpop Hplain.
  assert (Good c0 H) as Hg by (split; [eapply pv_inv, pops_pv, (proj1 Hp)|done]).
  assert (hwp buxn_jit_pop (fun o c m => is_short o = short /\ val_in short v /\
    PopAt szs c m (reg o :: H) [(reg o, v)] l') c0 m0) as H1.
  { apply hwp_tail. eapply (s_pop c0 m0 st0 sh); [exact Hp|exact Hpop|]. intros. by apply hwp_ret. }
  assert (wp buxn_jit_pop (fun o c => is_u16 (const_value o)) c0) as H2.
  { apply wp_tail. apply at_pop with c0 H; [change NUM_OP_REGS with 6%nat; lia|by apply at_refl|].
    intros f o c _ [? _]. by apply wp_ret. }
  eapply hwp_mono; [apply hwp_run, hwp_wp; [exact H1|exact H2]|].
  intros o c m (((Hs & Hv & Hpn) & Hc) & E). unfold plain_target in Hplain. rewrite E in Hplain.
  apply andb_true_iff in Hplain as [Hb Hi%negb_true_iff]. split; [|split; [done|]].
  - split; try done. intros Es. rewrite Es in Hb. by apply negb_true_iff in Hb.
  - rewrite <- Hid. eapply logs_ptr; [apply logs_pop|exact E|].
    apply (inv_compiler _ _ (proj1 (pv_inv _ _ _ _ _ _ (pops_pv _ _ _ _ _ _ _ _ _ _ (proj1 Hpn))))).
Qed.

Lemma pop_condition f szs c m H vals l x l' :
  PopAt (false :: szs) c m H vals l -> compiler_ptr c = Some id -> pop1 false l = Some (x, l') -> f = flag ->
  hwp (buxn_jit_pop_ex false f) (fun o c' m' =>
    is_u8 x /\ PopAt szs c' m' (reg o :: H) ((reg o, x) :: vals) l' /\ compiler_ptr c' = Some id) c m.
Proof.
  intros Hp Hc Hpop ->. eapply hwp_mono; [apply hwp_run, hwp_tail; eapply (s_pop_ex c0 m0 st0 sh);
    [exact Hp|exact Hpop|intros o c1 m1 Hs Hv Hp1; apply hwp_ret; exact (conj Hv Hp1)]|].
  intros o c1 m1 ((Hv & Hp1) & E). split; [done|]. split; [done|].
  rewrite <- Hc. eapply logs_ptr; [apply logs_pop_ex|exact E|].
  apply (inv_compiler _ _ (proj1 (pv_inv _ _ _ _ _ _ (pops_pv _ _ _ _ _ _ _ _ _ _ (proj1 Hp1))))).
Qed.

Lemma target_held o v c m H vals x :
  popped_target o v -> Holds (current_opcode c0) c m H vals x -> (reg o, v) ∈ vals ->
  forall m', hold H m' vals -> holds_target o v m'.
Proof.
  intros Ho Hh Hin m' Hm'. unfold holds_target. rewrite (pt_popped _ _ Ho).
  unfold hold in Hm'. rewrite Forall_forall in Hm'. destruct (Hm' _ Hin) as [HH E]. split; [done|].
  eapply inv_held_op; [apply Hh|exact HH].
Qed.

(** ** [JMP] *)

Lemma finalized s ra m0' fl c b :
  Goes id s ra m0' fl c -> bound_ok (comp c) ->
  wp (when b buxn_jit_finalize) (fun _ c' => bound_ok (comp c') /\ Goes id s ra m0' fl c') c.
Proof. intros Hg Hb. destruct b; [apply wp_modify|apply wp_ret]; done. Qed.

Lemma flow_JMP H s' :
  PopAt [short] c0 m0 H [] (st0 flag) -> (length H <= 2)%nat -> plain_target c0 = true ->
  ('(v, rest) ← pop1 short (st0 flag); t ← jump_target short (pc c0) v;
   Some (with_pc t (with_stack flag (below rest) start))) = Some s' ->
  flows (buxn_jit_JMP next) (fun _ fl c' => Outcome id s' m0 fl c') c0 m0.
Proof.
  intros Hp HH Hplain Hs. destruct (pop1 short (st0 flag)) as [[v l']|] eqn:Epop; [cbn in Hs|done].
  destruct (jump_target short (pc c0) v) as [t|] eqn:Et; [cbn in Hs|done]. injection Hs as <-.
  unfold buxn_jit_JMP. apply flows_bind. eapply hwp_mono; [by eapply pop_target|].
  intros o c m (Ho & Hpn & Hc). destruct (s_hold _ _ _ _ _ _ _ _ _ _ Hpn) as [Hh Hsi].
  destruct (since_ctl c m Hsi) as [Hj Hpcc].
  apply flows_then. eapply flows_mono.
  - eapply (f_jump call _ next o 0 id c m _ [(reg o, v)] v (with_pc t (with_stack flag (below l') start)));
      [exact Hh|by apply (since_ram c m)|done|by rewrite Hj|by rewrite Hpcc|done|apply Ho|apply Ho| |..].
    + eapply target_held; [exact Ho|exact Hh|by left].
    + rewrite (pt_short _ _ Ho). apply Ho.
    + by rewrite (pt_short _ _ Ho), Hpcc.
  - intros [] fl c1 (Hg & _). split; [by eapply goes_final|]. split; [logs|]. intros Hb.
    eapply wp_mono; [by eapply finalized|]. intros [] c2 [Hb2 Hg2]. split; [done|].
    right. exists 0. split; [|done]. eapply goes_elsewhere; [|exact Hg2]. apply keeps_elsewhere, Hsi.
Qed.

(** ** [JSR] *)

(** The return address is pushed and the jump returns to it. *)
Lemma flow_call f op o v c m H vals st t s' :
  Holds op c m H vals st -> (length H < NUM_OP_REGS)%nat -> compiler_ptr c = Some id ->
  jit_ok (jit c) -> is_u16 (pc c) -> is_u16 (const_value o) ->
  (is_short o = false -> has_bit (semantics o) BUXN_JIT_SEM_BOOLEAN = false) ->
  (forall m', (forall rv, rv ∈ vals -> regs m' (fst rv) = snd rv) -> holds_target o v m') ->
  val_in (is_short o) v -> jump_target (is_short o) (pc c) v = Some t ->
  put f (to_bytes true (pc c) ++ st f) (mkVm st (ram m) t) = Some s' ->
  flows (push_return_addr f ;;; return_addr <-- gets pc ;; buxn_jit_jump next o return_addr)
    (fun _ fl c' => Outcome id s' m fl c') c m.
Proof.
  intros Hh HH Hc Hj Hp Hco Hb Htar Hv Ht Hput. rewrite (to_bytes_val true) in Hput by done.
  destruct (put_some _ _ _ _ Hput) as [Hlen ->]. cbn [vm_stacks vm_ram vm_pc] in *.
  apply flows_bind. eapply hwp_mono; [apply hwp_run, hwp_return_addr; try done; cbn in Hlen; lia|].
  intros [] c1 m1 ((H' & vals' & Hsub & _ & Hh1 & Hctl & Hk) & E).
  assert (jit c1 = jit c /\ pc c1 = pc c) as [Hj1 Hp1] by (unfold ctl in Hctl; split; congruence).
  apply flows_bind, hwp_gets. rewrite Hp1. eapply flows_mono.
  - eapply (f_jump call _ next o (pc c) id c1 m1 _ vals' v
      (mkVm (set_stack f (val_bytes true (pc c) ++ st f) st) (ram m) t));
      [exact Hh1|by apply off_stacks_ram| |by rewrite Hj1|by rewrite Hp1|done|done|done| |done|by rewrite Hp1].
    + rewrite <- Hc. eapply logs_ptr; [apply logs_return_addr|exact E|].
      apply (rp_core _ _ _ _ (hd_rep _ _ _ _ _ _ Hh1)).
    + intros m' Hm'. apply Htar. intros rv Hrv. unfold hold in Hm'. rewrite Forall_forall in Hm'.
      apply Hm'. by apply Hsub.
  - intros [] fl c2 (Hg & Hpc2 & Hu & Hi). right. exists (pc c).
    split; [eapply goes_elsewhere; [by apply keeps_elsewhere|exact Hg]|]. intros _. by rewrite Hpc2.
Qed.

Lemma flow_JSR H s' :
  PopAt [short] c0 m0 H [] (st0 flag) -> (length H <= 2)%nat -> plain_target c0 = true ->
  ('(v, rest) ← pop1 short (st0 flag); t ← jump_target short (pc c0) v;
   put (negb flag) (to_bytes true (pc c0) ++ st0 (negb flag))
     (with_pc t (with_stack flag (below rest) start))) = Some s' ->
  flows (buxn_jit_JSR next) (fun _ fl c' => Outcome id s' m0 fl c') c0 m0.
Proof.
  intros Hp HH Hplain Hs. destruct (pop1 short (st0 flag)) as [[v l']|] eqn:Epop; [cbn in Hs|done].
  destruct (jump_target short (pc c0) v) as [t|] eqn:Et; [cbn in Hs|done].
  unfold buxn_jit_JSR. apply flows_bind. eapply hwp_mono; [by eapply pop_target|].
  intros o c m (Ho & Hpn & Hc). destruct (s_hold _ _ _ _ _ _ _ _ _ _ Hpn) as [Hh Hsi].
  destruct (since_ctl c m Hsi) as [Hj Hpcc]. destruct (since_flags _ _ _ _ Hsi) as (_ & Ef & _).
  apply flows_bind, hwp_gets. rewrite Ef.
  apply put_some in Hs as Hput. destruct Hput as [Hlen ->].
  eapply flows_mono.
  - eapply (flow_call (negb flag) _ o v c m _ [(reg o, v)] _ t);
      [exact Hh| |done|by rewrite Hj|by rewrite Hpcc|apply Ho|apply Ho| | |by rewrite (pt_short _ _ Ho), Hpcc|].
    + cbn [length]. change NUM_OP_REGS with 6%nat. lia.
    + intros m' Hm'. unfold holds_target. rewrite (pt_popped _ _ Ho). split; [by apply (Hm' (reg o, v)); left|].
      eapply inv_held_op; [apply Hh|by left].
    + rewrite (pt_short _ _ Ho). apply Ho.
    + unfold put. rewrite set_stack_ne by (by destruct flag). rewrite Hpcc.
      rewrite (proj2 (Nat.leb_le _ 256)); [reflexivity|].
      rewrite (to_bytes_val true) by done. exact Hlen.
  - intros [] fl c1 Hout. apply (outcome_elsewhere _ _ m0) in Hout; [|apply keeps_elsewhere, Hsi].
    eapply outcome_alike; [|exact Hout]. split; [done|]. split; [done|]. intros y Hy. symmetry.
    by apply (since_ram c m).
Qed.

(** ** [JCN] *)

Lemma flow_JCN H s' :
  PopAt [short; false] c0 m0 H [] (st0 flag) -> (length H <= 2)%nat -> plain_target c0 = true ->
  ('(v, rest) ← pop1 short (st0 flag); '(x, rest) ← pop1 false rest;
   if x =? 0 then Some (with_stack flag (below rest) start)
   else t ← jump_target short (pc c0) v; Some (with_pc t (with_stack flag (below rest) start))) = Some s' ->
  flows (buxn_jit_JCN next) (fun _ fl c' => Outcome id s' m0 fl c') c0 m0.
Proof.
  intros Hp HH Hplain Hs. destruct (pop1 short (st0 flag)) as [[v l1]|] eqn:Epop; [cbn [mbind option_bind] in Hs|done].
  destruct (pop1 false l1) as [[x l2]|] eqn:Epop2; [cbn in Hs|done].
  unfold buxn_jit_JCN. apply flows_bind. eapply hwp_mono; [by eapply pop_target|].
  intros o c m (Ho & Hpn & Hc). apply flows_bind, hwp_gets.
  apply flows_bind. eapply hwp_mono.
  { eapply pop_condition; [exact Hpn|exact Hc|exact Epop2|].
    apply (since_flags _ _ _ _ (proj2 Hpn)). }
  intros ox c1 m1 (Hux & Hp1 & Hc1). destruct (s_hold _ _ _ _ _ _ _ _ _ _ Hp1) as [Hh Hsi].
  destruct (since_ctl c1 m1 Hsi) as [Hj Hpcc].
  set (t := default 0 (jump_target short (pc c0) v)).
  eapply flows_mono.
  - eapply (flows_conditional call _ next ox o id c1 m1 _ _ _ x v t);
      [exact Hh|done|by rewrite Hj|by rewrite Hpcc|by left|done|apply Ho|apply Ho| | | |done].
    + eapply target_held; [exact Ho|exact Hh|by right; left].
    + rewrite (pt_short _ _ Ho). apply Ho.
    + intros Hne. rewrite (pt_short _ _ Ho), Hpcc. unfold t.
      apply Z.eqb_neq in Hne. rewrite Hne in Hs. by destruct (jump_target short (pc c0) v).
  - intros [] fl c2 Hout. apply (outcome_elsewhere _ _ m0) in Hout; [|apply keeps_elsewhere, Hsi].
    eapply outcome_alike; [|exact Hout]. rewrite Hpcc. unfold t.
    destruct (x =? 0); [injection Hs as <-|destruct (jump_target short (pc c0) v); [injection Hs as <-|done]];
      (split; [done|]; split; [done|]; intros y Hy; symmetry; by apply (since_ram c1 m1)).
Qed.

(** ** Immediate jumps *)

#[local] Abbreviation goal_pc := (immediate_target (vm_memory (jit c0)) (pc c0)).

Lemma immediate_u16 prog p : is_u16 (immediate_target prog p).
Proof. apply u16_range. Qed.

(** The operand is the address itself. *)
Definition immediate_operand (t : Z) : buxn_jit_operand_t :=
  mkOperand (Z.lor BUXN_JIT_SEM_CONST BUXN_JIT_SEM_IMM_JMP) true t BUXN_JIT_R_TMP.

Lemma fetch_target op c m H vals st :
  Holds op c m H vals st -> jit c = jit c0 -> pc c = pc c0 -> compiler_ptr c = Some id ->
  hwp buxn_jit_immediate_jump_target (fun o c' m' =>
    o = immediate_operand goal_pc /\ Holds op c' m' H vals st /\ pc c' = u16 (pc c0 + 2) /\
    jit c' = jit c0 /\ compiler_ptr c' = Some id /\ elsewhere m m' /\
    (forall y, is_u16 y -> ram m' y = ram m y)) c m.
Proof.
  intros Hh Hj Hp Hc. eapply hwp_mono; [apply hwp_run; eapply hwp_immediate_target;
    [exact Hh|rewrite Hj; apply (ok_rom _ Hjit)]|].
  intros o c1 m1 ((Ho & Hh1 & Hp1 & Hj1 & Hm) & E). rewrite Hj, Hp in *.
  split; [done|]. split; [done|]. split; [done|]. split; [done|]. split.
  - rewrite <- Hc. eapply logs_ptr; [apply logs_immediate_target|exact E|].
    apply (rp_core _ _ _ _ (hd_rep _ _ _ _ _ _ Hh1)).
  - split; [intros a _ _; by rewrite Hm|]. intros y _. unfold MemSim.ram. by rewrite Hm.
Qed.

Lemma immediate_held t m : holds_target (immediate_operand t) t m.
Proof. done. Qed.

Lemma start_holds szs H :
  PopAt szs c0 m0 H [] (st0 flag) -> Holds (current_opcode c0) c0 m0 H [] st0.
Proof.
  intros Hp. destruct (s_hold _ _ _ _ _ _ _ _ _ _ Hp) as [Hh _]. eapply holds_ext; [|exact Hh].
  intros r. unfold StepSim.below, set_stack. destruct (Bool.eqb_spec r flag) as [->|]; [|done].
  by destruct (buxn_jit_op_flag_k c0).
Qed.

Lemma flow_JMI szs H :
  PopAt szs c0 m0 H [] (st0 flag) ->
  flows (buxn_jit_JMI next) (fun _ fl c' => Outcome id (with_pc goal_pc start) m0 fl c') c0 m0.
Proof.
  intros Hp. unfold buxn_jit_JMI. apply flows_bind.
  eapply hwp_mono; [by eapply fetch_target; [eapply start_holds|..]|].
  intros o c m (-> & Hh & Hpcc & Hj & Hc & He & Hram). apply flows_then. eapply flows_mono.
  - eapply (f_jump call _ next _ 0 id c m _ [] goal_pc (with_pc goal_pc start));
      [exact Hh|exact Hram|done|by rewrite Hj|rewrite Hpcc; apply u16_range|done|apply immediate_u16|done|..];
      [|apply immediate_u16|done]. intros m' _. apply immediate_held.
  - intros [] fl c1 (Hg & _). split; [by eapply goes_final|]. split; [logs|]. intros Hb.
    eapply wp_mono; [by eapply (finalized _ _ _ _ _ true)|]. intros [] c2 [Hb2 Hg2]. split; [done|].
    right. exists 0. split; [|done]. by eapply goes_elsewhere.
Qed.

Lemma flow_JSI szs H s' :
  PopAt szs c0 m0 H [] (st0 flag) -> (length H <= 2)%nat ->
  put true (to_bytes true (u16 (pc c0 + 2)) ++ st0 true) (with_pc goal_pc start) = Some s' ->
  flows (buxn_jit_JSI next) (fun _ fl c' => Outcome id s' m0 fl c') c0 m0.
Proof.
  intros Hp HH Hs. unfold buxn_jit_JSI. apply flows_bind.
  eapply hwp_mono; [by eapply fetch_target; [eapply start_holds|..]|].
  intros o c m (-> & Hh & Hpcc & Hj & Hc & He & Hram).
  destruct (put_some _ _ _ _ Hs) as [Hlen ->]. eapply flows_mono.
  - eapply (flow_call true _ (immediate_operand goal_pc) goal_pc c m H [] st0 goal_pc);
      [exact Hh| |done|by rewrite Hj|rewrite Hpcc; apply u16_range|apply immediate_u16|done| |apply immediate_u16
      |done|].
    + change NUM_OP_REGS with 6%nat. lia.
    + intros m' _. apply immediate_held.
    + unfold put. rewrite Hpcc. rewrite (proj2 (Nat.leb_le _ 256)); [reflexivity|exact Hlen].
  - intros [] fl c1 Hout. apply (outcome_elsewhere _ _ m0) in Hout; [|done].
    eapply outcome_alike; [|exact Hout]. split; [done|]. split; [done|]. intros y Hy. symmetry. by apply Hram.
Qed.

Lemma flow_JCI H s' :
  PopAt [false] c0 m0 H [] (st0 flag) -> flag = false -> buxn_jit_op_flag_k c0 = false ->
  ('(x, rest) ← pop1 false (st0 false);
   Some (with_pc (if x =? 0 then u16 (pc c0 + 2) else goal_pc) (with_stack false rest start))) = Some s' ->
  flows (buxn_jit_JCI next) (fun _ fl c' => Outcome id s' m0 fl c') c0 m0.
Proof.
  intros Hp Ef Ek Hs. rewrite Ef in Hp. destruct (pop1 false (st0 false)) as [[x l1]|] eqn:Epop;
    [cbn [mbind option_bind] in Hs|done]. injection Hs as <-.
  unfold buxn_jit_JCI. apply flows_bind. eapply hwp_mono; [by eapply pop_condition|].
  intros ox c m (Hux & Hp1 & Hc). destruct (s_hold _ _ _ _ _ _ _ _ _ _ Hp1) as [Hh Hsi].
  destruct (since_ctl c m Hsi) as [Hj Hpcc]. unfold StepSim.below in Hh. rewrite Ek, Ef in Hh.
  apply flows_bind. eapply hwp_mono; [by eapply fetch_target|].
  intros o c1 m1 (-> & Hh1 & Hpc1 & Hj1 & Hc1 & He1 & Hram1).
  eapply flows_mono.
  - eapply (flows_conditional call _ next ox (immediate_operand goal_pc) id c1 m1 _ _ _ x goal_pc goal_pc);
      [exact Hh1|done|by rewrite Hj1|rewrite Hpc1; apply u16_range|by left|done|apply immediate_u16|done| |
       apply immediate_u16|done|done]. intros m' _. apply immediate_held.
  - intros [] fl c2 Hout. apply (outcome_elsewhere _ _ m0) in Hout;
      [|eapply elsewhere_trans; [apply keeps_elsewhere, Hsi|done]].
    eapply outcome_alike; [|exact Hout]. split; [done|]. split; [cbn; by rewrite Hpc1|].
    intros y Hy. cbn. rewrite Hram1 by done. symmetry. by apply (since_ram c m).
Qed.

(** ** Every opcode *)

Lemma control_sim H n s' :
  PopAt (op_sizes n short) c0 m0 H [] (st0 flag) ->
  (sh = true -> in_place n = false) -> (length H <= 2)%nat -> is_u8 (current_opcode c0) ->
  (takes_target n = true -> plain_target c0 = true) ->
  vm_exec (vm_memory (jit c0)) n (current_opcode c0) start = Some s' ->
  flows (dispatch next n) (fun _ fl c' => Outcome id s' m0 fl c') c0 m0.
Proof.
  intros Hp Hsh HH Hop Hplain Hs. pose proof (flags_bits c0 Hop) as (E2 & Er & Ek).
  assert (vm_step n (current_opcode c0) start = Some s' ->
    flows (dispatch next n) (fun _ fl c' => Outcome id s' m0 fl c') c0 m0) as Hstep.
  { intros Hst. apply flows_hwp. eapply hwp_mono; [by eapply dispatch_sim|].
    intros [] c m (Hr & Hpcc & _ & Hram & He). left. exists m. done. }
  unfold vm_exec in Hs. rewrite <- E2, <- Er, <- Ek in Hs. cbn [vm_stacks vm_pc] in Hs.
  destruct n; try (by apply Hstep); cbn [op_sizes takes_target dispatch] in *.
  - by eapply flow_JMP; [..|exact Hs]; auto.
  - by eapply flow_JCN; [..|exact Hs]; auto.
  - by eapply flow_JSR; [..|exact Hs]; auto.
  - destruct (Z.eqb_spec (current_opcode c0) 0x20) as [E|]; [|done]. rewrite E in Er, Ek.
    eapply flow_JCI; [exact Hp|by rewrite Er|by rewrite Ek|exact Hs].
  - injection Hs as <-. by eapply flow_JMI.
  - destruct (Z.eqb_spec (current_opcode c0) 0x60) as [E|]; [|done]. by eapply flow_JSI.
Qed.
End Handler.
End ControlOps.
