(* ===== verification/DeviceSim.v ===== *)
(** * The device opcodes, compiled and executed

    [dei_sim] and [deo_sim]: the code of [DEI] and [DEO], which calls the
    host's functions through the helpers of src/src/jit.c, does what the
    specification of UxnDevices.v says, for a host that has [HostSpec]. *)
From S2P Require Import Prelude Lir Hamt Jit Queues StackCache Uxn MicroOps Opcodes Compile Invariant CacheSafety OpcodeSafety BlockSafety Machine StackSim PopSim OperandSim StepSim OpcodeSim MemSim DivSim FetchSim OpcodeCorrect ExitSim UxnControl UxnDevices Emission Flows HostSim JumpSim ControlSim ControlOps.
Local Open Scope jit_scope.

Section DeviceSim.
Context {Lay : VmLayout} {SL : Sljit} {SP : SljitSpec} {HO : Host} {vmb : Z} {LS : LayoutSpec vmb}.
Context {DM : DevModel} {HS : HostSpec vmb}.

#[local] Abbreviation Holds := (Holds (vmb := vmb)).
#[local] Abbreviation Rep := (Rep (vmb := vmb)).
#[local] Abbreviation ram := (ram (vmb := vmb)).
#[local] Abbreviation Image := (Image (vmb := vmb)).
#[local] Abbreviation saved := (saved (vmb := vmb)).
#[local] Abbreviation off_stacks := (off_stacks (vmb := vmb)).

(** ** The helpers *)

(** What the function [f] called with the address [a] returns, and the memory
    it leaves. *)
Definition answer (f : callee) (a : Z) (mm : Z -> Z) : Z * (Z -> Z) :=
  match f with
  | CDei => buxn_jit_dei_helper a mm
  | CDei2 => buxn_jit_dei2_helper a mm
  | CDeo => (clobber (SR 0), buxn_jit_deo_helper a mm)
  | CDeo2 => (clobber (SR 0), buxn_jit_deo2_helper a mm)
  | _ => (0, mm)
  end.

Definition is_helper (f : callee) : bool :=
  match f with CDei | CDei2 | CDeo | CDeo2 => true | _ => false end.

(** The machine after the call: [answer] in [SR 0], the scratch registers lost. *)
Definition answered (f : callee) (m : mach) : mach :=
  let r := answer f (regs m (SR 1)) (mem m) in
  returned (fst r) (mkMach (regs m) (snd r) (flags m)).

Lemma ex_helper f B m : is_helper f = true -> exec_one B (LICall f) m = Run (answered f m).
Proof.
  intros Hf. unfold answered. destruct f; try done; cbn [exec_one call_host answer].
  - by destruct (buxn_jit_dei_helper _ _).
  - by destruct (buxn_jit_dei2_helper _ _).
Qed.

Lemma image_pc p mm s : Image mm s -> Image mm (with_pc p s).
Proof. by intros []. Qed.

(** A memory with the state of a machine and of its devices. *)
Definition Held (mm : Z -> Z) (u : uxn) : Prop := Image mm (u_vm u) /\ world mm (u_dev u).

Lemma held_dei mm u a : is_u8 a -> Held mm u ->
  exists u', dei a u = (u8 (fst (vm_dei a mm)), u') /\ Held (snd (vm_dei a mm)) u' /\
    vm_pc (u_vm u') = vm_pc (u_vm u).
Proof.
  intros Ha [Hi Hw]. destruct (host_in mm (u_vm u) (u_dev u) a Ha Hi Hw) as (s' & d' & E & Hi' & Hw').
  unfold dei. rewrite E. eexists. split; [done|]. split; [|done]. split; [by apply image_pc|done].
Qed.

Lemma held_deo mm u a : is_u8 a -> Held mm u ->
  Held (vm_deo a mm) (deo a u) /\ vm_pc (u_vm (deo a u)) = vm_pc (u_vm u).
Proof.
  intros Ha [Hi Hw]. destruct (host_out mm (u_vm u) (u_dev u) a Ha Hi Hw) as (s' & d' & E & Hi' & Hw').
  unfold deo. rewrite E. split; [|done]. split; [by apply image_pc|done].
Qed.

Lemma held_input mm u a short : is_u8 a -> Held mm u ->
  let r := answer (if short : bool then CDei2 else CDei) a mm in
  exists u', input short a u = (fst r, u') /\ Held (snd r) u' /\ vm_pc (u_vm u') = vm_pc (u_vm u) /\
    val_in short (fst r).
Proof.
  intros Ha Hh. destruct (held_dei mm u a Ha Hh) as (u1 & E1 & H1 & P1). unfold input. rewrite E1.
  destruct short; cbn [answer]; unfold buxn_jit_dei2_helper, buxn_jit_dei_helper;
    rewrite ?Z.add_0_r, (u8_id a) by done; destruct (vm_dei a mm) as [hi mm1]; cbn [fst snd] in *.
  - destruct (held_dei mm1 u1 (u8 (a + 1)) (u8_range _) H1) as (u2 & E2 & H2 & P2). rewrite E2.
    destruct (vm_dei (u8 (a + 1)) mm1) as [lo mm2]. cbn [fst snd] in *.
    rewrite lor_bytes by apply u8_range. eexists. split; [done|]. split; [done|].
    split; [congruence|]. apply byte_join; apply u8_range.
  - eexists. split; [done|]. split; [done|]. split; [done|]. apply u8_range.
Qed.

Lemma held_output mm u a short : is_u8 a -> Held mm u ->
  let r := answer (if short : bool then CDeo2 else CDeo) a mm in
  Held (snd r) (output short a u) /\ vm_pc (u_vm (output short a u)) = vm_pc (u_vm u).
Proof.
  intros Ha Hh. destruct (held_deo mm u a Ha Hh) as [H1 P1].
  destruct short; cbn [answer snd output]; unfold buxn_jit_deo2_helper, buxn_jit_deo_helper;
    rewrite ?Z.add_0_r, (u8_id a) by done; [|done].
  destruct (held_deo _ _ (u8 (a + 1)) (u8_range _) H1) as [H2 P2]. split; [done|congruence].
Qed.

(** ** Calling them *)

Lemma world_elsewhere mm m m' d :
  elsewhere (vmb := vmb) m m' -> mem m = mm -> world mm d -> world (mem m') d.
Proof. intros He <-. apply world_frame. by apply outside_elsewhere. Qed.

Lemma ex_mov_p B m r s : words m ->
  exec_one B (LOp1 SLJIT_MOV_P (AReg r) (AReg s)) m = Run (set_reg r (regs m s) m).
Proof. intros Hw. cbn. rewrite sl_mov_p by apply Hw. done. Qed.

(** The context after the call: nothing is cached. *)
Record Called (c : buxn_jit_ctx_t) (H : list sreg) (c' : buxn_jit_ctx_t) : Prop := {
  cl_inv : Inv c' H;
  cl_cache : uncached c';
  cl_base : mem_base c' = 0;
  cl_ctl : ctl c' = ctl c;
  cl_compiler : compiler_ptr c' = compiler_ptr c;
}.

Lemma h_device {B} addr f a u op c m H vals (K : unit -> J B) Q :
  Holds op c m H vals (vm_stacks (u_vm u)) -> (reg addr, a) ∈ vals -> is_helper f = true ->
  (forall y, is_u16 y -> ram m y = vm_ram (u_vm u) y) -> world (mem m) (u_dev u) ->
  (forall c' m' mm, Called c H c' -> Held mm u -> words m' -> regs m' BUXN_JIT_S_VM = vmb ->
     regs m' (SR 0) = wrap (fst (answer f a mm)) -> mem m' = snd (answer f a mm) -> hwp (K tt) Q c' m') ->
  hwp (bind (device_call addr f) K) Q c m.
Proof.
  intros [Hr Hop Hv] Hin Hf Hram Hwo HK. unfold device_call. hassoc. apply hwp_bind.
  eapply hwp_mono; [by apply hwp_clear|]. intros [] c1 m1 (Hr1 & Hev & _ & Hf1 & Hl1).
  assert (compiler_ptr c1 = compiler_ptr c) as Hp1 by (unfold frame in Hf1; congruence).
  assert (hold H m1 vals) as Hv1 by (by eapply hold_evolves; [apply Hr|..]).
  assert (Parked (vmb := vmb) m1 (u_vm u)) as Hpk.
  { eapply rep_parked; [exact Hr1|exact Hl1|]. intros y Hy. by rewrite (evolves_ram _ _ Hev y Hy), Hram. }
  destruct (rp_core _ _ _ _ Hr1) as [Hc1 Hw1 Hb1 Hvm1 _].
  hassoc. eapply (h_save_state _ _ c1); [done|done|done|done|]. intros c2 Hl2.
  hassoc. apply hwp_bind, hwp_modify; [done|]. set (c3 := set_mem_base _ c2).
  assert (Like c3 c3) as Hl3 by done.
  assert (is_Some (compiler_ptr c3)) as Hc3 by (change (is_Some (compiler_ptr c2)); by eapply like_compiler).
  assert (words (saved m1)) as Hws by done. set (ms := saved m1) in *.
  inst ex_mov_p. intros c4 Hl4. inst ex_mov. intros c5 Hl5.
  eapply h_lir; [exact Hl5|exact Hc3|intros; by apply ex_helper|]. intros c6 Hl6.
  set (m5 := set_reg _ _ _). assert (words m5) as Hw5 by (unfold m5; auto 12 with words).
  assert (regs m5 (SR 1) = a) as E1.
  { unfold hold in Hv1. rewrite Forall_forall in Hv1. destruct (Hv1 _ Hin) as [HaH Ea]. cbn [fst snd] in *.
    assert (is_op (reg addr)) by (eapply inv_held_op; [apply Hr1|done]).
    unfold m5. rewrite regs_set_eq, regs_set_ne by (by apply op_ne). exact Ea. }
  assert (Held (mem m5) u) as Hheld.
  { split; [by apply saved_image|]. change (mem m5) with (mem (saved m1)).
    eapply world_frame; [apply saved_outside|]. eapply world_elsewhere; [|done|exact Hwo].
    by apply evolves_elsewhere. }
  apply (HK c6 (answered f m5) (mem m5)); try done.
  - destruct Hl6 as [Hs6 Hb6]. destruct Hl2 as [Hs2 _].
    assert (shape c6 = shape c1) as Hs by (rewrite Hs6; exact Hs2). split.
    + eapply inv_shape; [exact Hs|apply Hr1].
    + unfold shape in Hs. assert (wst_cache c6 = wst_cache c1 /\ rst_cache c6 = rst_cache c1) as [Ew Er]
        by (split; congruence). unfold uncached. by rewrite Ew, Er.
    + by rewrite Hb6.
    + apply ctl_frame. unfold shape in Hs. congruence.
    + by rewrite (shape_compiler _ _ Hs).
  - intros [[|i]|i]; cbn; [apply word_wrap|apply word_wrap|apply Hw5].
  - cbn [answered returned regs]. by rewrite E1.
  - cbn [answered returned mem]. by rewrite E1.
Qed.

(** ** Storing in the device page *)

Definition page_byte (a v : Z) (mm : Z -> Z) (x : Z) : Z := if x =? vmb + off_device + a then v else mm x.

Definition page_bytes (short : bool) (a v : Z) (mm : Z -> Z) : Z -> Z :=
  if short then page_byte (u8 (a + 1)) (v mod 256) (page_byte a (v / 256) mm) else page_byte a v mm.

Lemma page_bytes_ne short a v mm x : is_u8 a ->
  (forall y, is_u8 y -> x <> vmb + off_device + y) -> page_bytes short a v mm x = mm x.
Proof.
  intros Ha Hx. unfold page_bytes, page_byte. pose proof (Hx a Ha). pose proof (Hx _ (u8_range (a + 1))).
  destruct short; by rewrite !(proj2 (Z.eqb_neq x _)) by done.
Qed.

Lemma page_bytes_u8 short a v mm : val_in short v -> (forall x, is_u8 (mm x)) ->
  forall x, is_u8 (page_bytes short a v mm x).
Proof.
  intros Hv Hm x. unfold page_bytes, page_byte. destruct short; cbn [val_in] in Hv;
    repeat case_match; try apply Hm; mlia.
Qed.

Lemma page_world short a v mm d : is_u8 a -> val_in short v -> world mm d ->
  world (page_bytes short a v mm) (page_write short a v d).
Proof.
  intros Ha Hv Hw. unfold page_bytes, page_write. destruct short; cbn [val_in] in Hv.
  - apply world_write; [apply u8_range|mlia|]. apply world_write; [done|mlia|done].
  - by apply world_write.
Qed.

Lemma h_store_device_page {B} o v a b op c m H vals st (K : unit -> J B) Q :
  Holds op c m H vals st -> (reg o, a) ∈ vals -> (reg v, b) ∈ vals ->
  is_u8 a -> val_in (is_short v) b ->
  (forall c' m', Holds op c' m' H vals st -> ctl c' = ctl c ->
     mem m' = page_bytes (is_short v) a b (mem m) -> hwp (K tt) Q c' m') ->
  hwp (bind (store_device_page o v) K) Q c m.
Proof.
  intros Hh Hin Hinv Ha Hv HK. unfold store_device_page. apply hwp_assoc.
  destruct Hh as [Hrep Hop Hvals]. pose proof Hvals as Hvl. unfold hold in Hvl. rewrite Forall_forall in Hvl.
  destruct (Hvl _ Hin) as [HoH Ea], (Hvl _ Hinv) as [HvH Eb]. cbn [fst snd] in *. clear Hvl.
  assert (is_op (reg o)) as Hopo by (eapply inv_held_op; [apply Hrep|done]).
  assert (is_op (reg v)) as Hopv by (eapply inv_held_op; [apply Hrep|done]).
  destruct (device_bounds a Ha) as (Hpos & Hwb & Hwa & _). pose proof (rp_core _ _ _ _ Hrep) as Hco.
  eapply h_set_mem_base; [exact Hco|done|done|]. intros c1 m1 Hs1 Hb1 Hbase Hw1 Hr1 Hm1.
  assert (is_Some (compiler_ptr c1)) as Hp1 by (rewrite (shape_compiler _ _ Hs1); apply Hco).
  assert (regs m1 (reg o) = a) as Ea1 by (rewrite Hr1; [done|by apply op_ne]).
  assert (regs m1 (reg v) = b) as Eb1 by (rewrite Hr1; [done|by apply op_ne]).
  assert (forall c2 m2, Like c1 c2 -> words m2 -> mem m2 = page_bytes (is_short v) a b (mem m1) ->
    regs_but [BUXN_JIT_R_TMP; BUXN_JIT_R_MEM_OFFSET] m1 m2 -> hwp (K tt) Q c2 m2) as Hend.
  { intros c2 m2 [Hsh2 Hb2] Hw2 Hm2 Hbut. rewrite Hm1 in Hm2.
    assert (forall q, q <> BUXN_JIT_R_TMP -> q <> BUXN_JIT_R_MEM_OFFSET -> regs m2 q = regs m1 q) as Hq
      by (intros q Hq1 Hq2; apply Hbut; rewrite !not_elem_of_cons; split_and!; [done|done|apply not_elem_of_nil]).
    assert (shape c2 = shape c) as Hsh by congruence.
    apply HK; [|apply ctl_frame; unfold shape in Hsh; congruence|done].
    eapply (holds_scratch (vmb := vmb)); [by split|exact Hsh|..].
    - split; [by rewrite (shape_compiler _ _ Hsh); apply Hco|done| | |].
      + intros x. rewrite Hm2. apply page_bytes_u8; [done|apply Hco].
      + rewrite Hq, Hr1 by done. apply Hco.
      + right. by rewrite Hb2, Hb1, Hq.
    - intros f x Hx. rewrite Hm2. apply page_bytes_ne; [done|]. intros y Hy E.
      destruct (device_bounds y Hy) as (_ & _ & _ & Hoff & _). apply (Hoff f). rewrite <- E. mlia.
    - intros q Hq'. unfold scratch in Hq'. rewrite !not_elem_of_cons in Hq'. destruct_and! Hq'.
      rewrite Hq, Hr1; done. }
  assert (Like c1 c1) as Hl1 by done. pose proof (word_val _ _ Hv) as Hwv.
  assert (forall y, is_u8 y -> is_word (vmb + off_device + y)) as Hword by (intros y Hy; by apply device_bounds).
  pose proof (word_u8 a Ha) as Hwda.
  destruct (is_short v) eqn:Esh; cbn [val_in] in Hv.
  - hassoc. inst ex_mov_u8. intros c2 Hl2. rewrite Ea1, u8_id by done.
    inst ex_shr_imm. intros c3 Hl3. msimp. rewrite Eb1, Z.shiftr_div_pow2 by lia. change (2 ^ 8) with 256.
    assert (is_u8 (b / 256)) as Hhi by mlia. assert (is_word (b / 256)) by (by apply word_u8).
    inst ex_store. { msimp. rewrite Hbase. by apply Hword. } intros c4 Hl4. msimp. rewrite Hbase, (u8_id (b / 256)) by done.
    inst ex_add_imm. intros c5 Hl5. inst ex_and_imm. intros c6 Hl6. msimp.
    pose proof (land_mask false (a + 1)) as El. cbn [size_mask] in El. rewrite El.
    inst ex_store. { msimp. rewrite Hbase. apply Hword, u8_range. } intros c7 Hl7. msimp. rewrite Hbase, Eb1.
    apply Hend; [done|auto 14 with words|done|]. regs_list.
  - hassoc. inst ex_mov_u8. intros c2 Hl2. rewrite Ea1, u8_id by done.
    inst ex_store. { msimp. rewrite Hbase. by apply Hword. } intros c3 Hl3. msimp. rewrite Hbase, Eb1, u8_id by done.
    apply Hend; [done|auto 14 with words|done|]. regs_list.
Qed.

(** After the call: the stack pointers are loaded and nothing is cached. *)
Lemma called_rep c H c' m s :
  Called c H c' -> Parked (vmb := vmb) m s -> Rep c' m H (vm_stacks s).
Proof. intros [] Hp. by apply parked_rep. Qed.

Lemma called_like c H c1 c2 : Called c H c1 -> Like c1 c2 -> Called c H c2.
Proof.
  intros [Hi Hu Hb Hc Hp] [Hs Hm]. split.
  - by eapply inv_shape.
  - unfold shape in Hs. assert (wst_cache c2 = wst_cache c1 /\ rst_cache c2 = rst_cache c1) as [Ew Er]
      by (split; congruence). unfold uncached. by rewrite Ew, Er.
  - congruence.
  - rewrite <- Hc. apply ctl_frame. unfold shape in Hs. congruence.
  - by rewrite (shape_compiler _ _ Hs).
Qed.

(** The machine [m] about to run the code of the next opcode of the context
    [c] is in the state [u], its devices included. *)
Definition ShowsAll (c : buxn_jit_ctx_t) (m : mach) (u : uxn) : Prop :=
  Shows (vmb := vmb) c m (u_vm u) /\ world (mem m) (u_dev u).

(** The same between two blocks. *)
Definition ParkedAll (m : mach) (u : uxn) : Prop :=
  Parked (vmb := vmb) m (u_vm u) /\ world (mem m) (u_dev u).

Lemma resumes_shows_all c m u : ParkedAll m u -> Resumes c -> pc c = vm_pc (u_vm u) -> ShowsAll c m u.
Proof. intros [Hp Hw] Hr Hpc. split; [by apply resumes_shows|done]. Qed.

Lemma parked_all_returned v m u : ParkedAll m u -> ParkedAll (returned v m) u.
Proof. intros [Hp Hw]. split; [by apply parked_returned|done]. Qed.

Lemma parked_all m0 m s d :
  elsewhere (vmb := vmb) m0 m -> world (mem m0) d -> Parked (vmb := vmb) m s -> ParkedAll m (mkUxn _ s d).
Proof. intros He Hw Hp. split; [done|]. by eapply world_elsewhere. Qed.

Section Handler.
Context (c0 : buxn_jit_ctx_t) (m0 : mach) (u : uxn) (sh : bool).

#[local] Abbreviation st0 := (vm_stacks (u_vm u)).
#[local] Abbreviation short := (buxn_jit_op_flag_2 c0).
#[local] Abbreviation flag := (buxn_jit_op_flag_r c0).
#[local] Abbreviation PopAt := (PopAt (vmb := vmb) c0 m0 st0 sh).
#[local] Abbreviation HoldAt := (HoldAt (vmb := vmb) c0 m0 st0).
#[local] Abbreviation below := (below c0 st0).

Hypothesis Hpc : pc c0 = vm_pc (u_vm u).
Hypothesis Hram : forall y, is_u16 y -> ram m0 y = vm_ram (u_vm u) y.
Hypothesis Hworld : world (mem m0) (u_dev u).

Lemma hold_world c m H vals x : HoldAt c m H vals x ->
  (forall y, is_u16 y -> ram m y = vm_ram (u_vm u) y) /\ world (mem m) (u_dev u).
Proof.
  intros [_ [_ Hk]]. split.
  - intros y Hy. by rewrite (off_stacks_ram m0 m Hk y Hy), Hram.
  - eapply world_elsewhere; [|done|exact Hworld]. by apply keeps_elsewhere.
Qed.

Lemma shows_pushed op c m s d c' m' H' vals' s' :
  Parked (vmb := vmb) m s -> world (mem m) d -> pc c = vm_pc s' -> vm_ram s' = vm_ram s ->
  Holds op c' m' H' vals' (vm_stacks s') -> ctl c' = ctl c -> evolves (vmb := vmb) m m' ->
  ShowsAll c' m' (mkUxn _ s' d).
Proof.
  intros Hp Hwo Hpcs Er Hh Hctl Hev. split; [split; [exists H'; apply Hh|split]|].
  - cbn [u_vm]. rewrite <- Hpcs. unfold ctl in Hctl. congruence.
  - intros y Hy. cbn [u_vm]. rewrite Er, (evolves_ram _ _ Hev y Hy). by apply Hp.
  - cbn [u_dev]. eapply world_elsewhere; [|done|exact Hwo]. by apply evolves_elsewhere.
Qed.

Lemma dei_sim H u' :
  PopAt [false] c0 m0 H [] (st0 flag) -> (length H <= 2)%nat -> is_u8 (current_opcode c0) ->
  device_exec DEI (current_opcode c0) u = Some u' ->
  hwp buxn_jit_DEI (fun _ c m => ShowsAll c m u') c0 m0.
Proof.
  intros Hp HH Hop Hs. pose proof (flags_bits c0 Hop) as (E2 & Er & Ek).
  unfold device_exec in Hs. rewrite <- E2, <- Er, <- Ek in Hs.
  destruct (pop1 false (st0 flag)) as [[a l1]|] eqn:Epop; cbn [mbind option_bind] in Hs; [|done].
  unfold buxn_jit_DEI. apply hwp_tail_tt. hassoc. apply hwp_bind, hwp_gets.
  hassoc. eapply (s_pop_ex c0 m0 st0 sh); [exact Hp|exact Epop|]. intros o c1 m1 _ Ha Hp1.
  apply s_hold in Hp1 as Hh1. destruct (since_flags c0 m0 c1 m1 (proj2 Hh1)) as (E21 & Er1 & _).
  hassoc. apply hwp_bind, hwp_gets. rewrite E21.
  hassoc. eapply (s_alloc c0 m0 st0); [exact Hh1|cbn [length]; change NUM_OP_REGS with 6%nat; lia|].
  intros r c2 m2 Hh2 _ Hne. destruct (hold_world _ _ _ _ _ Hh2) as [Hram2 Hwo2].
  assert (is_op r) as Hopr by (eapply (hold_op c0 m0 st0); [exact Hh2|by left]).
  set (u1 := on_vm (with_stack flag (below l1)) u).
  hassoc. eapply (h_device o _ a u1); [exact (proj1 Hh2)|by left|by destruct short|exact Hram2|exact Hwo2|].
  intros c3 m3 mm Hcl Hheld Hw3 Hvm3 Hv3 Hm3.
  destruct (held_input mm u1 a short Ha Hheld) as (u2 & Ein & [Him Hwo] & Hpc2 & Hval).
  change (on_vm (with_stack flag _) u) with u1 in Hs. rewrite Ein in Hs.
  set (v := fst (answer _ a mm)) in *. rewrite <- Hm3 in Him, Hwo.
  assert (is_word v) as Hwv by (by eapply val_in_word). rewrite (wrap_id v) in Hv3 by done.
  assert (is_Some (compiler_ptr c3)) as Hc3.
  { rewrite (cl_compiler _ _ _ Hcl). apply (rp_core _ _ _ _ (hd_rep _ _ _ _ _ _ (proj1 Hh2))). }
  assert (Like c3 c3) as Hl3 by done. inst ex_mov. intros c4 Hl4. rewrite Hv3.
  set (m4 := set_reg r v m3). assert (words m4) as Hw4 by (by apply words_set).
  assert (regs m4 BUXN_JIT_S_VM = vmb) as Hvm4 by (unfold m4; rewrite regs_set_ne; [done|by apply not_eq_sym, op_ne]).
  hassoc. eapply h_load_state; [exact Hl4|exact Hc3|exact Hw4|exact (im_bytes _ _ Him)|exact Hvm4|]. intros c5 Hl5.
  pose proof (loaded_parked _ _ Hw4 Hvm4 Him) as Hpk. pose proof (called_like _ _ _ _ Hcl Hl5) as Hcl5.
  assert (ctl c5 = ctl c0) as Hctl5 by (rewrite (cl_ctl _ _ _ Hcl5); apply Hh2).
  unfold buxn_jit_push. hassoc. apply hwp_bind, hwp_gets.
  assert (buxn_jit_op_flag_r c5 = flag) as -> by (apply op_flags_eq, ctl_opcode; exact Hctl5).
  rewrite (to_bytes_val short) in Hs by done.
  destruct (put flag (val_bytes short v ++ vm_stacks (u_vm u2) flag) (u_vm u2)) as [s'|] eqn:Eput; [|done].
  injection Hs as <-. destruct (put_some _ _ _ _ Eput) as [Hlen ->].
  eapply (h_push_ex (current_opcode c0) flag (mkOperand 0 short 0 r) v c5 _ (r :: reg o :: H) [(r, v)]).
  - split; [by eapply called_rep|by apply ctl_opcode|]. apply Forall_singleton. split; [by left|].
    cbn [fst snd]. unfold loaded. rewrite !regs_set_ne by (by apply op_ne). apply regs_set_eq.
  - by left.
  - done.
  - cbn [is_short]. rewrite length_app in Hlen. done.
  - cbn [is_short]. intros c6 m6 Hh6 Hctl6 Hev6. apply hwp_ret.
    eapply (shows_pushed _ c5 _ (u_vm u2) (u_dev u2)); try done.
    cbn [vm_pc]. rewrite Hpc2. cbn [u1 on_vm u_vm with_stack vm_pc]. rewrite <- Hpc. unfold ctl in Hctl5. congruence.
Qed.

Lemma deo_sim H u' :
  PopAt [false; short] c0 m0 H [] (st0 flag) -> is_u8 (current_opcode c0) ->
  device_exec DEO (current_opcode c0) u = Some u' ->
  hwp buxn_jit_DEO (fun _ c m => ShowsAll c m u') c0 m0.
Proof.
  intros Hp Hop Hs. pose proof (flags_bits c0 Hop) as (E2 & Er & Ek).
  unfold device_exec in Hs. rewrite <- E2, <- Er, <- Ek in Hs.
  destruct (pop1 false (st0 flag)) as [[a l1]|] eqn:Ep1; cbn [mbind option_bind] in Hs; [|done].
  destruct (pop1 short l1) as [[b l2]|] eqn:Ep2; cbn [mbind option_bind] in Hs; [|done]. injection Hs as <-.
  unfold buxn_jit_DEO. apply hwp_tail_tt. hassoc. apply hwp_bind, hwp_gets.
  hassoc. eapply (s_pop_ex c0 m0 st0 sh); [exact Hp|exact Ep1|]. intros o c1 m1 _ Ha Hp1. cbn [val_in] in Ha.
  hassoc. eapply (s_pop c0 m0 st0 sh); [exact Hp1|exact Ep2|]. intros v c2 m2 Esv Hvb Hp2.
  apply s_hold in Hp2 as Hh2.
  destruct (hold_world _ _ _ _ _ Hh2) as [Hram2 Hwo2].
  hassoc. eapply (h_store_device_page o v a b); [exact (proj1 Hh2)|by right; left|by left|done|by rewrite Esv|].
  rewrite Esv. intros c3 m3 Hh3 Hctl3 Hm3.
  set (u1 := on_dev (page_write short a b) (on_vm (with_stack flag (below l2)) u)).
  hassoc. eapply (h_device o _ a u1); [exact Hh3|by right; left|by destruct short| | |].
  { intros y Hy. transitivity (ram m2 y); [|by apply Hram2]. unfold MemSim.ram. rewrite Hm3.
    apply page_bytes_ne; [done|]. intros x Hx E. destruct (device_bounds x Hx) as (_ & _ & _ & _ & Hoff).
    apply Hoff. rewrite <- E. mlia. }
  { rewrite Hm3. by apply page_world. }
  intros c4 m4 mm Hcl Hheld Hw4 Hvm4 _ Hm4.
  destruct (held_output mm u1 a short Ha Hheld) as ([Him Hwo] & Hpc2). rewrite <- Hm4 in Him, Hwo.
  assert (is_Some (compiler_ptr c4)) as Hc4.
  { rewrite (cl_compiler _ _ _ Hcl). apply (rp_core _ _ _ _ (hd_rep _ _ _ _ _ _ Hh3)). }
  eapply (h_load_state _ _ c4); [done|exact Hc4|exact Hw4|exact (im_bytes _ _ Him)|exact Hvm4|].
  intros c5 Hl5. apply hwp_ret. pose proof (loaded_parked _ _ Hw4 Hvm4 Him) as Hpk.
  pose proof (called_like _ _ _ _ Hcl Hl5) as Hcl5. split; [split; [|split]|exact Hwo].
  - eexists. eapply called_rep; [exact Hcl5|exact Hpk].
  - change (pc c5 = vm_pc (u_vm (output short a u1))). rewrite Hpc2. cbn [u1 on_vm on_dev u_vm with_stack vm_pc]. rewrite <- Hpc.
    assert (ctl c5 = ctl c0) as Ec by (rewrite (cl_ctl _ _ _ Hcl5), Hctl3; apply Hh2). unfold ctl in Ec. congruence.
  - apply Hpk.
Qed.
End Handler.

(** ** One device opcode *)

Context {VM : BuxnVm}.

Lemma device_opcode_sim fuel c m u u' :
  ShowsAll c m u -> poppable c = true -> is_device (opcode_name (next_byte c)) = true ->
  uxn_tick (vm_memory (jit c)) u = Some u' ->
  hwp (buxn_jit_next_opcode (S fuel)) (fun _ c' m' => ShowsAll c' m' u') c m.
Proof.
  intros [([H Hr] & Hp & Hram) Hwo] (Hpc & Hop & sh & _ & Hready)%poppable_spec Hdev Hs.
  unfold uxn_tick in *.
  change (vm_memory (jit c) (u16 (vm_pc (u_vm u)))) with (read_memory c (vm_pc (u_vm u))) in Hs.
  rewrite <- Hp in Hs. fold (next_byte c) in Hs. rewrite Hdev in Hs. cbn [negb] in Hs. cbn [buxn_jit_next_opcode]. unfold opcode_step. apply hwp_bind, hwp_gets.
  destruct (Z.ltb_spec (pc c) 256); [lia|]. apply hwp_bind.
  eapply hwp_mono; [by eapply (fetch_popped c m H (vm_stacks (u_vm u)) sh)|].
  intros [] c1 m1 (Hop1 & Hpc1 & _ & Hk1 & H1 & HH1 & Hpop). apply hwp_bind, hwp_gets.
  assert (is_u8 (current_opcode c1)) as Hop1' by (by rewrite Hop1).
  set (u1 := on_vm (with_pc (u16 (pc c + 1))) u) in *.
  assert (forall y, is_u16 y -> ram m1 y = vm_ram (u_vm u1) y) as Hram1
    by (intros y Hy; rewrite (off_stacks_ram m m1 Hk1 y Hy); by apply Hram).
  assert (world (mem m1) (u_dev u1)) as Hwo1
    by (eapply world_elsewhere; [apply keeps_elsewhere, Hk1|done|exact Hwo]).
  rewrite <- Hop1 in *. destruct (opcode_name (current_opcode c1)) eqn:En; try done; cbn [dispatch op_sizes] in *.
  - eapply (dei_sim c1 m1 u1 sh); try done.
  - eapply (deo_sim c1 m1 u1 sh); try done.
Qed.
End DeviceSim.
