(* ===== verification/BlockFlow.v ===== *)
(** * A block, from one opcode to the next

    [next_opcode_flow]: where the code of one opcode leads.  [block_flow]: the
    code [compile_loop] emits goes through the steps of the specification and
    returns, or leaves for another block, at one of its later states; the
    blocks it calls are assumed to do the same. *)
From S2P Require Import Prelude Lir Hamt Jit Queues StackCache Uxn MicroOps Opcodes Compile Invariant CacheSafety OpcodeSafety BlockSafety Machine StackSim PopSim OperandSim StepSim OpcodeSim MemSim DivSim FetchSim OpcodeCorrect ExitSim UxnControl UxnDevices Emission Flows HostSim JumpSim ControlSim ControlOps DeviceSim.
Local Open Scope jit_scope.

(** ** The specification reads the memory at 16-bit addresses only *)

Lemma alike_stack f l s s' : alike s s' -> alike (with_stack f l s) (with_stack f l s').
Proof. intros (Es & Ep & Er). split; [cbn; by rewrite Es|done]. Qed.

Lemma alike_pc t s s' : alike s s' -> alike (with_pc t s) (with_pc t s').
Proof. intros (Es & Ep & Er). done. Qed.

Lemma alike_sym s s' : alike s s' -> alike s' s.
Proof. intros (Es & Ep & Er). split; [done|]. split; [done|]. intros y Hy. by rewrite Er. Qed.

#[local] Hint Resolve alike_stack alike_pc : core.

Lemma vm_exec_alike prog n op s s' s1 :
  Forall is_u8 (vm_stacks s (op_return op)) -> is_u16 (vm_pc s) -> alike s s' ->
  vm_exec prog n op s = Some s1 -> exists s2, vm_exec prog n op s' = Some s2 /\ alike s1 s2.
Proof.
  intros Hu Hp Hal Hs. pose proof Hal as (Es & Ep & Er).
  assert (vm_step n op s = Some s1 -> exists s2, vm_step n op s' = Some s2 /\ alike s1 s2) as Hstep
    by (by apply vm_step_alike).
  unfold vm_exec in *. rewrite ?Es, ?Ep.
  destruct n; try (by apply Hstep).
  - destruct (pop1 _ _) as [[v rest]|]; cbn in *; [|done]. destruct (jump_target _ _ _); cbn in *; [|done].
    injection Hs as <-. eexists. split; [done|]. by auto.
  - destruct (pop1 _ _) as [[v rest]|]; cbn in *; [|done]. destruct rest as [|x rest]; cbn in *; [done|].
    destruct (x =? 0); [|destruct (jump_target _ _ _); cbn in *; [|done]];
      injection Hs as <-; (eexists; split; [done|]); by auto.
  - destruct (pop1 _ _) as [[v rest]|]; cbn in *; [|done]. destruct (jump_target _ _ _); cbn in *; [|done].
    eapply put_alike; [|exact Hs]. by auto.
  - destruct (op =? 0x20); [|done]. destruct (vm_stacks s false) as [|x rest]; cbn in *; [done|].
    injection Hs as <-. eexists. split; [done|]. by auto.
  - injection Hs as <-. eexists. split; [done|]. by auto.
  - destruct (op =? 0x60); [|done]. eapply put_alike; [|exact Hs]. by auto.
Qed.

Section BlockFlow.
Context {Lay : VmLayout} {SL : Sljit} {SP : SljitSpec} {HO : Host} {vmb : Z} {LS : LayoutSpec vmb}.
Context {VM : BuxnVm}.

#[local] Abbreviation Rep := (Rep (vmb := vmb)).
#[local] Abbreviation Shows := (Shows (vmb := vmb)).
#[local] Abbreviation Parked := (Parked (vmb := vmb)).
#[local] Abbreviation elsewhere := (elsewhere (vmb := vmb)).

(** ** One opcode *)

(** The next opcode does not jump to the result of a comparison. *)
Definition plain_next (c : buxn_jit_ctx_t) : bool :=
  match fetch_opcode c with
  | Ok (_, c1) => negb (takes_target (opcode_name (current_opcode c1))) || plain_target c1
  | _ => false
  end.

Section Opcode.
Context (call : nat -> mach -> option (Z * mach)).

Lemma next_opcode_flow fuel id c m s s' :
  Shows c m s -> (exists H, Good c H) -> compiler_ptr c = Some id -> poppable c = true ->
  plain_next c = true -> vm_tick (vm_memory (jit c)) s = Some s' ->
  flows call (buxn_jit_next_opcode (S fuel)) (fun _ fl c' => Outcome (vmb := vmb) call id s' m fl c') c m.
Proof.
  intros ([H Hr] & Hp & Hram) [Hg Hgood] Hid (Hpc & Hop & sh & Hsh & Hready)%poppable_spec Hplain Hs.
  cbn [buxn_jit_next_opcode]. unfold opcode_step. apply flows_bind, hwp_gets.
  destruct (Z.ltb_spec (pc c) 256); [lia|]. apply flows_bind.
  eapply hwp_mono; [apply hwp_run, hwp_wp; [by eapply (fetch_popped c m H (vm_stacks s) sh)|by eapply wp_fetch]|].
  intros [] c1 m1 (((Hop1 & Hpc1 & Hj1 & Hk1 & H1 & HH1 & Hpop) & (_ & _ & _ & Hg1 & Hgood1 & _)) & E).
  apply flows_bind, hwp_gets.
  unfold plain_next in Hplain. rewrite E in Hplain.
  assert (is_u8 (current_opcode c1)) as Hop1' by (by rewrite Hop1).
  assert (is_u16 (pc c1)) as Hpc1' by (rewrite Hpc1; apply u16_range).
  destruct (flags_bits c1 Hop1') as (_ & Er & _).
  unfold vm_tick in Hs. destruct (Z.ltb_spec (vm_pc s) 256); [done|].
  change (vm_memory (jit c) (u16 (vm_pc s))) with (read_memory c (vm_pc s)) in Hs. rewrite <- Hp in Hs. fold (next_byte c) in Hs.
  destruct (vm_exec_alike (vm_memory (jit c)) (opcode_name (next_byte c)) (next_byte c)
    (with_pc (u16 (pc c + 1)) s)
    (mkVm (vm_stacks s) (MemSim.ram (vmb := vmb) m1) (pc c1)) s') as (s2 & Hs2 & Hal).
  - cbn. rewrite <- Hop1, <- Er. by eapply popat_u8.
  - apply u16_range.
  - split; [done|]. split; [cbn; by rewrite Hpc1|]. intros y Hy. cbn.
    by rewrite (off_stacks_ram m m1 Hk1 y Hy), Hram.
  - exact Hs.
  - rewrite <- Hop1, <- Hj1 in Hs2. destruct Hgood1 as (_ & Hv1 & Hok1).
    eapply flows_mono; [eapply (control_sim call c1 m1 (vm_stacks s) sh); try done|].
    + rewrite <- Hid. eapply logs_ptr; [apply logs_fetch|exact E|].
      apply (inv_compiler _ _ (proj1 (pv_inv _ _ _ _ _ _ (pops_pv _ _ _ _ _ _ _ _ _ _ (proj1 Hpop))))).
    + apply logs_next_opcode.
    + by rewrite Hop1.
    + intros Ht. by rewrite Ht in Hplain.
    + intros [] fl c2 Hout. apply (outcome_elsewhere _ _ _ m) in Hout; [|by apply keeps_elsewhere].
      by eapply outcome_alike; [apply alike_sym|].
Qed.
(** The opcode that returns to the trampoline. *)
Lemma flows_return v c m :
  is_Some (compiler_ptr c) -> is_u32 v ->
  flows call (sljit_emit_return SLJIT_MOV32 (AImm v) ;;; buxn_jit_finalize) (fun _ fl _ => fl = Return v m) c m.
Proof.
  intros Hc Hv. apply flows_exits. unfold sljit_emit_return.
  eapply exits_lir; [done|intros; cbn; rewrite wrap_id, u32_id by (done || by apply word_u32); done|done|].
  intros c' _ _ Hb. apply wp_modify. split; [done|]. split; [by apply extends_refl|]. split; [|done].
  by intros j m'.
Qed.

Lemma flow_exit (f : J unit) v c m H s :
  Rep c m H (vm_stacks s) -> (forall y, is_u16 y -> MemSim.ram (vmb := vmb) m y = vm_ram s y) -> is_u32 v ->
  (forall c1, pc c1 = pc c -> f c1 = (sljit_emit_return SLJIT_MOV32 (AImm v) ;;; buxn_jit_finalize) c1) ->
  flows call (buxn_jit_clear_stack_caches ;;; f)
    (fun _ fl _ => exists m', fl = Return v m' /\ Parked m' s /\ elsewhere m m') c m.
Proof.
  intros Hr Hram Hv Hf. apply flows_bind. eapply hwp_mono; [by apply hwp_clear|].
  intros [] c1 m1 (Hr1 & Hev & _ & Hfr & Hu). assert (pc c1 = pc c) as Hp by (unfold frame in Hfr; congruence).
  pose proof (flows_return v c1 m1 (co_compiler _ _ (rp_core _ _ _ _ Hr1)) Hv) as Hret.
  intros Hb. specialize (Hret Hb). unfold wp in *. rewrite Hf by done.
  destruct (bind _ _ c1) as [[[] c2]| |]; [|done|done].
  destruct Hret as (? & ? & new & fl & ? & ? & ->). split; [done|]. split; [done|]. exists new, (Return v m1).
  split; [done|]. split; [done|]. exists m1. split; [done|]. split; [|by apply evolves_elsewhere].
  eapply rep_parked; [exact Hr1|exact Hu|]. intros y Hy. rewrite (evolves_ram _ _ Hev y Hy). by apply Hram.
Qed.

Lemma last_opcode_flow fuel c m s :
  Shows c m s -> is_u16 (pc c) ->
  pc c < 256 \/ poppable c = true /\ opcode_name (next_byte c) = BRK ->
  flows call (buxn_jit_next_opcode (S fuel))
    (fun _ fl _ => exists m', fl = Return (exit_value s) m' /\ Parked m' s /\ elsewhere m m') c m.
Proof.
  intros ([H Hr] & Hp & Hram) Hu Hend. cbn [buxn_jit_next_opcode]. unfold opcode_step.
  apply flows_bind, hwp_gets. unfold exit_value. rewrite <- Hp.
  destruct (Z.ltb_spec (pc c) 256) as [Hz|Hz].
  - eapply (flow_exit _ (pc c)); [done|done|unfold is_u16, is_u32 in *; lia|]. intros c1 Hc1. unfold bind, gets. by rewrite Hc1.
  - destruct Hend as [Hlt|[(Hpc & Hop & sh & _ & Hready)%poppable_spec Hbrk]]; [lia|].
    apply flows_bind. eapply hwp_mono; [by eapply (fetch_popped c m H (vm_stacks s) sh)|].
    intros [] c1 m1 (Hop1 & _ & _ & Hk1 & H1 & HH1 & Hpop). apply flows_bind, hwp_gets.
    rewrite Hop1, Hbrk. cbn [dispatch]. unfold buxn_jit_BRK.
    eapply flows_mono; [eapply (flow_exit _ 0x10000); [eapply popat_rep; [exact Hpop|done]| |done|done]|].
    + intros y Hy. by rewrite (off_stacks_ram m m1 Hk1 y Hy), Hram.
    + intros [] fl c2 (m2 & Hfl & Hpk & He). exists m2. split; [done|]. split; [done|].
      eapply elsewhere_trans; [by apply keeps_elsewhere|done].
Qed.
End Opcode.
(** ** The loop *)

(** Every opcode of the block is [poppable] and none jumps to the result of a
    comparison. *)
Fixpoint plain_block (fuel : nat) (c : buxn_jit_ctx_t) : bool :=
  match compiler_ptr c with
  | None => true
  | Some _ =>
      match fuel with
      | O => false
      | S fuel' =>
          ((pc c <? 256) || poppable c && plain_next c) &&
          match buxn_jit_next_opcode fuel c with Ok (_, c') => plain_block fuel' c' | _ => false end
      end
  end.

Lemma loop_step fuel c cend id :
  compile_loop (S fuel) c = Ok (tt, cend) -> compiler_ptr c = Some id ->
  exists c1, buxn_jit_next_opcode (S fuel) c = Ok (tt, c1) /\ compile_loop fuel c1 = Ok (tt, cend).
Proof.
  intros Hl Hid. cbn [compile_loop] in Hl. unfold bind in Hl at 1. unfold gets in Hl. rewrite Hid in Hl.
  unfold bind in Hl. destruct (buxn_jit_next_opcode (S fuel) c) as [[[] c1]| |]; [|done|done]. by exists c1.
Qed.

Lemma compiled_after fuel c cend :
  bound_ok (comp c) -> compile_loop fuel c = Ok (tt, cend) ->
  binds (comp c) ⊆ binds (comp cend) /\ exists new, code (comp cend) = code (comp c) ++ new.
Proof.
  intros Hb Hl. apply (logs_grown _ _ _ _ (logs_compile_loop fuel)) in Hl as [_ _ (new & E & _) Hold _ _].
  cbn in *. split; [|by exists new]. apply map_subseteq_spec. intros j l Hj. by rewrite Hold; [|by eapply Hb].
Qed.

Section Loop.
Context {DM : DevModel} {HS : HostSpec vmb}.
Context (call : nat -> mach -> option (Z * mach)) (prog : Z -> Z) (send : uxn) (id : nat).
Hypothesis Hstops : stops prog (u_vm send).

#[local] Abbreviation ShowsAll := (ShowsAll (vmb := vmb)).
#[local] Abbreviation ParkedAll := (ParkedAll (vmb := vmb)).
#[local] Abbreviation pc_of u := (vm_pc (u_vm u)).

(** What a called block answers, [k] steps before the machine stops: it returns
    the pc of a later state, or what the trampoline expects of the last one. *)
Definition Answer (k : nat) (v : Z) (m' : mach) : Prop :=
  is_u32 v /\
  ((exists u' k', (k' < k)%nat /\ uxn_ticks prog k' u' = Some send /\ v = pc_of u' /\ is_u16 v /\
      ParkedAll m' u') \/
   (v = exit_value (u_vm send) /\ ParkedAll m' send)).

Definition CallsOk (k : nat) (sj : buxn_jit_t) : Prop := forall j m u k',
  (k' < k)%nat -> Linked id j BUXN_JIT_LINK_TO_HEAD (pc_of u) sj -> ParkedAll m u ->
  uxn_ticks prog k' u = Some send -> exists v m', call j m = Some (v, m') /\ Answer k' v m'.

(** How the code of a block ends. *)
Definition BlockEnd (k : nat) (sj : buxn_jit_t) (fl : flow) : Prop :=
  (exists v m', fl = Return v m' /\ Answer k v m') \/
  (exists j m' u' k', fl = Leave j m' /\ Linked id j BUXN_JIT_LINK_TO_BODY (pc_of u') sj /\
     ParkedAll m' u' /\ (k' < k)%nat /\ uxn_ticks prog k' u' = Some send).

Lemma answer_mono k k' v m' : (k <= k')%nat -> Answer k v m' -> Answer k' v m'.
Proof.
  intros Hk (Hw & [(u' & n & ? & Ha)|Ha]); (split; [done|]); [left|by right].
  exists u', n. split; [lia|done].
Qed.

Lemma block_end_mono k k' sj fl : (k <= k')%nat -> BlockEnd k sj fl -> BlockEnd k' sj fl.
Proof.
  intros Hk [(v & m' & -> & Ha)|(j & m' & u' & n & -> & Hl & Hp & Hn & Ht)].
  - left. exists v, m'. split; [done|]. by eapply answer_mono.
  - right. exists j, m', u', n. split_and!; try done. lia.
Qed.

(** Where a jump led: away for good, or back from the called block. *)
Lemma goes_ends k u' ra m fl c1 sj :
  Goes (vmb := vmb) call id (u_vm u') ra m fl c1 -> world (mem m) (u_dev u') -> is_u16 ra ->
  grows (jit c1) sj -> CallsOk (S k) sj -> uxn_ticks prog k u' = Some send ->
  (final fl /\ BlockEnd (S k) sj fl) \/
  (ra <> 0 /\ mem_base c1 = 0 /\ exists m' u2 k2, fl = Run m' /\ ParkedAll m' u2 /\ pc_of u2 = ra /\
     (k2 <= k)%nat /\ uxn_ticks prog k2 u2 = Some send).
Proof.
  intros (m1 & Hp0 & He & Hfl) Hwo Hu16 Hg Hcalls Ht.
  assert (ParkedAll m1 u') as Hp by (split; [done|by eapply world_elsewhere]). clear Hp0 He Hwo.
  destruct Hfl as [[-> Hu]|[(j & Hl & ->)|(Hra & Hmb & j & Hl & ->)]].
  - left. split; [done|]. left. exists (pc_of u'), m1. split; [done|]. split; [unfold is_u16, is_u32 in *; lia|].
    left. exists u', k. split_and!; try done. lia.
  - left. split; [done|]. right. exists j, m1, u', k. split_and!; try done; [by eapply linked_grows|lia].
  - destruct (Hcalls j m1 u' k) as (v & m2 & Ec & Hw & Ha); [lia|by eapply linked_grows|done|done|].
    rewrite Ec. cbn [call_flow]. rewrite (wrap_id v), u32_id by (done || by apply word_u32). destruct (Z.eqb_spec v ra) as [E|E].
    + right. split; [done|]. split; [done|]. destruct Ha as [(u2 & k2 & Hk2 & Ht2 & Ev & Hu2 & Hp2)|[Ev Hp2]].
      * exists (returned v m2), u2, k2. split_and!; try done; [by apply parked_all_returned|congruence|lia].
      * exists (returned v m2), send, 0%nat. split_and!; try done; [by apply parked_all_returned| |lia].
        unfold exit_value in Ev. destruct (Z.ltb_spec (pc_of send) 256); [congruence|].
        exfalso. unfold is_u16 in Hu16. lia.
    + left. split; [done|]. left. exists v, (returned v m2). split; [done|]. split; [done|].
      destruct Ha as [(u2 & k2 & Hk2 & Ht2 & Ev & Hu2 & Hp2)|[Ev Hp2]].
      * left. exists u2, k2. split_and!; try done; [lia|by apply parked_all_returned].
      * right. split; [done|]. by apply parked_all_returned.
Qed.

(** The code from [c] to the end of the block [cend]. *)
Definition RunsOn (k : nat) (c cend : buxn_jit_ctx_t) (m : mach) : Prop :=
  binds (comp c) ⊆ binds (comp cend) /\ exists new fl,
    code (comp cend) = code (comp c) ++ new /\
    (forall B, binds (comp cend) ⊆ B -> xexec call B new (Run m) = fl) /\ BlockEnd k (jit cend) fl.

Record Between (fuel : nat) (c : buxn_jit_ctx_t) : Prop := {
  bt_bound : bound_ok (comp c);
  bt_good : exists H, GoodX c H;
  bt_fuel : compiler_ptr c <> None -> meas (pc c) < Z.of_nat fuel;
  bt_prog : vm_memory (jit c) = prog;
}.

Lemma between_step fuel c c1 :
  Between (S fuel) c -> compiler_ptr c = Some id -> buxn_jit_next_opcode (S fuel) c = Ok (tt, c1) ->
  bound_ok (comp c1) -> Between fuel c1.
Proof.
  intros [Hb [H Hx] Hf Hp] Hid E Hb1.
  pose proof (next_opcode_ok (S fuel) c H (goodx_good _ _ _ Hx Hid) ltac:(apply Hf; by rewrite Hid)) as Hn.
  unfold wp in Hn. rewrite E in Hn. destruct Hn as (Hnear & Hx1 & Hm).
  split; [done|done| |].
  - intros Hc. destruct Hm as [Hm|]; [|done]. assert (meas (pc c) < Z.of_nat (S fuel)) by (apply Hf; by rewrite Hid). lia.
  - rewrite (gr_rom _ _ (proj1 Hnear)). done.
Qed.

Lemma between_grows fuel c cend :
  Between fuel c -> compile_loop fuel c = Ok (tt, cend) -> grows (jit c) (jit cend).
Proof.
  intros [_ [H Hx] Hf _] E. pose proof (wp_compile_loop fuel c H Hx Hf) as Hn. unfold wp in Hn.
  rewrite E in Hn. apply Hn.
Qed.

(** The rest of the block after one opcode. *)
Lemma runs_final fuel k c c1 cend m new fl :
  bound_ok (comp c1) -> compile_loop fuel c1 = Ok (tt, cend) -> binds (comp c) ⊆ binds (comp c1) ->
  code (comp c1) = code (comp c) ++ new ->
  (forall B, binds (comp c1) ⊆ B -> xexec call B new (Run m) = fl) -> final fl ->
  BlockEnd k (jit cend) fl -> RunsOn k c cend m.
Proof.
  intros Hb El Hs En Hx Hf He. destruct (compiled_after fuel c1 cend Hb El) as [Hs2 [n2 E2]].
  split; [by etrans|]. exists (new ++ n2), fl. split; [by rewrite E2, En, app_assoc|]. split; [|done].
  intros B HB. rewrite xexec_app, Hx by (by etrans). by apply xexec_final.
Qed.

Lemma runs_more k k1 c c1 cend m m1 new :
  binds (comp c) ⊆ binds (comp c1) -> code (comp c1) = code (comp c) ++ new ->
  (forall B, binds (comp c1) ⊆ B -> xexec call B new (Run m) = Run m1) ->
  (k1 <= k)%nat -> RunsOn k1 c1 cend m1 -> RunsOn k c cend m.
Proof.
  intros Hs En Hx Hk (Hs2 & n2 & fl & E2 & Hx2 & Hend). split; [by etrans|].
  exists (new ++ n2), fl. split; [by rewrite E2, En, app_assoc|]. split; [|by eapply block_end_mono].
  intros B HB. rewrite xexec_app, Hx by (by etrans). by apply Hx2.
Qed.

Lemma shows_running c m s : Shows c m s -> is_Some (compiler_ptr c).
Proof. intros ([H Hr] & _). apply Hr. Qed.

Lemma next_ptr fuel c c1 :
  buxn_jit_next_opcode fuel c = Ok (tt, c1) -> is_Some (compiler_ptr c1) -> compiler_ptr c1 = compiler_ptr c.
Proof. intros E Hc. eapply logs_ptr; [apply logs_next_opcode|exact E|exact Hc]. Qed.

(** The opcode at which the machine stops. *)
Lemma last_runs fuel c c1 cend m :
  Between (S fuel) c -> ShowsAll c m send -> compiler_ptr c = Some id ->
  (pc c <? 256) || poppable c && plain_next c = true ->
  buxn_jit_next_opcode (S fuel) c = Ok (tt, c1) -> compile_loop fuel c1 = Ok (tt, cend) ->
  RunsOn 0 c cend m.
Proof.
  intros Hbt [Hsh Hwo] Hid Hpl E1 El1. pose proof Hsh as (_ & Hpc & _). destruct (bt_good _ _ Hbt) as [H Hx].
  assert (is_u16 (pc c)) as Hu by apply (goodx_good _ _ _ Hx Hid).
  assert (pc c < 256 \/ poppable c = true /\ opcode_name (next_byte c) = BRK) as Hlast.
  { rewrite Hpc. destruct Hstops as [|Hbrk]; [by left|]. apply orb_true_iff in Hpl as [Hz%Z.ltb_lt|Hpp];
      [left; lia|]. apply andb_true_iff in Hpp as [Hpp _]. right. split; [done|].
    unfold next_byte, read_memory. by rewrite (bt_prog _ _ Hbt), Hpc. }
  pose proof (last_opcode_flow call fuel c m (u_vm send) Hsh Hu Hlast (bt_bound _ _ Hbt)) as Hf.
  unfold wp in Hf. rewrite E1 in Hf. destruct Hf as (Hb1 & Hs1 & new & fl & En & Hrun & m' & -> & Hpk & He).
  eapply runs_final; [exact Hb1|exact El1|exact Hs1|exact En|exact Hrun|done|].
  left. exists (exit_value (u_vm send)), m'. split; [done|]. split.
  - unfold exit_value. destruct (pc_of send <? 256); [|done]. rewrite <- Hpc. unfold is_u16, is_u32 in *. lia.
  - right. split; [done|]. split; [done|]. by eapply world_elsewhere.
Qed.

(** One opcode, a device opcode or one of UxnControl.v. *)
Definition OutcomeAll (m : mach) (u : uxn) (fl : flow) (c' : buxn_jit_ctx_t) : Prop :=
  (exists m', fl = Run m' /\ ShowsAll c' m' u) \/
  (exists ra, Goes (vmb := vmb) call id (u_vm u) ra m fl c' /\ world (mem m) (u_dev u) /\
     (ra <> 0 -> pc c' = ra /\ uncached c' /\ exists H, Inv c' H)).

Lemma any_opcode_flow fuel c m u u' :
  ShowsAll c m u -> (exists H, Good c H) -> compiler_ptr c = Some id -> poppable c = true ->
  plain_next c = true -> uxn_tick (vm_memory (jit c)) u = Some u' ->
  flows call (buxn_jit_next_opcode (S fuel)) (fun _ fl c' => OutcomeAll m u' fl c') c m.
Proof.
  intros Hsh Hg Hid Hpp Hpn Hs. pose proof (proj1 (proj2 (proj1 Hsh))) as Hpc.
  destruct (is_device (opcode_name (next_byte c))) eqn:Ed.
  - apply flows_hwp. eapply hwp_mono; [by eapply device_opcode_sim|]. intros a c' m' Hsh'. left. by exists m'.
  - unfold next_byte, read_memory in Ed. rewrite Hpc in Ed. unfold uxn_tick in Hs. rewrite Ed in Hs. cbn [negb] in Hs.
    destruct (vm_tick (vm_memory (jit c)) (u_vm u)) as [s1|] eqn:Es; [|done]. injection Hs as <-.
    destruct Hsh as [Hsh Hwo]. eapply flows_mono; [by eapply next_opcode_flow|].
    intros a fl c' [(m' & -> & Hsh' & He)|(ra & Hgo & Hra)]; [left|right].
    + exists m'. split; [done|]. split; [done|]. by eapply world_elsewhere.
    + by exists ra.
Qed.

Lemma tick_running u u' : uxn_tick prog u = Some u' -> 256 <= pc_of u.
Proof.
  unfold uxn_tick, vm_tick. destruct (Z.ltb_spec (pc_of u) 256); [|done].
  by destruct (is_device _).
Qed.

Lemma loop_flow fuel : forall c cend m u k,
  Between fuel c -> ShowsAll c m u -> compiler_ptr c = Some id -> plain_block fuel c = true ->
  compile_loop fuel c = Ok (tt, cend) -> uxn_ticks prog k u = Some send -> CallsOk k (jit cend) ->
  RunsOn k c cend m.
Proof.
  induction fuel as [|fuel IH]; intros c cend m u k Hbt Hsh Hid Hpl El Ht Hcalls.
  { cbn in Hpl. by rewrite Hid in Hpl. }
  destruct (loop_step _ _ _ _ El Hid) as (c1 & E1 & El1).
  cbn [plain_block] in Hpl. rewrite Hid, E1 in Hpl. apply andb_true_iff in Hpl as [Hpl Hpl1].
  pose proof Hsh as [(_ & Hpc & _) _]. pose proof (bt_bound _ _ Hbt) as Hb.
  destruct (bt_good _ _ Hbt) as [H Hx]. pose proof (goodx_good _ _ _ Hx Hid) as Hgood.
  destruct k as [|k]; cbn [uxn_ticks] in Ht.
  - injection Ht as ->. by eapply last_runs.
  - destruct (uxn_tick prog u) as [u1|] eqn:Es; [cbn [mbind option_bind] in Ht|done].
    assert (poppable c = true /\ plain_next c = true) as [Hpp Hpn].
    { apply orb_true_iff in Hpl as [Hz%Z.ltb_lt|Hpp]; [|by apply andb_true_iff].
      apply tick_running in Es. lia. }
    rewrite <- (bt_prog _ _ Hbt) in Es.
    pose proof (any_opcode_flow fuel c m u u1 Hsh ltac:(by exists H) Hid Hpp Hpn Es Hb) as Hf.
    unfold wp in Hf. rewrite E1 in Hf. destruct Hf as (Hb1 & Hs1 & new & fl & En & Hrun & Hout).
    pose proof (between_step _ _ _ Hbt Hid E1 Hb1) as Hbt1.
    assert (forall m1 u2 k2, ShowsAll c1 m1 u2 -> (k2 <= k)%nat -> uxn_ticks prog k2 u2 = Some send ->
      RunsOn k2 c1 cend m1) as Hon.
    { intros m1 u2 k2 Hsh1 Hk2 Ht2. eapply IH; [done|exact Hsh1| |done|done|exact Ht2|
        intros j m3 u3 k3 Hk3; apply Hcalls; lia].
      rewrite (next_ptr _ _ _ E1 (shows_running _ _ _ (proj1 Hsh1))). done. }
    destruct Hout as [(m1 & -> & Hsh1)|(ra & Hgo & Hwo & Hra)].
    + eapply (runs_more _ k); [exact Hs1|exact En|exact Hrun|lia|]. by eapply Hon.
    + assert (is_u16 ra) as Hur.
      { destruct (decide (ra = 0)) as [->|Hne]; [mlia|]. destruct (Hra Hne) as (<- & _ & H' & Hi').
        destruct (bt_good _ _ Hbt1) as [H1 Hx1]. apply (Hx1 0%nat). }
      destruct (goes_ends k u1 ra m fl c1 (jit cend) Hgo Hwo Hur (between_grows _ _ _ Hbt1 El1) Hcalls Ht)
        as [[Hfin Hend]|(Hne & Hmb & m' & u2 & k2 & -> & Hpk & Hpc2 & Hk2 & Ht2)].
      * eapply runs_final; [exact Hb1|exact El1|exact Hs1|exact En|exact Hrun|exact Hfin|exact Hend].
      * destruct (Hra Hne) as (Hpc1 & Hun & H' & Hi').
        assert (ShowsAll c1 m' u2) as Hsh1.
        { apply resumes_shows_all; [done|split; [by exists H'|done]|by rewrite Hpc1]. }
        eapply (runs_more _ k2); [exact Hs1|exact En|exact Hrun|lia|]. by eapply Hon.
Qed.
End Loop.
End BlockFlow.
