(* ===== verification/LinkedRun.v ===== *)
(** * Running linked blocks

    [enter]: the code of a block entered at its head or its body; calls and
    patched jumps go to the blocks they are linked to.  [trampoline]: the loop
    in the prologue around it.  [enter_sim] and [trampoline_sim]: from a
    machine in a state of the specification that stops, they answer with its
    last state. *)
From S2P Require Import Prelude Lir Hamt Jit Queues StackCache Uxn MicroOps Opcodes Compile Invariant CacheSafety OpcodeSafety BlockSafety JitSafety Machine StackSim PopSim OperandSim StepSim OpcodeSim MemSim DivSim FetchSim OpcodeCorrect ExitSim UxnControl UxnDevices Emission Flows HostSim JumpSim ControlSim ControlOps DeviceSim BlockFlow.
Local Open Scope jit_scope.

(** ** Links *)

Definition is_site (id j : nat) (e : buxn_jit_entry_t) : bool :=
  Nat.eqb (e_compiler e) id && match e_union e with UJump i => Nat.eqb i j | UPc _ => false end.

(** Where jump [j] of the compiler [id] was linked to. *)
Definition link_of (id : nat) (s : buxn_jit_t) (j : nat) : option (buxn_jit_link_type_t * Z) :=
  '(_, e) ← list_find (fun e => is_site id j e) (link_queue s);
  t ← key_at s (e_block e); Some (link_type e, t).

(** One link at most for each jump of [id]. *)
Definition links_once (id : nat) (s : buxn_jit_t) : Prop :=
  exists new old, link_queue s = new ++ old /\ NoDup (e_union <$> new) /\
    Forall (fun e => e_compiler e <> id) old.

Lemma is_site_spec id j e : is_site id j e = true <-> e_compiler e = id /\ e_union e = UJump j.
Proof.
  unfold is_site. rewrite andb_true_iff, Nat.eqb_eq. destruct (e_union e) as [i|p]; [|by split; intros []].
  rewrite Nat.eqb_eq. split; [by intros [-> ->]|by intros [-> [= ->]]].
Qed.

Lemma nodup_inj {A B} (f : A -> B) l x y : NoDup (f <$> l) -> x ∈ l -> y ∈ l -> f x = f y -> x = y.
Proof.
  intros Hd [i Hi]%list_elem_of_lookup [j Hj]%list_elem_of_lookup E.
  assert (i = j) as ->; [|congruence]. eapply NoDup_lookup; [exact Hd|..]; rewrite list_lookup_fmap.
  - by rewrite Hi.
  - rewrite Hj. cbn. by rewrite E.
Qed.

Lemma link_of_linked id j ty t s : links_once id s -> Linked id j ty t s -> link_of id s j = Some (ty, t).
Proof.
  intros (new & old & E & Hd & Hold) (b & Hin & Hk). unfold link_of.
  assert (forall e, e ∈ link_queue s -> is_site id j e = true -> e = mkEntry ty b id (UJump j)) as Huniq.
  { assert (forall e, e ∈ link_queue s -> is_site id j e = true -> e ∈ new /\ e_union e = UJump j) as Hnew.
    { intros e He (Hc & Hu)%is_site_spec. split; [|done]. rewrite E, elem_of_app in He.
      destruct He as [|He]; [done|]. rewrite Forall_forall in Hold. by apply Hold in He. }
    intros e He Hs. destruct (Hnew e He Hs) as [Hi1 E1]. destruct (Hnew _ Hin) as [Hi2 E2].
    { by apply is_site_spec. } eapply nodup_inj; [exact Hd|done|done|congruence]. }
  destruct (list_find _ (link_queue s)) as [[i e]|] eqn:Ef.
  - apply list_find_Some in Ef as (Hi & Hs & _). apply Is_true_true in Hs.
    apply list_elem_of_lookup_2 in Hi. rewrite (Huniq e Hi Hs). cbn. by rewrite Hk.
  - apply list_find_None in Ef. rewrite Forall_forall in Ef. exfalso. apply (Ef _ Hin). apply Is_true_true.
    by apply is_site_spec.
Qed.

(** ** Compiled blocks *)

Section Blocks.
Context {Lay : VmLayout} {SL : Sljit} {HO : Host} {VM : BuxnVm}.

(** The context after the prologue of [buxn_jit_compile]. *)
Definition begin_compile : J unit := prologue ;;; log_hook begin_block HBegin.

(** A block: its compiler, the context its loop started from, and the one it
    ended with. *)
Record cblock := mkCblock {
  cb_id : nat;
  cb_start : buxn_jit_ctx_t;
  cb_end : buxn_jit_ctx_t;
}.

(** [blk] is what [buxn_jit_compile] makes of the address [t]. *)
Record compiled_at (prog : Z -> Z) (t : Z) (blk : cblock) : Prop := {
  ca_from : exists s b, jit_ok s /\ vm_memory s = prog /\
    Forall (fun e => e_compiler e <> cb_id blk) (link_queue s) /\
    begin_compile (initial_ctx s b (cb_id blk) sljit_create_compiler t) = Ok (tt, cb_start blk);
  ca_pc : is_u16 t;
  ca_loop : compile_loop block_fuel (cb_start blk) = Ok (tt, cb_end blk);
}.

(** ** The prologue *)

Lemma prologue_run s b id t : exists c,
  prologue (initial_ctx s b id sljit_create_compiler t) = Ok (tt, c) /\
  (jit c, compiler_ptr c, wst_cache c, rst_cache c, mem_base c) = (s, Some id, zero_cache, zero_cache, 0) /\
  bound_ok (comp c) /\
  forall call B m l, l = head_label c \/ l = body_label c -> xexec call B (code (comp c)) (Skip l m) = Run m.
Proof.
  eexists. split; [vm_compute; reflexivity|]. split; [done|]. split.
  - intros j l. revert j l. apply (bool_decide_unpack (map_Forall (fun j _ => (j < 4)%nat) _)). vm_compute. exact I.
  - intros call B m l [-> | ->]; reflexivity.
Qed.

Lemma log_hook_run en ev c : exists f, log_hook en ev c = Ok (tt, set_jit (set_hook_log f) c).
Proof.
  assert (c = set_jit (set_hook_log (fun l => l)) c) as Heta by (destruct c as [[]]; done).
  unfold log_hook, bind, gets. destruct (hook (jit c)) as [h|]; [|exists (fun l => l); by rewrite <- Heta].
  destruct (en h); [by eexists|exists (fun l => l); by rewrite <- Heta].
Qed.

Lemma bind_ok {S A B} (f : M S A) (k : A -> M S B) s b s' :
  bind f k s = Ok (b, s') -> exists a s1, f s = Ok (a, s1) /\ k a s1 = Ok (b, s').
Proof. unfold bind. destruct (f s) as [[a s1]| |]; [|done|done]. by exists a, s1. Qed.

Lemma begin_ok c0 c : begin_compile c0 = Ok (tt, c) ->
  exists c1, prologue c0 = Ok (tt, c1) /\ log_hook begin_block HBegin c1 = Ok (tt, c).
Proof.
  unfold begin_compile. generalize prologue. intros f E. destruct (bind_ok _ _ _ _ _ E) as ([] & c1 & E1 & E2).
  by exists c1.
Qed.

Lemma meas_fuel t : is_u16 t -> meas t < Z.of_nat block_fuel.
Proof.
  unfold is_u16, meas, block_fuel. intros Ht. rewrite Z2Nat.id by discriminate.
  destruct (Z.ltb_spec t 256); lia.
Qed.

Lemma begin_run s b id t c :
  jit_ok s -> is_u16 t -> begin_compile (initial_ctx s b id sljit_create_compiler t) = Ok (tt, c) ->
  Between (vm_memory s) block_fuel c /\ compiler_ptr c = Some id /\ pc c = t /\ Resumes c /\
  link_queue (jit c) = link_queue s /\ grows s (jit c) /\
  forall call B m l, l = head_label c \/ l = body_label c -> xexec call B (code (comp c)) (Skip l m) = Run m.
Proof.
  intros Hok Ht E. destruct (prologue_run s b id t) as (c1 & E1 & Hf & Hb & Hx).
  destruct (wp_elim _ _ _ (at_prologue _ _ _ (at_refl _ _ (good_initial s b id t Hok Ht)))) as ([] & c2 & E2 & Hat).
  assert (c2 = c1) as -> by congruence. destruct (log_hook_run begin_block HBegin c1) as [f E3].
  apply begin_ok in E as (c2 & E & E4). assert (c2 = c1) as -> by congruence.
  assert (c = set_jit (set_hook_log f) c1) as -> by congruence. clear E E1 E2 E3 E4.
  injection Hf as Ej Ep Ew Er Em. destruct Hat as ([[Hc HH] [Hv Hj]] & _ & Hpc & _). change (pc c1 = t) in Hpc.
  assert (Inv (set_jit (set_hook_log f) c1) []) as Hi by (split; [by apply (counted_same c1)|done]).
  split; [split|split; [exact Ep|split; [exact Hpc|split; [|split; [cbn; by rewrite Ej|split; [|exact Hx]]]]]].
  - exact Hb.
  - exists []. apply good_x. split; [done|]. split; [by destruct Hv|exact (jit_ok_hook_log _ f Hj)].
  - intros _. assert (pc (set_jit (set_hook_log f) c1) = t) as -> by exact Hpc. by apply meas_fuel.
  - cbn. by rewrite Ej.
  - split; [by exists []|]. split; [unfold uncached; cbn; by rewrite Ew, Er|done].
  - cbn. rewrite Ej. apply grows_hook_log.
Qed.

Lemma compiled_links prog t blk : compiled_at prog t blk -> links_once (cb_id blk) (jit (cb_end blk)).
Proof.
  intros [(s & b & Hok & _ & Hfr & Eb) Ht El].
  destruct (begin_run _ _ _ _ _ Hok Ht Eb) as (_ & Hid & _ & _ & Hq & _).
  apply (logs_grown _ _ _ _ (logs_compile_loop block_fuel)) in El as [_ _ _ _ (new & E & Hd & Hn) _].
  cbn in E, Hn. exists new, (link_queue (jit (cb_start blk))). split; [done|]. split; [done|]. by rewrite Hq.
Qed.
End Blocks.

(** ** Running *)

Section LinkedRun.
Context {Lay : VmLayout} {SL : Sljit} {SP : SljitSpec} {HO : Host} {vmb : Z} {LS : LayoutSpec vmb}.
Context {VM : BuxnVm}.
Context (cache : Z -> option cblock).

Definition entry_label (ty : buxn_jit_link_type_t) (c : buxn_jit_ctx_t) : nat :=
  match ty with BUXN_JIT_LINK_TO_HEAD => head_label c | BUXN_JIT_LINK_TO_BODY => body_label c end.

(** The code of the block of address [t], entered at its head or its body, as
    the link loop of [buxn_jit] patched it.  A call is the function itself: the
    depth of the native stack is not bounded. *)
Fixpoint enter (fuel : nat) (ty : buxn_jit_link_type_t) (t : Z) (m : mach) : option (Z * mach) :=
  match fuel with
  | O => None
  | S fuel =>
      match cache t with
      | None => None
      | Some blk =>
          let linked j := link_of (cb_id blk) (jit (cb_end blk)) j in
          let call j m :=
            match linked j with
            | Some (BUXN_JIT_LINK_TO_HEAD, t') => enter fuel BUXN_JIT_LINK_TO_HEAD t' m
            | _ => None
            end in
          let k := comp (cb_end blk) in
          match xexec call (binds k) (code k) (Skip (entry_label ty (cb_start blk)) m) with
          | Return v m' => Some (v, m')
          | Leave j m' =>
              match linked j with
              | Some (BUXN_JIT_LINK_TO_BODY, t') => enter fuel BUXN_JIT_LINK_TO_BODY t' m'
              | _ => None
              end
          | _ => None
          end
      end
  end.

(** The blocks are compiled from the program, each opcode of them is
    [poppable], and a link leads to one of them. *)
Record linked_cache (prog : Z -> Z) : Prop := {
  lc_compiled : forall t blk, cache t = Some blk -> compiled_at prog t blk;
  lc_plain : forall t blk, cache t = Some blk -> plain_block block_fuel (cb_start blk) = true;
  lc_closed : forall t blk j ty t', cache t = Some blk ->
    Linked (cb_id blk) j ty t' (jit (cb_end blk)) -> is_Some (cache t');
}.

Section Run.
Context {DM : DevModel} {HS : HostSpec vmb}.
Context (prog : Z -> Z) (send : uxn).
Hypothesis Hstops : stops prog (u_vm send).
Hypothesis Hcache : linked_cache prog.

#[local] Abbreviation Answer := (Answer (vmb := vmb) prog send).

Lemma enter_sim fuel : forall k ty m u,
  (k < fuel)%nat -> is_Some (cache (vm_pc (u_vm u))) -> ParkedAll (vmb := vmb) m u ->
  uxn_ticks prog k u = Some send ->
  exists v m', enter fuel ty (vm_pc (u_vm u)) m = Some (v, m') /\ Answer k v m'.
Proof.
  induction fuel as [|fuel IH]; intros k ty m u Hk [blk Hblk] [Hp Hwo] Ht; [lia|].
  cbn [enter]. rewrite Hblk. set (call := fun j m => _). pose proof (lc_compiled _ Hcache _ _ Hblk) as Hcomp.
  destruct Hcomp as [(s0 & b0 & Hok & Hprog & _ & Eb) Hu El]. pose proof (compiled_links _ _ _ (lc_compiled _ Hcache _ _ Hblk)) as Honce.
  destruct (begin_run _ _ _ _ _ Hok Hu Eb) as (Hbt & Hid & Hpc & Hres & _ & _ & Hx). rewrite Hprog in Hbt.
  assert (CallsOk (vmb := vmb) call prog send (cb_id blk) k (jit (cb_end blk))) as Hcalls.
  { intros j m1 u1 k1 Hk1 Hl Hp1 Ht1. unfold call. rewrite (link_of_linked _ _ _ _ _ Honce Hl).
    apply IH; [lia| |done|done]. by eapply (lc_closed _ Hcache). }
  destruct (loop_flow call prog send (cb_id blk) Hstops block_fuel (cb_start blk) (cb_end blk) m u k)
    as (_ & new & fl & En & Hrun & Hend);
    [done|split; [by apply resumes_shows|done]|done|by eapply (lc_plain _ Hcache)|done..|].
  clear El Eb. rewrite En, xexec_app, Hx by (destruct ty; [by left|by right]). rewrite Hrun by done.
  destruct Hend as [(v & m' & -> & Ha)|(j & m' & u' & k' & -> & Hl & Hp' & Hk' & Ht')].
  - by exists v, m'.
  - rewrite (link_of_linked _ _ _ _ _ Honce Hl).
    destruct (IH k' BUXN_JIT_LINK_TO_BODY m' u') as (v & m2 & E & Ha); [lia|by eapply (lc_closed _ Hcache)|done|done|].
    exists v, m2. split; [done|]. eapply answer_mono; [|done]. lia.
Qed.
End Run.
End LinkedRun.
