(* ===== verification/Trampoline.v ===== *)
(** * The function of a block

    What [buxn_jit_execute] calls: the stack pointers are loaded, the block is
    entered at its head, and the trampoline goes on from the address it
    returned until that is 0x10000 or in the zero page; then the stack pointers
    are stored back.  [piece load_code], [visit_block] and [trampoline] run the
    pieces of the prologue that do so; [visit_block_sim] shows that they take a
    machine from a state of the specification to the one in which it stops, or
    to a block that is not compiled yet. *)
From S2P Require Import Prelude Lir Hamt Jit Queues StackCache Uxn MicroOps Opcodes Compile Invariant CacheSafety OpcodeSafety BlockSafety JitSafety Machine StackSim PopSim OperandSim StepSim OpcodeSim MemSim DivSim FetchSim OpcodeCorrect ExitSim UxnControl UxnDevices Emission Flows HostSim JumpSim ControlSim ControlOps DeviceSim BlockFlow LinkedRun.
Local Open Scope jit_scope.

(** ** The pieces of the prologue *)

Section Code.
Context {Lay : VmLayout} {SL : Sljit} {HO : Host} {VM : BuxnVm}.

Definition load_code : list lir :=
  [LEnter false;
   LOp1 SLJIT_MOV_U8 (AReg BUXN_JIT_S_WSP) (AMem1 BUXN_JIT_S_VM off_wsp);
   LOp1 SLJIT_MOV_U8 (AReg BUXN_JIT_S_RSP) (AMem1 BUXN_JIT_S_VM off_rsp)].

Definition dispatch_code : list lir :=
  [LLabel 0;
   LCmp 1 SLJIT_GREATER false (AReg (SR 0)) (AImm 0xffff);
   LCmp 2 SLJIT_LESS false (AReg (SR 0)) (AImm BUXN_RESET_VECTOR);
   LOp1 SLJIT_MOV32 (AReg (SR 1)) (AReg (SR 0));
   LOp1 SLJIT_MOV_P (AReg (SR 0)) (AImm jit_ptr)].

Definition save_code : list lir :=
  [LLabel 1;
   LOp1 SLJIT_MOV_U8 (AMem1 BUXN_JIT_S_VM off_wsp) (AReg BUXN_JIT_S_WSP);
   LOp1 SLJIT_MOV_U8 (AMem1 BUXN_JIT_S_VM off_rsp) (AReg BUXN_JIT_S_RSP);
   LReturn SLJIT_MOV32 (AReg (SR 0))].

(** The fallback of unlinked calls, the head and the body. *)
Definition entry_code : list lir :=
  [LLabel 2; LEnter true; LReturn SLJIT_MOV32 (AImm 0x10000);
   LLabel 3; LEnter true; LLabel 4].

Definition trampoline_binds : gmap nat nat := {[0%nat := 3%nat; 1%nat := 1%nat; 2%nat := 1%nat; 3%nat := 0%nat]}.

(** The prologue is these pieces, the calls between them, and the entries that
    other blocks use. *)
Lemma prologue_pieces s b id t : exists c,
  prologue (initial_ctx s b id sljit_create_compiler t) = Ok (tt, c) /\
  code (comp c) = load_code ++ [LCall 0 false] ++ dispatch_code ++
    [LICall CTranslateJumpAddr; LICall (CIndirect (SR 0)); LJump 3 false None] ++ save_code ++ entry_code /\
  binds (comp c) = trampoline_binds /\ binds (comp c) !! 0%nat = Some (head_label c).
Proof. eexists. split; [vm_compute; reflexivity|]. split; [reflexivity|]. split; reflexivity. Qed.
End Code.

(** ** Running the function *)

(** It is over, or an address has to be compiled first. *)
Inductive visit :=
  | Done (v : Z) (m : mach)
  | Miss (t : Z) (m : mach)
  | Lost.

Section Trampoline.
Context {Lay : VmLayout} {SL : Sljit} {SP : SljitSpec} {HO : Host} {vmb : Z} {LS : LayoutSpec vmb}.
Context {VM : BuxnVm}.
#[local] Abbreviation Parked := (Parked (vmb := vmb)).
#[local] Abbreviation Image := (Image (vmb := vmb)).
#[local] Abbreviation loaded := (loaded (vmb := vmb)).
#[local] Abbreviation saved := (saved (vmb := vmb)).

Definition no_call (j : nat) (m : mach) : option (Z * mach) := None.
Definition piece (l : list lir) (f : flow) : flow := xexec no_call trampoline_binds l f.

(** ** Between the function and its caller *)

Lemma load_run m s : words m -> regs m BUXN_JIT_S_VM = vmb -> Image (mem m) s ->
  piece load_code (Run m) = Run (loaded m) /\ Parked (loaded m) s.
Proof.
  intros Hw Hvm Him. split; [|by apply loaded_parked].
  pose proof (sp_address m false Hw Hvm) as Ew. pose proof (sp_address m true Hw Hvm) as Er. cbn [off_sp] in *.
  unfold piece, xexec, load_code. cbn [fold_left xstep exec_step exec_one exec_op1 Lir.val ea].
  rewrite Ew. unfold HostSim.loaded. cbn [xstep exec_step exec_one exec_op1 Lir.val ea].
  rewrite regs_set_ne by done. rewrite Er. by rewrite mem_set_reg.
Qed.

Lemma save_run m s f : Parked m s -> f = Run m \/ f = Skip 1 m ->
  piece save_code f = Return (u32 (regs m (SR 0))) (saved m).
Proof.
  intros [Hw Hb Hvm Hst Hram] Hf. pose proof (sp_address m false Hw Hvm) as Ew.
  pose proof (sp_address m true Hw Hvm) as Er. cbn [off_sp] in *.
  assert (piece save_code f = piece save_code (Run m)) as ->
    by (destruct Hf as [-> | ->]; [done|]; unfold piece, xexec, save_code; cbn [fold_left xstep exec_step];
        by rewrite decide_True).
  unfold piece, xexec, save_code. cbn [fold_left xstep exec_step exec_one exec_op1 Lir.val ea].
  rewrite Ew. cbn [xstep exec_step exec_one exec_op1 Lir.val ea]. rewrite !regs_store, Er. done.
Qed.

(** ** The loop *)

Context (cache : Z -> option cblock).

(** A C call leaves anything in the scratch registers. *)
Definition after_callback (m : mach) : mach := returned (clobber (SR 0)) m.

(** From the label of the trampoline; [SR 0] holds what the block returned.
    The callback answers the head of the block of the 16-bit address in
    [SR 1]. *)
Fixpoint trampoline (fuel : nat) (m : mach) : visit :=
  match piece dispatch_code (Run m) with
  | Run m' =>
      let t := u16 (regs m' (SR 1)) in
      match cache t, fuel with
      | Some _, S fuel =>
          match enter cache fuel BUXN_JIT_LINK_TO_HEAD t (after_callback m') with
          | Some (v, m2) => trampoline fuel (returned v m2)
          | None => Lost
          end
      | None, _ => Miss t (after_callback m')
      | Some _, O => Lost
      end
  | f => match piece save_code f with Return v m' => Done v m' | _ => Lost end
  end.

(** From the head of the block of address [t]. *)
Definition visit_block (fuel : nat) (t : Z) (m : mach) : visit :=
  match enter cache fuel BUXN_JIT_LINK_TO_HEAD t m with
  | Some (v, m2) => trampoline fuel (returned v m2)
  | None => Lost
  end.

Context (Hreset : BUXN_RESET_VECTOR = 256).

Lemma parked_callback m m' s :
  Parked m s -> (forall i, regs m' (SS i) = regs m (SS i)) -> mem m' = mem m -> Parked (after_callback m') s.
Proof.
  intros [Hw Hb Hvm Hst Hram] Hr Hm. split.
  - intros [[|i]|i]; cbn; [apply word_wrap|apply word_wrap|rewrite Hr; apply Hw].
  - intros a. cbn. rewrite Hm. apply Hb.
  - cbn. rewrite <- Hvm. apply Hr.
  - intros r. assert (regs (after_callback m') (sp_reg r) = regs m (sp_reg r)) as -> by (destruct r; apply Hr).
    assert (mem (after_callback m') = mem m) as -> by exact Hm. apply Hst.
  - intros y Hy. unfold MemSim.ram. cbn. rewrite Hm. by apply Hram.
Qed.

Lemma dispatch_out m : words m -> 0xffff < regs m (SR 0) \/ regs m (SR 0) < 256 ->
  piece dispatch_code (Run m) = Skip 1 m.
Proof.
  intros Hw Hv. pose proof (Hw (SR 0)) as Hr. unfold piece, xexec, dispatch_code.
  cbn [fold_left xstep exec_step exec_one Lir.val]. rewrite (wrap_u16 0xffff) by mlia.
  rewrite sl_greater by (done || apply word_u16; mlia).
  destruct (Z.ltb_spec 0xffff (regs m (SR 0))) as [Hgt|Hle].
  - reflexivity.
  - cbn [xstep exec_step exec_one Lir.val]. rewrite Hreset, (wrap_u16 256) by mlia.
    rewrite sl_less by (done || apply word_u16; mlia). destruct (Z.ltb_spec (regs m (SR 0)) 256); [|lia].
    reflexivity.
Qed.

Lemma dispatch_on m : words m -> 256 <= regs m (SR 0) <= 0xffff -> exists m',
  piece dispatch_code (Run m) = Run m' /\ u16 (regs m' (SR 1)) = regs m (SR 0) /\
  (forall i, regs m' (SS i) = regs m (SS i)) /\ mem m' = mem m.
Proof.
  intros Hw Hv. pose proof (Hw (SR 0)) as Hr. unfold piece, xexec, dispatch_code.
  cbn [fold_left xstep exec_step exec_one Lir.val]. rewrite (wrap_u16 0xffff) by mlia.
  rewrite sl_greater by (done || apply word_u16; mlia).
  destruct (Z.ltb_spec 0xffff (regs m (SR 0))) as [Hgt|Hle]; [lia|].
  cbn [xstep exec_step exec_one Lir.val]. rewrite Hreset, (wrap_u16 256) by mlia.
  rewrite sl_less by (done || apply word_u16; mlia). destruct (Z.ltb_spec (regs m (SR 0)) 256); [lia|].
  eexists. split; [reflexivity|]. split; [|done].
  rewrite regs_set_ne, regs_set_eq by done. pose proof (sl_mov_32 (regs m (SR 0)) Hr) as E.
  unfold u16. change 65536 with (2 ^ 16). rewrite <- (Z.mod_mod_divide _ (2 ^ 32) (2 ^ 16)) by (by exists (2 ^ 16)).
  rewrite E, Z.mod_mod_divide by (by exists (2 ^ 16)). apply Z.mod_small. lia.
Qed.

Section Visit.
Context {DM : DevModel} {HS : HostSpec vmb}.
Context (prog : Z -> Z) (send : uxn).
Hypothesis Hstops : stops prog (u_vm send).
Hypothesis Hcache : linked_cache cache prog.

#[local] Abbreviation ParkedAll := (ParkedAll (vmb := vmb)).
#[local] Abbreviation Held := (Held (vmb := vmb)).
#[local] Abbreviation pc_of u := (vm_pc (u_vm u)).

(** The function returns what the specification says, with its last state in
    memory, or the callback is asked for a block that is not there, in a later
    one. *)
Definition Visited (k : nat) (o : visit) : Prop :=
  (exists m', o = Done (exit_value (u_vm send)) m' /\ 0 <= exit_value (u_vm send) /\ Held (mem m') send) \/
  (exists u' k' m', o = Miss (pc_of u') m' /\ cache (pc_of u') = None /\ (k' < k)%nat /\
     is_u16 (pc_of u') /\ uxn_ticks prog k' u' = Some send /\ ParkedAll m' u').

Lemma visited_mono k k' o : (k' <= k)%nat -> Visited k' o -> Visited k o.
Proof.
  intros Hk [(m2 & -> & Hh)|(u2 & k2 & m2 & -> & Hc & Hk2 & Hu & Ht & Hp)]; [left; by exists m2|right].
  exists u2, k2, m2. split_and!; try done. lia.
Qed.

(** The function ends when the machine has stopped. *)
Lemma trampoline_done fuel m :
  ParkedAll m send -> regs m (SR 0) = exit_value (u_vm send) ->
  0xffff < exit_value (u_vm send) \/ exit_value (u_vm send) < 256 ->
  trampoline fuel m = Done (exit_value (u_vm send)) (saved m) /\ 0 <= exit_value (u_vm send) /\
    Held (mem (saved m)) send.
Proof.
  intros [Hp Hwo] Hv Hex. pose proof (save_run m (u_vm send) (Skip 1 m) Hp (or_intror eq_refl)) as Es.
  pose proof (pk_words _ _ Hp (SR 0)) as [Hpos _]. rewrite Hv in Hpos.
  assert (u32 (exit_value (u_vm send)) = exit_value (u_vm send)) as Hu
    by (apply u32_id; unfold exit_value, is_u32 in *; case_match; lia).
  split; [|split; [done|]].
  - destruct fuel; cbn [trampoline]; (rewrite dispatch_out by (apply Hp || by rewrite Hv)); by rewrite Es, Hv, Hu.
  - split; [by apply saved_image|]. eapply world_frame; [apply saved_outside|done].
Qed.

Lemma exit_value_out : 0xffff < exit_value (u_vm send) \/ exit_value (u_vm send) < 256.
Proof. unfold exit_value. destruct (Z.ltb_spec (pc_of send) 256); [by right|by left]. Qed.

Lemma trampoline_sim fuel : forall k v m1,
  (k < fuel)%nat -> Answer (vmb := vmb) prog send k v m1 -> Visited k (trampoline fuel (returned v m1)).
Proof.
  induction fuel as [|fuel IH]; intros k v m1 Hk (Hw & Ha); [lia|].
  assert (regs (returned v m1) (SR 0) = v) as Ev by (cbn; by apply wrap_id, word_u32).
  assert (v = exit_value (u_vm send) -> ParkedAll m1 send -> Visited k (trampoline (S fuel) (returned v m1))) as Hend.
  { intros -> Hp1. destruct (trampoline_done (S fuel) (returned (exit_value (u_vm send)) m1)) as (-> & Hh);
      [by apply parked_all_returned|done|apply exit_value_out|]. left. by eexists. }
  destruct Ha as [(u' & k' & Hk' & Ht & Epc & Hu & Hp)|[Epc Hp]]; [|by apply Hend].
  pose proof (parked_all_returned v _ _ Hp) as [Hpr Hwo].
  destruct (decide (256 <= v <= 0xffff)) as [Hin|Hout].
  - destruct (dispatch_on (returned v m1)) as (m2 & E2 & Et & Hss & Hmem); [apply Hpr|by rewrite Ev|].
    cbn [trampoline]. rewrite E2, Et, Ev. pose proof (parked_callback _ m2 (u_vm u') Hpr Hss Hmem) as Hp2.
    assert (ParkedAll (after_callback m2) u') as Hpa.
    { split; [done|]. change (mem (after_callback m2)) with (mem m2). rewrite Hmem. exact Hwo. }
    rewrite Epc. destruct (cache (pc_of u')) as [blk|] eqn:Ec.
    + destruct (enter_sim cache prog send Hstops Hcache fuel k' BUXN_JIT_LINK_TO_HEAD (after_callback m2) u')
        as (v' & m3 & Een & Ha'); [lia|by rewrite Ec|done|done|]. rewrite Een.
      eapply visited_mono; [|apply (IH k'); [lia|exact Ha']]. lia.
    + right. exists u', k', (after_callback m2). split_and!; try done. by rewrite <- Epc.
  - assert (pc_of u' < 256) as Hz by (unfold is_u16 in Hu; lia).
    assert (u' = send) as ->.
    { destruct k' as [|k']; [by injection Ht|]. cbn [uxn_ticks] in Ht.
      by rewrite (stops_no_tick prog u' (or_introl Hz)) in Ht. }
    apply Hend; [|done]. rewrite Epc. unfold exit_value. by rewrite (proj2 (Z.ltb_lt _ _) Hz).
Qed.

Lemma visit_block_sim fuel k m u :
  (k < fuel)%nat -> is_Some (cache (pc_of u)) -> ParkedAll m u -> uxn_ticks prog k u = Some send ->
  Visited k (visit_block fuel (pc_of u) m).
Proof.
  intros Hk Hc Hp Ht. unfold visit_block.
  destruct (enter_sim cache prog send Hstops Hcache fuel k BUXN_JIT_LINK_TO_HEAD m u) as (v & m1 & E & Ha);
    [done..|]. rewrite E. by apply trampoline_sim.
Qed.
End Visit.
End Trampoline.
