(* ===== verification/Session.v ===== *)
(** * The blocks a run of the JIT compiles

    [session]: the blocks that successive calls of [buxn_jit] compile, in
    order; [cache_of] looks a block up by its address.  [link_patch]: the
    patch that takes a jump to an entry of a block. *)
From S2P Require Import Prelude Lir Hamt Jit Queues StackCache Uxn MicroOps Opcodes Compile Invariant CacheSafety OpcodeSafety BlockSafety JitSafety Machine StackSim UxnControl Emission Flows JumpSim BlockFlow LinkedRun.
Local Open Scope jit_scope.

Section Session.
Context {Lay : VmLayout} {SL : Sljit} {SP : SljitSpec} {HO : Host} {VM : BuxnVm} {CG : CodeGen}.

(** ** The blocks *)

(** The block [buxn_jit_compile] makes of an entry. *)
Definition cblock_of (e : buxn_jit_entry_t) (s : buxn_jit_t) : option (Z * cblock) :=
  match e_union e, compilers s !! e_compiler e with
  | UPc pc, Some (Some k) =>
      match begin_compile (initial_ctx s (e_block e) (e_compiler e) k pc) with
      | Ok (_, c) =>
          match compile_loop block_fuel c with
          | Ok (_, c') => Some (pc, mkCblock (e_compiler e) c c')
          | _ => None
          end
      | _ => None
      end
  | _, _ => None
  end.

(** Those of [compile_all]. *)
Fixpoint queue_blocks (fuel : nat) (s : buxn_jit_t) : list (Z * cblock) :=
  match buxn_jit_dequeue (compile_queue s) with
  | (None, _) => []
  | (Some e, queue) =>
      match fuel with
      | O => []
      | S fuel =>
          let s := set_compile_queue (fun _ => queue) s in
          option_list (cblock_of e s) ++
          match buxn_jit_compile e s with
          | Ok s => queue_blocks fuel (recycle e s)
          | _ => []
          end
      end
  end.

(** Those of one call of [buxn_jit], and of several. *)
Definition call_blocks (s : buxn_jit_t) (pc : Z) : list (Z * cblock) :=
  let '(block, s) := buxn_jit_queue_block s pc in
  if negb (fn (block_at s block) =? 0) then [] else queue_blocks queue_fuel s.

Fixpoint session (pcs : list Z) (s : buxn_jit_t) : list (Z * cblock) :=
  match pcs with
  | [] => []
  | pc :: pcs =>
      call_blocks s pc ++ match buxn_jit s pc with Ok (_, s) => session pcs s | _ => [] end
  end.

(** The calls. *)
Fixpoint buxn_jit_calls (pcs : list Z) (s : buxn_jit_t) : res buxn_jit_t :=
  match pcs with
  | [] => Ok s
  | pc :: pcs =>
      match buxn_jit s pc with
      | Ok (_, s) => buxn_jit_calls pcs s
      | AssertFailed msg => AssertFailed msg
      | OutOfFuel => OutOfFuel
      end
  end.

Definition cache_of (l : list (Z * cblock)) (t : Z) : option cblock :=
  snd <$> (snd <$> list_find (fun x => fst x =? t) l).

Definition plain_session (l : list (Z * cblock)) : bool :=
  forallb (fun x => plain_block block_fuel (cb_start (snd x))) l.

Lemma cache_of_in l t blk : cache_of l t = Some blk -> (t, blk) ∈ l.
Proof.
  unfold cache_of. destruct (list_find _ l) as [[i [t' b']]|] eqn:E; cbn; [|done].
  apply list_find_Some in E as (Hi & Ht & _). apply Is_true_true, Z.eqb_eq in Ht. cbn in Ht. subst t'.
  intros [= ->]. by eapply list_elem_of_lookup_2.
Qed.

Lemma cache_of_some l t : t ∈ fst <$> l -> is_Some (cache_of l t).
Proof.
  intros ([t' blk] & -> & Hin)%list_elem_of_fmap. unfold cache_of. cbn [fst].
  destruct (list_find _ l) as [[i x]|] eqn:E; [by eexists|]. apply list_find_None in E.
  rewrite Forall_forall in E. destruct (E _ Hin). apply Is_true_true. cbn. apply Z.eqb_refl.
Qed.

(** ** Links and patches *)

(** What is recorded about a block once it has code. *)
Definition block_of (t : Z) (blk : cblock) : buxn_jit_block_t :=
  let g := sljit_generate_code (comp (cb_end blk)) in
  mkBlock t (gen_fn g) (gen_label_addr g (head_label (cb_start blk)))
    (gen_label_addr g (body_label (cb_start blk))) (gen_executable_offset g).

(** The patch that links jump [j] of the compiler [id] to an entry of [blk]:
    the address its code generator gave to the entry's label. *)
Definition link_patch (id j : nat) (ty : buxn_jit_link_type_t) (blk : cblock) : list patch :=
  let g := sljit_generate_code (comp (cb_end blk)) in
  let a := gen_label_addr g (entry_label ty (cb_start blk)) in
  if a =? 0 then [] else [mkPatch id j a (gen_executable_offset g)].

Definition links_of (id j : nat) (s : buxn_jit_t) : list buxn_jit_entry_t :=
  base.filter (fun e => is_site id j e = true) (link_queue s).

Definition patches_of (id j : nat) (s : buxn_jit_t) : list patch :=
  base.filter (fun p => p_compiler p = id /\ p_jump p = j) (patches s).

Lemma block_of_key s b t blk : block_store s !! b = Some (block_of t blk) -> key_at s b = Some t.
Proof. unfold key_at. by intros ->. Qed.

Lemma entry_patch_of s ty b id j t blk :
  block_store s !! b = Some (block_of t blk) ->
  entry_patch s (mkEntry ty b id (UJump j)) = link_patch id j ty blk.
Proof.
  intros Hb. unfold entry_patch, block_at, link_patch. cbn [e_union link_type e_block e_compiler].
  rewrite nth_lookup, Hb. by destruct ty.
Qed.

(** The patches of one jump come from the entries of that jump. *)
Lemma patches_of_entries id j s l :
  Forall (fun e => exists j', e_union e = UJump j') l ->
  base.filter (fun p => p_compiler p = id /\ p_jump p = j) (concat (entry_patch s <$> l)) =
  concat (entry_patch s <$> base.filter (fun e => is_site id j e = true) l).
Proof.
  induction l as [|e l IH]; intros Hl; [done|]. apply Forall_cons in Hl as [[j' Hj] Hl].
  cbn [fmap list_fmap concat]. rewrite filter_app, IH, filter_cons by done.
  assert (forall p, p ∈ entry_patch s e -> p_compiler p = e_compiler e /\ p_jump p = j') as Hp.
  { intros p. unfold entry_patch. rewrite Hj. case_match; [by intros ?%elem_of_nil|].
    by intros ->%list_elem_of_singleton. }
  case_decide as Hs.
  - cbn [fmap list_fmap concat]. f_equal. apply is_site_spec in Hs as [Hc Hu].
    apply filter_all. intros p [-> ->]%Hp. split; [done|congruence].
  - rewrite (filter_none _ (entry_patch s e)); [done|]. intros p Hin%Hp [Hc Hu].
    apply Hs, is_site_spec. split; [|rewrite Hj; f_equal]; intuition congruence.
Qed.
End Session.
