(* ===== verification/SessionInv.v ===== *)
(** * What a run of the JIT keeps

    [queue_inv]: between two entries of the compile queue, each block known is
    recorded with the addresses of its code, and each link it asked for waits
    in the link queue or has been patched.  After the calls of a session the
    blocks form a [linked_cache] ([session_cache]) and every link has been
    patched with the address of the entry it leads to ([session_patches]). *)
From S2P Require Import Prelude Lir Hamt Jit Queues StackCache Uxn MicroOps Opcodes Compile Invariant CacheSafety OpcodeSafety BlockSafety JitSafety Machine StackSim UxnControl Emission Flows JumpSim BlockFlow LinkedRun Session.
Local Open Scope jit_scope.

Section Session.
Context {Lay : VmLayout} {SL : Sljit} {SP : SljitSpec} {HO : Host} {VM : BuxnVm} {CG : CodeGen}.

(** ** The state between two entries *)

Section Blocks.
Context (prog : Z -> Z).

(** A compiler that is at work no more. *)
Definition retired (s : buxn_jit_t) (i : nat) : Prop :=
  ~ (i ∈ e_compiler <$> compile_queue s) /\ (i < length (compilers s))%nat.

(** A link of the block [blk] waits in the link queue, or has been patched. *)
Definition pending (s : buxn_jit_t) (id j : nat) (ty : buxn_jit_link_type_t) (t : Z) : Prop :=
  patches_of id j s = [] /\
  exists b, key_at s b = Some t /\ links_of id j s = [mkEntry ty b id (UJump j)].

Definition patched (s : buxn_jit_t) (known : list (Z * cblock)) (id j : nat)
    (ty : buxn_jit_link_type_t) (t : Z) : Prop :=
  links_of id j s = [] /\ exists blk, (t, blk) ∈ known /\ patches_of id j s = link_patch id j ty blk.

(** What holds of a block once it is compiled. *)
Record block_done (s : buxn_jit_t) (known : list (Z * cblock)) (x : Z * cblock) : Prop := {
  bd_compiled : compiled_at prog (fst x) (snd x);
  bd_keys : forall b t, key_at (jit (cb_end (snd x))) b = Some t -> key_at s b = Some t;
  bd_store : exists b, block_store s !! b = Some (block_of (fst x) (snd x));
  bd_retired : retired s (cb_id (snd x));
  bd_links : forall j ty t, Linked (cb_id (snd x)) j ty t (jit (cb_end (snd x))) ->
    pending s (cb_id (snd x)) j ty t \/ patched s known (cb_id (snd x)) j ty t;
}.

(** [known]: the blocks compiled so far. *)
Record queue_inv (s : buxn_jit_t) (known : list (Z * cblock)) : Prop := {
  qi_ok : jit_ok s;
  qi_prog : vm_memory s = prog;
  qi_once : queued_once s;
  qi_keys : forall b t, key_at s b = Some t -> b ∈ e_block <$> compile_queue s \/ t ∈ fst <$> known;
  qi_new : forall b t, b ∈ e_block <$> compile_queue s -> key_at s b = Some t -> t ∉ fst <$> known;
  qi_nodup : NoDup (fst <$> known);
  qi_links : Forall (fun e => retired s (e_compiler e)) (link_queue s);
  qi_patches : Forall (fun p => retired s (p_compiler p)) (patches s);
  qi_done : Forall (block_done s known) known;
}.

Lemma retired_grows s s' i : grows s s' -> retired s i -> retired s' i.
Proof.
  intros Hg [Hi Hl]. split; [intros [|]%(gr_own _ _ Hg); [done|lia]|].
  pose proof (prefix_length _ _ (gr_compilers _ _ Hg)). lia.
Qed.

Lemma patched_app s known l id j ty t : patched s known id j ty t -> patched s (known ++ l) id j ty t.
Proof.
  intros (Hl & blk & Hin & Hp). split; [done|]. exists blk. split; [|done]. apply elem_of_app. by left.
Qed.

Lemma block_done_app s known l x : block_done s known x -> block_done s (known ++ l) x.
Proof.
  intros []. split; try done. intros j ty t Hl. destruct (bd_links0 j ty t Hl); [by left|right].
  by apply patched_app.
Qed.

(** *** Steps that keep what is known *)

(** The records, the links and the patches of the known blocks stay. *)
Record stays (s s' : buxn_jit_t) (known : list (Z * cblock)) : Prop := {
  qt_keys : forall b t, key_at s b = Some t -> key_at s' b = Some t;
  qt_store : forall b t blk, (t, blk) ∈ known -> block_store s !! b = Some (block_of t blk) ->
    block_store s' !! b = Some (block_of t blk);
  qt_retired : forall i, retired s i -> retired s' i;
  qt_links : forall id j, retired s id -> links_of id j s' = links_of id j s;
  qt_patches : patches s' = patches s;
}.

Lemma stays_trans s1 s2 s3 known : stays s1 s2 known -> stays s2 s3 known -> stays s1 s3 known.
Proof.
  intros [] []. split; auto; try congruence. intros id j Hr. rewrite qt_links1, qt_links0; auto.
Qed.

Lemma block_done_stays s s' known x : x ∈ known -> stays s s' known -> block_done s known x -> block_done s' known x.
Proof.
  intros Hin Hq [Hc Hk [b Hb] Hr Hl]. destruct x as [t0 blk0]. cbn [fst snd] in *. split; cbn [fst snd].
  - done.
  - intros b1 t Hb1. by apply (qt_keys _ _ _ Hq), Hk.
  - exists b. by apply (qt_store _ _ _ Hq).
  - by apply (qt_retired _ _ _ Hq).
  - assert (forall j, patches_of (cb_id blk0) j s' = patches_of (cb_id blk0) j s) as Ep
      by (intros j; unfold patches_of; by rewrite (qt_patches _ _ _ Hq)).
    intros j ty t Hlk. unfold pending, patched. rewrite Ep, (qt_links _ _ _ Hq _ j Hr).
    destruct (Hl j ty t Hlk) as [(Hp & b1 & Hk1 & El)|Hp]; [left|by right].
    split; [done|]. exists b1. split; [by apply (qt_keys _ _ _ Hq)|done].
Qed.

Lemma stays_grows s0 s s' known new :
  stays s0 s known -> grows s s' -> link_queue s' = new ++ link_queue s ->
  Forall (fun e => ~ retired s0 (e_compiler e)) new -> stays s0 s' known.
Proof.
  intros Hq Hg El Hn. split.
  - intros b t Hb. by apply (grows_key s), (qt_keys _ _ _ Hq).
  - intros b t blk Hin Hb. apply (qt_store _ _ _ Hq b t blk Hin) in Hb.
    destruct (gr_blocks _ _ Hg) as [l ->]. by apply lookup_app_l_Some.
  - intros i Hi. by apply (retired_grows s), (qt_retired _ _ _ Hq).
  - intros id' j Hr. rewrite <- (qt_links _ _ _ Hq _ j Hr). unfold links_of.
    rewrite El, filter_app, (filter_none _ new); [done|].
    rewrite Forall_forall in Hn. intros e He [Hc _]%is_site_spec. apply (Hn e He). by rewrite Hc.
  - rewrite (gr_patches _ _ Hg). apply Hq.
Qed.

(** Nothing changes but the queue of blocks to compile and the pool. *)
Lemma stays_same s s' known :
  block_store s' = block_store s -> compilers s' = compilers s -> link_queue s' = link_queue s ->
  patches s' = patches s -> (forall i, i ∈ e_compiler <$> compile_queue s' -> i ∈ e_compiler <$> compile_queue s) ->
  stays s s' known.
Proof.
  intros Hb Hc Hl Hp Hq. split; unfold key_at, links_of, retired; rewrite ?Hb, ?Hc, ?Hl; auto.
  intros i [Hi Hn]. auto.
Qed.

(** The code of a block that is not known is recorded. *)
Lemma stays_record f b id k h bo s known pc :
  key_at s b = Some pc -> pc ∉ fst <$> known -> stays s (set_hook_log f (record_block b id k h bo s)) known.
Proof.
  intros Hpc Hn. split; cbn; try done.
  - intros b' t Hb'. unfold key_at in *. cbn. by rewrite key_at_alter.
  - intros b' t blk Hin Hb'. rewrite list_lookup_alter_ne; [done|]. intros ->.
    apply Hn. apply block_of_key in Hb'. assert (t = pc) as -> by congruence.
    apply list_elem_of_fmap. by exists (pc, blk).
  - intros i [Hi Hlen]. split; [done|]. cbn. by rewrite length_insert.
Qed.

(** *** One entry of the queue *)

Lemma bind4_ok {S A} (f g h : M S unit) (k : M S A) s a s4 :
  bind f (fun _ => bind g (fun _ => bind h (fun _ => k))) s = Ok (a, s4) ->
  exists s2 s3, bind f (fun _ => g) s = Ok (tt, s2) /\ h s2 = Ok (tt, s3) /\ k s3 = Ok (a, s4).
Proof.
  unfold bind. destruct (f s) as [[[] s1]| |]; [|done|done]. destruct (g s1) as [[[] s2]| |]; [|done|done].
  destruct (h s2) as [[[] s3]| |] eqn:E; [|done|done]. intros Ek. by exists s2, s3.
Qed.
(** The run of [buxn_jit_compile] taken apart. *)
Lemma compile_parts e pc k s s2 :
  e_union e = UPc pc -> compilers s !! e_compiler e = Some (Some k) -> buxn_jit_compile e s = Ok s2 ->
  exists c1 c2 f, begin_compile (initial_ctx s (e_block e) (e_compiler e) k pc) = Ok (tt, c1) /\
    compile_loop block_fuel c1 = Ok (tt, c2) /\
    s2 = set_hook_log f
      (record_block (e_block e) (e_compiler e) (comp c2) (head_label c2) (body_label c2) (jit c2)).
Proof.
  intros Hu Hc. unfold buxn_jit_compile. rewrite Hu, Hc. cbv zeta. unfold begin_compile.
  generalize prologue, (compile_loop block_fuel). intros f h.
  destruct (bind f _ _) as [[[] c4]| |] eqn:E; [|done|done]. intros [= <-].
  apply bind4_ok in E as (c2 & c3 & E1 & E2 & E3).
  pose proof (wp_finish_block (e_block e) (e_compiler e) c3) as Hw. unfold wp in Hw. rewrite E3 in Hw.
  destruct Hw as [g Hw]. by exists c2, c3, g.
Qed.

Lemma record_key f b id k h bo s i :
  key_at (set_hook_log f (record_block b id k h bo s)) i = key_at s i.
Proof. unfold key_at. cbn. by apply key_at_alter. Qed.

(** The links of a block that has just been compiled. *)
Lemma links_of_linked id s ty b j :
  links_once id s -> mkEntry ty b id (UJump j) ∈ link_queue s ->
  links_of id j s = [mkEntry ty b id (UJump j)].
Proof.
  intros (new & old & E & Hd & Hold) Hin. unfold links_of. rewrite E, filter_app in *.
  rewrite (filter_none _ old), app_nil_r.
  2:{ rewrite Forall_forall in Hold. intros e He [Hc _]%is_site_spec. by apply (Hold e). }
  assert (mkEntry ty b id (UJump j) ∈ new) as Hn.
  { apply elem_of_app in Hin as [|Hin]; [done|]. rewrite Forall_forall in Hold. by apply Hold in Hin. }
  clear Hin E Hold. revert Hn. induction new as [|e new IH]; intros Hn; [by apply elem_of_nil in Hn|].
  cbn [fmap list_fmap] in Hd. apply NoDup_cons in Hd as [He Hd]. apply elem_of_cons in Hn as [<-|Hn].
  - rewrite filter_cons_True by (by apply is_site_spec). f_equal. apply filter_none.
    intros e' He' [_ Hu]%is_site_spec. apply He. cbn [e_union]. rewrite <- Hu. apply list_elem_of_fmap. by exists e'.
  - rewrite filter_cons_False; [by apply IH|]. intros [_ Hu]%is_site_spec. apply He. rewrite Hu.
    apply list_elem_of_fmap. by exists (mkEntry ty b id (UJump j)).
Qed.

Lemma dequeue_inv s known e q :
  queue_inv s known -> compile_queue s = e :: q ->
  exists pc, key_at s (e_block e) = Some pc /\ (pc ∉ (fst <$> known)) /\ ~ retired s (e_compiler e) /\
    (e_block e < length (block_store s))%nat /\ (e_block e ∉ (e_block <$> q)) /\
    queued_once (set_compile_queue (fun _ => q) s).
Proof.
  intros Hinv Eq. pose proof (ok_compile _ (qi_ok _ _ Hinv)) as Hc. rewrite Eq in Hc.
  apply Forall_cons in Hc as [(pc & _ & Hk & _) _]. exists pc. split; [done|].
  destruct (qi_once _ _ Hinv) as [Hnd Hlt]. rewrite Eq in Hnd, Hlt. cbn in Hnd. apply NoDup_cons in Hnd as [Hni Hnd].
  split; [eapply (qi_new _ _ Hinv); [|exact Hk]; rewrite Eq; by left|].
  split; [intros [Hi _]; apply Hi; rewrite Eq; by left|]. split; [apply Hlt; by left|]. split; [done|].
  split; [exact Hnd|]. intros b Hb. apply Hlt. by right.
Qed.

(** A block is compiled: the entry [e] of [s], the code [s'] was left with,
    the state [s2] with the code recorded. *)
Record compiles (s : buxn_jit_t) (e : buxn_jit_entry_t) (q : list buxn_jit_entry_t) (pc : Z)
    (blk : cblock) (s2 : buxn_jit_t) : Prop := {
  cp_grows : grows (set_compile_queue (fun _ => q) s) (jit (cb_end blk));
  cp_links : exists new, link_queue (jit (cb_end blk)) = new ++ link_queue s /\
    Forall (fun e' => e_compiler e' = e_compiler e) new;
  cp_id : cb_id blk = e_compiler e;
  cp_entries : entries (cb_end blk) = entries (cb_start blk);
  cp_record : exists f, s2 = set_hook_log f (record_block (e_block e) (e_compiler e) (comp (cb_end blk))
    (head_label (cb_end blk)) (body_label (cb_end blk)) (jit (cb_end blk)));
  cp_compiled : compiled_at prog pc blk;
  cp_ok : jit_ok s2;
}.

Section Entry.
Context (s : buxn_jit_t) (known : list (Z * cblock)) (e : buxn_jit_entry_t) (q : list buxn_jit_entry_t).
Context (pc : Z) (blk : cblock) (s2 : buxn_jit_t).
Hypothesis Hinv : queue_inv s known.
Hypothesis Hq : compile_queue s = e :: q.
Hypothesis Hcp : compiles s e q pc blk s2.
Hypothesis Hkey : key_at s (e_block e) = Some pc.

#[local] Abbreviation s' := (jit (cb_end blk)).

Lemma entry_key : key_at s' (e_block e) = Some pc.
Proof. by apply (grows_key _ _ _ _ (cp_grows _ _ _ _ _ _ Hcp)). Qed.

Lemma entry_stays : stays s s2 known.
Proof.
  destruct (dequeue_inv _ _ _ _ Hinv Hq) as (pc' & Hk & Hn & Hr & _). assert (pc' = pc) as -> by congruence.
  pose proof entry_key as Hk'. destruct Hcp as [Hg (new & El & Hnew) _ _ (f & ->) _ _]. apply (stays_trans s s').
  - eapply (stays_grows s _ _ _ new); [|exact Hg|exact El|].
    + apply stays_same; try done. intros i Hi. rewrite Hq. by right.
    + eapply Forall_impl; [exact Hnew|]. by intros e' ->.
  - apply (stays_record _ _ _ _ _ _ _ _ pc); [exact Hk'|done].
Qed.

Lemma entry_keys b t : key_at s2 b = Some t ->
  b ∈ e_block <$> compile_queue s2 \/ t ∈ fst <$> (known ++ [(pc, blk)]).
Proof.
  destruct Hcp as [Hg _ _ _ (f & ->) _ _]. rewrite record_key. cbn [compile_queue set_hook_log]. intros Hb.
  rewrite fmap_app, elem_of_app. cbn [fmap list_fmap fst]. rewrite list_elem_of_singleton.
  destruct (decide (b < length (block_store s))%nat) as [Hlt|Hge].
  - assert (key_at s b = Some t) as Hb1.
    { unfold key_at in *. destruct (gr_blocks _ _ Hg) as [l El]. by rewrite El, lookup_app_l in Hb. }
    destruct (qi_keys _ _ Hinv b t Hb1) as [Hin|]; [|right; by left].
    rewrite Hq in Hin. cbn in Hin. apply elem_of_cons in Hin as [->|Hin]; [right; right; congruence|].
    left. destruct (gr_queue _ _ Hg) as [l E]. cbn. rewrite E, fmap_app, elem_of_app. by right.
  - left. apply (gr_queued _ _ Hg). split; [cbn; lia|]. unfold key_at in Hb.
    destruct (block_store s' !! b) eqn:Eb; [|done]. by eapply lookup_lt_Some.
Qed.

Lemma entry_new b t : b ∈ e_block <$> compile_queue s2 -> key_at s2 b = Some t ->
  t ∉ fst <$> (known ++ [(pc, blk)]).
Proof.
  intros Hb Ht. destruct (dequeue_inv _ _ _ _ Hinv Hq) as (_ & _ & _ & _ & Hlt & Hni & _).
  assert (b ∈ e_block <$> q \/ (length (block_store s) <= b)%nat) as Hcase.
  { destruct Hcp as [Hg _ _ _ (f & ->) _ _]. by apply (gr_new _ _ Hg). }
  pose proof (cp_ok _ _ _ _ _ _ Hcp) as Hok.
  assert (forall b', (b' < length (block_store s))%nat -> b' <> b -> key_at s2 b' <> Some t) as Hother.
  { intros b' _ Hne Hb'. apply Hne. by eapply key_at_inj. }
  rewrite fmap_app, elem_of_app. cbn [fmap list_fmap fst]. rewrite list_elem_of_singleton. intros [Hin|Hpc].
  - destruct Hcase as [Hbq|Hge].
    + assert (b ∈ e_block <$> compile_queue s) as Hbs by (rewrite Hq; by right).
      assert (is_Some (key_at s b)) as [t' Ht'].
      { unfold key_at. destruct (lookup_lt_is_Some_2 (block_store s) b) as [B ->]; [|done].
        by apply (qi_once _ _ Hinv). }
      apply (qi_new _ _ Hinv b t' Hbs Ht'). pose proof (qt_keys _ _ _ entry_stays _ _ Ht') as E.
      by assert (t' = t) as -> by congruence.
    + apply list_elem_of_fmap in Hin as ([t0 blk0] & -> & Hin). cbn [fst] in *.
      pose proof (qi_done _ _ Hinv) as Hd. rewrite Forall_forall in Hd. destruct (bd_store _ _ _ (Hd _ Hin)) as [b' Hb'].
      cbn [fst snd] in Hb'. apply (Hother b'); [by eapply lookup_lt_Some| |].
      * intros ->. apply lookup_lt_Some in Hb'. lia.
      * by apply (qt_keys _ _ _ entry_stays), (block_of_key _ _ _ blk0).
  - subst t. apply (Hother (e_block e)); [done| |].
    + intros <-. destruct Hcase as [|Hge]; [done|lia].
    + by apply (qt_keys _ _ _ entry_stays).
Qed.

Lemma entry_retired : retired s2 (e_compiler e).
Proof.
  pose proof (qi_ok _ _ Hinv) as Hok. destruct (jit_ok_dequeue s e q Hok Hq) as (_ & He & Hfresh).
  destruct He as (_ & _ & _ & Hc). apply lookup_lt_Some in Hc. cbn in Hc.
  destruct Hcp as [Hg _ _ _ (f & ->) _ _]. split; cbn.
  - intros [Hin|Hlen]%(gr_own _ _ Hg); [done|]. cbn in Hlen. lia.
  - rewrite length_insert. pose proof (prefix_length _ _ (gr_compilers _ _ Hg)) as Hp. cbn in Hp. lia.
Qed.

Lemma entry_done : block_done s2 (known ++ [(pc, blk)]) (pc, blk).
Proof.
  destruct (dequeue_inv _ _ _ _ Hinv Hq) as (_ & _ & _ & Hr & _).
  pose proof entry_retired as Hret. pose proof entry_key as Hk'. pose proof (qt_patches _ _ _ entry_stays) as Hpa.
  destruct Hcp as [Hg _ Hid Hent (f & E2) Hca _]. split; cbn [fst snd]; rewrite ?Hid; [done| | |done|].
  - intros b t Hb. by rewrite E2, record_key.
  - exists (e_block e). unfold key_at in Hk'. destruct (block_store s' !! e_block e) as [B|] eqn:EB; [|done].
    injection Hk' as Hk'. rewrite E2. cbn. rewrite list_lookup_alter_eq, EB. cbn. unfold block_of.
    injection Hent as -> ->. by rewrite Hk'.
  - intros j ty t (b & Hin & Hb). left. split.
    + unfold patches_of. rewrite Hpa. apply filter_none. intros p Hp [Hc _].
      pose proof (qi_patches _ _ Hinv) as Hf. rewrite Forall_forall in Hf. apply Hr. rewrite <- Hc. by apply Hf.
    + exists b. split; [by rewrite E2, record_key|]. rewrite <- Hid in *.
      transitivity (links_of (cb_id blk) j s'); [by rewrite E2|].
      apply links_of_linked; [|done]. by eapply compiled_links.
Qed.

Lemma entry_inv : queue_inv s2 (known ++ [(pc, blk)]).
Proof.
  destruct (dequeue_inv _ _ _ _ Hinv Hq) as (pc' & Hk & Hn & _ & _ & _ & Honce).
  assert (pc' = pc) as -> by congruence. pose proof entry_stays as Hqt. pose proof entry_retired as Hret.
  split.
  - apply (cp_ok _ _ _ _ _ _ Hcp).
  - rewrite <- (qi_prog _ _ Hinv). destruct Hcp as [Hg _ _ _ (f & ->) _ _]. apply (gr_rom _ _ Hg).
  - destruct Hcp as [Hg _ _ _ (f & ->) _ _]. destruct (gr_once _ _ Hg Honce) as [H1 H2]. split; [done|].
    cbn. rewrite length_alter. exact H2.
  - apply entry_keys.
  - apply entry_new.
  - rewrite fmap_app. apply NoDup_app. split; [apply Hinv|]. split; [|apply NoDup_singleton].
    intros t Ht Hs%list_elem_of_singleton. cbn in Hs. by subst t.
  - assert (exists new, link_queue s2 = new ++ link_queue s /\ Forall (fun e' => e_compiler e' = e_compiler e) new)
      as (new & -> & Hnew) by (destruct Hcp as [_ Hl _ _ (f & ->) _ _]; exact Hl).
    apply Forall_app. split; [eapply Forall_impl; [exact Hnew|]; by intros e' ->|].
    eapply Forall_impl; [apply (qi_links _ _ Hinv)|]. intros e'. apply (qt_retired _ _ _ Hqt).
  - rewrite (qt_patches _ _ _ Hqt). eapply Forall_impl; [apply (qi_patches _ _ Hinv)|]. intros p. apply (qt_retired _ _ _ Hqt).
  - apply Forall_app. split; [|apply Forall_singleton, entry_done].
    pose proof (qi_done _ _ Hinv) as Hd. rewrite Forall_forall in *. intros x Hx.
    apply block_done_app, (block_done_stays s); auto.
Qed.
End Entry.
Lemma compile_entry s known e q s2 :
  queue_inv s known -> compile_queue s = e :: q ->
  buxn_jit_compile e (set_compile_queue (fun _ => q) s) = Ok s2 ->
  exists pc blk, cblock_of e (set_compile_queue (fun _ => q) s) = Some (pc, blk) /\
    key_at s (e_block e) = Some pc /\ compiles s e q pc blk s2.
Proof.
  intros Hinv Eq E. destruct (jit_ok_dequeue s e q (qi_ok _ _ Hinv) Eq) as (Hok1 & He & Hfresh).
  destruct (compile_spec e _ Hok1 He Hfresh) as (s2' & E' & Hcm). assert (s2' = s2) as -> by congruence. clear E'.
  destruct He as (pc & Hu & Hkey & Hc). set (s1 := set_compile_queue (fun _ => q) s) in *.
  destruct (compile_parts e pc _ _ _ Hu Hc E) as (c1 & c2 & f & E1 & E2 & Es2). clear E.
  exists pc, (mkCblock (e_compiler e) c1 c2).
  assert (is_u16 pc) as Hpc by (by eapply (ok_keys _ Hok1)).
  destruct (begin_run _ _ _ _ _ Hok1 Hpc E1) as (Hbt & Hid & _ & _ & Hq1 & Hg1 & _).
  pose proof (grows_trans _ _ _ Hg1 (between_grows _ _ _ _ Hbt E2)) as Hg.
  pose proof (logs_entries _ _ _ _ (logs_compile_loop block_fuel) E2) as Hent.
  pose proof (logs_grown _ _ _ _ (logs_compile_loop block_fuel) E2) as [_ _ _ _ (new & Elq & _ & Hnew) _].
  cbn in Elq, Hnew. rewrite Hid in Hnew. clear Hbt Hid Hg1.
  split; [unfold cblock_of; rewrite Hu, Hc, E1, E2; reflexivity|].
  split; [exact Hkey|].
  assert (Forall (fun e' => e_compiler e' <> e_compiler e) (link_queue s1)) as Hne.
  { eapply Forall_impl; [apply (qi_links _ _ Hinv)|]. intros e' [Hni _] Ee. apply Hni. rewrite Eq, Ee. by left. }
  assert (compiled_at prog pc (mkCblock (e_compiler e) c1 c2)) as Hca
    by exact (Build_compiled_at _ _ (mkCblock _ _ _) (ex_intro _ s1 (ex_intro _ (e_block e)
      (conj Hok1 (conj (qi_prog _ _ Hinv) (conj Hne E1))))) Hpc E2).
  clear E1 E2. split; [exact Hg| |reflexivity|exact Hent|by exists f|exact Hca|apply Hcm].
  exists new. split; [cbn; by rewrite Elq, Hq1|]. eapply Forall_impl; [exact Hnew|]. by intros e' [[= <-] _].
Qed.

(** ** The queue *)

Lemma queue_inv_stays s s' known :
  stays s s' known -> jit_ok s' -> vm_memory s' = vm_memory s -> queued_once s' ->
  (forall b t, key_at s' b = Some t -> b ∈ e_block <$> compile_queue s' \/ t ∈ fst <$> known) ->
  (forall b t, b ∈ e_block <$> compile_queue s' -> key_at s' b = Some t -> t ∉ fst <$> known) ->
  link_queue s' = link_queue s -> queue_inv s known -> queue_inv s' known.
Proof.
  intros Hq Hok Hm Ho Hk Hn Hl [_ Hp _ _ _ Hnd Hls Hps Hd]. split; try done.
  - congruence.
  - rewrite Hl. eapply Forall_impl; [exact Hls|]. intros e. apply (qt_retired _ _ _ Hq).
  - rewrite (qt_patches _ _ _ Hq). eapply Forall_impl; [exact Hps|]. intros p. apply (qt_retired _ _ _ Hq).
  - rewrite Forall_forall in *. intros x Hx. apply (block_done_stays s); auto.
Qed.

Lemma queue_inv_recycle s known e : queue_inv s known -> queue_inv (recycle e s) known.
Proof.
  intros Hinv. apply (queue_inv_stays s).
  - by apply stays_same.
  - apply jit_ok_recycle, Hinv.
  - done.
  - apply Hinv.
  - apply (qi_keys _ _ Hinv).
  - apply (qi_new _ _ Hinv).
  - done.
  - done.
Qed.

Lemma queue_blocks_spec fuel : forall s known s',
  queue_inv s known -> compile_all fuel s = Ok s' ->
  queue_inv s' (known ++ queue_blocks fuel s) /\ compile_queue s' = [].
Proof.
  induction fuel as [|fuel IH]; intros s known s' Hinv E; cbn [compile_all queue_blocks] in *;
    destruct (compile_queue s) as [|e q] eqn:Eq; cbn [buxn_jit_dequeue] in *;
    try (injection E as <-; by rewrite app_nil_r).
  - done.
  - destruct (buxn_jit_compile e _) as [s2| |] eqn:Ec; [|done|done].
    destruct (compile_entry s known e q s2 Hinv Eq Ec) as (pc & blk & -> & Hkey & Hcp).
    cbn [option_list]. rewrite app_assoc. apply IH; [|done].
    apply queue_inv_recycle. by apply (entry_inv s _ e q pc blk).
Qed.

(** *** The link queue *)

Lemma retired_cleanup s q p i : let s' := set_cleanup_queue (fun _ => []) (set_entry_pool p
    (set_compilers (fun l => fold_left (fun l e => <[e_compiler e := None]> l) q l) s)) in
  retired s i -> retired s' i.
Proof.
  intros s' [Hi Hl]. split; [done|]. cbn. revert Hl. generalize (compilers s).
  induction q as [|e q IH]; intros l Hl; [done|]. apply IH. by rewrite length_insert.
Qed.

Section Finish.
Context (s : buxn_jit_t) (known : list (Z * cblock)).
Hypothesis Hinv : queue_inv s known.
Hypothesis Hempty : compile_queue s = [].

#[local] Abbreviation s1 := (link_all (link_queue s) s).
#[local] Abbreviation s2 := (cleanup_all (cleanup_queue s1) s1).

Lemma finish_retired i : retired s i -> retired s2 i.
Proof.
  destruct (link_all_spec (link_queue s) s) as [p1 E1]. destruct (cleanup_all_spec (cleanup_queue s1) s1) as [p2 ->].
  intros Hr. apply retired_cleanup. by rewrite E1.
Qed.

Lemma finish_same : vm_memory s2 = vm_memory s /\ compile_queue s2 = [].
Proof.
  destruct (link_all_spec (link_queue s) s) as [p1 E1]. destruct (cleanup_all_spec (cleanup_queue s1) s1) as [p2 ->].
  rewrite E1. by split.
Qed.

Lemma queued_links : Forall (fun e => exists j, e_union e = UJump j) (link_queue s).
Proof. eapply Forall_impl; [apply (ok_link _ (qi_ok _ _ Hinv))|]. by intros e (pc & Hj & _). Qed.

(** A link that waits is patched with an entry of a known block. *)
Lemma finish_pending id j ty t : pending s id j ty t -> patched s2 known id j ty t.
Proof.
  intros (Hp & b & Hb & El). destruct (finish_queues_ok s (qi_ok _ _ Hinv) Hempty) as (_ & (_ & Hl & _) & Hbs & Hpa & _).
  split; [unfold links_of; by rewrite Hl|].
  assert (t ∈ fst <$> known) as Hin.
  { destruct (qi_keys _ _ Hinv b t Hb) as [Hin|]; [|done]. rewrite Hempty in Hin. by apply elem_of_nil in Hin. }
  apply list_elem_of_fmap in Hin as ([t' blk] & -> & Hin). exists blk. split; [exact Hin|].
  unfold patches_of in *. rewrite Hpa, filter_app, Hp. cbn [app fst].
  rewrite patches_of_entries by apply queued_links.
  unfold links_of in El. rewrite El. cbn [fmap list_fmap concat]. rewrite app_nil_r.
  apply (entry_patch_of _ _ _ _ _ t'). rewrite Hbs.
  pose proof (qi_done _ _ Hinv) as Hd. rewrite Forall_forall in Hd. destruct (bd_store _ _ _ (Hd _ Hin)) as [b' Hb'].
  cbn [fst snd] in Hb'. by rewrite (key_at_inj s b b' t' (qi_ok _ _ Hinv) Hb (block_of_key _ _ _ _ Hb')).
Qed.

Lemma finish_patched id j ty t : patched s known id j ty t -> patched s2 known id j ty t.
Proof.
  intros (El & blk & Hin & Hp). destruct (finish_queues_ok s (qi_ok _ _ Hinv) Hempty) as (_ & (_ & Hl & _) & Hbs & Hpa & _).
  split; [unfold links_of; by rewrite Hl|]. exists blk. split; [done|].
  unfold patches_of in *. rewrite Hpa, filter_app, Hp.
  rewrite patches_of_entries by apply queued_links.
  unfold links_of in El. rewrite El. apply app_nil_r.
Qed.
End Finish.

(** Every queue is empty and every link has been patched. *)
Record settled (s : buxn_jit_t) (known : list (Z * cblock)) : Prop := {
  st_inv : queue_inv s known;
  st_idle : idle s;
  st_patched : forall x j ty t, x ∈ known -> Linked (cb_id (snd x)) j ty t (jit (cb_end (snd x))) ->
    patched s known (cb_id (snd x)) j ty t;
}.

Lemma entry_patch_compiler s e p : p ∈ entry_patch s e -> p_compiler p = e_compiler e.
Proof.
  unfold entry_patch. destruct (e_union e); [|by intros ?%elem_of_nil].
  destruct (_ =? 0); [by intros ?%elem_of_nil|]. by intros ->%list_elem_of_singleton.
Qed.

Lemma finish_settled s known :
  queue_inv s known -> compile_queue s = [] ->
  let s1 := link_all (link_queue s) s in settled (cleanup_all (cleanup_queue s1) s1) known.
Proof.
  intros Hinv Hq s1. set (s2 := cleanup_all _ _).
  destruct (finish_queues_ok s (qi_ok _ _ Hinv) Hq) as (Hok & Hi & Hbs & Hpa & _).
  fold s1 in Hok, Hi, Hbs, Hpa. fold s2 in Hok, Hi, Hbs, Hpa.
  destruct (finish_same s Hq) as [Hm Hq2]. fold s1 in Hm, Hq2. fold s2 in Hm, Hq2.
  pose proof Hi as (_ & Hl & _). pose proof (qi_done _ _ Hinv) as Hd. rewrite Forall_forall in Hd.
  assert (forall b, key_at s2 b = key_at s b) as Hkey by (intros b; unfold key_at; by rewrite Hbs).
  assert (forall x j ty t, x ∈ known -> Linked (cb_id (snd x)) j ty t (jit (cb_end (snd x))) ->
    patched s2 known (cb_id (snd x)) j ty t) as Hall.
  { intros x j ty t Hx Hlk. destruct (bd_links _ _ _ (Hd _ Hx) j ty t Hlk) as [Hp|Hp].
    - by apply finish_pending.
    - by apply finish_patched. }
  split; [split|exact Hi|exact Hall].
  - exact Hok.
  - rewrite Hm. apply Hinv.
  - destruct (qi_once _ _ Hinv) as [_ Hlt]. unfold queued_once. rewrite Hq2. split; [apply NoDup_nil_2|].
    intros b Hb. by apply elem_of_nil in Hb.
  - intros b t. rewrite Hkey, Hq2, <- Hq. apply (qi_keys _ _ Hinv).
  - rewrite Hq2. intros b t Hb. by apply elem_of_nil in Hb.
  - apply Hinv.
  - rewrite Hl. constructor.
  - rewrite Hpa. apply Forall_app. split.
    + eapply Forall_impl; [apply (qi_patches _ _ Hinv)|]. intros p. apply finish_retired.
    + rewrite Forall_forall. intros p Hp. apply list_elem_of_In, in_concat in Hp as (l & Hl2 & Hp).
      apply list_elem_of_In, list_elem_of_fmap in Hl2 as (e & -> & He). apply list_elem_of_In, entry_patch_compiler in Hp as ->.
      apply finish_retired. pose proof (qi_links _ _ Hinv) as Hr. rewrite Forall_forall in Hr. by apply Hr.
  - rewrite Forall_forall. intros x Hx. destruct (Hd x Hx) as [Hc Hk Hst Hret _]. split; [exact Hc| | | |].
    + intros b t Hb. rewrite Hkey. by apply Hk.
    + by rewrite Hbs.
    + by apply finish_retired.
    + intros j ty t Hlk. right. by apply Hall.
Qed.

Lemma queued_inv s s1 known :
  queue_inv s known -> idle s -> grows s s1 -> jit_ok s1 -> link_queue s1 = link_queue s -> queue_inv s1 known.
Proof.
  intros Hinv (Hq & Hl & _) Hg Hok1 Hl1.
  assert (stays s s1 known) as Hqt.
  { eapply (stays_grows s s _ _ []); [by apply stays_same|exact Hg|by rewrite Hl1|constructor]. }
  apply (queue_inv_stays s); [exact Hqt|exact Hok1|apply (gr_rom _ _ Hg)|apply (gr_once _ _ Hg), Hinv| | |exact Hl1|exact Hinv].
  - intros b t Hb. destruct (decide (b < length (block_store s))%nat) as [Hlt|Hge].
    + right. destruct (qi_keys _ _ Hinv b t) as [Hin|]; [| |done].
      * unfold key_at in *. destruct (gr_blocks _ _ Hg) as [l El]. by rewrite El, lookup_app_l in Hb.
      * rewrite Hq in Hin. by apply elem_of_nil in Hin.
    + left. apply (gr_queued _ _ Hg). split; [lia|]. unfold key_at in Hb.
      destruct (block_store s1 !! b) eqn:Eb; [|done]. by eapply lookup_lt_Some.
  - intros b t Hb Ht Hin. destruct (gr_new _ _ Hg b Hb) as [Hb'|Hge]; [rewrite Hq in Hb'; by apply elem_of_nil in Hb'|].
    apply list_elem_of_fmap in Hin as ([t' blk] & -> & Hin). cbn [fst] in *.
    pose proof (qi_done _ _ Hinv) as Hd. rewrite Forall_forall in Hd. destruct (bd_store _ _ _ (Hd _ Hin)) as [b' Hb'].
    cbn [fst snd] in Hb'. pose proof (lookup_lt_Some _ _ _ Hb').
    assert (b = b'); [|lia]. apply (key_at_inj s1 _ _ t'); [exact Hok1|exact Ht|].
    by apply (qt_keys _ _ _ Hqt), (block_of_key _ _ _ blk).
Qed.

(** ** One call, and several *)

Lemma call_blocks_spec s known pc b s' :
  settled s known -> is_u16 pc -> buxn_jit s pc = Ok (b, s') -> settled s' (known ++ call_blocks s pc).
Proof.
  intros [Hinv Hidle Hpat] Hpc E. pose proof Hidle as (Hq & Hl & _). unfold buxn_jit, call_blocks in *.
  destruct (queue_block_spec s pc (qi_ok _ _ Hinv) Hpc) as (b1 & s1 & Hrun & Hok1 & Hg1 & Hb1).
  rewrite Hrun in *. pose proof (queue_block_links _ _ _ _ Hrun) as Hl1.
  destruct (negb (fn (block_at s1 b1) =? 0)) eqn:Efn.
  - injection E as <- <-. rewrite app_nil_r. destruct (blocks_get (blocks_root s) pc) as [b'|] eqn:Eb.
    + assert (s1 = s) as -> by (unfold buxn_jit_queue_block in Hrun; rewrite Eb in Hrun; congruence). done.
    + exfalso. destruct (queue_block_new s pc Eb) as (s1' & t & Hrun' & _ & _ & _ & _ & Hbs & _).
      rewrite Hrun in Hrun'. injection Hrun' as -> <-. unfold block_at in Efn.
      by rewrite Hbs, nth_lookup, lookup_app_r, Nat.sub_diag in Efn by done.
  - pose proof (queued_inv s s1 known Hinv Hidle Hg1 Hok1 Hl1) as Hinv1.
    destruct (compile_all queue_fuel s1) as [s2| |] eqn:Ec; [|done|done]. injection E as <- <-.
    destruct (queue_blocks_spec queue_fuel s1 known s2 Hinv1 Ec) as (Hinv2 & Hq2).
    by apply finish_settled.
Qed.

Lemma session_spec pcs : forall s known,
  settled s known -> Forall is_u16 pcs -> exists s', buxn_jit_calls pcs s = Ok s' /\
    settled s' (known ++ session pcs s) /\ forall pc, pc ∈ pcs -> pc ∈ fst <$> (known ++ session pcs s).
Proof.
  induction pcs as [|pc pcs IH]; intros s known Hs Hpcs; cbn [session buxn_jit_calls].
  - exists s. rewrite app_nil_r. split; [done|]. split; [done|]. intros pc Hpc. by apply elem_of_nil in Hpc.
  - apply Forall_cons in Hpcs as [Hpc Hpcs]. pose proof Hs as [Hinv Hidle _].
    destruct (buxn_jit_spec s pc (qi_ok _ _ Hinv) Hidle Hpc) as (b & s1 & E & _ & _ & Hkey & _).
    pose proof (call_blocks_spec s known pc b s1 Hs Hpc E) as Hs1. rewrite E.
    destruct (IH s1 _ Hs1 Hpcs) as (s2 & E2 & Hs2 & Hin2). rewrite app_assoc. exists s2.
    split; [exact E2|]. split; [exact Hs2|]. intros pc0 [->|Hin]%elem_of_cons; [|by apply Hin2].
    rewrite fmap_app, elem_of_app. left. pose proof Hs1 as [Hinv1 (Hq1 & _) _].
    destruct (qi_keys _ _ Hinv1 b pc Hkey) as [Hin|]; [|done]. rewrite Hq1 in Hin. by apply elem_of_nil in Hin.
Qed.

(** ** The cache of a session *)

Lemma init_settled h : (forall a, is_u8 (prog a)) -> settled (buxn_jit_init prog h) [].
Proof.
  intros Hprog. destruct (init_ok prog h Hprog) as [Hok Hidle].
  assert (forall b t, key_at (buxn_jit_init prog h) b <> Some t) as Hno
    by (intros b t Hb; unfold key_at in Hb; cbn in Hb; by rewrite lookup_nil in Hb).
  split; [split|exact Hidle|]; [exact Hok|done| | | |apply NoDup_nil_2|constructor..|].
  - split; [apply NoDup_nil_2|]. intros b Hb. by apply elem_of_nil in Hb.
  - intros b t Hb. by apply Hno in Hb.
  - intros b t Hb. by apply elem_of_nil in Hb.
  - intros x j ty t Hx. by apply elem_of_nil in Hx.
Qed.

Lemma cache_of_unique l t blk : NoDup (fst <$> l) -> (t, blk) ∈ l -> cache_of l t = Some blk.
Proof.
  intros Hd Hin. assert (is_Some (cache_of l t)) as [blk' Hb].
  { apply cache_of_some. apply list_elem_of_fmap. by exists (t, blk). }
  rewrite Hb. pose proof (cache_of_in _ _ _ Hb) as Hin'.
  by injection (nodup_inj fst l _ _ Hd Hin' Hin eq_refl) as ->.
Qed.

Lemma session_settled pcs h :
  (forall a, is_u8 (prog a)) -> Forall is_u16 pcs ->
  exists s', buxn_jit_calls pcs (buxn_jit_init prog h) = Ok s' /\
    settled s' (session pcs (buxn_jit_init prog h)) /\
    forall pc, pc ∈ pcs -> pc ∈ fst <$> session pcs (buxn_jit_init prog h).
Proof. intros Hprog Hpcs. exact (session_spec pcs _ [] (init_settled h Hprog) Hpcs). Qed.

(** The blocks of a session: compiled from the program, one for each address,
    closed under links. *)
Lemma session_closed pcs h :
  (forall a, is_u8 (prog a)) -> Forall is_u16 pcs ->
  let l := session pcs (buxn_jit_init prog h) in
  NoDup (fst <$> l) /\ (forall pc, pc ∈ pcs -> is_Some (cache_of l pc)) /\
  forall t blk, cache_of l t = Some blk -> compiled_at prog t blk /\
    forall j ty t', Linked (cb_id blk) j ty t' (jit (cb_end blk)) -> is_Some (cache_of l t').
Proof.
  intros Hprog Hpcs l. destruct (session_settled pcs h Hprog Hpcs) as (s' & _ & [Hinv (Hq & _) _] & Hcov).
  fold l in Hinv, Hcov. pose proof (qi_done _ _ Hinv) as Hd. rewrite Forall_forall in Hd.
  split; [apply Hinv|]. split; [intros pc Hpc; by apply cache_of_some, Hcov|].
  intros t blk Ht%cache_of_in. split; [apply (bd_compiled _ _ _ (Hd _ Ht))|].
  intros j ty t' (b & _ & Hkey). apply (bd_keys _ _ _ (Hd _ Ht)) in Hkey.
  apply cache_of_some. destruct (qi_keys _ _ Hinv b t' Hkey) as [Hin|]; [|done].
  rewrite Hq in Hin. by apply elem_of_nil in Hin.
Qed.

Lemma session_cache pcs h :
  (forall a, is_u8 (prog a)) -> Forall is_u16 pcs ->
  let l := session pcs (buxn_jit_init prog h) in
  plain_session l = true -> linked_cache (cache_of l) prog.
Proof.
  intros Hprog Hpcs l Hplain. destruct (session_closed pcs h Hprog Hpcs) as (_ & _ & Hc). split.
  - intros t blk Ht. by apply Hc.
  - intros t blk Ht%cache_of_in. unfold plain_session in Hplain. rewrite forallb_forall in Hplain.
    apply (Hplain (t, blk)). by apply list_elem_of_In.
  - intros t blk j ty t' Ht. by apply (proj2 (Hc t blk Ht)).
Qed.

(** The block store has exactly these blocks. *)
Lemma session_store pcs h :
  (forall a, is_u8 (prog a)) -> Forall is_u16 pcs ->
  let l := session pcs (buxn_jit_init prog h) in
  exists s', buxn_jit_calls pcs (buxn_jit_init prog h) = Ok s' /\ jit_ok s' /\
    key <$> block_store s' ≡ₚ fst <$> l /\ forall pc, pc ∈ pcs -> pc ∈ fst <$> l.
Proof.
  intros Hprog Hpcs l. destruct (session_settled pcs h Hprog Hpcs) as (s' & E & [Hinv (Hq & _) _] & Hcov).
  fold l in Hinv, Hcov. pose proof (qi_ok _ _ Hinv) as Hok. exists s'. split; [done|]. split; [done|]. split; [|done].
  assert (forall t, t ∈ key <$> block_store s' <-> exists b, key_at s' b = Some t) as Hkey.
  { intros t. rewrite list_elem_of_fmap. unfold key_at. split.
    - intros (B & -> & [b Hb]%list_elem_of_lookup). exists b. by rewrite Hb.
    - intros [b Hb]. destruct (block_store s' !! b) as [B|] eqn:EB; [|done]. injection Hb as <-.
      exists B. split; [done|]. by eapply list_elem_of_lookup_2. }
  apply NoDup_Permutation.
  - apply NoDup_alt. intros i j t Hi Hj. rewrite list_lookup_fmap in Hi, Hj. by apply (key_at_inj s' i j t).
  - apply Hinv.
  - intros t. rewrite Hkey. split.
    + intros [b Hb]. destruct (qi_keys _ _ Hinv b t Hb) as [Hin|]; [|done].
      rewrite Hq in Hin. by apply elem_of_nil in Hin.
    + intros ([t' blk] & -> & Hin)%list_elem_of_fmap. pose proof (qi_done _ _ Hinv) as Hd.
      rewrite Forall_forall in Hd. destruct (bd_store _ _ _ (Hd _ Hin)) as [b Hb]. exists b.
      by apply (block_of_key _ _ _ blk).
Qed.

Lemma linked_of id s j ty t : link_of id s j = Some (ty, t) -> Linked id j ty t s.
Proof.
  unfold link_of. destruct (list_find _ (link_queue s)) as [[i e]|] eqn:Ef; [|done]. cbn.
  apply list_find_Some in Ef as (Hi & Hs & _). apply Is_true_true, is_site_spec in Hs as [Hc Hu].
  apply list_elem_of_lookup_2 in Hi. destruct (key_at s (e_block e)) as [t'|] eqn:Ek; [|done].
  intros [= <- <-]. exists (e_block e). split; [|done]. destruct e. cbn in *. by subst.
Qed.

(** Every link of a block in the cache has been patched with the entry of
    the block in the cache it leads to. *)
Lemma session_patches pcs h :
  (forall a, is_u8 (prog a)) -> Forall is_u16 pcs ->
  let l := session pcs (buxn_jit_init prog h) in
  exists s', buxn_jit_calls pcs (buxn_jit_init prog h) = Ok s' /\ idle s' /\
    forall t blk j ty t', cache_of l t = Some blk -> link_of (cb_id blk) (jit (cb_end blk)) j = Some (ty, t') ->
    exists blk', cache_of l t' = Some blk' /\ patches_of (cb_id blk) j s' = link_patch (cb_id blk) j ty blk'.
Proof.
  intros Hprog Hpcs l. destruct (session_settled pcs h Hprog Hpcs) as (s' & E & [Hinv Hidle Hpat] & _).
  fold l in Hinv, Hpat. exists s'. split; [done|]. split; [done|].
  intros t blk j ty t' Ht%cache_of_in Hl%linked_of. destruct (Hpat (t, blk) j ty t' Ht Hl) as (_ & blk' & Hin & Hp).
  exists blk'. split; [|done]. apply cache_of_unique; [apply Hinv|done].
Qed.
End Blocks.
End Session.
