(* ===== verification/JitRun.v ===== *)
(** * The JIT at work

    [execute_fn]: what [buxn_jit_execute] runs on a JIT that was asked for some
    addresses before - the function of the first block, and the trampoline,
    whose callback compiles the blocks it is asked for as the program reaches
    them. *)
From S2P Require Import Prelude Lir Hamt Jit Queues StackCache Uxn MicroOps Opcodes Compile Invariant CacheSafety OpcodeSafety BlockSafety JitSafety Machine StackSim PopSim OperandSim StepSim OpcodeSim MemSim DivSim FetchSim OpcodeCorrect ExitSim UxnControl UxnDevices Emission Flows HostSim JumpSim ControlSim ControlOps DeviceSim BlockFlow LinkedRun Trampoline Session SessionInv.
Local Open Scope jit_scope.

Section JitRun.
Context {Lay : VmLayout} {SL : Sljit} {SP : SljitSpec} {HO : Host} {vmb : Z} {LS : LayoutSpec vmb}.
Context {VM : BuxnVm} {CG : CodeGen}.
Context (prog : Z -> Z) (h : option buxn_jit_hook_t).

(** The blocks that exist after [buxn_jit] was asked for the addresses [pcs]. *)
Definition known_blocks (pcs : list Z) : list (Z * cblock) := session pcs (buxn_jit_init prog h).

(** The block of address [t] and the trampoline: a missing block is compiled
    and entered.  [n] bounds the number of times that happens.  The addresses
    that the JIT was asked for by then are returned as well. *)
Fixpoint run_misses (n fuel : nat) (pcs : list Z) (t : Z) (m : mach) : visit * list Z :=
  match visit_block (cache_of (known_blocks pcs)) fuel t m with
  | Miss t' m' =>
      match n with
      | O => (Lost, pcs)
      | S n => run_misses n fuel (pcs ++ [t']) t' m'
      end
  | o => (o, pcs)
  end.

(** [buxn_jit], asked for the addresses [asked] before, compiles the block of
    [pc] unless it has one, and the function of the block is called. *)
Definition execute_fn (n fuel : nat) (asked : list Z) (pc : Z) (m : mach) : visit * list Z :=
  match piece load_code (Run m) with
  | Run m1 => run_misses n fuel (asked ++ [pc]) pc m1
  | _ => (Lost, asked ++ [pc])
  end.

(** Every block compiled on the way passes the check. *)
Fixpoint plain_run (n fuel : nat) (pcs : list Z) (t : Z) (m : mach) : bool :=
  plain_session (known_blocks pcs) &&
  match visit_block (cache_of (known_blocks pcs)) fuel t m with
  | Miss t' m' =>
      match n with
      | O => false
      | S n => plain_run n fuel (pcs ++ [t']) t' m'
      end
  | _ => true
  end.

Definition plain_execute (n fuel : nat) (asked : list Z) (pc : Z) (m : mach) : bool :=
  match piece load_code (Run m) with
  | Run m1 => plain_run n fuel (asked ++ [pc]) pc m1
  | _ => false
  end.

Section Run.
Context {DM : DevModel} {HS : HostSpec vmb}.
Context (send : uxn).
Hypothesis Hreset : BUXN_RESET_VECTOR = 256.
Hypothesis Hstops : stops prog (u_vm send).
Hypothesis Hprog : forall a, is_u8 (prog a).

#[local] Abbreviation Held := (Held (vmb := vmb)).
#[local] Abbreviation pc_of u := (vm_pc (u_vm u)).

Definition Finished (o : visit * list Z) : Prop :=
  exists m' asked, o = (Done (exit_value (u_vm send)) m', asked) /\
    0 <= exit_value (u_vm send) /\ Held (mem m') send /\ Forall is_u16 asked.

Lemma run_misses_sim fuel n : forall k pcs m u,
  (k <= n)%nat -> (k < fuel)%nat -> Forall is_u16 pcs -> pc_of u ∈ pcs -> ParkedAll (vmb := vmb) m u ->
  uxn_ticks prog k u = Some send -> plain_run n fuel pcs (pc_of u) m = true ->
  Finished (run_misses n fuel pcs (pc_of u) m).
Proof.
  induction n as [|n IH]; intros k pcs m u Hkn Hkf Hpcs Hin Hp Ht Hplain; cbn [run_misses plain_run] in *;
    apply andb_true_iff in Hplain as [Hpl Hrest];
    pose proof (session_cache prog pcs h Hprog Hpcs) as Hlc;
    destruct (session_closed prog pcs h Hprog Hpcs) as (_ & Hcov & _); fold (known_blocks pcs) in Hlc, Hcov;
    destruct (visit_block_sim (vmb := vmb) (cache_of (known_blocks pcs)) Hreset prog send Hstops (Hlc Hpl) fuel k m u)
      as [(m' & E & Hv & Hh)|(u' & k' & m' & E & Hc & Hk' & Hu & Ht' & Hp')]; auto;
    rewrite E in *; try (by exists m', pcs).
  apply (IH k' (pcs ++ [pc_of u']) m' u'); auto; [lia|lia|..].
  - apply Forall_app. split; [done|by apply Forall_singleton].
  - apply elem_of_app. right. by apply list_elem_of_singleton.
Qed.

Lemma execute_fn_sim fuel n k asked m u :
  (k <= n)%nat -> (k < fuel)%nat -> Forall is_u16 asked -> is_u16 (pc_of u) -> words m -> regs m BUXN_JIT_S_VM = vmb ->
  Held (mem m) u -> uxn_ticks prog k u = Some send ->
  plain_execute n fuel asked (pc_of u) m = true -> Finished (execute_fn n fuel asked (pc_of u) m).
Proof.
  intros Hn Hf Ha Hu Hw Hvm [Him Hwo] Ht. destruct (load_run m (u_vm u) Hw Hvm Him) as [El Hp].
  unfold plain_execute, execute_fn. rewrite El.
  intros Hpl. apply (run_misses_sim fuel n k (asked ++ [pc_of u]) (loaded (vmb := vmb) m) u); auto; [..|by split].
  - apply Forall_app. split; [done|by apply Forall_singleton].
  - apply elem_of_app. right. by apply list_elem_of_singleton.
Qed.
End Run.
End JitRun.
