(* ===== verification/MapCorrect.v ===== *)
(** * What the block map and the block queue guarantee

    The hash trie of src/hamt.h, with the hash function of src/jit.c, is a
    finite map with a bounded search; queueing a block finds the block of an
    address or creates the only one. *)
From S2P Require Import Prelude Lir Hamt Jit Queues Compile Concrete JitSafety.

Section Map.
Context {V : Type}.

(** The trie after inserting a list of entries, first one first. *)
Definition hamt_of_list (l : list (Z * V)) : hamt V :=
  fold_left (fun t kv => blocks_add t (fst kv) (snd kv)) l HNil.

Lemma rep_fold l : forall (t : hamt V) (m : gmap Z V),
  hamt_rep t m ->
  hamt_rep (fold_left (fun t kv => blocks_add t (fst kv) (snd kv)) l t) (m ∪ list_to_map l).
Proof.
  induction l as [|[k v] l IH]; intros t m Hr; cbn [fold_left fst snd].
  - by rewrite list_to_map_nil, (right_id_L ∅ (∪)).
  - rewrite list_to_map_cons. destruct (m !! k) as [w|] eqn:Ek.
    + rewrite (rep_add_present _ _ _ _ _ Hr Ek).
      replace (m ∪ <[k := v]> (list_to_map l)) with (m ∪ list_to_map l); [by apply IH|].
      apply map_eq. intros i. rewrite !lookup_union. destruct (decide (k = i)) as [<-|].
      * rewrite Ek, lookup_insert_eq. by destruct (list_to_map l !! k).
      * by rewrite lookup_insert_ne.
    + rewrite <- insert_union_r by done.
      rewrite insert_union_l. apply IH. by apply rep_add.
Qed.

Lemma wf_fold l : forall t : hamt V,
  blocks_wf t -> Forall (fun kv => is_u16 (fst kv)) l ->
  blocks_wf (fold_left (fun t kv => blocks_add t (fst kv) (snd kv)) l t).
Proof.
  induction l as [|[k v] l IH]; intros t Hwf Hl; [done|].
  apply Forall_cons in Hl as [Hk Hl]. by apply IH; [apply blocks_wf_add|].
Qed.

(** C20: The trie is a map: after any sequence of insertions, a search
    for an address with its hash finds the first value inserted for exactly
    that address, and nothing when there is none - whatever the collisions
    of the hashes' digits. *)
Theorem hamt_is_map (l : list (Z * V)) pc :
  blocks_get (hamt_of_list l) pc = (list_to_map l : gmap Z V) !! pc.
Proof.
  unfold hamt_of_list. rewrite (rep_fold l HNil ∅ rep_empty pc). by rewrite (left_id_L ∅ (∪)).
Qed.

(** C21: The search of the trie is bounded: its loop runs at most 17
    times for 16-bit addresses, the 32-bit hash being consumed two bits at a
    time and injective. *)
Theorem hamt_search_bounded (l : list (Z * V)) pc :
  Forall (fun kv => is_u16 (fst kv)) l -> is_u16 pc ->
  (search_steps (hamt_of_list l) (buxn_jit_prospector32 pc) pc <= 17)%nat.
Proof. intros Hl Hpc. apply blocks_search_bound; [done|]. by apply wf_fold. Qed.
End Map.

Definition sample : list (Z * bool) := [(256, true); (300, false); (4096, true)].

Lemma hamt_search_bounded_witness :
  (search_steps (hamt_of_list sample)
     (buxn_jit_prospector32 4096) 4096 <= 17)%nat.
Proof.
  apply (hamt_search_bounded sample 4096);
    [repeat (apply Forall_cons_2; [split; [discriminate|reflexivity]|]); apply Forall_nil_2
    |split; [discriminate|reflexivity]].
Defined.

(** C22: The hash function is a permutation of the 32-bit integers: it
    stays in range and no two addresses have the same hash. *)
Theorem prospector32_permutation x y :
  is_u32 x -> is_u32 y ->
  is_u32 (buxn_jit_prospector32 x) /\
  (buxn_jit_prospector32 x = buxn_jit_prospector32 y <-> x = y).
Proof.
  intros Hx Hy. split; [by apply prospector32_range|]. split; [by apply prospector32_inj|congruence].
Qed.

Lemma prospector32_permutation_witness :
  is_u32 (buxn_jit_prospector32 256) /\
  (buxn_jit_prospector32 256 = buxn_jit_prospector32 257 <-> 256 = 257).
Proof.
  apply (prospector32_permutation 256 257); (split; [discriminate|reflexivity]).
Defined.

(** ** The queue *)

(** C19: [buxn_jit_queue_block] finds or creates.  A known address gives its
    block and changes nothing; an unknown one gives a new block without code,
    entered in the map, counted, queued once for compilation with a compiler
    of its own, which is queued for cleanup. *)
Theorem queue_block_cases s pc :
  jit_ok s -> is_u16 pc ->
  match blocks_get (blocks_root s) pc with
  | Some b => buxn_jit_queue_block s pc = (b, s) /\ key_at s b = Some pc
  | None =>
      let b := length (block_store s) in
      let k := length (compilers s) in
      exists s' t, buxn_jit_queue_block s pc = (b, s') /\ jit_ok s' /\
        blocks_get (blocks_root s') pc = Some b /\
        block_store s' = block_store s ++ [mkBlock pc 0 0 0 0] /\
        compilers s' = compilers s ++ [Some sljit_create_compiler] /\
        num_blocks (stats s') = num_blocks (stats s) + 1 /\
        compile_queue s' = mkEntry t b k (UPc pc) :: compile_queue s /\
        e_compiler <$> cleanup_queue s' = k :: (e_compiler <$> cleanup_queue s) /\
        link_queue s' = link_queue s
  end.
Proof.
  intros Hok Hpc. destruct (blocks_get (blocks_root s) pc) as [b|] eqn:E.
  - unfold buxn_jit_queue_block. rewrite E. split; [done|]. by apply (ok_map s Hok).
  - destruct (queue_block_new s pc E) as (s' & t & Heq & Hm & Hh & Hst & Hr & Hs & Hc & Hq & Hl & Hcl & _).
    exists s', t. split; [done|].
    assert (jit_ok s') as Hok' by (eapply (jit_ok_queue_new s s' pc t); eauto).
    split; [done|]. split.
    + apply (ok_map s' Hok'). unfold key_at. rewrite Hs, lookup_app_r, Nat.sub_diag by done. done.
    + rewrite Hst. auto 10.
Qed.

Lemma queue_block_cases_witness :
  exists s' t, buxn_jit_queue_block (start_jit []) 256 = (0%nat, s') /\ jit_ok s' /\
    blocks_get (blocks_root s') 256 = Some 0%nat /\
    block_store s' = [mkBlock 256 0 0 0 0] /\ compilers s' = [Some sljit_create_compiler] /\
    num_blocks (stats s') = 1 /\ compile_queue s' = [mkEntry t 0 0 (UPc 256)] /\
    e_compiler <$> cleanup_queue s' = [0%nat] /\ link_queue s' = [].
Proof.
  apply (queue_block_cases (start_jit []) 256);
    [apply init_ok, rom_byte|split; [discriminate|reflexivity]].
Defined.
