(* ===== verification/BlockCorrect.v ===== *)
(** * What compiling a block guarantees

    The register allocator never runs out of registers, no opcode handler
    fails, every opcode makes progress, and the loop over the opcodes of a
    block ends. *)
From S2P Require Import Prelude Lir Hamt Jit Queues StackCache Uxn MicroOps Opcodes Compile Concrete Invariant CacheSafety OpcodeSafety BlockSafety JitSafety.
Local Open Scope jit_scope.

Section Blocks.
Context {Lay : VmLayout} {SL : Sljit}.

(** C16: The register allocator.  While an opcode holds fewer than the
    six operand registers, [buxn_jit_alloc_reg] succeeds, spilling cached
    cells if it must: the assertion [Out of registers] cannot fail.  The
    register it returns is owned by nobody else, and every reference count
    is still the number of the register's owners. *)
Theorem alloc_reg_total c H :
  Inv c H -> (length H < NUM_OP_REGS)%nat ->
  exists r c', buxn_jit_alloc_reg c = Ok (r, c') /\ Inv c' (r :: H) /\ is_op r /\
    (r ∉ owned c' H) /\ frame c' = frame c.
Proof.
  intros Hi HH. destruct (wp_elim _ _ _ (wp_alloc c H Hi HH)) as (r & c' & Hrun & Hi' & [Hf _] & Hr).
  exists r, c'. split; [done|]. split; [done|]. split; [|done].
  eapply inv_held_op; [exact Hi'|]. rewrite elem_of_cons. auto.
Qed.

(** The stack cache.  On a well-formed context a pop of either size,
    a push of a held register, a discard and the clearing of both caches all
    finish; the popped register is owned by the caller, and clearing
    leaves no cell in a register. *)
Theorem stack_cache_total c H flag_r flag_2 v :
  Inv c H -> (length H < NUM_OP_REGS - 1)%nat -> reg v ∈ H ->
  (exists r c', buxn_jit_stack_cache_pop flag_r flag_2 c = Ok (r, c') /\ Inv c' (r :: H)) /\
  (exists c', buxn_jit_stack_cache_push flag_r v c = Ok (tt, c') /\ Inv c' H) /\
  (exists c', buxn_jit_stack_cache_discard flag_r flag_2 c = Ok (tt, c') /\ Inv c' H) /\
  (exists c', buxn_jit_clear_stack_caches c = Ok (tt, c') /\ Inv c' H /\
     live (wst_cache c') = [] /\ live (rst_cache c') = []).
Proof.
  intros Hi HH Hv. split_and!.
  - destruct (wp_elim _ _ _ (wp_cache_pop flag_r flag_2 c H Hi HH)) as (r & c' & ? & ? & _). eauto.
  - destruct (wp_elim _ _ _ (wp_cache_push flag_r v c H Hi Hv)) as ([] & c' & ? & ? & _). eauto.
  - destruct (wp_elim _ _ _ (wp_discard flag_r flag_2 c H Hi ltac:(lia))) as ([] & c' & ? & ? & _). eauto.
  - destruct (wp_elim _ _ _ (wp_clear c H Hi)) as ([] & c' & ? & ? & _ & Hw & Hr).
    exists c'. split; [done|]. split; [done|]. unfold live. rewrite Hw, Hr. done.
Qed.

(** C15: No handler fails.  Whatever the opcode, its handler run on a
    fetched context finishes without a failed assertion, keeps the context
    well-formed and the JIT growing, provided compiling the next opcode - what
    a boolean jump does - meets the same contract. *)
Theorem dispatch_total n next name c H :
  NextOk n next -> Good c H -> (length H <= 2)%nat -> fetched (pc c) -> meas (pc c) < n ->
  exists c', dispatch next name c = Ok (tt, c') /\ (exists H', GoodX c' H') /\
    grows (jit c) (jit c') /\ meas (pc c') <= meas (pc c).
Proof.
  intros Hnext Hg HH Hf Hn.
  destruct (wp_elim _ _ _ (handler_dispatch n next name Hnext c H Hg HH Hf Hn))
    as ([] & c' & Hrun & (Hgr & _ & _ & Hm) & HX). eauto 10.
Qed.

Context {VM : BuxnVm}.

(** C11: Progress.  [buxn_jit_next_opcode] finishes with a fuel above the
    distance to the end of the address space, and then either the block is
    finished ([ctx->compiler == NULL]) or the program counter is closer to
    that end: no opcode is compiled twice in one block. *)
Theorem next_opcode_progress fuel c H :
  Good c H -> meas (pc c) < Z.of_nat fuel ->
  exists c', buxn_jit_next_opcode fuel c = Ok (tt, c') /\ (exists H', GoodX c' H') /\
    grows (jit c) (jit c') /\ (meas (pc c') < meas (pc c) \/ compiler_ptr c' = None).
Proof.
  intros Hg Hn. destruct (wp_elim _ _ _ (next_opcode_ok fuel c H Hg Hn))
    as ([] & c' & Hrun & (Hgr & _) & HX & Hd). eauto 10.
Qed.

(** The loop over the opcodes of a block ends, with its compiler
    finished, from any well-formed context: [block_fuel] iterations, one per
    address, are enough. *)
Theorem compile_loop_ends c H :
  Good c H -> exists c', compile_loop block_fuel c = Ok (tt, c') /\ compiler_ptr c' = None /\
    grows (jit c) (jit c') /\ exists H', GoodX c' H'.
Proof.
  intros Hg. assert (is_u16 (pc c)) as Hpc by apply Hg.
  destruct (wp_elim _ _ _ (wp_compile_loop block_fuel c H (good_x _ _ Hg)
    ltac:(intros _; unfold meas, block_fuel; destruct (Z.ltb_spec (pc c) 256); mlia)))
    as ([] & c' & Hrun & (Hgr & _) & Hp & HX). eauto 10.
Qed.
End Blocks.

(** The flags of an opcode byte.  Short, keep and return are its bits 5,
    7 and 6, except that the immediate jumps 0x20, 0x40 and 0x60 have none of
    them and that the four LIT opcodes do not keep. *)
Theorem op_flags c :
  is_u8 (current_opcode c) ->
  let op := current_opcode c in
  let is_immediate_jump := (op mod 32 =? 0) && (op <? 128) in
  buxn_jit_op_flag_2 c = Z.testbit op 5 && negb is_immediate_jump /\
  buxn_jit_op_flag_r c = Z.testbit op 6 && negb is_immediate_jump /\
  buxn_jit_op_flag_k c = Z.testbit op 7 && negb (op mod 32 =? 0).
Proof. apply flags_bits. Qed.

(** ** Witnesses: the context a block starts with *)

#[local] Existing Instances layout_ref vm_ref codegen_ref sljit_ref host_ref.

Definition start_ctx (l : list Z) : buxn_jit_ctx_t :=
  initial_ctx (start_jit l) 0 0 sljit_create_compiler 256.

Lemma start_good l : Good (start_ctx l) [].
Proof.
  apply good_initial; [apply init_ok, rom_byte|]. split; [discriminate|reflexivity].
Qed.

Lemma alloc_reg_total_witness :
  exists r c', buxn_jit_alloc_reg (start_ctx []) = Ok (r, c') /\ Inv c' [r] /\ is_op r /\
    (r ∉ owned c' []) /\ frame c' = frame (start_ctx []).
Proof. apply (alloc_reg_total (start_ctx []) []); [apply start_good|vm_compute; lia]. Defined.

(** The start context after the allocation of one register. *)
Definition one_reg : buxn_jit_ctx_t :=
  match buxn_jit_alloc_reg (start_ctx []) with Ok (_, c) => c | _ => start_ctx [] end.

Lemma one_reg_inv : Inv one_reg [op_reg 0].
Proof.
  destruct (wp_elim _ _ _ (wp_alloc (start_ctx []) [] ltac:(apply start_good) ltac:(vm_compute; lia)))
    as (r & c' & Hrun & Hi & _). unfold one_reg. rewrite Hrun.
  assert (match buxn_jit_alloc_reg (start_ctx []) with Ok (r, _) => r | _ => SR 0 end = op_reg 0)
    as E by reflexivity.
  rewrite Hrun in E. by subst r.
Qed.

Lemma stack_cache_total_witness :
  let v := mkOperand 0 false 0 (op_reg 0) in
  (exists r c', buxn_jit_stack_cache_pop false true one_reg = Ok (r, c') /\ Inv c' [r; op_reg 0]) /\
  (exists c', buxn_jit_stack_cache_push false v one_reg = Ok (tt, c') /\ Inv c' [op_reg 0]) /\
  (exists c', buxn_jit_stack_cache_discard false true one_reg = Ok (tt, c') /\ Inv c' [op_reg 0]) /\
  (exists c', buxn_jit_clear_stack_caches one_reg = Ok (tt, c') /\ Inv c' [op_reg 0] /\
     live (wst_cache c') = [] /\ live (rst_cache c') = []).
Proof.
  apply (stack_cache_total one_reg [op_reg 0] false true (mkOperand 0 false 0 (op_reg 0)));
    [apply one_reg_inv|vm_compute; lia|by left].
Defined.

(** A context whose opcode, at 0x0100, was fetched. *)
Definition fetched_ctx (op : Z) : buxn_jit_ctx_t :=
  set_current_opcode (fun _ => op) (set_pc (fun _ => 257) (start_ctx [])).

Lemma fetched_good op : Good (fetched_ctx op) [].
Proof.
  destruct (start_good []) as ([[] ?] & [] & ?).
  split; [by split|]. split; [|done]. split; [done..|]. split; [discriminate|reflexivity].
Qed.

Lemma dispatch_total_witness :
  exists c', dispatch (buxn_jit_next_opcode block_fuel) ROT (fetched_ctx 0x05) = Ok (tt, c') /\
    (exists H', GoodX c' H') /\ grows (jit (fetched_ctx 0x05)) (jit c') /\
    meas (pc c') <= meas 257.
Proof.
  apply (dispatch_total (Z.of_nat block_fuel) (buxn_jit_next_opcode block_fuel) ROT (fetched_ctx 0x05) []);
    [exact (next_opcode_ok block_fuel)|apply fetched_good|simpl; lia|right; split; [discriminate|reflexivity]|
     reflexivity].
Defined.

Lemma next_opcode_progress_witness :
  exists c', buxn_jit_next_opcode block_fuel (start_ctx [0x80; 5; 0]) = Ok (tt, c') /\
    (exists H', GoodX c' H') /\ grows (jit (start_ctx [0x80; 5; 0])) (jit c') /\
    (meas (pc c') < meas 256 \/ compiler_ptr c' = None).
Proof.
  apply (next_opcode_progress block_fuel (start_ctx [0x80; 5; 0]) []); [apply start_good|reflexivity].
Defined.

Lemma compile_loop_ends_witness :
  exists c', compile_loop block_fuel (start_ctx [0x80; 5; 0]) = Ok (tt, c') /\ compiler_ptr c' = None /\
    grows (jit (start_ctx [0x80; 5; 0])) (jit c') /\ exists H', GoodX c' H'.
Proof. apply (compile_loop_ends (start_ctx [0x80; 5; 0]) []), start_good. Defined.

Lemma op_flags_witness :
  buxn_jit_op_flag_2 (fetched_ctx 0xa0) = true /\ buxn_jit_op_flag_r (fetched_ctx 0xa0) = false /\
  buxn_jit_op_flag_k (fetched_ctx 0xa0) = false.
Proof. apply (op_flags (fetched_ctx 0xa0)). split; [discriminate|reflexivity]. Defined.
