(* ===== verification/SimCorrect.v ===== *)
(** * The emitted code implements uxn

    The theorems on what the code does when it runs: one opcode, a stretch of
    straight-line code that ends a block, and the operations of the stack
    caches. *)
From S2P Require Import Prelude Lir Hamt Jit Queues StackCache Uxn MicroOps Opcodes Compile Concrete Invariant CacheSafety OpcodeSafety BlockSafety JitSafety Machine StackSim PopSim DiscardSim OperandSim StepSim MemSim FetchSim OpcodeCorrect ExitSim BlockCorrect.
Local Open Scope jit_scope.

Section SimCorrect.
Context {Lay : VmLayout} {SL : Sljit} {SP : SljitSpec} {HO : Host} {vmb : Z} {LS : LayoutSpec vmb}.
Context {VM : BuxnVm}.

#[local] Abbreviation Rep := (Rep (vmb := vmb)).
#[local] Abbreviation Shows := (Shows (vmb := vmb)).
#[local] Abbreviation elsewhere := (elsewhere (vmb := vmb)).
#[local] Abbreviation ram := (ram (vmb := vmb)).

(** The state [m'] of the machine after a block, for the specification. *)
Definition left_by (s : vm) (m m' : mach) : Prop :=
  in_memory (vmb := vmb) m' (vm_stacks s) /\ (forall y, is_u16 y -> ram m' y = vm_ram s y) /\
  elsewhere m m'.

(** C35: Straight-line code followed by BRK.  The code emitted for the opcodes
    and the BRK, executed from a machine that shows the state [s], returns
    0x10000 and leaves in memory both stacks and the RAM the specification
    computes, and nothing else of the virtual machine changes.  Each opcode
    has to be compilable without pressure on the registers and without a change
    to a register that cells share ([poppable]). *)
Theorem straight_block_correct k fuel c m s s' c1 :
  bound_ok (comp c) -> Shows c m s ->
  compile_straight k fuel c = Some c1 -> poppable c1 = true -> opcode_name (next_byte c1) = BRK ->
  vm_run (vm_memory (jit c)) k s = Some s' ->
  exists c' new m', buxn_jit_next_opcode (S fuel) c1 = Ok (tt, c') /\ compiler_ptr c' = None /\
    code (comp c') = code (comp c) ++ new /\
    (forall B, binds (comp c') ⊆ B -> exec B new (Run m) = Return 0x10000 m') /\ left_by s' m m'.
Proof.
  intros Hb Hsh Hc Hp Hbrk Hs.
  destruct (straight_sim k fuel c m s s' c1 Hb Hsh Hc Hs) as (m1 & [Hsub (n1 & E1 & R1)] & Hb1 & Hsh1 & He1).
  destruct (wp_elim _ _ _ (next_opcode_BRK fuel c1 m1 s' Hsh1 Hp Hbrk Hb1))
    as ([] & c' & Hrun & _ & Hsub2 & n2 & fl & E2 & R2 & _ & Hnone & m' & -> & Hm & Hram & He2).
  exists c', (n1 ++ n2), m'. split; [done|]. split; [done|]. split; [by rewrite E2, E1, app_assoc|].
  split; [|split; [done|split; [done|by eapply elsewhere_trans]]].
  intros B HB. rewrite exec_app, R1, R2; [done|done|by etrans].
Qed.

(** One opcode.  From a machine that shows the state [s], the code of the
    next opcode falls through to a machine that shows the state after one step
    of the specification, and the compiler's program memory is the same. *)
Theorem next_opcode_correct fuel c m s s' :
  bound_ok (comp c) -> Shows c m s -> poppable c = true -> vm_next (next_byte c) s = Some s' ->
  exists c' new m', buxn_jit_next_opcode (S fuel) c = Ok (tt, c') /\
    code (comp c') = code (comp c) ++ new /\
    (forall B, binds (comp c') ⊆ B -> exec B new (Run m) = Run m') /\
    Shows c' m' s' /\ vm_memory (jit c') = vm_memory (jit c) /\ elsewhere m m'.
Proof.
  intros Hb Hsh Hp Hs.
  destruct (wp_elim _ _ _ (next_opcode_sim fuel c m s s' Hsh Hp Hs Hb))
    as ([] & c' & Hrun & m' & [[_ (new & E & R)] _] & Hsh' & Hj & He).
  by exists c', new, m'.
Qed.

(** Leaving the compiled code below 0x0100.  The block returns the pc and
    both stacks are in memory. *)
Theorem zero_page_correct fuel c m s :
  bound_ok (comp c) -> Shows c m s -> 0 <= pc c < 256 ->
  exists c' new m', buxn_jit_next_opcode (S fuel) c = Ok (tt, c') /\ compiler_ptr c' = None /\
    code (comp c') = code (comp c) ++ new /\
    (forall B, binds (comp c') ⊆ B -> exec B new (Run m) = Return (vm_pc s) m') /\ left_by s m m'.
Proof.
  intros Hb Hsh Hpc. assert (is_u16 (pc c)) as Hu by mlia.
  destruct (wp_elim _ _ _ (next_opcode_zero_page fuel c m s Hsh Hu (proj2 Hpc) Hb))
    as ([] & c' & Hrun & _ & _ & new & fl & E & R & _ & Hnone & m' & -> & Hm & Hram & He).
  by exists c', new, m'.
Qed.

(** C12: Writing the caches back.  After [buxn_jit_clear_stack_caches] nothing
    is cached and the memory holds both stacks, whatever was in registers
    before; the registers of the operands keep their values. *)
Theorem clear_caches_correct c m H st :
  bound_ok (comp c) -> Rep c m H st ->
  exists c' new m', buxn_jit_clear_stack_caches c = Ok (tt, c') /\
    code (comp c') = code (comp c) ++ new /\
    (forall B, binds (comp c') ⊆ B -> exec B new (Run m) = Run m') /\
    len (wst_cache c') = 0%nat /\ len (rst_cache c') = 0%nat /\ in_memory (vmb := vmb) m' st /\
    (forall r, is_op r -> regs m' r = regs m r).
Proof.
  intros Hb Hr.
  destruct (wp_elim _ _ _ (hwp_clear c m H st Hr Hb))
    as ([] & c' & Hrun & m' & [[_ (new & E & R)] _] & _ & Hev & Hm & _ & H1 & H2).
  exists c', new, m'. split_and!; try done. apply Hev.
Qed.

(** C13: Pushing.  [buxn_jit_stack_cache_push] of a register puts its bytes on
    top of the stack, also when the cache is full and a cell is spilled. *)
Theorem cache_push_correct flag v c m H st :
  bound_ok (comp c) -> Rep c m H st -> reg v ∈ H ->
  let x := regs m (reg v) in
  val_in (is_short v) x -> (length (val_bytes (is_short v) x) + length (st flag) <= 256)%nat ->
  exists c' new m', buxn_jit_stack_cache_push flag v c = Ok (tt, c') /\
    code (comp c') = code (comp c) ++ new /\
    (forall B, binds (comp c') ⊆ B -> exec B new (Run m) = Run m') /\
    Rep c' m' H (set_stack flag (val_bytes (is_short v) x ++ st flag) st).
Proof.
  intros Hb Hr Hv x Hx Hlen.
  destruct (wp_elim _ _ _ (hwp_cache_push flag v c m H st Hr Hv Hx Hlen Hb))
    as ([] & c' & Hrun & m' & [[_ (new & E & R)] _] & Hr' & _).
  by exists c', new, m'.
Qed.

(** C14: Popping.  [buxn_jit_stack_cache_pop] gives a register with the top of
    the stack, a byte or a short, wherever the bytes are.  The registers may be
    distinct, with a free one for each pop to come, whatever the sizes of the
    cells are; or the operands to come are whole cells or in memory, and then
    cells may share a register.  What is asked for the next pop holds after
    this one. *)
Theorem cache_pop_correct pm pm' flag_2 flag c m H v l :
  bound_ok (comp c) -> PV (vmb := vmb) pm flag c m H (val_bytes flag_2 v ++ l) -> val_in flag_2 v ->
  pm_pop flag_2 pm pm' ->
  exists r c' new m', buxn_jit_stack_cache_pop flag flag_2 c = Ok (r, c') /\
    code (comp c') = code (comp c) ++ new /\
    (forall B, binds (comp c') ⊆ B -> exec B new (Run m) = Run m') /\
    regs m' r = v /\ PV (vmb := vmb) pm' flag c' m' (r :: H) l.
Proof.
  intros Hb Hpv Hv Hpm.
  destruct (wp_elim _ _ _ (hwp_cache_pop pm pm' flag_2 flag c m H v l Hpm Hpv Hv Hb))
    as (r & c' & Hrun & m' & [[_ (new & E & R)] _] & Hpv' & Hval & _).
  by exists r, c', new, m'.
Qed.
End SimCorrect.

(** ** Witnesses: a program on the reference machine *)

#[local] Existing Instances layout_ref vm_ref codegen_ref sljit_ref host_ref sljit_ref_spec.

Lemma layout_ref_spec : LayoutSpec 4096.
Proof.
  split; [| |done].
  - intros x Hx. unfold regions in Hx. rewrite !elem_of_cons in Hx.
    assert (Forall (fun x => 0 < fst x /\ 4096 + fst x + snd x <= 2 ^ word_bits)
      (regions (H := layout_ref))) as Hall by (repeat constructor; vm_compute; discriminate).
    rewrite Forall_forall in Hall. apply Hall. unfold regions. by rewrite !elem_of_cons.
  - intros i j x y Hi Hj Hne. unfold regions in *. unfold no_overlap.
    destruct i as [|[|[|[|[|[|]]]]]], j as [|[|[|[|[|[|]]]]]]; cbn in Hi, Hj; simplify_eq; cbn; lia.
Qed.

#[local] Existing Instance layout_ref_spec.

Definition start_state (l : list Z) : vm := mkVm (fun _ => []) (rom l) 256.

Lemma start_core l ws : Forall is_u8 ws -> (length ws < 256)%nat ->
  Core (vmb := 4096) (start_ctx l) (start_mach l ws).
Proof.
  intros Hws Hlen. split; [by eexists|..|done|by left].
  - intros r. unfold is_word. cbn. destruct r as [|[|[|]]]; lia.
  - intros a. cbn. repeat case_match; first [mlia|apply rom_byte|idtac].
    destruct (nth_in_or_default (Z.to_nat (a - 4096 - 64)) ws 0) as [Hin| ->]; [|mlia].
    rewrite Forall_forall in Hws. by apply Hws, list_elem_of_In.
Qed.

Lemma shows_start l : StackSim.Rep (vmb := 4096) (start_ctx l) (start_mach l []) [] (fun _ => []).
Proof.
  split.
  - apply start_good.
  - by apply start_core; [apply Forall_nil_2|simpl; lia].
  - intros [|]; apply Forall_nil_2.
  - intros r. split; [simpl; lia|]. exists []. split; [by destruct r|apply stk_nil].
  - intros [|]; apply (layered_all _ true), Forall_nil_2.
Qed.

(** [#05 #03 ADD BRK] *)
Definition sum : list Z := [0x80; 5; 0x80; 3; 0x18; 0].

(** [#05 DUP ADD DUP MUL BRK]: operands that share a register. *)
Definition twice : list Z := [0x80; 5; 0x06; 0x18; 0x06; 0x1a; 0].

Definition straight_ctx (k : nat) (l : list Z) : buxn_jit_ctx_t :=
  default (start_ctx l) (compile_straight k block_fuel (start_ctx l)).

Definition spec_end (k : nat) (l : list Z) : vm :=
  default (start_state l) (vm_run (rom l) k (start_state l)).

Lemma start_bound l : bound_ok (comp (start_ctx l)).
Proof. intros j x Hj. done. Qed.

Lemma start_shows l : Shows (vmb := 4096) (start_ctx l) (start_mach l []) (start_state l).
Proof.
  split; [exists []; apply shows_start|]. split; [done|]. intros y Hy. unfold MemSim.ram. cbn.
  unfold is_u16 in Hy. repeat case_match; try lia. f_equal. lia.
Qed.

Lemma straight_block_correct_witness :
  vm_stacks (spec_end 5 twice) false = [100] /\
  exists c' new m',
    buxn_jit_next_opcode (S block_fuel) (straight_ctx 5 twice) = Ok (tt, c') /\ compiler_ptr c' = None /\
    code (comp c') = code (comp (start_ctx twice)) ++ new /\
    (forall B, binds (comp c') ⊆ B -> exec B new (Run (start_mach twice [])) = Return 0x10000 m') /\
    left_by (vmb := 4096) (spec_end 5 twice) (start_mach twice []) m'.
Proof.
  split; [vm_compute; reflexivity|].
  apply (straight_block_correct (vmb := 4096) 5 block_fuel (start_ctx twice) (start_mach twice [])
           (start_state twice) (spec_end 5 twice) (straight_ctx 5 twice)).
  - apply start_bound.
  - apply start_shows.
  - vm_compute. reflexivity.
  - vm_compute. reflexivity.
  - vm_compute. reflexivity.
  - reflexivity.
Defined.

Lemma next_opcode_correct_witness :
  vm_stacks (spec_end 1 sum) false = [5] /\
  exists c' new m', buxn_jit_next_opcode (S block_fuel) (start_ctx sum) = Ok (tt, c') /\
    code (comp c') = code (comp (start_ctx sum)) ++ new /\
    (forall B, binds (comp c') ⊆ B -> exec B new (Run (start_mach sum [])) = Run m') /\
    Shows (vmb := 4096) c' m' (spec_end 1 sum) /\
    vm_memory (jit c') = vm_memory (jit (start_ctx sum)) /\ elsewhere (vmb := 4096) (start_mach sum []) m'.
Proof.
  split; [vm_compute; reflexivity|].
  apply (next_opcode_correct (vmb := 4096) block_fuel (start_ctx sum) (start_mach sum []) (start_state sum)
           (spec_end 1 sum)).
  - apply start_bound.
  - apply start_shows.
  - vm_compute. reflexivity.
  - reflexivity.
Defined.

(** The same context at address 0x20. *)
Definition low_ctx : buxn_jit_ctx_t := set_pc (fun _ => 0x20) (start_ctx sum).

Lemma zero_page_correct_witness :
  exists c' new m', buxn_jit_next_opcode (S block_fuel) low_ctx = Ok (tt, c') /\ compiler_ptr c' = None /\
    code (comp c') = code (comp low_ctx) ++ new /\
    (forall B, binds (comp c') ⊆ B -> exec B new (Run (start_mach sum [])) = Return 0x20 m') /\
    left_by (vmb := 4096) (mkVm (fun _ => []) (rom sum) 0x20) (start_mach sum []) m'.
Proof.
  apply (zero_page_correct (vmb := 4096) block_fuel low_ctx (start_mach sum [])
           (mkVm (fun _ => []) (rom sum) 0x20)).
  - apply start_bound.
  - split; [exists []; by apply (rep_like_view (start_ctx sum)); [apply shows_start|..]|].
    split; [done|]. apply start_shows.
  - split; [discriminate|reflexivity].
Defined.

(** One register held, nothing cached. *)
Lemma one_reg_rep : StackSim.Rep (vmb := 4096) one_reg (start_mach [] []) [op_reg 0] (fun _ => []).
Proof.
  apply (rep_view (start_ctx []) one_reg _ []); [reflexivity|apply one_reg_inv|apply shows_start].
Qed.

(** After [#05 DUP] two cells share a register and nothing is in memory. *)
Definition dup_ctx : buxn_jit_ctx_t := straight_ctx 2 twice.

Lemma clear_caches_correct_witness :
  live (wst_cache dup_ctx) <> [] /\ vm_stacks (spec_end 2 twice) false = [5; 5] /\
  exists m c' new m', buxn_jit_clear_stack_caches dup_ctx = Ok (tt, c') /\
    code (comp c') = code (comp dup_ctx) ++ new /\
    (forall B, binds (comp c') ⊆ B -> exec B new (Run m) = Run m') /\
    len (wst_cache c') = 0%nat /\ len (rst_cache c') = 0%nat /\
    in_memory (vmb := 4096) m' (vm_stacks (spec_end 2 twice)) /\
    (forall r, is_op r -> regs m' r = regs m r).
Proof.
  split; [vm_compute; discriminate|]. split; [vm_compute; reflexivity|].
  destruct (straight_sim (vmb := 4096) 2 block_fuel (start_ctx twice) (start_mach twice []) (start_state twice)
    (spec_end 2 twice) dup_ctx) as (m & _ & Hb & ([H Hr] & _) & _).
  - apply start_bound.
  - apply start_shows.
  - vm_compute. reflexivity.
  - reflexivity.
  - destruct (clear_caches_correct (vmb := 4096) dup_ctx m H (vm_stacks (spec_end 2 twice)) Hb Hr)
      as (c' & new & m' & E & Ec & Hx & H1 & H2 & Hm & Hk).
    exists m, c', new, m'. by split_and!.
Defined.

Lemma cache_push_correct_witness :
  let v := mkOperand 0 true 0 (op_reg 0) in
  exists c' new m', buxn_jit_stack_cache_push true v one_reg = Ok (tt, c') /\
    code (comp c') = code (comp one_reg) ++ new /\
    (forall B, binds (comp c') ⊆ B -> exec B new (Run (start_mach [] [])) = Run m') /\
    StackSim.Rep (vmb := 4096) c' m' [op_reg 0] (set_stack true [0; 0] (fun _ => [])).
Proof.
  apply (cache_push_correct (vmb := 4096) true (mkOperand 0 true 0 (op_reg 0)) one_reg (start_mach [] [])
           [op_reg 0] (fun _ => []));
    [intros j x Hj; done|apply one_reg_rep|by left|cbn; mlia|simpl; lia].
Defined.

(** Ready to pop the byte 7 of the working stack in memory. *)
Definition pop_ctx : buxn_jit_ctx_t := set_wsp_reg (fun _ => BUXN_JIT_S_WSP) (start_ctx []).

Lemma pop_ctx_inv : Inv pop_ctx [].
Proof. destruct (rp_inv _ _ _ _ (shows_start [])) as [Hc HH]. split; [|done]. by apply (counted_same (start_ctx [])). Qed.

Lemma pop_ctx_view : PV (vmb := 4096) (Distinct 1) false pop_ctx (start_mach [] [7]) [] [7].
Proof.
  split.
  - apply pop_ctx_inv.
  - apply (core_same (start_ctx [])); [done..|].
    apply start_core; [apply Forall_singleton; mlia|simpl; lia].
  - intros [|]; apply Forall_nil_2.
  - split; [apply NoDup_nil_2|]. vm_compute. lia.
  - by left.
  - exists [7]. split; [done|]. split; [simpl; lia|]. intros [|i] x Hi; cbn in Hi; [|by destruct i]. injection Hi as <-. reflexivity.
Qed.

Lemma cache_pop_correct_witness :
  exists r c' new m', buxn_jit_stack_cache_pop false false pop_ctx = Ok (r, c') /\
    code (comp c') = code (comp pop_ctx) ++ new /\
    (forall B, binds (comp c') ⊆ B -> exec B new (Run (start_mach [] [7])) = Run m') /\
    regs m' r = 7 /\ PV (vmb := 4096) (Distinct 0) false c' m' [r] [].
Proof.
  apply (cache_pop_correct (vmb := 4096) (Distinct 1) (Distinct 0) false false pop_ctx (start_mach [] [7]) [] 7 []);
    [intros j x Hj; done|exact pop_ctx_view|cbn; mlia|by exists 0%nat].
Defined.
