(* ===== verification/Console.v ===== *)
(** * A host with a console

    The machine of Concrete.v with one device: a byte sent to 0x18 is printed,
    every other address of the device page is memory.  What has been printed
    is the host's own memory, below the address 0, newest byte first.
    [console_spec]: it satisfies [HostSpec] for the obvious model. *)
From S2P Require Import Prelude Lir Hamt Jit StackCache Uxn Concrete Machine StackSim StepSim MemSim UxnControl UxnDevices HostSim SimCorrect.

Definition console_port : Z := 0x18.

Definition console_host : Host := {|
  vm_dei a mm := (mm (4096 + 592 + a), mm);
  vm_deo a mm :=
    if a =? console_port then
      fun x => if x =? -1 then mm (4096 + 592 + console_port) else if x <? -1 then mm (x + 1) else mm x
    else mm;
  clobber _ := 0xdeadbeef;
|}.

Record console := mkConsole {
  page_of : Z -> Z;
  printed : list Z;
}.

Definition console_model : DevModel := {|
  dev := console;
  dev_write a v d := mkConsole (fun x => if x =? a then v else page_of d x) (printed d);
  dev_in a s d := (u8 (page_of d a), (s, d));
  dev_out a s d :=
    (s, if a =? console_port then mkConsole (page_of d) (page_of d console_port :: printed d) else d);
|}.

#[local] Existing Instances layout_ref vm_ref sljit_ref sljit_ref_spec layout_ref_spec console_host console_model.

Definition console_world (mm : Z -> Z) (d : console) : Prop :=
  (forall a, is_u8 a -> mm (4096 + 592 + a) = page_of d a) /\
  forall n, mm (-1 - Z.of_nat n) = nth n (printed d) 0.

(** The addresses of the stacks, the memory and the device page. *)
Lemma console_deo_mem a mm x : 0 <= x -> vm_deo a mm x = mm x.
Proof.
  intros Hx. cbn. destruct (a =? console_port); [|done].
  destruct (Z.eqb_spec x (-1)), (Z.ltb_spec x (-1)); done || lia.
Qed.

Lemma console_out_world a mm d : console_world mm d ->
  console_world (vm_deo a mm) (snd (dev_out a (mkVm (fun _ => []) mm 0) d)).
Proof.
  intros [Hp Hl]. split.
  - intros x Hx. rewrite console_deo_mem by (unfold is_u8 in Hx; lia). rewrite Hp by done. cbn. by destruct (a =? _).
  - intros n. cbn. destruct (a =? console_port); [|apply Hl]. destruct n as [|n].
    + rewrite Hp by (unfold console_port; mlia). done.
    + rewrite (proj2 (Z.eqb_neq _ _)), (proj2 (Z.ltb_lt _ _)) by lia. cbn [nth printed]. rewrite <- Hl. f_equal. lia.
Qed.

Lemma console_out_image a mm s : Image (vmb := 4096) mm s -> Image (vmb := 4096) (vm_deo a mm) s.
Proof.
  intros [Hb Hst Hram]. split.
  - intros x. cbn. repeat case_match; apply Hb.
  - intros r. rewrite console_deo_mem by (destruct r; cbn; lia). eapply stk_mem; [|apply Hst].
    intros x Hx. apply console_deo_mem. unfold is_u8 in Hx. unfold base; destruct r; cbn; lia.
  - intros y Hy. rewrite console_deo_mem by (unfold is_u16 in Hy; cbn; lia). by apply Hram.
Qed.

Definition console_spec : HostSpec 4096.
Proof.
  unshelve refine {| world := console_world |}.
  - intros mm mm' d Ho [Hp Hl]. split.
    + intros a Ha. unfold is_u8 in Ha. rewrite Ho; [by apply Hp|intros []; unfold base; cbn; lia|cbn; lia..].
    + intros n. rewrite Ho; [apply Hl|intros []; unfold base; cbn; lia|cbn; lia..].
  - intros mm d a v Ha Hv [Hp Hl]. unfold is_u8 in Ha. split.
    + intros x Hx. cbn. destruct (Z.eqb_spec (4096 + 592 + x) (4096 + 592 + a)), (Z.eqb_spec x a); try lia.
      by apply Hp.
    + intros n. cbn. rewrite (proj2 (Z.eqb_neq _ _)) by lia. apply Hl.
  - intros mm s d a Ha Hi [Hp Hl]. exists s, d. cbn. rewrite Hp by done. done.
  - intros mm s d a Ha Hi Hw. exists s, (snd (dev_out a s d)). split; [done|].
    split; [by apply console_out_image|]. by apply console_out_world.
Defined.

(** ** The machine at the start *)

#[local] Existing Instance console_spec.

Lemma start_image l : Image (vmb := 4096) (mem (start_mach l [])) (start_state l).
Proof.
  pose proof (start_core l [] ltac:(apply Forall_nil_2) ltac:(simpl; lia)) as [_ Hw Hb Hvm _].
  split; [done|intros r; apply stk_nil|].
  intros y Hy. cbn. unfold is_u16 in Hy. repeat case_match; try lia. f_equal. lia.
Qed.

(** Nothing is printed and the device page is empty. *)
Definition silent_console : console := mkConsole (fun _ => 0) [].

Lemma start_world l ws : world (mem (start_mach l ws)) silent_console.
Proof.
  split.
  - intros a Ha. unfold is_u8 in Ha. cbn. repeat case_match; try done; lia.
  - intros n. cbn. rewrite (proj2 (Z.ltb_lt _ _)) by lia. by destruct n.
Qed.
