(* ===== verification/ControlCorrect.v ===== *)
(** * The compiled program implements uxn

    The theorems on compiled code that jumps, calls, returns and uses devices:
    a whole program, from the call of its first block to its end; the linked
    blocks; the blocks the JIT compiles; one opcode. *)
From S2P Require Import Prelude Lir Hamt Jit Queues StackCache Uxn MicroOps Opcodes Compile Concrete Invariant CacheSafety OpcodeSafety BlockSafety JitSafety Machine StackSim PopSim OperandSim StepSim MemSim FetchSim OpcodeCorrect UxnControl UxnDevices Emission Flows HostSim JumpSim ControlSim ControlOps DeviceSim BlockFlow LinkedRun Trampoline Session SessionInv JitRun BlockCorrect SimCorrect Console.
Local Open Scope jit_scope.

Section ControlCorrect.
Context {Lay : VmLayout} {SL : Sljit} {SP : SljitSpec} {HO : Host} {vmb : Z} {LS : LayoutSpec vmb}.
Context {VM : BuxnVm} {CG : CodeGen}.

#[local] Abbreviation Shows := (Shows (vmb := vmb)).
#[local] Abbreviation Parked := (Parked (vmb := vmb)).
#[local] Abbreviation Held := (Held (vmb := vmb)).
#[local] Abbreviation ParkedAll := (ParkedAll (vmb := vmb)).
#[local] Abbreviation ShowsAll := (ShowsAll (vmb := vmb)).
#[local] Abbreviation elsewhere := (elsewhere (vmb := vmb)).

(** C2: A whole program.  On a JIT that was asked for some addresses before
    - for none, when it is fresh - the function of the first block is called
    with the state [u] in the memory of the virtual machine; blocks jump to,
    call and return to each other through their links, the device opcodes
    call the host, and the trampoline compiles the blocks that are missing.
    When the specification stops after [k] steps, the function returns, with
    the exit value of the last state - 0x10000 at a BRK, a zero page address
    otherwise, never a negative number - and that state in memory: both stacks,
    their pointers, the RAM and the devices.  Every opcode compiled on the way
    has to be [poppable] - no pressure on the registers, no change to a register
    that cells share - and must not jump to the result of a comparison
    ([plain_execute]). *)
Theorem execute_fn_correct {DM : DevModel} {HS : HostSpec vmb} prog h n fuel k asked m u send :
  BUXN_RESET_VECTOR = 256 -> (forall a, is_u8 (prog a)) -> Forall is_u16 asked -> is_u16 (vm_pc (u_vm u)) ->
  words m -> regs m BUXN_JIT_S_VM = vmb -> Held (mem m) u ->
  uxn_ticks prog k u = Some send -> stops prog (u_vm send) -> (k <= n)%nat -> (k < fuel)%nat ->
  plain_execute prog h n fuel asked (vm_pc (u_vm u)) m = true ->
  exists m' asked', execute_fn prog h n fuel asked (vm_pc (u_vm u)) m =
      (Done (exit_value (u_vm send)) m', asked') /\
    0 <= exit_value (u_vm send) /\ Held (mem m') send /\ Forall is_u16 asked'.
Proof. intros. by eapply execute_fn_sim. Qed.

(** C3: Linked blocks.  Compiled blocks whose links lead to one another,
    entered at the head or the body of one of them from a machine between two
    blocks, return - after at most as many entries as the specification has
    steps left - the pc of a later state that is in memory, or the exit value
    of the last one. *)
Theorem enter_correct {DM : DevModel} {HS : HostSpec vmb} cache prog fuel k ty m u send :
  linked_cache cache prog -> stops prog (u_vm send) -> (k < fuel)%nat ->
  is_Some (cache (vm_pc (u_vm u))) -> ParkedAll m u -> uxn_ticks prog k u = Some send ->
  exists v m', enter cache fuel ty (vm_pc (u_vm u)) m = Some (v, m') /\
    ((exists u' k', (k' < k)%nat /\ uxn_ticks prog k' u' = Some send /\ v = vm_pc (u_vm u') /\
        ParkedAll m' u') \/
     (v = exit_value (u_vm send) /\ ParkedAll m' send)).
Proof.
  intros Hc Hs Hk Hb Hp Ht.
  destruct (enter_sim cache prog send Hs Hc fuel k ty m u Hk Hb Hp Ht) as (v & m' & E & _ & Ha).
  exists v, m'. split; [done|]. destruct Ha as [(u' & k' & ? & ? & ? & _ & ?)|]; [left|by right].
  by exists u', k'.
Qed.

(** C4: The blocks the JIT compiles are linked.  Whatever addresses a fresh JIT
    is asked for, each of them has a block, and no address has two; every block,
    whatever its opcodes, is compiled from the program on a well-formed JIT,
    each jump of it is linked at most once, and every link leads to the address
    of another compiled block. *)
Theorem session_linked prog h pcs :
  (forall a, is_u8 (prog a)) -> Forall is_u16 pcs ->
  let l := session pcs (buxn_jit_init prog h) in
  NoDup (fst <$> l) /\
  (forall pc, pc ∈ pcs -> is_Some (cache_of l pc)) /\
  forall t blk, cache_of l t = Some blk ->
    compiled_at prog t blk /\ links_once (cb_id blk) (jit (cb_end blk)) /\
    forall j ty t', Linked (cb_id blk) j ty t' (jit (cb_end blk)) -> is_Some (cache_of l t').
Proof.
  intros Hp Hpcs l. destruct (session_closed prog pcs h Hp Hpcs) as (Hd & Hcov & Hc). fold l in Hd, Hcov, Hc.
  split; [done|]. split; [done|]. intros t blk Ht. destruct (Hc t blk Ht) as [Hb Hl].
  split; [done|]. split; [|done]. by apply (compiled_links prog t).
Qed.

(** C18: The blocks are counted.  After any sequence of requests to a fresh JIT
    the block store has one block for each address that was compiled and no
    other, among them those asked for; no address has two blocks, and the
    counter of the statistics is the number of blocks compiled, at most
    65536. *)
Theorem session_counted prog h pcs :
  (forall a, is_u8 (prog a)) -> Forall is_u16 pcs ->
  let l := session pcs (buxn_jit_init prog h) in
  exists s', buxn_jit_calls pcs (buxn_jit_init prog h) = Ok s' /\
    key <$> block_store s' ≡ₚ fst <$> l /\ NoDup (key <$> block_store s') /\
    (forall pc, pc ∈ pcs -> pc ∈ key <$> block_store s') /\
    num_blocks (stats s') = Z.of_nat (length l) /\ num_blocks (stats s') <= 65536.
Proof.
  intros Hp Hpcs l. destruct (session_store prog pcs h Hp Hpcs) as (s' & E & Hok & Hperm & Hcov).
  destruct (session_closed prog pcs h Hp Hpcs) as (Hd & _). fold l in Hperm, Hcov, Hd.
  pose proof (Permutation_length Hperm) as Hlen. rewrite !length_fmap in Hlen.
  exists s'. split; [done|]. split; [done|]. split; [by rewrite Hperm|].
  split; [intros pc Hpc; rewrite Hperm; by apply Hcov|].
  rewrite (ok_count s' Hok), Hlen. split; [done|]. pose proof (block_bound s' Hok). lia.
Qed.

(** C5: Linking.  Whatever addresses a fresh JIT is asked for, its calls end
    with empty queues, and every link of a compiled block has become one patch:
    the jump is set to the address that the code generator gave to the entry -
    head or body - of the block compiled for the address it leads to, with
    that code's executable offset, and to no other; only an entry at address
    0 is left out. *)
Theorem session_patched prog h pcs :
  (forall a, is_u8 (prog a)) -> Forall is_u16 pcs ->
  let l := session pcs (buxn_jit_init prog h) in
  exists s', buxn_jit_calls pcs (buxn_jit_init prog h) = Ok s' /\ idle s' /\
    forall t blk j ty t', cache_of l t = Some blk ->
      link_of (cb_id blk) (jit (cb_end blk)) j = Some (ty, t') ->
      exists blk', cache_of l t' = Some blk' /\
        patches_of (cb_id blk) j s' = link_patch (cb_id blk) j ty blk'.
Proof. exact (session_patches prog pcs h). Qed.

(** C6: One opcode, jumps included.  Let the next opcode be [poppable] - no
    pressure on the registers and no change to a register that cells share -
    and let it not jump to the result of a comparison ([plain_next]), the jump
    that is compiled by executing or skipping the opcode after it.  Its code
    falls through to a machine that shows the next state of the specification,
    or leaves for its pc: by returning it, through a link to the body of its
    block, or through a call of its head that is followed by a comparison of
    the address it returns. *)
Theorem next_opcode_jumps call fuel id c m s s' :
  bound_ok (comp c) -> Shows c m s -> (exists H, Good c H) -> compiler_ptr c = Some id ->
  poppable c = true -> plain_next c = true -> vm_tick (vm_memory (jit c)) s = Some s' ->
  exists c' new fl, buxn_jit_next_opcode (S fuel) c = Ok (tt, c') /\
    code (comp c') = code (comp c) ++ new /\
    (forall B, binds (comp c') ⊆ B -> xexec call B new (Run m) = fl) /\
    ((exists m', fl = Run m' /\ Shows c' m' s' /\ elsewhere m m') \/
     exists m', Parked m' s' /\ elsewhere m m' /\
       (fl = Return (vm_pc s') m' \/
        (exists j, Linked id j BUXN_JIT_LINK_TO_BODY (vm_pc s') (jit c') /\ fl = Leave j m') \/
        (exists j, Linked id j BUXN_JIT_LINK_TO_HEAD (vm_pc s') (jit c') /\
           fl = call_flow (pc c') (call j m') /\ Resumes c'))).
Proof.
  intros Hb Hsh Hg Hid Hp Hpl Ht.
  destruct (wp_elim _ _ _ (next_opcode_flow call fuel id c m s s' Hsh Hg Hid Hp Hpl Ht Hb))
    as ([] & c' & E & _ & _ & new & fl & Ec & Hx & Hout).
  exists c', new, fl. split; [done|]. split; [done|]. split; [done|].
  destruct Hout as [Hrun|(ra & (m' & Hpk & He & Hgo) & Hra)]; [by left|right]. exists m'.
  split; [done|]. split; [done|]. destruct Hgo as [[-> _]|[(j & Hl & ->)|(Hne & Hmb & j & Hl & ->)]]; [by left|..].
  - right. left. by exists j.
  - right. right. exists j. destruct (Hra Hne) as (<- & Hu & Hi). done.
Qed.

(** C7: A device opcode.  Let it be [poppable]: its operands are popped without
    pressure on the registers, and without splitting or joining cells that
    share a register.  The code compiled for DEI or DEO stores the operand
    in the device page, gives both stacks back to the host, calls it through
    the helpers and takes the stacks up again: it falls through to a machine
    that shows the state the specification and the model of the devices
    compute, whatever the device did to the stacks, the memory or itself. *)
Theorem next_opcode_devices {DM : DevModel} {HS : HostSpec vmb} fuel c m u u' :
  bound_ok (comp c) -> ShowsAll c m u -> poppable c = true ->
  is_device (opcode_name (next_byte c)) = true -> uxn_tick (vm_memory (jit c)) u = Some u' ->
  exists c' m', buxn_jit_next_opcode (S fuel) c = Ok (tt, c') /\
    runs (comp c) (comp c') m m' /\ ShowsAll c' m' u'.
Proof.
  intros Hb Hsh Hp Hd Ht.
  destruct (wp_elim _ _ _ (device_opcode_sim fuel c m u u' Hsh Hp Hd Ht Hb)) as ([] & c' & E & m' & [Hr _] & Hsh').
  by exists c', m'.
Qed.
End ControlCorrect.

(** ** Witnesses on the reference machine *)

#[local] Existing Instances layout_ref vm_ref codegen_ref sljit_ref sljit_ref_spec layout_ref_spec
  console_host console_model console_spec.

(** [#03 #00 @loop POP #01 SUB #f9 JCNk POP #05 inc ;next LDA2 JMP2 |0116 next
    @inc INC JMP2r @next INC #18 DEI ADD #18 DEOk BRK]: a loop, a call, a jump
    to an address loaded from memory, which is compiled when it is reached, an
    input and an output. *)
Definition tour : list Z :=
  [0x80; 3; 0x80; 0; 0x02; 0x80; 1; 0x19; 0x80; 0xf9; 0x8d; 0x02; 0x80; 5; 0x60; 0; 7;
   0xa0; 1; 0x16; 0x34; 0x2c; 0x01; 0x1a; 0x01; 0x6c; 0x01; 0x80; 0x18; 0x16; 0x18; 0x80; 0x18; 0x97; 0].

Lemma start_words l : words (start_mach l []).
Proof. apply (start_core l [] ltac:(apply Forall_nil_2) ltac:(simpl; lia)). Qed.

Definition tour_start : uxn := mkUxn _ (start_state tour) silent_console.
Definition tour_end : uxn := default tour_start (uxn_ticks (rom tour) 31 tour_start).

Lemma tour_runs : uxn_ticks (rom tour) 31 tour_start = Some tour_end.
Proof. apply some_default. vm_compute. reflexivity. Qed.

Lemma execute_fn_correct_witness :
  vm_stacks (u_vm tour_end) false = [0x18; 7; 0] /\ printed (u_dev tour_end) = [7] /\
  exists m' asked', execute_fn (rom tour) None 31 32 [0x11a] 256 (start_mach tour []) =
      (Done 0x10000 m', asked') /\
    0 <= exit_value (u_vm tour_end) /\ Held (vmb := 4096) (mem m') tour_end /\ Forall is_u16 asked'.
Proof.
  split; [vm_compute; reflexivity|]. split; [vm_compute; reflexivity|].
  apply (execute_fn_correct (vmb := 4096) (rom tour) None 31 32 31 [0x11a] (start_mach tour []) tour_start tour_end).
  - reflexivity.
  - apply rom_byte.
  - repeat constructor; discriminate.
  - split; [discriminate|reflexivity].
  - apply start_words.
  - reflexivity.
  - split; [apply start_image|apply start_world].
  - exact tour_runs.
  - right. vm_compute. reflexivity.
  - lia.
  - lia.
  - vm_compute. reflexivity.
Defined.

(** The blocks compiled for the reset vector: 0x0100, the call and the loop.  The
    jump to the loaded address returns it. *)
Definition tour_blocks : list (Z * cblock) := session [256] (start_jit tour).

Lemma tour_cache : linked_cache (cache_of tour_blocks) (rom tour).
Proof.
  apply (session_cache (rom tour) [256] None (rom_byte tour)).
  - repeat constructor. discriminate.
  - vm_compute. reflexivity.
Qed.

Lemma start_parked l : Parked (vmb := 4096) (start_mach l []) (start_state l).
Proof.
  pose proof (start_image l) as [Hb Hst Hram]. split; [apply start_words|done|done| |done].
  intros r. apply stk_nil.
Qed.

Lemma enter_correct_witness :
  exists v m', enter (cache_of tour_blocks) 32 BUXN_JIT_LINK_TO_HEAD 256 (start_mach tour []) = Some (v, m') /\
    ((exists u' k', (k' < 31)%nat /\ uxn_ticks (rom tour) k' u' = Some tour_end /\ v = vm_pc (u_vm u') /\
        ParkedAll (vmb := 4096) m' u') \/
     (v = exit_value (u_vm tour_end) /\ ParkedAll (vmb := 4096) m' tour_end)).
Proof.
  apply (enter_correct (vmb := 4096) (cache_of tour_blocks) (rom tour) 32 31 BUXN_JIT_LINK_TO_HEAD
           (start_mach tour []) tour_start tour_end).
  - exact tour_cache.
  - right. vm_compute. reflexivity.
  - lia.
  - vm_compute. by eexists.
  - split; [apply start_parked|apply start_world].
  - exact tour_runs.
Defined.

Lemma session_linked_witness :
  let l := session [256; 282] (buxn_jit_init (rom tour) None) in
  (fst <$> l) = [256; 280; 260; 282] /\
  NoDup (fst <$> l) /\
  (forall pc, pc ∈ [256; 282] -> is_Some (cache_of l pc)) /\
  forall t blk, cache_of l t = Some blk ->
    compiled_at (rom tour) t blk /\ links_once (cb_id blk) (jit (cb_end blk)) /\
    forall j ty t', Linked (cb_id blk) j ty t' (jit (cb_end blk)) -> is_Some (cache_of l t').
Proof.
  split; [vm_compute; reflexivity|].
  apply (session_linked (rom tour) None [256; 282]).
  - apply rom_byte.
  - repeat constructor; discriminate.
Defined.

(** The second request finds a block that the first one compiled. *)
Lemma session_counted_witness :
  let l := session [256; 280; 282] (buxn_jit_init (rom tour) None) in
  length l = 4%nat /\
  exists s', buxn_jit_calls [256; 280; 282] (buxn_jit_init (rom tour) None) = Ok s' /\
    key <$> block_store s' ≡ₚ fst <$> l /\ NoDup (key <$> block_store s') /\
    (forall pc, pc ∈ [256; 280; 282] -> pc ∈ key <$> block_store s') /\
    num_blocks (stats s') = Z.of_nat (length l) /\ num_blocks (stats s') <= 65536.
Proof.
  split; [vm_compute; reflexivity|].
  apply (session_counted (rom tour) None [256; 280; 282]).
  - apply rom_byte.
  - repeat constructor; discriminate.
Defined.

(** The call of [inc] and the loop have links to patch. *)
Lemma session_patched_witness :
  match buxn_jit_calls [256; 282] (buxn_jit_init (rom tour) None) with
  | Ok s' => length (patches s') = 4%nat
  | _ => False
  end /\
  exists s', buxn_jit_calls [256; 282] (buxn_jit_init (rom tour) None) = Ok s' /\ idle s' /\
    forall t blk j ty t', cache_of (session [256; 282] (buxn_jit_init (rom tour) None)) t = Some blk ->
      link_of (cb_id blk) (jit (cb_end blk)) j = Some (ty, t') ->
      exists blk', cache_of (session [256; 282] (buxn_jit_init (rom tour) None)) t' = Some blk' /\
        patches_of (cb_id blk) j s' = link_patch (cb_id blk) j ty blk'.
Proof.
  split; [vm_compute; reflexivity|].
  apply (session_patched (rom tour) None [256; 282]).
  - apply rom_byte.
  - repeat constructor; discriminate.
Defined.

(** [!skip INC @skip BRK] *)
Definition skip : list Z := [0x40; 0; 1; 0x01; 0].

Lemma shows_start_state l : Shows (vmb := 4096) (start_ctx l) (start_mach l []) (start_state l).
Proof.
  split; [exists []; apply shows_start|]. split; [done|]. apply (start_image l).
Qed.

Lemma next_opcode_jumps_witness :
  let s' := mkVm (fun _ => []) (rom skip) 0x104 in
  exists c' new fl, buxn_jit_next_opcode (S block_fuel) (start_ctx skip) = Ok (tt, c') /\
    code (comp c') = code (comp (start_ctx skip)) ++ new /\
    (forall B, binds (comp c') ⊆ B -> xexec no_call B new (Run (start_mach skip [])) = fl) /\
    ((exists m', fl = Run m' /\ Shows (vmb := 4096) c' m' s' /\ elsewhere (vmb := 4096) (start_mach skip []) m') \/
     exists m', Parked (vmb := 4096) m' s' /\ elsewhere (vmb := 4096) (start_mach skip []) m' /\
       (fl = Return (vm_pc s') m' \/
        (exists j, Linked 0 j BUXN_JIT_LINK_TO_BODY (vm_pc s') (jit c') /\ fl = Leave j m') \/
        (exists j, Linked 0 j BUXN_JIT_LINK_TO_HEAD (vm_pc s') (jit c') /\
           fl = call_flow (pc c') (no_call j m') /\ Resumes c'))).
Proof.
  intros s'.
  apply (next_opcode_jumps (vmb := 4096) no_call block_fuel 0 (start_ctx skip) (start_mach skip [])
           (start_state skip) s').
  - apply start_bound.
  - apply shows_start_state.
  - exists []. apply start_good.
  - reflexivity.
  - vm_compute. reflexivity.
  - vm_compute. reflexivity.
  - reflexivity.
Defined.

(** [DEO], with the port of the console on top of a 7. *)
Definition prints : list Z := [0x17; 0].
Definition prints_start : uxn :=
  mkUxn _ (mkVm (fun r => if r then [] else [console_port; 7]) (rom prints) 256) silent_console.
Definition prints_end : uxn := default prints_start (uxn_tick (rom prints) prints_start).

Lemma prints_shows : ShowsAll (vmb := 4096) (start_ctx prints) (start_mach prints [7; console_port]) prints_start.
Proof.
  split; [split; [exists []; split|split]|apply start_world].
  - apply start_good.
  - apply start_core; [repeat constructor; discriminate|simpl; lia].
  - intros [|]; apply Forall_nil_2.
  - intros r. split; [destruct r; simpl; lia|]. exists (vm_stacks (u_vm prints_start) r). split; [by destruct r|].
    destruct r; [apply stk_nil|]. split; [simpl; lia|]. intros i x Hi. by destruct i as [|[|i]]; cbn in Hi; simplify_eq.
  - intros [|]; apply (layered_all _ true), Forall_nil_2.
  - done.
  - intros y Hy. unfold MemSim.ram. cbn. unfold is_u16 in Hy. repeat case_match; try lia. f_equal. lia.
Qed.

Lemma next_opcode_devices_witness :
  printed (u_dev prints_end) = [7] /\
  exists c' m', buxn_jit_next_opcode (S block_fuel) (start_ctx prints) = Ok (tt, c') /\
    runs (comp (start_ctx prints)) (comp c') (start_mach prints [7; console_port]) m' /\
    ShowsAll (vmb := 4096) c' m' prints_end.
Proof.
  split; [vm_compute; reflexivity|].
  apply (next_opcode_devices (vmb := 4096) block_fuel (start_ctx prints) (start_mach prints [7; console_port])
           prints_start prints_end).
  - apply start_bound.
  - apply prints_shows.
  - vm_compute. reflexivity.
  - vm_compute. reflexivity.
  - reflexivity.
Defined.
