(* ===== verification/JitCorrect.v ===== *)
(** * What a caller of src/jit.c relies on

    The theorems about [buxn_jit], its loops and the trampoline's
    callback: they always return, they return the block of the address asked
    for, and between calls no work is pending. *)
From S2P Require Import Prelude Lir Hamt Jit Queues StackCache MicroOps Opcodes Compile Concrete Invariant CacheSafety OpcodeSafety BlockSafety JitSafety Session.
Local Open Scope jit_scope.

(** ** Lemmas *)

Section Calls.
Context {Lay : VmLayout} {SL : Sljit} {VM : BuxnVm} {CG : CodeGen}.

Lemma key_at_block s b pc : key_at s b = Some pc -> exists B, block_store s !! b = Some B /\ key B = pc.
Proof. unfold key_at. destruct (block_store s !! b) as [B|]; [|done]. intros [= <-]. eauto. Qed.

Lemma block_at_lookup s b B : block_store s !! b = Some B -> block_at s b = B.
Proof. intros Hb. unfold block_at. by rewrite nth_lookup, Hb. Qed.

(** A compiled block is found again without any work. *)
Lemma buxn_jit_cached s pc b B :
  jit_ok s -> key_at s b = Some pc -> block_store s !! b = Some B -> fn B <> 0 ->
  buxn_jit s pc = Ok (b, s).
Proof.
  intros Hok Hb HB Hfn. unfold buxn_jit, buxn_jit_queue_block.
  apply (ok_map s Hok) in Hb. rewrite Hb, (block_at_lookup s b B HB).
  destruct (Z.eqb_spec (fn B) 0); done.
Qed.

Lemma no_compiler_left s i k : jit_ok s -> idle s -> compilers s !! i <> Some (Some k).
Proof.
  intros Hok (_ & _ & Hc) Hi. apply (ok_cleanup s Hok) in Hi. rewrite Hc in Hi.
  by apply elem_of_nil in Hi.
Qed.

(** The patches of one entry point at the block it names. *)
Lemma entry_patch_target s e p :
  p ∈ entry_patch s e ->
  p_target p <> 0 /\ p_offset p = executable_offset (block_at s (e_block e)) /\
  (p_target p = head_addr (block_at s (e_block e)) \/ p_target p = body_addr (block_at s (e_block e))).
Proof.
  unfold entry_patch. destruct (e_union e) as [j|]; [|by intros ?%elem_of_nil].
  destruct (link_type e); cbv zeta;
    match goal with |- context [?x =? 0] => destruct (Z.eqb_spec x 0) end;
    try (by intros ?%elem_of_nil); intros ->%list_elem_of_singleton; cbn; auto.
Qed.

Lemma start_ok l : jit_ok (start_jit l) /\ idle (start_jit l).
Proof. apply init_ok, rom_byte. Qed.
End Calls.

(** ** The driver *)

Section Driver.
Context {Lay : VmLayout} {SL : Sljit} {VM : BuxnVm} {CG : CodeGen}.

(** C8: [buxn_jit] is total.  From a well-formed, idle JIT it returns - no
    assertion fails and the loops over the three queues end - and what it
    returns is the block of the address asked for.  The JIT is well-formed
    and idle again, and every block known before is still there. *)
Theorem buxn_jit_total s pc :
  jit_ok s -> idle s -> is_u16 pc ->
  exists b s', buxn_jit s pc = Ok (b, s') /\ jit_ok s' /\ idle s' /\
    key_at s' b = Some pc /\ (forall b0 pc0, key_at s b0 = Some pc0 -> key_at s' b0 = Some pc0).
Proof.
  intros Hok Hi Hpc. destruct (buxn_jit_spec s pc Hok Hi Hpc) as (b & s' & Hrun & ? & ? & ? & ? & _).
  exists b, s'. auto.
Qed.

(** C9: compilation is transitive.  If code generation succeeds, then after
    [buxn_jit] not only the block asked for but every block the JIT knows -
    thus every block a jump of the new code was linked to - has code. *)
Theorem buxn_jit_compiles_all s pc b s' :
  CodeGenSpec -> jit_ok s -> idle s -> is_u16 pc -> all_compiled s ->
  buxn_jit s pc = Ok (b, s') -> all_compiled s' /\ fn (block_at s' b) <> 0.
Proof.
  intros Hgen Hok Hi Hpc Hall Hrun.
  destruct (buxn_jit_spec s pc Hok Hi Hpc) as (b1 & s1 & Hrun1 & _ & _ & Hk & _ & Hc).
  rewrite Hrun in Hrun1. injection Hrun1 as <- <-. split; [auto|].
  destruct (key_at_block _ _ _ Hk) as (B & HB & _). rewrite (block_at_lookup _ _ _ HB).
  by apply (Hc Hgen Hall b B).
Qed.

Lemma calls_keep pcs : forall s s2 b pc,
  CodeGenSpec -> jit_ok s -> idle s -> all_compiled s -> key_at s b = Some pc -> Forall is_u16 pcs ->
  buxn_jit_calls pcs s = Ok s2 -> jit_ok s2 /\ all_compiled s2 /\ key_at s2 b = Some pc.
Proof.
  induction pcs as [|t pcs IH]; intros s s2 b pc Hgen Hok Hi Hall Hk Hpcs; cbn [buxn_jit_calls].
  { intros [= <-]. done. }
  apply Forall_cons in Hpcs as [Ht Hpcs].
  destruct (buxn_jit_spec s t Hok Hi Ht) as (b1 & s1 & -> & Hok1 & Hi1 & _ & Hkeep & Hc).
  apply (IH s1); try done; [|by apply Hkeep]. by apply Hc.
Qed.

(** C36: A compiled address is never compiled again.  Once [buxn_jit] has
    answered for an address, asking for it again, whatever was asked for in
    between, returns the same block and leaves the JIT as it is: nothing is
    queued, compiled, linked or counted. *)
Theorem buxn_jit_idempotent pcs s pc b s1 s2 :
  CodeGenSpec -> jit_ok s -> idle s -> is_u16 pc -> all_compiled s -> Forall is_u16 pcs ->
  buxn_jit s pc = Ok (b, s1) -> buxn_jit_calls pcs s1 = Ok s2 -> buxn_jit s2 pc = Ok (b, s2).
Proof.
  intros Hgen Hok Hi Hpc Hall Hpcs Hrun Hcalls.
  destruct (buxn_jit_spec s pc Hok Hi Hpc) as (b1 & s1' & Hrun1 & Hok1 & Hi1 & Hk & _ & Hc).
  rewrite Hrun in Hrun1. injection Hrun1 as <- <-.
  destruct (calls_keep pcs s1 s2 b pc) as (Hok2 & Hall2 & Hk2); try done; [by apply Hc|].
  destruct (key_at_block _ _ _ Hk2) as (B & HB & _).
  apply (buxn_jit_cached s2 pc b B); try done. by apply (Hall2 b B).
Qed.

(** C17: no compiler leaks.  Every [sljit_compiler] created while an address
    was compiled has been freed when [buxn_jit] returns. *)
Theorem buxn_jit_frees_compilers s pc b s' :
  jit_ok s -> idle s -> is_u16 pc -> buxn_jit s pc = Ok (b, s') ->
  forall i k, compilers s' !! i <> Some (Some k).
Proof.
  intros Hok Hi Hpc Hrun i k.
  destruct (buxn_jit_spec s pc Hok Hi Hpc) as (b1 & s1 & Hrun1 & Hok1 & Hi1 & _).
  rewrite Hrun in Hrun1. injection Hrun1 as <- <-. by apply no_compiler_left.
Qed.

(** the compile loop ends and drains its queue.  With the fuel
    [queue_fuel] (one iteration per 16-bit address) it compiles every queued
    block and all the blocks queued meanwhile, without a failure. *)
Theorem compile_all_drains s :
  jit_ok s -> (length (compile_queue s) <= length (block_store s))%nat ->
  exists s', compile_all queue_fuel s = Ok s' /\ jit_ok s' /\ compile_queue s' = [].
Proof.
  intros Hok Hle. destruct (compile_all_enough s Hok Hle) as (s' & ? & ? & ? & _). eauto.
Qed.

(** the link loop.  Every jump of the queue is patched, in queue order,
    with the address of the head or of the body of the block it names and
    that block's executable offset; jumps to blocks without code stay as
    they are; the queue is empty afterwards and no block changes. *)
Theorem link_all_patches s :
  let s' := link_all (link_queue s) s in
  link_queue s' = [] /\ block_store s' = block_store s /\ compilers s' = compilers s /\
  patches s' = patches s ++ concat (entry_patch s <$> link_queue s) /\
  forall e p, e ∈ link_queue s -> p ∈ entry_patch s e ->
    p_target p <> 0 /\ p_offset p = executable_offset (block_at s (e_block e)) /\
    (p_target p = head_addr (block_at s (e_block e)) \/ p_target p = body_addr (block_at s (e_block e))).
Proof.
  destruct (link_all_spec (link_queue s) s) as [pool ->]. cbn.
  do 4 (split; [done|]). intros e p _. apply entry_patch_target.
Qed.

(** C10: one block.  Compiling an entry of the compile queue finishes without
    a failed assertion for any program, any opcode table and any code
    generator; the JIT stays well-formed, and each block added is queued. *)
Theorem buxn_jit_compile_total e s :
  jit_ok s -> compile_entry_ok s e -> e_compiler e ∉ e_compiler <$> compile_queue s ->
  exists s', buxn_jit_compile e s = Ok s' /\ jit_ok s' /\
    (length (block_store s') + length (compile_queue s) =
     length (block_store s) + length (compile_queue s'))%nat /\
    (CodeGenSpec -> done_or (fun b => b = e_block e) s -> done_or (fun _ => False) s').
Proof.
  intros Hok He Hf. destruct (compile_spec e s Hok He Hf) as (s' & ? & []). eauto 10.
Qed.

(** the callback of the trampoline is total on any machine word: the
    target is truncated to 16 bits and the head of its block is returned. *)
Theorem translate_jump_addr_total s target :
  jit_ok s -> idle s ->
  exists a s' b, buxn_jit_translate_jump_addr s target = Ok (a, s') /\ jit_ok s' /\ idle s' /\
    key_at s' b = Some (u16 target) /\ a = head_addr (block_at s' b).
Proof.
  intros Hok Hi. destruct (buxn_jit_spec s (u16 target) Hok Hi ltac:(apply u16_range))
    as (b & s' & Hrun & ? & ? & ? & _).
  exists (head_addr (block_at s' b)), s', b. unfold buxn_jit_translate_jump_addr.
  rewrite Hrun. auto.
Qed.

End Driver.

(** ** Witnesses: a program with a loop and a call, on the concrete instances *)

#[local] Existing Instances layout_ref vm_ref codegen_ref sljit_ref host_ref.

(** [|0100 ;0105 JMP2 ... BRK]: LIT2 0x0106 JMP2 BRK ... INC BRK *)
Definition demo : list Z := [0xa0; 0x01; 0x06; 0x2c; 0; 0; 0x80; 1; 0x01; 0].

Lemma codegen_ref_spec : CodeGenSpec.
Proof. intros k. done. Qed.

Lemma demo_all_compiled : all_compiled (start_jit demo).
Proof. intros b B Hb. cbn in Hb. by rewrite lookup_nil in Hb. Qed.

Lemma buxn_jit_total_witness :
  exists b s', buxn_jit (start_jit demo) 256 = Ok (b, s') /\ jit_ok s' /\ idle s' /\
    key_at s' b = Some 256 /\
    (forall b0 pc0, key_at (start_jit demo) b0 = Some pc0 -> key_at s' b0 = Some pc0).
Proof.
  apply (buxn_jit_total (start_jit demo) 256);
    [apply start_ok|apply start_ok|split; [discriminate|reflexivity]].
Defined.

(** The JIT after the first call on [demo]. *)
Definition demo_jit : buxn_jit_t :=
  match buxn_jit (start_jit demo) 256 with Ok (_, s) => s | _ => start_jit demo end.

Lemma demo_run_ok : buxn_jit (start_jit demo) 256 = Ok (0%nat, demo_jit).
Proof.
  assert (fst (match buxn_jit (start_jit demo) 256 with Ok r => r | _ => (1%nat, start_jit demo) end)
    = 0%nat) as E by (vm_compute; reflexivity).
  unfold demo_jit. destruct (buxn_jit (start_jit demo) 256) as [[b s]| |]; [|done|done].
  cbn in E. by subst b.
Qed.

#[local] Opaque demo_jit buxn_jit start_jit.

Lemma ok_inj {A B} (a a' : A) (b b' : B) : Ok (a, b) = Ok (a', b') -> a = a' /\ b = b'.
Proof. intros [=]. done. Qed.

Lemma demo_ok : jit_ok demo_jit /\ idle demo_jit.
Proof.
  destruct (buxn_jit_spec (start_jit demo) 256) as (b & s' & Hrun & Hok & Hi & _);
    [apply start_ok|apply start_ok|split; [discriminate|reflexivity]|].
  rewrite demo_run_ok in Hrun. apply ok_inj in Hrun as [_ E]. rewrite E. auto.
Qed.

Lemma demo_pc : is_u16 256.
Proof. split; [discriminate|reflexivity]. Qed.

Lemma buxn_jit_compiles_all_witness : all_compiled demo_jit /\ fn (block_at demo_jit 0) <> 0.
Proof.
  apply (buxn_jit_compiles_all (start_jit demo) 256 0 demo_jit);
    [apply codegen_ref_spec|apply start_ok|apply start_ok|apply demo_pc|apply demo_all_compiled|
     apply demo_run_ok].
Defined.

(** The block of another address is compiled in between. *)
Definition demo_later : buxn_jit_t :=
  match buxn_jit_calls [264] demo_jit with Ok s => s | _ => demo_jit end.

Lemma demo_later_ok : buxn_jit_calls [264] demo_jit = Ok demo_later.
Proof.
  unfold demo_later. assert (exists s, buxn_jit_calls [264] demo_jit = Ok s) as [s ->]; [|done].
  destruct (buxn_jit_spec demo_jit 264) as (b & s' & Hrun & _);
    [apply demo_ok|apply demo_ok|split; [discriminate|reflexivity]|].
  cbn [buxn_jit_calls]. rewrite Hrun. by eexists.
Qed.

Lemma buxn_jit_idempotent_witness : buxn_jit demo_later 256 = Ok (0%nat, demo_later).
Proof.
  apply (buxn_jit_idempotent [264] (start_jit demo) 256 0 demo_jit demo_later);
    [apply codegen_ref_spec|apply start_ok|apply start_ok|apply demo_pc|apply demo_all_compiled| |
     apply demo_run_ok|apply demo_later_ok].
  repeat constructor; discriminate.
Defined.

Lemma buxn_jit_frees_compilers_witness :
  compilers demo_jit !! 0%nat <> Some (Some sljit_create_compiler).
Proof.
  apply (buxn_jit_frees_compilers (start_jit demo) 256 0 demo_jit);
    [apply start_ok|apply start_ok|apply demo_pc|apply demo_run_ok].
Defined.

(** A JIT with one block queued. *)
Definition queued : buxn_jit_t := snd (buxn_jit_queue_block (start_jit demo) 256).

Lemma queued_ok : jit_ok queued.
Proof.
  destruct (queue_block_spec (start_jit demo) 256) as (b & s' & E & Hok & _);
    [apply start_ok|apply demo_pc|]. unfold queued. by rewrite E.
Qed.

Lemma compile_all_drains_witness :
  exists s', compile_all queue_fuel queued = Ok s' /\ jit_ok s' /\ compile_queue s' = [].
Proof. apply (compile_all_drains queued); [apply queued_ok|vm_compute; lia]. Defined.

Definition queued_entry : buxn_jit_entry_t := mkEntry BUXN_JIT_LINK_TO_HEAD 0 0 (UPc 256).

Lemma dequeued_ok : jit_ok (set_compile_queue (fun _ => []) queued).
Proof. destruct queued_ok. split; try done; constructor. Qed.

Lemma buxn_jit_compile_total_witness :
  let s := set_compile_queue (fun _ => []) queued in
  exists s', buxn_jit_compile queued_entry s = Ok s' /\ jit_ok s' /\
    (length (block_store s') + length (compile_queue s) =
     length (block_store s) + length (compile_queue s'))%nat /\
    (CodeGenSpec -> done_or (fun b => b = 0%nat) s -> done_or (fun _ => False) s').
Proof.
  apply (buxn_jit_compile_total queued_entry (set_compile_queue (fun _ => []) queued));
    [apply dequeued_ok|exists 256; split_and!; reflexivity|apply not_elem_of_nil].
Defined.

Lemma translate_jump_addr_total_witness :
  exists a s' b, buxn_jit_translate_jump_addr demo_jit 0x70106 = Ok (a, s') /\ jit_ok s' /\
    idle s' /\ key_at s' b = Some (u16 0x70106) /\ a = head_addr (block_at s' b).
Proof. apply (translate_jump_addr_total demo_jit 0x70106); apply demo_ok. Defined.
