(* ===== verification/Findings.v ===== *)
(** * Programs the compiled code gets wrong

    Closed runs of the model, on the concrete instances: the block of a short
    program is compiled and the emitted code executed, and its stacks differ
    from what uxn computes, which is given next to each.  All of them are
    outside of the hypotheses of the simulation: two cells share a register,
    or a register is spilled while an operand is being put together. *)
From S2P Require Import Prelude Lir Hamt Jit StackCache MicroOps Opcodes Compile Concrete Uxn UxnControl.

#[local] Existing Instances layout_ref vm_ref codegen_ref sljit_ref host_ref.

Definition BRK_RET : Z := 0x10000.

(** [#01 DUP INC]: [INC] adds in place, in the register both cells share. *)
Lemma dup_inc_aliases :
  stack_spec INC false [1; 1] = Some ([2], [1]) /\
  run_block [0x80; 1; 0x06; 0x01; 0] [] = Some (BRK_RET, ([2; 2], [])).
Proof. split; vm_compute; reflexivity. Qed.

(** [#1234 DUP2 POP]: discarding a byte shifts the short both cells share. *)
Lemma dup2_pop_aliases :
  stack_spec POP false [0x34; 0x12; 0x34; 0x12] = Some ([], [0x12; 0x34; 0x12]) /\
  run_block [0xa0; 0x12; 0x34; 0x26; 0x02; 0] [] = Some (BRK_RET, ([0; 0x12; 0x12], [])).
Proof. split; vm_compute; reflexivity. Qed.

(** A short is split while every register is taken: the allocation spills a
    cell, the cells move down, and the slot index of the top goes stale.  The
    program is [#01 STH #02 STH #03 #04 #05 #0607 INC] on the stack [99]. *)
Lemma split_under_pressure :
  stack_spec INC false [7; 6; 5; 4; 3; 99] = Some ([8], [6; 5; 4; 3; 99]) /\
  run_block [0x80; 1; 0x0f; 0x80; 2; 0x0f; 0x80; 3; 0x80; 4; 0x80; 5; 0xa0; 6; 7; 0x01; 0] [99] =
    Some (BRK_RET, ([99; 3; 4; 5; 0; 6; 8], [1; 2])).
Proof. split; vm_compute; reflexivity. Qed.

(** In keep mode the pointer of the pops is copied before the cache of the
    stack is written out; a cell spilled by the allocation of its own copies
    is missed: [#01 STH #02 STH #03 STH #0405 INCk] on [99] pops the 99. *)
Lemma keep_under_pressure :
  stack_spec INC false [5; 4; 99] = Some ([6], [4; 99]) /\
  run_block [0x80; 1; 0x0f; 0x80; 2; 0x0f; 0x80; 3; 0x0f; 0xa0; 4; 5; 0x81; 0] [99] =
    Some (BRK_RET, ([99; 4; 5; 100], [1; 2; 3])).
Proof. split; vm_compute; reflexivity. Qed.

(** [buxn_jit_pop_from_mem] sets the base register before it allocates; a
    spill of the other stack during the allocation moves it: [#01 STH #02 STH
    #03 STH #04 STH ROT] on [10 20 30] reads the return stack. *)
Lemma base_before_alloc :
  stack_spec ROT false [30; 20; 10] = Some ([10; 30; 20], []) /\
  run_block [0x80; 1; 0x0f; 0x80; 2; 0x0f; 0x80; 3; 0x0f; 0x80; 4; 0x0f; 0x05; 0] [10; 20; 30] =
    Some (BRK_RET, ([20; 30; 1], [1; 2; 3; 4])).
Proof. split; vm_compute; reflexivity. Qed.

(** A boolean jump compiles the next opcode inside of the conditional and keeps
    what it knows of the base register: when the opcode is skipped, the
    literal after it is read through a base that was never set.  The program
    [#00 #01 #01 EQU JMP STA #43] on [42 02] skips [STA] and must push 0x43. *)
Definition skip_sta : list Z := [0x80; 0; 0x80; 1; 0x80; 1; 0x08; 0x0c; 0x15; 0x80; 0x43; 0].

Fixpoint ticks (n : nat) (prog : Z -> Z) (s : vm) : option vm :=
  match n with O => Some s | S n => s ← vm_tick prog s; ticks n prog s end.

Lemma boolean_jump_base :
  (fun s => (vm_stacks s false, vm_pc s)) <$>
    ticks 6 (rom skip_sta) (mkVm (fun r => if r then [] else [0x02; 0x42]) (rom skip_sta) 256) =
    Some ([0x43; 0; 0x02; 0x42], 0x10b) /\
  run_block skip_sta [0x42; 0x02] = Some (BRK_RET, ([0x42; 0x02; 0; 0], [])).
Proof. split; vm_compute; reflexivity. Qed.
