(* ===== verification/Bytes.v ===== *)
(** * Bytes and C strings

    What the files on debugging share: integers as the host (little-endian)
    lays them out in memory, strings that end at a NUL, and the hexadecimal
    conversions of [printf]. *)
From S2P Require Import Prelude.

(** The [n] bytes of an unsigned integer, least significant first. *)
Fixpoint le (n : nat) (x : Z) : list Z :=
  match n with
  | O => []
  | S n => x mod 256 :: le n (x / 256)
  end.

Fixpoint unle (l : list Z) : Z :=
  match l with
  | [] => 0
  | b :: l => b + 256 * unle l
  end.

Lemma le_length n x : length (le n x) = n.
Proof. revert x. induction n as [|n IH]; intros x; simpl; [done|]. by rewrite IH. Qed.

Lemma unle_le n x : 0 <= x < 256 ^ Z.of_nat n -> unle (le n x) = x.
Proof.
  revert x. induction n as [|n IH]; intros x Hx; simpl.
  - simpl in Hx. lia.
  - rewrite Nat2Z.inj_succ, Z.pow_succ_r in Hx by lia.
    rewrite IH by (split; [apply Z.div_pos; lia|apply Z.div_lt_upper_bound; lia]).
    pose proof (Z.div_mod x 256). lia.
Qed.

(** The bytes of a C string: those before the first NUL. *)
Fixpoint c_string (l : list Z) : list Z :=
  match l with
  | [] => []
  | b :: l => if b =? 0 then [] else b :: c_string l
  end.

Definition no_nul (l : list Z) : Prop := Forall (fun b => b <> 0) l.

#[export] Instance no_nul_dec l : Decision (no_nul l).
Proof. unfold no_nul. apply _. Defined.

Lemma c_string_app l r : no_nul l -> c_string (l ++ 0 :: r) = l.
Proof.
  induction 1 as [|b l Hb _ IH]; simpl; [done|].
  destruct (Z.eqb_spec b 0); [done|]. by rewrite IH.
Qed.

Lemma c_string_id l : no_nul l -> c_string l = l.
Proof.
  induction 1 as [|b l Hb _ IH]; simpl; [done|].
  destruct (Z.eqb_spec b 0); [done|]. by rewrite IH.
Qed.

Lemma c_string_no_nul l : no_nul (c_string l).
Proof.
  unfold no_nul. induction l as [|b l IH]; simpl; [by apply Forall_nil_2|].
  destruct (Z.eqb_spec b 0); [by apply Forall_nil_2|by apply Forall_cons_2].
Qed.

Lemma no_nul_app l r : no_nul (l ++ r) <-> no_nul l /\ no_nul r.
Proof. apply Forall_app. Qed.

Lemma c_string_length l : (length (c_string l) <= length l)%nat.
Proof. induction l as [|b l IH]; simpl; [done|]. destruct (b =? 0); simpl; lia. Qed.

(** Characters of a literal. *)
Definition chars (s : string) : list Z :=
  (fun a => Z.of_nat (Ascii.nat_of_ascii a)) <$> String.list_ascii_of_string s.

(** A hexadecimal digit, [%x]. *)
Definition hex_digit (d : Z) : Z := if d <? 10 then 0x30 + d else 0x61 + (d - 10).

(** [%04x] of a [uint16_t]. *)
Definition hex4 (x : Z) : list Z :=
  [hex_digit (x / 4096); hex_digit (x / 256 mod 16); hex_digit (x / 16 mod 16); hex_digit (x mod 16)].

(** [%x] of an integer below [16 ^ n]. *)
Fixpoint hex (n : nat) (x : Z) : list Z :=
  match n with
  | O => []
  | S n => if x <? 16 then [hex_digit x] else hex n (x / 16) ++ [hex_digit (x mod 16)]
  end.

Lemma hex_digit_pos d : 0 <= d -> hex_digit d <> 0.
Proof. unfold hex_digit. destruct (Z.ltb_spec d 10); lia. Qed.

Lemma hex4_no_nul x : 0 <= x -> no_nul (hex4 x).
Proof. intros. repeat constructor; apply hex_digit_pos; mlia. Qed.

Lemma hex4_length x : length (hex4 x) = 4%nat.
Proof. done. Qed.
