(* ===== verification/Pointers.v ===== *)
(** * Linked cells in a heap

    A heap is the list of the cells allocated so far; the address of a cell is
    its position, [None] is NULL.  [seg nx h p ids e]: following [nx] from the
    pointer [p] visits the cells [ids] and ends with the pointer [e]. *)
From S2P Require Import Prelude.
Local Open Scope jit_scope.

Section Seg.
Context {C : Type} (nx : C -> option nat).

Fixpoint seg (h : list C) (p : option nat) (ids : list nat) (e : option nat) : Prop :=
  match ids with
  | [] => p = e
  | i :: ids => p = Some i /\ exists c, h !! i = Some c /\ seg h (nx c) ids e
  end.

Lemma seg_app h p u v e : seg h p (u ++ v) e <-> exists q, seg h p u q /\ seg h q v e.
Proof.
  revert p. induction u as [|i u IH]; intros p; simpl; [naive_solver|].
  setoid_rewrite IH. naive_solver.
Qed.

Lemma seg_snoc h p u i e :
  seg h p (u ++ [i]) e <-> seg h p u (Some i) /\ exists c, h !! i = Some c /\ nx c = e.
Proof. rewrite seg_app. simpl. naive_solver. Qed.

(** Cells outside of the segment, or their other fields, may change. *)
Lemma seg_frame h h' p ids e :
  (forall i c, i ∈ ids -> h !! i = Some c -> exists c', h' !! i = Some c' /\ nx c' = nx c) ->
  seg h p ids e -> seg h' p ids e.
Proof.
  revert p. induction ids as [|i ids IH]; intros p Hf; simpl; [done|].
  intros (-> & c & Hc & Hs). split; [done|].
  destruct (Hf i c) as (c' & Hc' & Enx); [by left|done|].
  exists c'. split; [done|]. rewrite Enx. apply IH; [|done]. intros j d Hj. apply Hf. by right.
Qed.

Lemma seg_alter_out h p ids e f i : i ∉ ids -> seg h p ids e -> seg (alter f i h) p ids e.
Proof.
  intros Hi. apply seg_frame. intros j c Hj Hc. exists c. split; [|done].
  rewrite list_lookup_alter_ne; [done|]. by intros ->.
Qed.

Lemma seg_alter_same h p ids e f i :
  (forall c, nx (f c) = nx c) -> seg h p ids e -> seg (alter f i h) p ids e.
Proof.
  intros Hf. apply seg_frame. intros j c Hj Hc.
  destruct (decide (i = j)) as [->|]; [exists (f c)|exists c].
  - rewrite list_lookup_alter_eq, Hc. done.
  - by rewrite list_lookup_alter_ne.
Qed.

Lemma seg_extend h c p ids e : seg h p ids e -> seg (h ++ [c]) p ids e.
Proof.
  apply seg_frame. intros i d _ Hd. exists d. split; [|done]. by apply lookup_app_l_Some.
Qed.

Lemma seg_lookup h p ids e i : seg h p ids e -> i ∈ ids -> exists c, h !! i = Some c.
Proof.
  revert p. induction ids as [|j ids IH]; intros p; simpl; [set_solver|].
  intros (_ & c & Hc & Hs) [->|Hi]%elem_of_cons; eauto.
Qed.

(** Linking a cell behind the last one. *)
Lemma seg_append h p u j i f c :
  seg h p (u ++ [j]) None -> j ∉ u -> j <> i -> h !! i = Some c -> nx c = None ->
  (forall d, nx (f d) = Some i) -> seg (alter f j h) p ((u ++ [j]) ++ [i]) None.
Proof.
  intros Hs Hj Hne Hi Hc Hf. apply seg_snoc in Hs as (Hs & d & Hd & _).
  apply seg_app. exists (Some i). split.
  - apply seg_snoc. split; [by apply seg_alter_out|]. rewrite list_lookup_alter_eq, Hd. eauto.
  - split; [done|]. rewrite list_lookup_alter_ne by done. eauto.
Qed.

(** From the same pointer the cells visited are the same. *)
Lemma seg_det h p u v : seg h p u None -> seg h p v None -> u = v.
Proof.
  revert p v. induction u as [|i u IH]; intros p [|j v]; simpl; [done|..].
  - by intros -> [].
  - by intros [-> _] ?.
  - intros (-> & c & Hc & Hu) (Hj & d & Hd & Hv). simplify_eq. f_equal. eauto.
Qed.
End Seg.

(** An update that keeps a field of its cell keeps it everywhere. *)
Lemma fmap_alter_same {A B : Type} (g : A -> B) (f : A -> A) i (h : list A) :
  (forall a, g (f a) = g a) -> g <$> alter f i h = g <$> h.
Proof.
  intros Hf. apply list_eq. intros k. rewrite !list_lookup_fmap.
  destruct (decide (i = k)) as [->|]; [rewrite list_lookup_alter_eq|by rewrite list_lookup_alter_ne].
  destruct (h !! k); cbn; congruence.
Qed.

(** Two heaps that agree on a field. *)
Lemma fmap_lookup_eq {A B : Type} (g : A -> B) (h h' : list A) i a :
  g <$> h' = g <$> h -> h !! i = Some a -> exists a', h' !! i = Some a' /\ g a' = g a.
Proof.
  intros E Ha. apply (f_equal (fun l => l !! i)) in E. rewrite !list_lookup_fmap, Ha in E.
  destruct (h' !! i) as [a'|]; [|done]. exists a'. split; [done|]. by injection E.
Qed.

(** A cell appended to the heap and then set. *)
Lemma fresh_cell {A : Type} (h : list A) (ids : list nat) (f : A -> A) a :
  (forall i, i ∈ ids -> (i < length h)%nat) ->
  let h' := alter f (length h) (h ++ [a]) in
  length h ∉ ids /\ h' !! length h = Some (f a) /\
  (forall i b, i ∈ ids -> h !! i = Some b -> h' !! i = Some b).
Proof.
  intros Hlt h'. assert (length h ∉ ids) as Hnew by (intros Hi; specialize (Hlt _ Hi); lia).
  split; [done|]. unfold h'. split.
  - by rewrite list_lookup_alter_eq, lookup_app_r, Nat.sub_diag.
  - intros i b Hi Hb. rewrite list_lookup_alter_ne by (by intros <-). by apply lookup_app_l_Some.
Qed.

(** ** Loads and stores in the monad *)

(** A load through NULL or a dangling pointer is an error. *)
Definition deref {T C : Type} (heap_of : T -> list C) (p : option nat) : M T (nat * C) :=
  fun t =>
    match p with
    | None => AssertFailed "NULL dereferenced"
    | Some i => match heap_of t !! i with
                | Some c => Ok ((i, c), t)
                | None => AssertFailed "dangling pointer"
                end
    end.

Lemma wp_deref {T C : Type} (heap_of : T -> list C) i c (Q : nat * C -> T -> Prop) t :
  heap_of t !! i = Some c -> Q (i, c) t -> wp (deref heap_of (Some i)) Q t.
Proof. intros Hc HQ. unfold wp, deref. by rewrite Hc. Qed.

(** [for (i = 0; i < len; ++i) { body(a[i]); }] *)
Fixpoint for_each {T A : Type} (body : A -> M T unit) (l : list A) : M T unit :=
  match l with
  | [] => ret tt
  | a :: l => body a ;;; for_each body l
  end.

Lemma for_each_app {T A : Type} (body : A -> M T unit) l r t :
  for_each body (l ++ r) t = (for_each body l ;;; for_each body r) t.
Proof.
  unfold bind. revert t. induction l as [|a l IH]; intros t; simpl; [done|]. unfold bind.
  destruct (body a t) as [[[] t']| |]; [apply IH|done..].
Qed.

Lemma wp_for_each {T A : Type} (body : A -> M T unit) (I : list A -> T -> Prop) l :
  (forall done a rest t, l = done ++ a :: rest -> I done t ->
     wp (body a) (fun _ t' => I (done ++ [a]) t') t) ->
  forall done rest t, l = done ++ rest -> I done t -> wp (for_each body rest) (fun _ t' => I l t') t.
Proof.
  intros Hb done rest. revert done.
  induction rest as [|a rest IH]; intros done t El HI; simpl.
  - apply wp_ret. rewrite El, app_nil_r. exact HI.
  - apply wp_bind. eapply wp_mono; [eapply Hb; eauto|]. cbn. intros _ t' HI'.
    apply (IH (done ++ [a])); [|done]. by rewrite El, cons_middle, app_assoc.
Qed.
