(* ===== verification/AddrMapping.v ===== *)
(** * Addresses of compiled opcodes (src/src/addr_mapping.h)

    The search of a symbol with a hint ([buxn_dbg_find_symbol]) and the list of
    chunks in which the perf and gdb hooks record where the code of each
    opcode starts.  Chunks live in a heap and are linked by pointers; those of
    a finished block go to a pool and are used again. *)
From S2P Require Import Prelude Pointers.
Local Open Scope jit_scope.

(** A symbol of buxn's debug information: whether its type is
    [BUXN_DBG_SYM_OPCODE], its range of addresses and its region. *)
Class DbgSymtab := {
  dbg_sym : Type;
  sym_is_opcode : dbg_sym -> bool;
  addr_min : dbg_sym -> Z;
  addr_max : dbg_sym -> Z;
  sym_filename : dbg_sym -> list Z;
  sym_line : dbg_sym -> Z;
  sym_col : dbg_sym -> Z;
}.

(** ** Symbol lookup *)

Section FindSymbol.
Context `{DbgSymtab}.

Definition sym_covers (address : Z) (s : dbg_sym) : bool :=
  (addr_min s <=? address) && (address <=? addr_max s).

(** [for (; index < limit; ++index)] with [n] iterations left: the symbol
    found and the index the loop stopped at. *)
Fixpoint scan_symbols (n : nat) (symbols : list dbg_sym) (address : Z) (index : nat) :
    res (option dbg_sym * nat) :=
  match n with
  | O => Ok (None, index)
  | S n =>
      match symbols !! index with
      | None => AssertFailed "symbols[index] is out of bounds"
      | Some s =>
          if negb (sym_is_opcode s) then scan_symbols n symbols address (S index)
          else if sym_covers address s then Ok (Some s, index)
          else if address <? addr_min s then Ok (None, index)
          else scan_symbols n symbols address (S index)
      end
  end.

(** [*index_hint] is the state; a NULL hint is the run from 0. *)
Definition buxn_dbg_find_symbol (symtab : list dbg_sym) (address : Z) : M nat (option dbg_sym) :=
  fun hint =>
    match scan_symbols (length symtab - hint) symtab address hint with
    | Ok (Some s, index) => Ok (Some s, index)
    | Ok (None, _) => scan_symbols hint symtab address 0
    | AssertFailed e => AssertFailed e
    | OutOfFuel => OutOfFuel
    end.

(** The reference: the first opcode symbol that covers the address. *)
Definition covering (symtab : list dbg_sym) (address : Z) : option dbg_sym :=
  snd <$> list_find (fun s => sym_is_opcode s && sym_covers address s) symtab.

(** Opcode symbols in order of address, without overlaps. *)
Definition symtab_sorted (symtab : list dbg_sym) : Prop :=
  forall i j s t, symtab !! i = Some s -> symtab !! j = Some t ->
    sym_is_opcode s -> sym_is_opcode t -> (i < j)%nat -> addr_max s < addr_min t /\ addr_min s <= addr_max s.

Definition is_match (address : Z) (s : dbg_sym) : Prop := sym_is_opcode s && sym_covers address s.

Lemma is_match_iff address s :
  is_match address s <-> sym_is_opcode s /\ addr_min s <= address <= addr_max s.
Proof.
  unfold is_match, sym_covers. rewrite !andb_True, !Is_true_true, !Z.leb_le. naive_solver.
Qed.

Lemma symtab_sorted_unique symtab address i j s t :
  symtab_sorted symtab -> symtab !! i = Some s -> symtab !! j = Some t ->
  is_match address s -> is_match address t -> i = j.
Proof.
  rewrite !is_match_iff. intros Hs Hi Hj [Hos Hms] [Hot Hmt].
  destruct (lt_eq_lt_dec i j) as [[Hlt|]|Hlt]; [|done|].
  - destruct (Hs i j s t); try done. lia.
  - destruct (Hs j i t s); try done. lia.
Qed.

(** A scan within the array stops at a match, or there is none in a sorted
    table. *)
Lemma scan_symbols_spec symtab address n index :
  (index + n <= length symtab)%nat ->
  exists r index', scan_symbols n symtab address index = Ok (r, index') /\
    (index' <= index + n)%nat /\
    match r with
    | Some s => symtab !! index' = Some s /\ is_match address s
    | None => symtab_sorted symtab ->
        forall j s, (index <= j < index + n)%nat -> symtab !! j = Some s -> ~ is_match address s
    end.
Proof.
  revert index. induction n as [|n IH]; intros index Hn; simpl.
  - exists None, index. split; [done|]. split; [lia|]. intros _ j s Hj. lia.
  - destruct (lookup_lt_is_Some_2 symtab index) as [s Hs]; [lia|]. rewrite Hs.
    assert (forall (P : Prop), ~ is_match address s ->
      (P -> forall j t, (S index <= j < S index + n)%nat -> symtab !! j = Some t -> ~ is_match address t) ->
      P -> forall j t, (index <= j < index + S n)%nat -> symtab !! j = Some t -> ~ is_match address t) as Hcons.
    { intros P Hno Hrest HP j t Hj Ht. destruct (decide (j = index)) as [->|]; [by simplify_eq|].
      eapply Hrest; [done| |done]. lia. }
    destruct (IH (S index)) as (r & index' & E & Hle & Hr); [lia|].
    destruct (sym_is_opcode s) eqn:Hop; simpl.
    2:{ exists r, index'. split; [done|]. split; [lia|].
        destruct r; [done|]. apply Hcons; [|done]. rewrite is_match_iff, Hop. by intros []. }
    destruct (sym_covers address s) eqn:Hc.
    { exists (Some s), index. split; [done|]. split; [lia|]. unfold is_match. by rewrite Hop, Hc. }
    assert (~ is_match address s) as Hno by (unfold is_match; rewrite Hop, Hc; by intros []).
    destruct (Z.ltb_spec address (addr_min s)) as [Hlt|_].
    2:{ exists r, index'. split; [done|]. split; [lia|]. destruct r; [done|]. by apply Hcons. }
    exists None, index. split; [done|]. split; [lia|]. intros Hsort j t Hj Ht Hm.
    assert (index <> j) by (intros ->; simplify_eq; done).
    apply is_match_iff in Hm as [Hot Hm].
    assert (addr_max s < addr_min t /\ addr_min s <= addr_max s) by (apply (Hsort index j s t); [done|done|by rewrite Hop|done|lia]). lia.
Qed.

Lemma covering_match symtab address i s :
  symtab_sorted symtab -> symtab !! i = Some s -> is_match address s -> covering symtab address = Some s.
Proof.
  intros Hs Hi Hm. unfold covering.
  destruct (list_find _ symtab) as [[j t]|] eqn:E; simpl.
  - apply list_find_Some in E as (Hj & Hmt & _).
    assert (j = i) as -> by (eapply symtab_sorted_unique; eauto). by simplify_eq.
  - apply list_find_None in E. rewrite Forall_lookup in E. by destruct (E i s Hi).
Qed.

Lemma covering_none symtab address :
  (forall j s, symtab !! j = Some s -> ~ is_match address s) -> covering symtab address = None.
Proof.
  intros Hno. unfold covering. destruct (list_find _ symtab) as [[j t]|] eqn:E; simpl; [|done].
  apply list_find_Some in E as (Hj & Hmt & _). by destruct (Hno j t Hj).
Qed.

Lemma find_symbol_spec symtab address hint :
  symtab_sorted symtab -> (hint <= length symtab)%nat ->
  exists hint', buxn_dbg_find_symbol symtab address hint = Ok (covering symtab address, hint') /\
    (hint' <= length symtab)%nat /\
    (forall s, covering symtab address = Some s -> symtab !! hint' = Some s).
Proof.
  intros Hsort Hh. unfold buxn_dbg_find_symbol.
  destruct (scan_symbols_spec symtab address (length symtab - hint) hint) as (r & i & -> & Hi & Hr); [lia|].
  destruct r as [s|].
  { destruct Hr as [Hlk Hm]. exists i. erewrite covering_match by eauto. split; [done|].
    split; [lia|]. congruence. }
  destruct (scan_symbols_spec symtab address hint 0) as (r & i' & -> & Hi' & Hr'); [lia|].
  exists i'. destruct r as [s|].
  - destruct Hr' as [Hlk Hm]. erewrite covering_match by eauto. split; [done|]. split; [lia|]. congruence.
  - rewrite covering_none; [split; [done|]; split; [lia|done]|].
    intros j s Hj. pose proof (lookup_lt_Some _ _ _ Hj).
    destruct (decide (j < hint)%nat); [eapply Hr'|eapply Hr]; eauto; lia.
Qed.
End FindSymbol.

(** ** The list of chunks *)

Definition BUXN_JIT_MAPPING_CHUNK_SIZE : nat := 16.

Record buxn_jit_addr_mapping_t := mkMapping { mark : nat; addr : Z }.

(** The array of a chunk is modelled by its first [len] entries. *)
Record buxn_jit_addr_mapping_chunk_t := mkChunk {
  next : option nat;
  mappings : list buxn_jit_addr_mapping_t;
}.

(** [addr_mappings] and [addr_mapping_chunk_pool] of a hook, with the chunks
    it has allocated. *)
Record mapping_list := mkMaps {
  chunks : list buxn_jit_addr_mapping_chunk_t;
  maps_len : Z;
  first : option nat;
  last : option nat;
  pool : option nat;
}.

Definition eta_maps (s : mapping_list) : mapping_list :=
  mkMaps (chunks s) (maps_len s) (first s) (last s) (pool s).
Definition set_chunks f s : mapping_list := ltac:(record_set eta_maps chunks f s).
Definition set_maps_len f s : mapping_list := ltac:(record_set eta_maps maps_len f s).
Definition set_first f s : mapping_list := ltac:(record_set eta_maps first f s).
Definition set_last f s : mapping_list := ltac:(record_set eta_maps last f s).
Definition set_pool f s : mapping_list := ltac:(record_set eta_maps pool f s).

Definition empty_maps : mapping_list := mkMaps [] 0 None None None.

Definition set_next (p : option nat) (c : buxn_jit_addr_mapping_chunk_t) :=
  mkChunk p (mappings c).
Definition push_mapping (m : buxn_jit_addr_mapping_t) (c : buxn_jit_addr_mapping_chunk_t) :=
  mkChunk (next c) (mappings c ++ [m]).

(** A hook's data that contains such a list. *)
Class HasMaps (T : Type) := {
  maps_of : T -> mapping_list;
  on_maps : (mapping_list -> mapping_list) -> T -> T;
  maps_on_maps : forall f t, maps_of (on_maps f t) = f (maps_of t);
}.

Section MappingList.
Context `{HasMaps T}.

Definition load_chunk (p : option nat) : M T (nat * buxn_jit_addr_mapping_chunk_t) :=
  deref (fun t => chunks (maps_of t)) p.

(** A chunk from the pool, or from [buxn_jit_alloc]. *)
Definition take_chunk : M T nat :=
  p <-- gets (fun t => pool (maps_of t)) ;;
  match p with
  | None =>
      i <-- gets (fun t => length (chunks (maps_of t))) ;;
      modify (on_maps (set_chunks (fun h => h ++ [mkChunk None []]))) ;;;
      ret i
  | Some _ =>
      c <-- load_chunk p ;;
      modify (on_maps (set_pool (fun _ => next (snd c)))) ;;;
      ret (fst c)
  end.

(** [last_chunk->len = 0; last_chunk->next = NULL;] and the links to it. *)
Definition append_chunk (i : nat) : M T unit :=
  modify (on_maps (set_chunks (alter (fun _ => mkChunk None []) i))) ;;;
  first <-- gets (fun t => first (maps_of t)) ;;
  match first with
  | None => modify (on_maps (set_first (fun _ => Some i)))
  | Some _ =>
      last <-- gets (fun t => last (maps_of t)) ;;
      l <-- load_chunk last ;;
      modify (on_maps (set_chunks (alter (set_next (Some i)) (fst l))))
  end ;;;
  modify (on_maps (set_last (fun _ => Some i))).

(** The chunk the next mapping goes to. *)
Definition last_chunk : M T nat :=
  last <-- gets (fun t => last (maps_of t)) ;;
  match last with
  | None => i <-- take_chunk ;; append_chunk i ;;; ret i
  | Some i =>
      c <-- load_chunk last ;;
      if Nat.eqb (length (mappings (snd c))) BUXN_JIT_MAPPING_CHUNK_SIZE
      then i <-- take_chunk ;; append_chunk i ;;; ret i
      else ret i
  end.

(** The body of [jit_opcode], given the mark of the current address. *)
Definition record_mapping (m : buxn_jit_addr_mapping_t) : M T unit :=
  i <-- last_chunk ;;
  modify (on_maps (set_chunks (alter (push_mapping m) i))) ;;;
  modify (on_maps (set_maps_len (fun n => n + 1))).

(** [for (itr = first; itr != NULL; itr = itr->next)] over the mappings; the
    fuel bounds the number of chunks. *)
Fixpoint walk_chunks (fuel : nat) (body : buxn_jit_addr_mapping_t -> M T unit) (itr : option nat) : M T unit :=
  match itr with
  | None => ret tt
  | Some _ =>
      match fuel with
      | O => out_of_fuel
      | S fuel =>
          c <-- load_chunk itr ;;
          for_each body (mappings (snd c)) ;;;
          walk_chunks fuel body (next (snd c))
      end
  end.

(** The same loop, moving each chunk to the pool once it is done. *)
Fixpoint recycle_chunks (fuel : nat) (body : buxn_jit_addr_mapping_t -> M T unit) (itr : option nat) : M T unit :=
  match itr with
  | None => ret tt
  | Some _ =>
      match fuel with
      | O => out_of_fuel
      | S fuel =>
          c <-- load_chunk itr ;;
          for_each body (mappings (snd c)) ;;;
          pool <-- gets (fun t => pool (maps_of t)) ;;
          modify (on_maps (set_chunks (alter (set_next pool) (fst c)))) ;;;
          modify (on_maps (set_pool (fun _ => itr))) ;;;
          recycle_chunks fuel body (next (snd c))
      end
  end.

Definition walk_mappings (body : buxn_jit_addr_mapping_t -> M T unit) : M T unit :=
  n <-- gets (fun t => length (chunks (maps_of t))) ;;
  itr <-- gets (fun t => first (maps_of t)) ;;
  walk_chunks n body itr.

(** The loop of [end_block] with the reset of the list that follows it. *)
Definition drain_mappings (body : buxn_jit_addr_mapping_t -> M T unit) : M T unit :=
  n <-- gets (fun t => length (chunks (maps_of t))) ;;
  itr <-- gets (fun t => first (maps_of t)) ;;
  recycle_chunks n body itr ;;;
  modify (on_maps (set_first (fun _ => None))) ;;;
  modify (on_maps (set_last (fun _ => None))) ;;;
  modify (on_maps (set_maps_len (fun _ => 0))).
End MappingList.

(** ** The invariant of the list *)

Inductive filled (h : list buxn_jit_addr_mapping_chunk_t) : list nat -> list buxn_jit_addr_mapping_t -> Prop :=
  | filled_nil : filled h [] []
  | filled_snoc u l i c :
      filled h u l -> length l = (16 * length u)%nat ->
      h !! i = Some c -> (0 < length (mappings c) <= 16)%nat -> filled h (u ++ [i]) (l ++ mappings c).

(** The chunks in use are [u], those in the pool [v], together all chunks ever
    allocated; [l] is what has been recorded. *)
Record Mapped (s : mapping_list) (l : list buxn_jit_addr_mapping_t) (u v : list nat) : Prop := {
  mp_used : seg next (chunks s) (first s) u None;
  mp_pool : seg next (chunks s) (pool s) v None;
  mp_perm : u ++ v ≡ₚ seq 0 (length (chunks s));
  mp_last : last s = list.last u;
  mp_filled : filled (chunks s) u l;
  mp_len : maps_len s = Z.of_nat (length l);
}.

Lemma filled_frame h h' u l :
  (forall i c, i ∈ u -> h !! i = Some c -> exists c', h' !! i = Some c' /\ mappings c' = mappings c) ->
  filled h u l -> filled h' u l.
Proof.
  intros Hf Hu. revert Hf. induction Hu as [|u l i c Hu IH Hl Hc Hm]; intros Hf; [constructor|].
  destruct (Hf i c) as (c' & Hc' & E); [set_solver|done|]. rewrite <- E in *.
  eapply filled_snoc; [|done..].
  apply IH. intros j d Hj. apply Hf. set_solver.
Qed.

Lemma filled_count h u l : filled h u l ->
  (length l <= 16 * length u)%nat /\ (16 * length u < length l + 16)%nat.
Proof. destruct 1; simpl; [lia|]. rewrite !length_app. simpl. lia. Qed.

Lemma mapped_nil s u v : Mapped s [] u v -> u = [].
Proof.
  intros Hm. destruct (filled_count _ _ _ (mp_filled _ _ _ _ Hm)) as [_ Hu].
  apply length_zero_iff_nil. simpl in Hu. lia.
Qed.

Lemma mapped_empty : Mapped empty_maps [] [] [].
Proof. split; try done. constructor. Qed.

(** Taken out of the pool but not in the list yet. *)
Record Taken (s : mapping_list) (l : list buxn_jit_addr_mapping_t) (u v : list nat) (i : nat) : Prop := {
  tk_used : seg next (chunks s) (first s) u None;
  tk_pool : seg next (chunks s) (pool s) v None;
  tk_perm : u ++ i :: v ≡ₚ seq 0 (length (chunks s));
  tk_last : last s = list.last u;
  tk_filled : filled (chunks s) u l;
  tk_len : maps_len s = Z.of_nat (length l);
}.

(** The last chunk of the list has room. *)
Record Room (s : mapping_list) (l : list buxn_jit_addr_mapping_t) (u v : list nat) (i : nat) : Prop := {
  rm_used : seg next (chunks s) (first s) (u ++ [i]) None;
  rm_pool : seg next (chunks s) (pool s) v None;
  rm_perm : (u ++ [i]) ++ v ≡ₚ seq 0 (length (chunks s));
  rm_last : last s = Some i;
  rm_chunk : exists l0 c, chunks s !! i = Some c /\ filled (chunks s) u l0 /\ length l0 = (16 * length u)%nat /\
    l = l0 ++ mappings c /\ (length (mappings c) < 16)%nat;
  rm_len : maps_len s = Z.of_nat (length l);
}.

Section Invariant.
Context `{HasMaps T} (P : T -> Prop) (P_maps : forall f t, P t -> P (on_maps f t)).

Lemma wp_take_chunk t l u v (Q : nat -> T -> Prop) :
  Mapped (maps_of t) l u v -> P t ->
  (forall i v' t', Taken (maps_of t') l u v' i -> P t' ->
     length (chunks (maps_of t')) = Nat.max (length (chunks (maps_of t))) (S (length u)) -> Q i t') ->
  wp take_chunk Q t.
Proof.
  intros [Hu Hv Hp Hla Hf Hn] HP HQ.
  pose proof (Permutation_length Hp) as Hlen. rewrite length_app, length_seq in Hlen.
  unfold take_chunk. apply wp_bind, wp_gets. destruct (pool (maps_of t)) as [p|] eqn:Ep.
  - destruct v as [|i v]; [done|]. simpl in Hv. destruct Hv as ([= ->] & c & Hc & Hv).
    apply wp_bind. eapply wp_deref; [done|]. apply wp_bind, wp_modify, wp_ret. apply (HQ i v).
    + split; rewrite ?maps_on_maps; done.
    + by apply P_maps.
    + rewrite maps_on_maps. simpl in *. lia.
  - destruct v; [|by destruct Hv]. rewrite app_nil_r in Hp. simpl in Hlen.
    apply wp_bind, wp_gets, wp_bind, wp_modify, wp_ret. eapply (HQ _ []).
    + split; rewrite ?maps_on_maps; cbn; try done.
      * by apply seg_extend.
      * rewrite length_app, seq_app. simpl. by f_equiv.
      * eapply filled_frame; [|done]. intros i c _ Hc. exists c. split; [|done].
        by apply lookup_app_l_Some.
    + by apply P_maps.
    + rewrite maps_on_maps. cbn. rewrite length_app. simpl. lia.
Qed.

(** What [len = 0; next = NULL] leaves of the rest of the list. *)
Lemma reset_chunk s l u v i :
  Taken s l u v i ->
  let h := alter (fun _ => mkChunk None []) i (chunks s) in
  i ∉ u /\ i ∉ v /\ NoDup u /\ (forall j, j ∈ u -> j ∉ v) /\ h !! i = Some (mkChunk None []) /\
  seg next h (first s) u None /\ seg next h (pool s) v None /\ filled h u l.
Proof.
  intros [Hu Hv Hp Hla Hf Hn] h.
  assert (NoDup (u ++ i :: v)) as Hnd by (rewrite Hp; apply NoDup_seq).
  apply NoDup_app in Hnd as (Hnu & Hui & [Hi _]%NoDup_cons).
  assert (i ∉ u) as Hiu by (intros Hi'; destruct (Hui i Hi'); by left).
  assert (exists c, chunks s !! i = Some c) as [c Hc].
  { apply lookup_lt_is_Some_2.
    assert (i ∈ seq 0 (length (chunks s))) as Hin by (rewrite <- Hp; set_solver).
    apply elem_of_seq in Hin. lia. }
  split_and!; try done.
  - intros j Hj Hj'. apply (Hui j Hj). by right.
  - unfold h. by rewrite list_lookup_alter_eq, Hc.
  - by apply seg_alter_out.
  - by apply seg_alter_out.
  - eapply filled_frame; [|done]. intros j d Hj Hd. exists d. split; [|done]. unfold h.
    rewrite list_lookup_alter_ne; [done|]. by intros ->.
Qed.

Lemma filled_set_next h u l p j : filled h u l -> filled (alter (set_next p) j h) u l.
Proof.
  apply filled_frame. intros k e Hk He.
  destruct (decide (j = k)) as [->|]; [|rewrite list_lookup_alter_ne by done; eauto].
  rewrite list_lookup_alter_eq, He. by eexists.
Qed.

Lemma room_intro s l u v i :
  seg next (chunks s) (first s) (u ++ [i]) None -> seg next (chunks s) (pool s) v None ->
  u ++ i :: v ≡ₚ seq 0 (length (chunks s)) -> last s = Some i -> maps_len s = Z.of_nat (length l) ->
  chunks s !! i = Some (mkChunk None []) -> filled (chunks s) u l -> length l = (16 * length u)%nat ->
  Room s l u v i.
Proof.
  intros. split; try done; [by rewrite <- app_assoc|].
  exists l, (mkChunk None []). split_and!; try done; [by rewrite app_nil_r|simpl; lia].
Qed.

Lemma wp_append_chunk t l u v i (Q : unit -> T -> Prop) :
  Taken (maps_of t) l u v i -> length l = (16 * length u)%nat -> P t ->
  (forall t', Room (maps_of t') l u v i -> P t' ->
     length (chunks (maps_of t')) = length (chunks (maps_of t)) -> Q tt t') ->
  wp (append_chunk i) Q t.
Proof.
  intros Ht Hfull HP HQ. destruct (reset_chunk _ _ _ _ _ Ht) as (Hiu & Hiv & Hnu & Huv & Hi & Hu & Hv & Hf).
  destruct Ht as [_ _ Hp Hla _ Hn]. set (h := alter _ _ _) in *.
  assert (length h = length (chunks (maps_of t))) as Hlen by apply length_alter.
  unfold append_chunk. apply wp_bind, wp_modify, wp_bind, wp_gets, wp_bind.
  set (t1 := on_maps _ t).
  assert (maps_of t1 = set_chunks (fun _ => h) (maps_of t)) as E1 by (subst t1 h; by rewrite maps_on_maps).
  assert (P t1) as HP1 by by apply P_maps. rewrite E1. cbn.
  destruct u as [|j u' _] using rev_ind.
  - rewrite Hu. apply wp_modify, wp_modify. apply HQ; [|by do 2 apply P_maps|by rewrite !maps_on_maps, E1].
    apply room_intro; rewrite ?maps_on_maps, ?E1; cbn; try done; [eauto|rewrite Hlen; exact Hp].
  - rewrite last_snoc in Hla. destruct (first (maps_of t)) as [p|] eqn:Ef; [|by destruct u'; destruct Hu].
    apply wp_bind, wp_gets. rewrite E1. cbn. rewrite Hla.
    destruct (seg_lookup next _ _ _ _ j Hu) as [d Hd]; [set_solver|].
    apply NoDup_app in Hnu as (_ & Hju & _). assert (j <> i) by set_solver.
    apply wp_bind. eapply wp_deref; [by rewrite E1|]. apply wp_modify, wp_modify.
    apply HQ; [|by do 2 apply P_maps|rewrite !maps_on_maps, E1; cbn; by rewrite length_alter].
    apply room_intro; rewrite ?maps_on_maps, ?E1; cbn; rewrite ?Ef; try done.
    + eapply seg_append; try done. intros Hj. apply (Hju j Hj). by left.
    + apply seg_alter_out; [|done]. apply Huv. set_solver.
    + by rewrite length_alter, Hlen.
    + by rewrite list_lookup_alter_ne.
    + by apply filled_set_next.
Qed.

Lemma wp_new_chunk t l u v (Q : nat -> T -> Prop) :
  Mapped (maps_of t) l u v -> length l = (16 * length u)%nat -> P t ->
  (forall i v' t', Room (maps_of t') l u v' i -> P t' ->
     length (chunks (maps_of t')) = Nat.max (length (chunks (maps_of t))) (S (length u)) -> Q i t') ->
  wp (i <-- take_chunk ;; append_chunk i ;;; ret i) Q t.
Proof.
  intros Hm Hl HP HQ. apply wp_bind. eapply wp_take_chunk; [done..|]. intros i v' t' Ht HP' Hlen.
  apply wp_bind. eapply wp_append_chunk; [done..|]. intros t'' Hr HP'' Hlen'.
  apply wp_ret, (HQ i v'); congruence.
Qed.

Lemma filled_last h u i l : filled h (u ++ [i]) l ->
  exists l0 c, h !! i = Some c /\ filled h u l0 /\ length l0 = (16 * length u)%nat /\
    l = l0 ++ mappings c /\ (0 < length (mappings c) <= 16)%nat.
Proof.
  inversion 1 as [E|u' l0 i' c Hf Hl Hc Hm E]; [by destruct u|].
  apply app_inj_tail in E as [-> ->]. naive_solver.
Qed.

(** The chunk found has room, and a chunk is allocated only when the pool is
    empty. *)
Lemma wp_last_chunk t l u v (Q : nat -> T -> Prop) :
  Mapped (maps_of t) l u v -> P t ->
  (forall i u' v' t', Room (maps_of t') l u' v' i -> P t' ->
     length (chunks (maps_of t')) = Nat.max (length (chunks (maps_of t))) (S (length u')) -> Q i t') ->
  wp last_chunk Q t.
Proof.
  intros Hm HP HQ. pose proof Hm as [Hu Hv Hp Hla Hf Hn].
  unfold last_chunk. apply wp_bind, wp_gets. destruct u as [|i u _] using rev_ind.
  - rewrite Hla. simpl. inversion Hf as [E|]; [subst|by destruct u]. by eapply wp_new_chunk; eauto.
  - rewrite last_snoc in Hla. rewrite Hla.
    destruct (filled_last _ _ _ _ Hf) as (l0 & c & Hc & Hf0 & Hl0 & El & Hlc).
    apply wp_bind. eapply wp_deref; [done|]. cbn.
    destruct (Nat.eqb_spec (length (mappings c)) BUXN_JIT_MAPPING_CHUNK_SIZE) as [E|E];
      unfold BUXN_JIT_MAPPING_CHUNK_SIZE in E.
    + eapply wp_new_chunk; [done| |done|eauto]. rewrite El, !length_app. simpl. lia.
    + apply wp_ret, (HQ i u v); [split; try done|done|].
      * exists l0, c. split_and!; try done. lia.
      * apply Permutation_length in Hp. rewrite !length_app, length_seq in Hp. simpl in Hp. lia.
Qed.

Lemma wp_record_mapping m t l u v (Q : unit -> T -> Prop) :
  Mapped (maps_of t) l u v -> P t ->
  (forall u' v' t', Mapped (maps_of t') (l ++ [m]) u' v' -> P t' ->
     length (chunks (maps_of t')) = Nat.max (length (chunks (maps_of t))) (length u') -> Q tt t') ->
  wp (record_mapping m) Q t.
Proof.
  intros Hm HP HQ. unfold record_mapping. apply wp_bind. eapply wp_last_chunk; [done..|].
  intros i u' v' t' [Hu Hv Hp Hla (l0 & c & Hc & Hf & Hl0 & -> & Hlc) Hn] HP' Hlen.
  apply wp_bind, wp_modify, wp_modify. rewrite length_app in Hn.
  assert (i ∉ u') as Hi.
  { assert (NoDup ((u' ++ [i]) ++ v')) as Hnd by (rewrite Hp; apply NoDup_seq).
    rewrite <- app_assoc in Hnd. apply NoDup_app in Hnd as (_ & Hnd & _). intros Hi. apply (Hnd i Hi). by left. }
  apply (HQ (u' ++ [i]) v'); [|by do 2 apply P_maps|].
  - split; rewrite !maps_on_maps; cbn; try done.
    + by apply seg_alter_same.
    + by apply seg_alter_same.
    + by rewrite length_alter.
    + by rewrite last_snoc.
    + rewrite <- app_assoc. apply (filled_snoc _ u' l0 i (push_mapping m c)); [|done|..].
      * eapply filled_frame; [|done]. intros j d Hj Hd. exists d. split; [|done].
        rewrite list_lookup_alter_ne; [done|]. by intros ->.
      * by rewrite list_lookup_alter_eq, Hc.
      * cbn. rewrite length_app. simpl. lia.
    + rewrite !length_app. simpl. lia.
  - rewrite !maps_on_maps. cbn. rewrite length_alter, length_app. simpl. lia.
Qed.
End Invariant.

(** ** The loops over the mappings *)

Section Loops.
Context `{HasMaps T}.

(** [I done t]: the body has been run for the mappings [done]. *)
Context (body : buxn_jit_addr_mapping_t -> M T unit) (I : list buxn_jit_addr_mapping_t -> T -> Prop).
Context (l : list buxn_jit_addr_mapping_t).
Context (body_ok : forall done m rest t, l = done ++ m :: rest -> I done t ->
  wp (body m) (fun _ t' => maps_of t' = maps_of t /\ I (done ++ [m]) t') t).
Context (I_maps : forall f done t, I done t -> I done (on_maps f t)).

(** The chunks [u] hold the mappings [r]. *)
Inductive holds (h : list buxn_jit_addr_mapping_chunk_t) : list nat -> list buxn_jit_addr_mapping_t -> Prop :=
  | holds_nil : holds h [] []
  | holds_cons i u c r : h !! i = Some c -> holds h u r -> holds h (i :: u) (mappings c ++ r).

Lemma holds_nil_inv h r : holds h [] r -> r = [].
Proof. by inversion 1. Qed.

Lemma holds_cons_inv h i u r c :
  h !! i = Some c -> holds h (i :: u) r -> exists r', r = mappings c ++ r' /\ holds h u r'.
Proof. inversion 2; simplify_eq. eauto. Qed.

Lemma holds_app h u v r r' : holds h u r -> holds h v r' -> holds h (u ++ v) (r ++ r').
Proof. intros Hu Hv. induction Hu; simpl; [done|]. rewrite <- app_assoc. by constructor. Qed.

Lemma filled_holds h u r : filled h u r -> holds h u r.
Proof.
  induction 1 as [|u r i c Hf IH Hr Hc Hm]; [constructor|]. apply holds_app; [done|].
  rewrite <- (app_nil_r (mappings c)). constructor; [done|constructor].
Qed.

Lemma holds_frame h h' u r :
  (forall i c, i ∈ u -> h !! i = Some c -> h' !! i = Some c) -> holds h u r -> holds h' u r.
Proof.
  intros Hf Hu. revert Hf. induction Hu; intros Hf; constructor.
  - apply Hf; [by left|done].
  - apply IHHu. intros j d Hj. apply Hf. by right.
Qed.

Lemma wp_chunk_body r done rest t :
  l = done ++ r ++ rest -> I done t ->
  wp (for_each body r) (fun _ t' => maps_of t' = maps_of t /\ I (done ++ r) t') t.
Proof.
  revert done t. induction r as [|m r IH]; intros done t El HI; simpl.
  - apply wp_ret. by rewrite app_nil_r.
  - apply wp_bind. eapply wp_mono; [by eapply body_ok|]. cbn. intros _ t1 [E1 HI1].
    eapply wp_mono; [apply (IH (done ++ [m])); [by rewrite <- app_assoc|done]|]. cbn.
    intros _ t2 [E2 HI2]. rewrite <- app_assoc in HI2. split; [congruence|done].
Qed.

Lemma wp_walk_chunks fuel u : forall itr done r t,
  (length u <= fuel)%nat -> seg next (chunks (maps_of t)) itr u None -> holds (chunks (maps_of t)) u r ->
  l = done ++ r -> I done t ->
  wp (walk_chunks fuel body itr) (fun _ t' => maps_of t' = maps_of t /\ I l t') t.
Proof.
  revert fuel. induction u as [|i u IH]; intros fuel itr done r t Hfuel Hs Hh El HI.
  - simpl in Hs. apply holds_nil_inv in Hh as ->. rewrite app_nil_r in El. rewrite Hs. rewrite <- El in HI.
    by destruct fuel; apply wp_ret.
  - destruct fuel as [|fuel]; simpl in Hfuel; [lia|]. destruct Hs as (-> & c & Hc & Hs).
    destruct (holds_cons_inv _ _ _ _ _ Hc Hh) as (r' & -> & Hh'). cbn [walk_chunks].
    apply wp_bind. eapply wp_deref; [done|]. cbn. apply wp_bind.
    eapply wp_mono; [by eapply wp_chunk_body|]. cbn. intros _ t1 [E1 HI1].
    eapply wp_mono; [eapply (IH fuel _ (done ++ mappings c) r'); rewrite ?E1; try done; [lia|by rewrite <- app_assoc]|].
    cbn. intros _ t2 [E2 HI2]. by rewrite E2, E1.
Qed.

Lemma wp_walk_mappings t u v (Q : unit -> T -> Prop) :
  Mapped (maps_of t) l u v -> I [] t ->
  (forall t', maps_of t' = maps_of t -> I l t' -> Q tt t') -> wp (walk_mappings body) Q t.
Proof.
  intros [Hu Hv Hp Hla Hf Hn] HI HQ. unfold walk_mappings. apply wp_bind, wp_gets, wp_bind, wp_gets.
  apply Permutation_length in Hp. rewrite length_app, length_seq in Hp.
  eapply wp_mono; [eapply (wp_walk_chunks _ u _ [] l); try done; [lia|by apply filled_holds]|].
  cbn. intros [] t' [E HI']. by apply HQ.
Qed.

Lemma wp_recycle_chunks fuel u : forall v itr done r t (Q : unit -> T -> Prop),
  (length u <= fuel)%nat -> seg next (chunks (maps_of t)) itr u None -> holds (chunks (maps_of t)) u r ->
  seg next (chunks (maps_of t)) (pool (maps_of t)) v None -> NoDup (u ++ v) ->
  l = done ++ r -> I done t ->
  (forall t', seg next (chunks (maps_of t')) (pool (maps_of t')) (reverse u ++ v) None ->
     length (chunks (maps_of t')) = length (chunks (maps_of t)) -> I l t' -> Q tt t') ->
  wp (recycle_chunks fuel body itr) Q t.
Proof.
  revert fuel. induction u as [|i u IH]; intros fuel v itr done r t Q Hfuel Hs Hh Hv Hnd El HI HQ.
  - simpl in Hs. apply holds_nil_inv in Hh as ->. rewrite app_nil_r in El. rewrite Hs. rewrite <- El in HI.
    destruct fuel; apply wp_ret; by apply HQ.
  - destruct fuel as [|fuel]; simpl in Hfuel; [lia|]. destruct Hs as (-> & c & Hc & Hs).
    simpl in Hnd. apply NoDup_cons in Hnd as [Hi Hnd]. rewrite elem_of_app in Hi.
    destruct (holds_cons_inv _ _ _ _ _ Hc Hh) as (r' & -> & Hh'). cbn [recycle_chunks].
    apply wp_bind. eapply wp_deref; [done|]. cbn. apply wp_bind.
    eapply wp_mono; [by eapply wp_chunk_body|]. cbn. intros _ t1 [E1 HI1].
    apply wp_bind, wp_gets, wp_bind, wp_modify, wp_bind, wp_modify.
    apply (IH fuel (i :: v) _ (done ++ mappings c) r'); rewrite ?maps_on_maps, ?E1; cbn; try done.
    + lia.
    + apply seg_alter_out; naive_solver.
    + eapply holds_frame; [|done]. intros j d Hj Hd. rewrite list_lookup_alter_ne; naive_solver.
    + split; [done|]. rewrite list_lookup_alter_eq, Hc. eexists. split; [done|].
      apply seg_alter_out; naive_solver.
    + rewrite <- Permutation_middle. apply NoDup_cons. by rewrite elem_of_app.
    + by rewrite <- app_assoc.
    + by do 2 apply I_maps.
    + intros t' Hs' Hl' HI'. apply HQ; [|by rewrite Hl', length_alter|done].
      by rewrite reverse_cons, <- app_assoc.
Qed.

(** The loop sees every mapping once, in the order they were recorded, and all
    chunks end up in the pool. *)
Lemma wp_drain_mappings t u v (Q : unit -> T -> Prop) :
  Mapped (maps_of t) l u v -> I [] t ->
  (forall t', Mapped (maps_of t') [] [] (reverse u ++ v) ->
     length (chunks (maps_of t')) = length (chunks (maps_of t)) -> I l t' -> Q tt t') ->
  wp (drain_mappings body) Q t.
Proof.
  intros [Hu Hv Hp Hla Hf Hn] HI HQ. unfold drain_mappings. apply wp_bind, wp_gets, wp_bind, wp_gets, wp_bind.
  assert (NoDup (u ++ v)) as Hnd by (rewrite Hp; apply NoDup_seq).
  pose proof (Permutation_length Hp) as Hl. rewrite length_app, length_seq in Hl.
  eapply (wp_recycle_chunks _ u v _ [] l); try done; [lia|by apply filled_holds|].
  intros t' Hs Hlen HI'. apply wp_bind, wp_modify, wp_bind, wp_modify, wp_modify.
  apply HQ; [|by rewrite !maps_on_maps|by do 3 apply I_maps].
  split; rewrite !maps_on_maps; cbn; try done; [|constructor].
  rewrite Hlen, <- Hp. apply Permutation_app_tail, reverse_Permutation.
Qed.
End Loops.

(** ** The component's theorems *)

Section Correct.
Context `{DbgSymtab}.

(** C29: The search with a hint is the search: in a table whose opcode symbols are
    sorted and do not overlap, whatever the hint, [buxn_dbg_find_symbol] reads
    within the table, gives the symbol that covers the address if there is one
    and NULL otherwise, and leaves a hint within the table, that of the symbol
    when it found one. *)
Theorem find_symbol_correct symtab address hint :
  symtab_sorted symtab -> (hint <= length symtab)%nat ->
  exists hint', buxn_dbg_find_symbol symtab address hint = Ok (covering symtab address, hint') /\
    (hint' <= length symtab)%nat /\
    (forall s, covering symtab address = Some s -> symtab !! hint' = Some s).
Proof. apply find_symbol_spec. Qed.
End Correct.

(** A list together with what a drain has seen. *)
Definition drained : Type := mapping_list * list buxn_jit_addr_mapping_t.

#[export] Instance drained_maps : HasMaps drained.
Proof. refine {| maps_of := fst; on_maps := fun f t => (f (fst t), snd t) |}. done. Defined.

Definition see (m : buxn_jit_addr_mapping_t) : M drained unit :=
  modify (fun t => (fst t, snd t ++ [m])).

(** One block: a mapping for each opcode, then the end of the block. *)
Definition round (l : list buxn_jit_addr_mapping_t) : M drained unit :=
  for_each record_mapping l ;;; drain_mappings see.

Definition chunks_needed (l : list buxn_jit_addr_mapping_t) : nat := (length l + 15) / 16.

Lemma wp_record_all l seen : forall r l0 u v (t : drained) (Q : unit -> drained -> Prop),
  l = l0 ++ r -> Mapped (maps_of t) l0 u v -> snd t = seen ->
  (forall u' v' (t' : drained), Mapped (maps_of t') l u' v' -> snd t' = seen ->
     length (chunks (maps_of t')) = Nat.max (length (chunks (maps_of t))) (length u') -> Q tt t') ->
  wp (for_each record_mapping r) Q t.
Proof.
  intros r. induction r as [|m r IH]; intros l0 u v t Q -> Hm Hseen HQ; cbn [for_each].
  - rewrite app_nil_r in HQ. apply wp_ret, (HQ u v); [done|done|].
    destruct Hm as [_ _ Hp _ _ _]. apply Permutation_length in Hp.
    rewrite length_app, length_seq in Hp. lia.
  - apply wp_bind. eapply (wp_record_mapping (fun t => snd t = seen)); [done|done|done|].
    intros u1 v1 t1 Hm1 Hs1 Hl1. apply (IH (l0 ++ [m]) u1 v1); [by rewrite <- app_assoc|done|done|].
    intros u2 v2 t2 Hm2 Hs2 Hl2. apply (HQ u2 v2); [done|done|].
    destruct (filled_count _ _ _ (mp_filled _ _ _ _ Hm1)) as [_ H1].
    destruct (filled_count _ _ _ (mp_filled _ _ _ _ Hm2)) as [H2 _].
    rewrite !length_app in *. simpl in *. lia.
Qed.

Lemma wp_round l t v (Q : unit -> drained -> Prop) :
  Mapped (fst t) [] [] v ->
  (forall t' v', Mapped (fst t') [] [] v' -> snd t' = snd t ++ l ->
     length (chunks (fst t')) = Nat.max (length (chunks (fst t))) (chunks_needed l) -> Q tt t') ->
  wp (round l) Q t.
Proof.
  intros Hm HQ. apply wp_bind.
  eapply (wp_record_all l (snd t) l []); [done|exact Hm|done|]. intros u v1 t1 Hm1 Hs1 Hl1.
  eapply (wp_drain_mappings _ (fun done t' => snd t' = snd t ++ done)); [|done|done|by rewrite app_nil_r|].
  - intros done m rest t2 _ E2. apply wp_modify. cbn. split; [done|]. by rewrite E2, app_assoc.
  - intros t2 Hm2 Hl2 Hs2. eapply HQ; [done|done|]. cbn [maps_of drained_maps] in *. rewrite Hl2, Hl1. f_equal.
    destruct (filled_count _ _ _ (mp_filled _ _ _ _ Hm1)). unfold chunks_needed.
    apply Nat.div_unique with (length l + 15 - 16 * length u)%nat; lia.
Qed.

(** C28: However many blocks are compiled, each drain sees exactly the mappings
    recorded since the last one, in order, and the chunks are used again: no
    more are allocated than the longest block needs, all of them are in the
    pool at the end and none is lost. *)
Theorem chunks_are_reused ls :
  wp (for_each round ls)
    (fun _ t => snd t = concat ls /\
       length (chunks (fst t)) = foldr Nat.max 0%nat (chunks_needed <$> ls) /\
       exists v, Mapped (fst t) [] [] v)
    (empty_maps, []).
Proof.
  assert (forall t v, Mapped (fst t) [] [] v ->
    wp (for_each round ls)
      (fun _ t' => snd t' = snd t ++ concat ls /\
         length (chunks (fst t')) = Nat.max (length (chunks (fst t))) (foldr Nat.max 0%nat (chunks_needed <$> ls)) /\
         exists v', Mapped (fst t') [] [] v') t) as Hgen.
  { induction ls as [|l ls IH]; intros t v Hm; simpl.
    - apply wp_ret. rewrite app_nil_r, Nat.max_0_r. eauto.
    - apply wp_bind. eapply wp_round; [done|]. intros t1 v1 Hm1 Hs1 Hl1.
      eapply wp_mono; [by eapply IH|]. cbn. intros _ t2 (Hs2 & Hl2 & Hm2).
      rewrite Hs2, Hs1, Hl2, Hl1, app_assoc, Nat.max_assoc. done. }
  exact (Hgen (empty_maps, []) [] mapped_empty).
Qed.

(** ** Witnesses *)

(** A symbol with a range and a line. *)
Definition demo_symtab : DbgSymtab := {|
  dbg_sym := bool * (Z * Z) * Z;
  sym_is_opcode := fun s => fst (fst s);
  addr_min := fun s => fst (snd (fst s));
  addr_max := fun s => snd (snd (fst s));
  sym_filename := fun _ => [0x61];
  sym_line := snd;
  sym_col := fun _ => 1;
|}.

Definition demo_symbols : list (@dbg_sym demo_symtab) :=
  [(true, (0x100, 0x102), 1); (false, (0x100, 0x200), 2); (true, (0x103, 0x103), 3)].

Lemma demo_sorted : symtab_sorted (H := demo_symtab) demo_symbols.
Proof.
  intros i j s t Hi Hj Hs Ht Hlt.
  destruct i as [|[|[|i]]], j as [|[|[|j]]]; simplify_eq/=; lia.
Qed.

Lemma find_symbol_correct_witness :
  covering (H := demo_symtab) demo_symbols 0x101 = Some (true, (0x100, 0x102), 1) /\
  exists hint', buxn_dbg_find_symbol (H := demo_symtab) demo_symbols 0x101 2%nat =
    Ok (covering (H := demo_symtab) demo_symbols 0x101, hint') /\
    (hint' <= length demo_symbols)%nat /\
    (forall s, covering (H := demo_symtab) demo_symbols 0x101 = Some s -> demo_symbols !! hint' = Some s).
Proof.
  split; [vm_compute; reflexivity|].
  apply (find_symbol_correct (H := demo_symtab) demo_symbols 0x101 2%nat); [apply demo_sorted|simpl; lia].
Defined.

(** One chunk with one mapping. *)
Definition demo_maps : mapping_list := mkMaps [mkChunk None [mkMapping 3 0x101]] 1 (Some 0%nat) (Some 0%nat) None.

Lemma demo_mapped : Mapped demo_maps [mkMapping 3 0x101] [0%nat] [].
Proof.
  split; try done.
  - split; [done|]. eexists. by split.
  - apply (filled_snoc _ [] [] 0%nat (mkChunk None [mkMapping 3 0x101])); [constructor|done|done|simpl; lia].
Qed.
