(* ===== verification/LabelMap.v ===== *)
(** * The label map (src/include/buxn/jit/label_map.h)

    [buxn_pc_to_label]: the label that closest precedes an address; and the
    reader of the [.sym] file that fills the map (the loop of [boot] in
    src/src/cli.c), whose reference is the format it parses. *)
From S2P Require Import Prelude Bytes.

(** [name_len] is the length of [name]. *)
Record buxn_label_map_entry_t := mkLabel { addr : Z; name : list Z }.

Definition name_len (e : buxn_label_map_entry_t) : Z := Z.of_nat (length (name e)).

Record buxn_label_map_t := mkLabelMap { size : Z; entries : list buxn_label_map_entry_t }.

(** ** Lookup *)

Definition at_sign : Z := 0x40.

(** The first three conditions of the loop. *)
Definition is_candidate (pc : Z) (e : buxn_label_map_entry_t) : bool :=
  (0x00ff <? addr e) &&
  ((0 <? name_len e) && negb (nth 0 (name e) 0 =? at_sign)) &&
  (addr e <=? pc).

(** The body of the loop. *)
Definition closer (pc : Z) (closest : option buxn_label_map_entry_t) (e : buxn_label_map_entry_t) :
    option buxn_label_map_entry_t :=
  if is_candidate pc e && (match closest with Some c => addr c | None => 0 end <? addr e)
  then Some e else closest.

(** [for (uint16_t i = 0; i < label_map->size; ++i)]; the array has at least
    [size] entries. *)
Definition buxn_pc_to_label (label_map : buxn_label_map_t) (pc : Z) : option buxn_label_map_entry_t :=
  fold_left (closer pc) (take (Z.to_nat (size label_map)) (entries label_map)) None.

(** The specification: the first of the candidates with the greatest address. *)
Definition closest_label (l : list buxn_label_map_entry_t) (pc : Z) (r : option buxn_label_map_entry_t) : Prop :=
  match r with
  | None => Forall (fun e => is_candidate pc e = false) l
  | Some e =>
      exists before after, l = before ++ e :: after /\ is_candidate pc e = true /\
        Forall (fun d => is_candidate pc d = true -> addr d < addr e) before /\
        Forall (fun d => is_candidate pc d = true -> addr d <= addr e) after
  end.

Lemma candidate_addr pc e : is_candidate pc e = true -> 0xff < addr e.
Proof. unfold is_candidate. rewrite !andb_true_iff, Z.ltb_lt. naive_solver. Qed.

Lemma closer_step pc l r e :
  closest_label l pc r -> closest_label (l ++ [e]) pc (closer pc r e).
Proof.
  intros Hr. unfold closer. destruct (is_candidate pc e) eqn:He; simpl.
  2:{ destruct r as [d|]; simpl in *.
      - destruct Hr as (b & a & -> & Hd & Hb & Ha). exists b, (a ++ [e]). rewrite <- app_assoc.
        split_and!; try done. apply Forall_app. split; [done|]. apply Forall_singleton. congruence.
      - apply Forall_app. split; [done|]. by apply Forall_singleton. }
  destruct r as [d|]; simpl in *.
  - destruct Hr as (b & a & -> & Hd & Hb & Ha). destruct (Z.ltb_spec (addr d) (addr e)) as [Hlt|Hge].
    + exists (b ++ d :: a), []. split_and!; [done|done| |by apply Forall_nil_2].
      apply Forall_app. split; [|apply Forall_cons; split; [done|]]; eapply Forall_impl; eauto; cbn; intros x Hx Hc; specialize (Hx Hc); lia.
    + exists b, (a ++ [e]). rewrite <- app_assoc. split_and!; try done.
      apply Forall_app. split; [done|]. by apply Forall_singleton.
  - pose proof (candidate_addr _ _ He). destruct (Z.ltb_spec 0 (addr e)); [|lia].
    exists l, []. split_and!; [done|done| |by apply Forall_nil_2].
    eapply Forall_impl; [done|]. cbn. congruence.
Qed.

Lemma fold_closer pc l done r :
  closest_label done pc r -> closest_label (done ++ l) pc (fold_left (closer pc) l r).
Proof.
  revert done r. induction l as [|e l IH]; intros dn r Hr; simpl; [by rewrite app_nil_r|].
  rewrite cons_middle, app_assoc. apply IH. by apply closer_step.
Qed.

(** ** The [.sym] file *)

(** The characters up to a NUL: [None] when the file ends before one. *)
Fixpoint read_name (file : list Z) : option (list Z * list Z) :=
  match file with
  | [] => None
  | ch :: file =>
      if ch =? 0 then Some ([], file)
      else match read_name file with
           | Some (n, rest) => Some (ch :: n, rest)
           | None => None
           end
  end.

(** The loop of [boot]; an iteration reads at least three bytes, so the length
    of the file is enough fuel. *)
Fixpoint read_symbols (fuel : nat) (file : list Z) : list buxn_label_map_entry_t :=
  match fuel with
  | O => []
  | S fuel =>
      match file with
      | hi :: lo :: file =>
          match read_name file with
          | Some (n, rest) => mkLabel (Z.lor (Z.shiftl hi 8) lo) n :: read_symbols fuel rest
          | None => []
          end
      | _ => []
      end
  end.

Definition read_label_map (file : list Z) : buxn_label_map_t :=
  let l := read_symbols (length file) file in
  mkLabelMap (u16 (Z.of_nat (length l))) l.

(** What the assembler writes for a label. *)
Definition encode_label (e : buxn_label_map_entry_t) : list Z :=
  [Z.shiftr (addr e) 8; Z.land (addr e) 0xff] ++ name e ++ [0].

Definition label_ok (e : buxn_label_map_entry_t) : Prop := is_u16 (addr e) /\ no_nul (name e).

#[export] Instance label_ok_dec e : Decision (label_ok e).
Proof. unfold label_ok, is_u16. apply _. Defined.

Lemma read_name_app n rest : no_nul n -> read_name (n ++ 0 :: rest) = Some (n, rest).
Proof.
  induction 1 as [|ch n Hch _ IH]; simpl; [done|].
  destruct (Z.eqb_spec ch 0); [done|]. by rewrite IH.
Qed.

Lemma short_halves a : is_u16 a -> Z.lor (Z.shiftl (Z.shiftr a 8) 8) (Z.land a 0xff) = a.
Proof.
  intros Ha. apply Z.bits_inj'. intros n Hn. rewrite Z.lor_spec, Z.land_spec.
  change 0xff with (Z.ones 8). rewrite Z.testbit_ones_nonneg by lia.
  destruct (Z.ltb_spec n 8).
  - rewrite Z.shiftl_spec_low by done. by rewrite andb_true_r.
  - rewrite Z.shiftl_spec, Z.shiftr_spec by lia. rewrite andb_false_r, orb_false_r. f_equal. lia.
Qed.

Lemma read_symbols_app l file fuel :
  Forall label_ok l -> (length l <= fuel)%nat ->
  read_symbols fuel (concat (encode_label <$> l) ++ file) = l ++ read_symbols (fuel - length l) file.
Proof.
  intros Hl. revert fuel. induction Hl as [|e l [Ha Hn] _ IH]; intros fuel Hf; simpl.
  - by rewrite Nat.sub_0_r.
  - destruct fuel as [|fuel]; simpl in Hf; [lia|].
    rewrite <- !app_assoc. simpl. rewrite read_name_app by done.
    rewrite short_halves by done. rewrite IH by lia. by destruct e.
Qed.

Lemma read_symbols_tail fuel file :
  (length file < 2)%nat \/ read_name (drop 2 file) = None -> read_symbols fuel file = [].
Proof.
  destruct fuel as [|fuel]; [done|]. destruct file as [|hi [|lo file]]; simpl; [done..|].
  change (drop 0 file) with file. by intros [?| ->]; [lia|].
Qed.

Lemma read_label_map_encode l tail :
  Forall label_ok l -> ((length tail < 2)%nat \/ read_name (drop 2 tail) = None) ->
  read_label_map (concat (encode_label <$> l) ++ tail) = mkLabelMap (u16 (Z.of_nat (length l))) l.
Proof.
  intros Hl Ht. unfold read_label_map.
  assert (length l <= length (concat (encode_label <$> l) ++ tail))%nat.
  { rewrite length_app. clear. induction l as [|e l IH]; [simpl; lia|].
    rewrite fmap_cons. cbn [concat length]. rewrite length_app. unfold encode_label at 1.
    rewrite length_app. cbn [length]. lia. }
  rewrite read_symbols_app, read_symbols_tail, app_nil_r by done. done.
Qed.

(** ** The component's theorems *)

(** C33: [buxn_pc_to_label] gives the label that precedes an address most closely,
    the first of those with its address, and only labels outside of the zero
    page with a name that does not start with [@]; it gives none exactly when
    the map has no such label. *)
Theorem pc_to_label_correct label_map pc :
  closest_label (take (Z.to_nat (size label_map)) (entries label_map)) pc (buxn_pc_to_label label_map pc).
Proof. apply (fold_closer pc _ [] None). by apply Forall_nil_2. Qed.

(** C32: Reading back a [.sym] file gives the labels it was written from, also when
    the file ends in the middle of another label; the size of the map is their
    number modulo 2^16. *)
Theorem read_label_map_roundtrip l tail :
  Forall label_ok l -> ((length tail < 2)%nat \/ read_name (drop 2 tail) = None) ->
  read_label_map (concat (encode_label <$> l) ++ tail) = mkLabelMap (u16 (Z.of_nat (length l))) l.
Proof. apply read_label_map_encode. Qed.

Lemma read_label_map_roundtrip_witness :
  read_label_map (concat (encode_label <$> [mkLabel 0x100 (chars "main"); mkLabel 0x203 (chars "loop")]) ++ [1; 2; 3]) =
    mkLabelMap (u16 2) [mkLabel 0x100 (chars "main"); mkLabel 0x203 (chars "loop")].
Proof.
  apply (read_label_map_roundtrip [mkLabel 0x100 (chars "main"); mkLabel 0x203 (chars "loop")] [1; 2; 3]).
  - apply (bool_decide_unpack _). vm_compute. exact I.
  - right. reflexivity.
Defined.

(** A file with 65536 labels gives an empty map: [(uint16_t)] of their number
    is zero. *)
Lemma too_many_labels l :
  Forall label_ok l -> length l = Z.to_nat 65536 ->
  forall pc, buxn_pc_to_label (read_label_map (concat (encode_label <$> l))) pc = None.
Proof.
  intros Hl Hlen pc. rewrite <- (app_nil_r (concat _)), read_label_map_encode; [|done|left; simpl; lia].
  unfold buxn_pc_to_label. rewrite Hlen, Z2Nat.id by discriminate. reflexivity.
Qed.
