(* ===== verification/CompositeHook.v ===== *)
(** * Hooks and their composition (src/include/buxn/jit/composite_hook.h)

    A hook is three callbacks, each possibly NULL, that act on a state [T]: the
    data of all hooks and the compiler behind the hook context.  A composite
    hook calls the hooks of a list in turn. *)
From S2P Require Import Prelude Pointers.
Local Open Scope jit_scope.

(** [userdata] is what the callbacks have been applied to. *)
Record hook (T : Type) := mkHook {
  begin_block : option (M T unit);
  jit_opcode : option (Z -> Z -> M T unit);
  end_block : option (Z -> Z -> M T unit);
}.
Arguments mkHook {T}.
Arguments begin_block {T}.
Arguments jit_opcode {T}.
Arguments end_block {T}.

(** [if (cb) { cb(...); }], as the JIT and the composite hook call. *)
Definition call_begin {T} (h : hook T) : M T unit :=
  match begin_block h with Some f => f | None => ret tt end.
Definition call_opcode {T} (pc opcode : Z) (h : hook T) : M T unit :=
  match jit_opcode h with Some f => f pc opcode | None => ret tt end.
Definition call_end {T} (start size : Z) (h : hook T) : M T unit :=
  match end_block h with Some f => f start size | None => ret tt end.

Definition buxn_jit_composite_hook_begin_block {T} (hooks : list (hook T)) : M T unit :=
  for_each call_begin hooks.
Definition buxn_jit_composite_hook_jit_opcode {T} (hooks : list (hook T)) (pc opcode : Z) : M T unit :=
  for_each (call_opcode pc opcode) hooks.
Definition buxn_jit_composite_hook_end_block {T} (hooks : list (hook T)) (start size : Z) : M T unit :=
  for_each (call_end start size) hooks.

Definition buxn_jit_init_composite_hook {T} (hooks : list (hook T)) : hook T :=
  mkHook (Some (buxn_jit_composite_hook_begin_block hooks))
    (Some (buxn_jit_composite_hook_jit_opcode hooks))
    (Some (buxn_jit_composite_hook_end_block hooks)).

(** ** Calls in turn *)

Lemma for_each_proper {T A B : Type} (R : A -> B -> Prop) (f : A -> M T unit) (g : B -> M T unit) l r :
  (forall a b t, R a b -> f a t = g b t) -> Forall2 R l r -> forall t, for_each f l t = for_each g r t.
Proof.
  intros Hfg. induction 1 as [|a b l r Hab _ IH]; intros t; simpl; [done|]. unfold bind.
  rewrite (Hfg a b) by done. destruct (g b t) as [[[] t']| |]; [apply IH|done..].
Qed.

(** Actions run one after the other. *)
Inductive in_turn {T : Type} : list (M T unit) -> T -> T -> Prop :=
  | turn_nil t : in_turn [] t t
  | turn_cons f fs t t1 t' : f t = Ok (tt, t1) -> in_turn fs t1 t' -> in_turn (f :: fs) t t'.

Lemma bind_ok_iff {T A} (m : M T A) (k : A -> M T unit) t t' :
  bind m k t = Ok (tt, t') <-> exists a t1, m t = Ok (a, t1) /\ k a t1 = Ok (tt, t').
Proof. unfold bind. destruct (m t) as [[a t1]| |]; naive_solver. Qed.

(** The callbacks of an array, the missing ones skipped. *)
Lemma for_each_in_turn {T A} (callback : A -> option (M T unit)) (l : list A) t t' :
  for_each (fun a => default (ret tt) (callback a)) l t = Ok (tt, t') <-> in_turn (omap callback l) t t'.
Proof.
  revert t. induction l as [|a l IH]; intros t; cbn [for_each].
  { split; [intros [= <-]; constructor|by inversion 1]. }
  rewrite bind_ok_iff. cbn. destruct (callback a) as [f|]; cbn.
  - split.
    + intros ([] & t1 & E & Hr%IH). by econstructor.
    + inversion 1 as [|? ? ? t1 ? E Hr]; subst. exists tt, t1. split; [done|by apply IH].
  - rewrite <- IH. unfold ret. naive_solver.
Qed.

(** ** One mark per hook context *)

(** [buxn_jit_hook_mark_addr] on the field [current_label] of the context. *)
Class HookCtx (T : Type) := {
  current_label : T -> option nat;
  set_current_label : option nat -> T -> T;
  sljit_emit_label : M T nat;
  current_label_set : forall l t, current_label (set_current_label l t) = l;
}.

Definition hook_mark_addr `{HookCtx T} : M T nat :=
  l <-- gets current_label ;;
  match l with
  | Some l => ret l
  | None =>
      l <-- sljit_emit_label ;;
      modify (set_current_label (Some l)) ;;;
      ret l
  end.

Section Marks.
Context {T : Type} {HC : HookCtx T}.

(** After a mark, marking again gives the same label and emits nothing. *)
Lemma mark_again l u t1 : hook_mark_addr u = Ok (l, t1) -> current_label t1 = Some l.
Proof.
  unfold hook_mark_addr, bind, gets, modify, ret. destruct (current_label u) as [k|] eqn:E.
  - by intros [= <- <-].
  - destruct (sljit_emit_label u) as [[k u']| |]; [|done..]. intros [= <- <-]. apply current_label_set.
Qed.

Lemma mark_marked l u : current_label u = Some l -> hook_mark_addr u = Ok (l, u).
Proof. unfold hook_mark_addr, bind, gets, ret. by intros ->. Qed.

(** What a hook does with the mark of an opcode it records. *)
#[local] Abbreviation recorder := (Z -> Z -> option (nat -> M T unit)).

(** A hook that marks the address of the opcodes it records, as the perf and the
    gdb hook do. *)
Definition marking_hook (f : recorder) : hook T :=
  mkHook None (Some (fun pc opcode =>
    match f pc opcode with Some g => l <-- hook_mark_addr ;; g l | None => ret tt end)) None.

(** A marking hook, or one without the callback. *)
Definition member (o : option recorder) : hook T :=
  match o with Some f => marking_hook f | None => mkHook None None None end.

Definition keeps_label (g : nat -> M T unit) : Prop :=
  forall l u u', g l u = Ok (tt, u') -> current_label u' = current_label u.

Context (pc opcode : Z).

(** What the members that record the opcode do, in the order of the array. *)
Definition recorded (fs : list (option recorder)) : list (nat -> M T unit) :=
  omap (fun o => f ← o; f pc opcode) fs.

Lemma recorded_cons o fs : recorded (o :: fs) =
  match f ← o; f pc opcode with Some g => g :: recorded fs | None => recorded fs end.
Proof. done. Qed.

(** A member that records nothing does nothing. *)
Lemma member_silent o t : (f ← o; f pc opcode) = None -> call_opcode pc opcode (member o) t = Ok (tt, t).
Proof. destruct o as [f|]; cbn; [|done]. by intros ->. Qed.

Lemma member_records o g t : (f ← o; f pc opcode) = Some g ->
  call_opcode pc opcode (member o) t = (l <-- hook_mark_addr ;; g l) t.
Proof. destruct o as [f|]; cbn; [|done]. by intros ->. Qed.

(** Once the address is marked the members take that mark. *)
Lemma composite_marked fs l t t' :
  current_label t = Some l -> Forall keeps_label (recorded fs) ->
  for_each (call_opcode pc opcode) (member <$> fs) t = Ok (tt, t') <->
  in_turn ((fun g => g l) <$> recorded fs) t t'.
Proof.
  revert t. induction fs as [|o fs IH]; intros t Hl Hk; cbn [fmap list_fmap for_each].
  { split; [intros [= <-]; constructor|by inversion 1]. }
  rewrite bind_ok_iff. rewrite recorded_cons in *. destruct (f ← o; f pc opcode) as [g|] eqn:Eo.
  - apply Forall_cons in Hk as [Hg Hk]. rewrite (member_records _ g) by done.
    assert ((l <-- hook_mark_addr ;; g l) t = g l t) as -> by (unfold bind; by rewrite (mark_marked l)). split.
    + intros ([] & t1 & E & Hr). econstructor; [exact E|].
      apply IH in Hr; [done| |done]. by rewrite (Hg _ _ _ E).
    + inversion 1 as [|? ? ? t1 ? E Hr]; subst. exists tt, t1. split; [done|].
      apply IH; [|done|done]. by rewrite (Hg _ _ _ E).
  - rewrite member_silent by done. rewrite <- IH by done. naive_solver.
Qed.

(** The hook [h], whatever its other callbacks, does with this opcode what the
    recorder [o] does. *)
Definition marks_as (h : hook T) (o : option recorder) : Prop :=
  forall t, call_opcode pc opcode h t = call_opcode pc opcode (member o) t.

Lemma composite_marks_once (fs : list (option recorder)) t t' :
  Forall keeps_label (recorded fs) ->
  for_each (call_opcode pc opcode) (member <$> fs) t = Ok (tt, t') <->
  match recorded fs with
  | [] => t' = t
  | _ => exists l t1, hook_mark_addr t = Ok (l, t1) /\ in_turn ((fun g => g l) <$> recorded fs) t1 t'
  end.
Proof.
  induction fs as [|o fs IH]; intros Hk; cbn [fmap list_fmap for_each].
  { split; [by intros [= <-]|by intros ->]. }
  rewrite bind_ok_iff. rewrite recorded_cons in *. destruct (f ← o; f pc opcode) as [g|] eqn:Eo.
  - apply Forall_cons in Hk as [Hg Hk]. rewrite (member_records _ g) by done. cbn [fmap list_fmap]. split.
    + intros ([] & t2 & (l & t1 & Em & E)%bind_ok_iff & Hr). exists l, t1. split; [done|]. econstructor; [exact E|].
      apply (composite_marked fs l) in Hr; [done| |done]. rewrite (Hg _ _ _ E). by eapply mark_again.
    + intros (l & t1 & Em & Hr). inversion Hr as [|? ? ? t2 ? E Hr2]; subst. exists tt, t2.
      split; [apply bind_ok_iff; by exists l, t1|]. apply (composite_marked fs l); [|done|done].
      rewrite (Hg _ _ _ E). by eapply mark_again.
  - rewrite member_silent by done. rewrite <- IH by done. naive_solver.
Qed.

(** ** The component's theorem *)

(** C34: What a composite hook passes to the hooks of its array.  The events at
    the two ends of a block go to each hook that has the callback, once, in the
    order of the array, the next one only after the one before has returned.
    So does an opcode; of its hooks, those that record it mark its address: the
    first one emits the label and all of them record this one label, in the
    order of the array.  When none records the opcode nothing is emitted or
    changed. *)
Theorem composite_in_order (hooks : list (hook T)) (fs : list (option recorder)) start size t t' :
  Forall2 marks_as hooks fs -> Forall keeps_label (recorded fs) ->
  let composite := buxn_jit_init_composite_hook hooks in
  (call_begin composite t = Ok (tt, t') <-> in_turn (omap begin_block hooks) t t') /\
  (call_opcode pc opcode composite t = Ok (tt, t') <->
   match recorded fs with
   | [] => t' = t
   | _ => exists l t1, hook_mark_addr t = Ok (l, t1) /\ in_turn ((fun g => g l) <$> recorded fs) t1 t'
   end) /\
  (call_end start size composite t = Ok (tt, t') <->
   in_turn (omap (fun h => f ← end_block h; Some (f start size)) hooks) t t').
Proof.
  intros Hm Hk composite. split; [|split].
  - rewrite <- for_each_in_turn. done.
  - rewrite <- composite_marks_once by done. change (call_opcode pc opcode composite t) with
      (for_each (call_opcode pc opcode) hooks t).
    erewrite (for_each_proper marks_as _ (fun o => call_opcode pc opcode (member o)) hooks fs); [|by intros|done].
    rewrite (for_each_proper (fun o h => h = member o) (fun o => call_opcode pc opcode (member o))
      (call_opcode pc opcode) fs (member <$> fs)); [done|by intros ? ? ? ->|].
    apply Forall2_fmap_r, Forall_Forall2_diag. by apply Forall_true.
  - rewrite <- for_each_in_turn. change (call_end start size composite t) with (for_each (call_end start size) hooks t).
    erewrite (for_each_proper eq _ (fun h => default (ret tt) (f ← end_block h; Some (f start size))) hooks hooks);
      [done| |apply Forall_Forall2_diag; by apply Forall_true].
    intros h k u ->. unfold call_end. by destruct (end_block k).
Qed.
End Marks.

(** ** Witness: a hook that records calls, one without the callback, and one that
    records every opcode *)

Record book := mkBook { label : option nat; emitted : nat; entries : list (nat * Z * nat) }.

#[local] Instance book_ctx : HookCtx book.
Proof.
  refine {| current_label := label;
    set_current_label l b := mkBook l (emitted b) (entries b);
    sljit_emit_label b := Ok (emitted b, mkBook (label b) (S (emitted b)) (entries b)) |}. done.
Defined.

Definition writes (id : nat) (pc : Z) (l : nat) : M book unit :=
  modify (fun b => mkBook (label b) (emitted b) (entries b ++ [(id, pc, l)])).

Definition recorders : list (option (Z -> Z -> option (nat -> M book unit))) :=
  [Some (fun pc opcode => if opcode =? 0x60 then Some (writes 1 pc) else None); None;
   Some (fun pc opcode => Some (writes 2 pc))].

(** They write an entry without a mark at the end of a block. *)
Definition three_hooks : list (hook book) :=
  imap (fun id o => mkHook None (jit_opcode (member o)) (Some (fun start size => writes id start 0))) recorders.

Lemma composite_in_order_witness :
  let t := mkBook None 7 [] in
  let t' := mkBook (Some 7%nat) 8 [(1%nat, 0x100, 7%nat); (2%nat, 0x100, 7%nat)] in
  let composite := buxn_jit_init_composite_hook three_hooks in
  length (recorded 0x100 0x60 recorders) = 2%nat /\ length (recorded 0x100 0x01 recorders) = 1%nat /\
  call_opcode 0x100 0x60 composite t = Ok (tt, t') /\
  ((call_begin composite t = Ok (tt, t') <-> in_turn (omap begin_block three_hooks) t t') /\
   (call_opcode 0x100 0x60 composite t = Ok (tt, t') <->
    match recorded 0x100 0x60 recorders with
    | [] => t' = t
    | _ => exists l t1, hook_mark_addr t = Ok (l, t1) /\
        in_turn ((fun g => g l) <$> recorded 0x100 0x60 recorders) t1 t'
    end) /\
   (call_end 0x5000 16 composite t = Ok (tt, t') <->
    in_turn (omap (fun h => f ← end_block h; Some (f 0x5000 16)) three_hooks) t t')).
Proof.
  split; [reflexivity|]. split; [reflexivity|]. split; [reflexivity|].
  apply (composite_in_order 0x100 0x60 three_hooks recorders 0x5000 16 (mkBook None 7 [])).
  - repeat constructor.
  - repeat constructor; intros l u u' [= <-]; reflexivity.
Defined.
