(* ===== verification/PerfHook.v ===== *)
(** * The perf hook (src/src/perf.c)

    [buxn_jit_perf_jit_opcode] records the address of every opcode,
    [buxn_jit_perf_end_block] writes a line of the perf map and the records of
    the jitdump file.  The files are the bytes written so far; the host is
    little-endian and its structs have no padding here. *)
From S2P Require Import Prelude Bytes Pointers AddrMapping LabelMap.
Local Open Scope jit_scope.

(** What the hook asks of the system: the clock at each call ([None] when it
    fails), the thread id, the memory of the process, and the JIT's marks. *)
Class PerfHost := {
  clock_gettime : nat -> option (Z * Z);
  gettid : Z;
  memory_at : Z -> Z;
  PERF_EM : Z;
}.

(** ** Records *)

Record perf_jitdump_hdr_t := mkHdr {
  magic : Z; version : Z; hdr_total_size : Z; elf_mach : Z; pad1 : Z; hdr_pid : Z;
  hdr_timestamp : Z; flags : Z;
}.

Inductive perf_jitdump_rec_id_t :=
  | JIT_CODE_LOAD | JIT_CODE_MOVE | JIT_CODE_DEBUG_INFO | JIT_CODE_CLOSE | JIT_CODE_UNWINDING_INFO.

Definition rec_id (i : perf_jitdump_rec_id_t) : Z :=
  match i with
  | JIT_CODE_LOAD => 0 | JIT_CODE_MOVE => 1 | JIT_CODE_DEBUG_INFO => 2
  | JIT_CODE_CLOSE => 3 | JIT_CODE_UNWINDING_INFO => 4
  end.

Record perf_jitdump_rec_hdr_t := mkRecHdr { id : Z; total_size : Z; timestamp : Z }.

Record perf_jitdump_code_load_t := mkCodeLoad {
  cl_pid : Z; cl_tid : Z; cl_vma : Z; cl_code_addr : Z; cl_code_size : Z; cl_code_index : Z;
}.

Record perf_jitdump_debug_info_t := mkDebugInfo { di_code_addr : Z; nr_entry : Z }.

Record perf_jitdump_debug_entry_t := mkDebugEntry { de_code_addr : Z; line : Z; discrim : Z }.

(** The bytes [fwrite] writes for each struct. *)
Definition hdr_bytes (h : perf_jitdump_hdr_t) : list Z :=
  le 4 (magic h) ++ le 4 (version h) ++ le 4 (hdr_total_size h) ++ le 4 (elf_mach h) ++
  le 4 (pad1 h) ++ le 4 (hdr_pid h) ++ le 8 (hdr_timestamp h) ++ le 8 (flags h).
Definition rec_hdr_bytes (h : perf_jitdump_rec_hdr_t) : list Z :=
  le 4 (id h) ++ le 4 (total_size h) ++ le 8 (timestamp h).
Definition code_load_bytes (c : perf_jitdump_code_load_t) : list Z :=
  le 4 (cl_pid c) ++ le 4 (cl_tid c) ++ le 8 (cl_vma c) ++ le 8 (cl_code_addr c) ++
  le 8 (cl_code_size c) ++ le 8 (cl_code_index c).
Definition debug_info_bytes (d : perf_jitdump_debug_info_t) : list Z :=
  le 8 (di_code_addr d) ++ le 8 (nr_entry d).
Definition debug_entry_bytes (e : perf_jitdump_debug_entry_t) : list Z :=
  le 8 (de_code_addr e) ++ le 4 (line e) ++ le 4 (discrim e).

Definition sizeof_hdr : Z := 40.
Definition sizeof_rec_hdr : Z := 16.
Definition sizeof_code_load : Z := 40.
Definition sizeof_debug_info : Z := 16.
Definition sizeof_debug_entry : Z := 16.

(** ** The hook's data *)

Section PerfHook.
Context `{DbgSymtab} `{PerfHost}.

(** A file that could not be opened is [None]; [ticks] counts the readings of
    the clock, [hint] is the local [index_hint]. *)
Record buxn_jit_perf_hook_data_t := mkPerf {
  map_file : option (list Z);
  dump_file : option (list Z);
  pid : Z;
  code_index : Z;
  addr_mappings : mapping_list;
  label_map : option buxn_label_map_t;
  symtab : list dbg_sym;
  ticks : nat;
  hint : nat;
  size_acc : Z;
}.

Definition eta_perf (d : buxn_jit_perf_hook_data_t) : buxn_jit_perf_hook_data_t :=
  mkPerf (map_file d) (dump_file d) (pid d) (code_index d) (addr_mappings d) (label_map d)
    (symtab d) (ticks d) (hint d) (size_acc d).
Definition set_map_file f d : buxn_jit_perf_hook_data_t := ltac:(record_set eta_perf map_file f d).
Definition set_dump_file f d : buxn_jit_perf_hook_data_t := ltac:(record_set eta_perf dump_file f d).
Definition set_code_index f d : buxn_jit_perf_hook_data_t := ltac:(record_set eta_perf code_index f d).
Definition set_addr_mappings f d : buxn_jit_perf_hook_data_t := ltac:(record_set eta_perf addr_mappings f d).
Definition set_ticks f d : buxn_jit_perf_hook_data_t := ltac:(record_set eta_perf ticks f d).
Definition set_hint f d : buxn_jit_perf_hook_data_t := ltac:(record_set eta_perf hint f d).
Definition set_size_acc f d : buxn_jit_perf_hook_data_t := ltac:(record_set eta_perf size_acc f d).

#[export] Instance perf_maps : HasMaps buxn_jit_perf_hook_data_t.
Proof. refine {| maps_of := addr_mappings; on_maps := set_addr_mappings |}. done. Defined.

#[local] Abbreviation P := (M buxn_jit_perf_hook_data_t).

Definition fwrite_map (l : list Z) : P unit := modify (set_map_file (fmap (fun f => f ++ l))).
Definition fwrite_dump (l : list Z) : P unit := modify (set_dump_file (fmap (fun f => f ++ l))).

Definition stamp (n : nat) : Z :=
  match clock_gettime n with
  | None => 0
  | Some (tv_sec, tv_nsec) => (tv_sec * 1000000000 + tv_nsec) mod 2 ^ 64
  end.

Definition perf_jitdump_timestamp : P Z :=
  n <-- gets ticks ;;
  modify (set_ticks S) ;;;
  ret (stamp n).

(** The callback on an opcode, given the mark of the current address. *)
Definition buxn_jit_perf_jit_opcode (m : nat) (pc : Z) : P unit := record_mapping (mkMapping m pc).

(** ** The end of a block *)

(** The arguments of [snprintf]: the separator and the label. *)
Definition closest_name (addr : Z) (d : buxn_jit_perf_hook_data_t) : list Z * list Z :=
  match label_map d with
  | None => (chars "@", chars "?")
  | Some map =>
      match buxn_pc_to_label map addr with
      | None => (chars "@", chars "?")
      | Some e => (if LabelMap.addr e =? addr then chars "@" else chars "~", name e)
      end
  end.

(** ["uxn:0x%04x%s%.*s"] *)
Definition block_name (addr : Z) (d : buxn_jit_perf_hook_data_t) : list Z :=
  let '(at_str, label) := closest_name addr d in
  chars "uxn:0x" ++ hex4 addr ++ at_str ++ c_string label.

(** What [snprintf] leaves in [name[512]]. *)
Definition name_buf (full : list Z) : list Z := take 511 full ++ [0].

(** The symbol of an address, as in [buxn_dbg_find_symbol(symtab, addr,
    &index_hint)] followed by a use of its region. *)
Definition find_sym (address : Z) : P dbg_sym :=
  tab <-- gets symtab ;;
  h <-- gets hint ;;
  match buxn_dbg_find_symbol tab address h with
  | Ok (Some s, h') => modify (set_hint (fun _ => h')) ;;; ret s
  | Ok (None, _) => fun _ => AssertFailed "sym is NULL"
  | AssertFailed e => fun _ => AssertFailed e
  | OutOfFuel => out_of_fuel
  end.

(** The loop that computes [hdr.total_size]. *)
Definition add_entry_size (m : buxn_jit_addr_mapping_t) : P unit :=
  s <-- find_sym (AddrMapping.addr m) ;;
  modify (set_size_acc (fun n =>
    u32 (u32 (n + sizeof_debug_entry) + (Z.of_nat (length (c_string (sym_filename s))) + 1)))).

Definition write_entry (resolve : nat -> Z) (m : buxn_jit_addr_mapping_t) : P unit :=
  s <-- find_sym (AddrMapping.addr m) ;;
  fwrite_dump (debug_entry_bytes (mkDebugEntry (resolve (mark m)) (sym_line s) (sym_col s))) ;;;
  fwrite_dump (c_string (sym_filename s) ++ [0]).

(** The debug info record. *)
Definition write_debug_info (resolve : nat -> Z) (code_start code_size : Z) : P unit :=
  n <-- gets (fun d => maps_len (addr_mappings d)) ;;
  if n <=? 0 then ret tt
  else
    ts <-- perf_jitdump_timestamp ;;
    modify (set_size_acc (fun _ => sizeof_rec_hdr + sizeof_debug_info)) ;;;
    modify (set_size_acc (fun s => s + sizeof_debug_entry)) ;;;
    modify (set_size_acc (fun s => s + 1)) ;;;
    modify (set_hint (fun _ => 0%nat)) ;;;
    walk_mappings add_entry_size ;;;
    total <-- gets size_acc ;;
    fwrite_dump (rec_hdr_bytes (mkRecHdr (rec_id JIT_CODE_DEBUG_INFO) total ts)) ;;;
    fwrite_dump (debug_info_bytes (mkDebugInfo code_start (n + 1))) ;;;
    modify (set_hint (fun _ => 0%nat)) ;;;
    drain_mappings (write_entry resolve) ;;;
    fwrite_dump (debug_entry_bytes (mkDebugEntry (code_start + code_size - 1) 0 0)) ;;;
    fwrite_dump [0].

Definition read_code (start size : Z) : list Z :=
  (fun i => memory_at (start + i)) <$> seqZ 0 size.

(** The code load record. *)
Definition write_code_load (full : list Z) (code_start code_size : Z) : P unit :=
  pid <-- gets pid ;;
  index <-- gets code_index ;;
  modify (set_code_index (fun n => u32 (n + 1))) ;;;
  ts <-- perf_jitdump_timestamp ;;
  let name_len := Z.of_nat (length full) in
  fwrite_dump (rec_hdr_bytes (mkRecHdr (rec_id JIT_CODE_LOAD)
    (u32 (sizeof_rec_hdr + sizeof_code_load + (name_len + 1) + code_size)) ts)) ;;;
  fwrite_dump (code_load_bytes (mkCodeLoad pid gettid code_start code_start code_size index)) ;;;
  assert_that (name_len + 1 <=? 512) "fwrite reads past name[512]" ;;;
  fwrite_dump (name_buf full) ;;;
  fwrite_dump (read_code code_start code_size).

Definition buxn_jit_perf_end_block (resolve : nat -> Z) (addr code_start code_size : Z) : P unit :=
  full <-- gets (block_name addr) ;;
  map <-- gets map_file ;;
  match map with
  | None => ret tt
  | Some _ =>
      fwrite_map (hex 16 code_start ++ chars " " ++ hex 16 code_size ++ chars " " ++ take 511 full ++ chars (String (Ascii.ascii_of_nat 10) ""))
  end ;;;
  dump <-- gets dump_file ;;
  match dump with
  | None => ret tt
  | Some _ =>
      write_debug_info resolve code_start code_size ;;;
      write_code_load full code_start code_size
  end.

(** [buxn_jit_init_perf_hook]: [opened] tells which of the two files could be
    opened. *)
Definition buxn_jit_init_perf_hook (opened : bool * bool) (process : Z)
    (labels : option buxn_label_map_t) (syms : list dbg_sym) : res buxn_jit_perf_hook_data_t :=
  let d := mkPerf (if fst opened then Some [] else None) (if snd opened then Some [] else None)
    process 0 empty_maps labels syms 0 0 0 in
  match dump_file d with
  | None => Ok d
  | Some _ =>
      match (ts <-- perf_jitdump_timestamp ;;
             fwrite_dump (hdr_bytes (mkHdr 0x4A695444 1 sizeof_hdr PERF_EM 0 process ts 0))) d with
      | Ok (_, d) => Ok d
      | AssertFailed e => AssertFailed e
      | OutOfFuel => OutOfFuel
      end
  end.
End PerfHook.
