(* ===== verification/PerfCorrect.v ===== *)
(** * The jitdump file can be read back

    A reader of the jitdump format (a header, then records that start with
    their id and size), and the proof that what the perf hook writes for a
    block are the records of that block. *)
From S2P Require Import Prelude Bytes Pointers AddrMapping LabelMap PerfHook.
Local Open Scope jit_scope.

(** ** The reader *)

Definition parser (A : Type) : Type := list Z -> option (A * list Z).

Definition p_bytes (n : nat) : parser (list Z) := fun l =>
  if decide (n <= length l)%nat then Some (take n l, drop n l) else None.

Definition p_int (n : nat) : parser Z := fun l =>
  '(b, l) ← p_bytes n l; Some (unle b, l).

Fixpoint p_many {A} (n : nat) (p : parser A) : parser (list A) := fun l =>
  match n with
  | O => Some ([], l)
  | S n => '(a, l) ← p l; '(r, l) ← p_many n p l; Some (a :: r, l)
  end.

(** A debug entry with its file name, and the two records the hook writes. *)
Definition dump_entry : Type := perf_jitdump_debug_entry_t * list Z.

Inductive dump_record :=
  | DebugInfo (ts code_addr : Z) (entries : list dump_entry)
  | CodeLoad (ts : Z) (load : perf_jitdump_code_load_t) (name code : list Z).

Definition p_entry : parser dump_entry := fun l =>
  '(a, l) ← p_int 8 l; '(n, l) ← p_int 4 l; '(d, l) ← p_int 4 l; '(f, l) ← read_name l;
  Some ((mkDebugEntry a n d, f), l).

Definition p_debug_info (ts : Z) : parser dump_record := fun l =>
  '(a, l) ← p_int 8 l; '(n, l) ← p_int 8 l; '(es, l) ← p_many (Z.to_nat n) p_entry l;
  Some (DebugInfo ts a es, l).

Definition p_code_load (ts : Z) : parser dump_record := fun l =>
  '(pid, l) ← p_int 4 l; '(tid, l) ← p_int 4 l; '(vma, l) ← p_int 8 l; '(a, l) ← p_int 8 l;
  '(n, l) ← p_int 8 l; '(i, l) ← p_int 8 l; '(name, l) ← read_name l;
  '(code, l) ← p_bytes (Z.to_nat n) l;
  Some (CodeLoad ts (mkCodeLoad pid tid vma a n i) name code, l).

(** The size of a record counts its header, and the body must use it up. *)
Definition p_record : parser dump_record := fun l =>
  '(i, l) ← p_int 4 l; '(n, l) ← p_int 4 l; '(ts, l) ← p_int 8 l;
  '(body, l) ← p_bytes (Z.to_nat (n - 16)) l;
  '(r, extra) ← (if i =? 2 then p_debug_info ts body else if i =? 0 then p_code_load ts body else None);
  match extra with [] => Some (r, l) | _ => None end.

Fixpoint p_records (fuel : nat) (l : list Z) : option (list dump_record) :=
  match l with
  | [] => Some []
  | _ =>
      match fuel with
      | O => None
      | S fuel => '(r, l) ← p_record l; rs ← p_records fuel l; Some (r :: rs)
      end
  end.

Definition p_hdr : parser perf_jitdump_hdr_t := fun l =>
  '(m, l) ← p_int 4 l; '(v, l) ← p_int 4 l; '(n, l) ← p_int 4 l; '(e, l) ← p_int 4 l;
  '(p1, l) ← p_int 4 l; '(p, l) ← p_int 4 l; '(ts, l) ← p_int 8 l; '(f, l) ← p_int 8 l;
  Some (mkHdr m v n e p1 p ts f, l).

(** A whole file. *)
Definition read_dump (l : list Z) : option (perf_jitdump_hdr_t * list dump_record) :=
  '(h, l) ← p_hdr l; rs ← p_records (length l) l; Some (h, rs).

(** ** The reader on what has been written *)

#[local] Arguments le : simpl never.
#[local] Arguments p_int : simpl never.
#[local] Arguments p_bytes : simpl never.
#[local] Arguments read_name : simpl never.

Lemma p_bytes_app a r n : n = length a -> p_bytes n (a ++ r) = Some (a, r).
Proof.
  intros ->. unfold p_bytes. rewrite decide_True by (rewrite length_app; lia).
  by rewrite take_app_length, drop_app_length.
Qed.

Lemma p_bytes_all a n : n = length a -> p_bytes n a = Some (a, []).
Proof. intros Hn. rewrite <- (app_nil_r a) at 1. by apply p_bytes_app. Qed.

Lemma p_int_le n x r : 0 <= x < 256 ^ Z.of_nat n -> p_int n (le n x ++ r) = Some (x, r).
Proof.
  intros Hx. unfold p_int. rewrite p_bytes_app by (by rewrite le_length). cbn. by rewrite unle_le.
Qed.

Definition is_u64 (x : Z) : Prop := 0 <= x < 2 ^ 64.

Lemma p_int_4 x r : is_u32 x -> p_int 4 (le 4 x ++ r) = Some (x, r).
Proof. apply (p_int_le 4). Qed.
Lemma p_int_8 x r : is_u64 x -> p_int 8 (le 8 x ++ r) = Some (x, r).
Proof. apply (p_int_le 8). Qed.

Definition entry_ok (e : dump_entry) : Prop :=
  is_u64 (de_code_addr (fst e)) /\ is_u32 (line (fst e)) /\ is_u32 (discrim (fst e)) /\ no_nul (snd e).

Definition entry_bytes (e : dump_entry) : list Z := debug_entry_bytes (fst e) ++ snd e ++ [0].

Lemma p_entry_bytes e r : entry_ok e -> p_entry (entry_bytes e ++ r) = Some (e, r).
Proof.
  destruct e as [[a n d] f]. intros (Ha & Hn & Hd & Hf). unfold p_entry, entry_bytes, debug_entry_bytes. cbn in *.
  rewrite <- !app_assoc. rewrite p_int_8 by done. cbn. rewrite p_int_4 by done. cbn.
  rewrite p_int_4 by done. cbn. by rewrite read_name_app.
Qed.

Lemma p_many_entries es r :
  Forall entry_ok es -> p_many (length es) p_entry (concat (entry_bytes <$> es) ++ r) = Some (es, r).
Proof.
  induction 1 as [|e es He _ IH]; [done|]. rewrite fmap_cons. cbn [concat length p_many].
  rewrite <- app_assoc, p_entry_bytes by done. cbn. by rewrite IH.
Qed.

Lemma p_record_bytes i total ts body r rest :
  is_u32 i -> is_u32 total -> is_u64 ts -> total = 16 + Z.of_nat (length body) ->
  (if i =? 2 then p_debug_info ts body else if i =? 0 then p_code_load ts body else None) = Some (r, []) ->
  p_record (rec_hdr_bytes (mkRecHdr i total ts) ++ body ++ rest) = Some (r, rest).
Proof.
  intros Hi Ht Hts Hlen Hb. unfold p_record, rec_hdr_bytes. cbn [id total_size timestamp].
  rewrite <- !app_assoc. rewrite p_int_4 by done. cbn. rewrite p_int_4 by done. cbn.
  rewrite p_int_8 by done. cbn. rewrite p_bytes_app by lia. cbn. by rewrite Hb.
Qed.

Lemma p_debug_info_bytes ts a es :
  is_u64 a -> is_u64 (Z.of_nat (length es)) -> Forall entry_ok es ->
  p_debug_info ts (debug_info_bytes (mkDebugInfo a (Z.of_nat (length es))) ++ concat (entry_bytes <$> es)) =
    Some (DebugInfo ts a es, []).
Proof.
  intros Ha Hn Hes. unfold p_debug_info, debug_info_bytes. cbn [di_code_addr nr_entry].
  rewrite <- !app_assoc. rewrite p_int_8 by done. cbn. rewrite p_int_8 by done. cbn.
  rewrite Nat2Z.id, <- (app_nil_r (concat _)), p_many_entries by done. done.
Qed.

Definition load_ok (c : perf_jitdump_code_load_t) : Prop :=
  is_u32 (cl_pid c) /\ is_u32 (cl_tid c) /\ is_u64 (cl_vma c) /\ is_u64 (cl_code_addr c) /\
  is_u64 (cl_code_size c) /\ is_u64 (cl_code_index c).

Lemma p_code_load_bytes ts c name code :
  load_ok c -> no_nul name -> cl_code_size c = Z.of_nat (length code) ->
  p_code_load ts (code_load_bytes c ++ (name ++ [0]) ++ code) = Some (CodeLoad ts c name code, []).
Proof.
  destruct c as [p t v a n i]. intros (Hp & Ht & Hv & Ha & Hn & Hi) Hname Hc.
  unfold p_code_load, code_load_bytes. cbn in *. rewrite <- !app_assoc.
  rewrite p_int_4 by done. cbn. rewrite p_int_4 by done. cbn. rewrite p_int_8 by done. cbn.
  rewrite p_int_8 by done. cbn. rewrite p_int_8 by done. cbn. rewrite p_int_8 by done. cbn.
  rewrite read_name_app by done. cbn.
  by rewrite p_bytes_all by lia.
Qed.

(** ** Appending to a file *)

Lemma p_bytes_extend n l a l' b : p_bytes n l = Some (a, l') -> p_bytes n (l ++ b) = Some (a, l' ++ b).
Proof.
  unfold p_bytes. destruct (decide _); [|done]. intros [= <- <-].
  rewrite decide_True by (rewrite length_app; lia). by rewrite take_app_le, drop_app_le by done.
Qed.

Lemma p_int_extend n l a l' b : p_int n l = Some (a, l') -> p_int n (l ++ b) = Some (a, l' ++ b).
Proof.
  unfold p_int. destruct (p_bytes n l) as [[c l1]|] eqn:E; [|done]. cbn. intros [= <- <-].
  by rewrite (p_bytes_extend _ _ _ _ _ E).
Qed.

Ltac extend_step :=
  lazymatch goal with
  | H : (p_int ?n ?l ≫= _) = Some _ |- _ =>
      let E := fresh "E" in
      destruct (p_int n l) as [[? ?]|] eqn:E; [|done]; cbn in H |- *;
      rewrite (p_int_extend _ _ _ _ _ E); cbn
  | H : (p_bytes ?n ?l ≫= _) = Some _ |- _ =>
      let E := fresh "E" in
      destruct (p_bytes n l) as [[? ?]|] eqn:E; [|done]; cbn in H |- *;
      rewrite (p_bytes_extend _ _ _ _ _ E); cbn
  end.

Lemma p_record_extend l r l' b : p_record l = Some (r, l') -> p_record (l ++ b) = Some (r, l' ++ b).
Proof.
  unfold p_record. intros H. repeat extend_step.
  match type of H with (?o ≫= _) = _ => destruct o as [[r' [|]]|] end; cbn in *; [|done..].
  by simplify_eq.
Qed.

Lemma p_hdr_extend l r l' b : p_hdr l = Some (r, l') -> p_hdr (l ++ b) = Some (r, l' ++ b).
Proof. unfold p_hdr. intros H. repeat extend_step. by simplify_eq. Qed.

Lemma p_records_fuel f g l rs : (f <= g)%nat -> p_records f l = Some rs -> p_records g l = Some rs.
Proof.
  revert g l rs. induction f as [|f IH]; intros g [|b l] rs Hg; [by destruct g|done|by destruct g|].
  destruct g as [|g]; [lia|]. cbn. destruct (p_record (b :: l)) as [[r l']|]; [|done]. cbn.
  destruct (p_records f l') as [rs'|] eqn:E; [|done]. cbn. by rewrite (IH g _ _ ltac:(lia) E).
Qed.

Lemma p_records_app f g a b ra rb :
  p_records f a = Some ra -> p_records g b = Some rb -> p_records (f + g) (a ++ b) = Some (ra ++ rb).
Proof.
  revert a ra. induction f as [|f IH]; intros [|x a] ra Ha Hb.
  - injection Ha as <-. exact Hb.
  - done.
  - injection Ha as <-. by apply (p_records_fuel g (S f + g)); [lia|].
  - cbn in Ha |- *. destruct (p_record (x :: a)) as [[r l']|] eqn:E; [|done]. cbn in Ha.
    destruct (p_records f l') as [rs'|] eqn:E'; [|done]. simplify_eq/=.
    change (x :: a ++ b) with ((x :: a) ++ b). rewrite (p_record_extend _ _ _ _ E). cbn.
    by rewrite (IH l' rs').
Qed.

(** What is appended to a readable file. *)
Lemma read_dump_app file h rs new rs' :
  read_dump file = Some (h, rs) -> p_records (length new) new = Some rs' ->
  read_dump (file ++ new) = Some (h, rs ++ rs').
Proof.
  unfold read_dump. intros Hf Hn. destruct (p_hdr file) as [[h' l]|] eqn:E; [|done]. cbn in Hf.
  destruct (p_records (length l) l) as [rs0|] eqn:E'; [|done]. simplify_eq/=.
  rewrite (p_hdr_extend _ _ _ _ E). cbn. rewrite length_app. by rewrite (p_records_app _ _ _ _ _ _ E' Hn).
Qed.

(** ** The records of a block *)

Section Block.
Context `{DbgSymtab} `{PerfHost}.

Definition entry_of (tab : list dbg_sym) (resolve : nat -> Z) (m : buxn_jit_addr_mapping_t) : dump_entry :=
  match covering tab (AddrMapping.addr m) with
  | Some s => (mkDebugEntry (resolve (mark m)) (sym_line s) (sym_col s), c_string (sym_filename s))
  | None => (mkDebugEntry 0 0 0, [])
  end.

Definition end_entry (start size : Z) : dump_entry := (mkDebugEntry (start + size - 1) 0 0, []).

Definition block_entries (d : buxn_jit_perf_hook_data_t) (resolve : nat -> Z)
    (l : list buxn_jit_addr_mapping_t) (start size : Z) : list dump_entry :=
  (entry_of (symtab d) resolve <$> l) ++ [end_entry start size].

Definition block_load (d : buxn_jit_perf_hook_data_t) (start size : Z) : perf_jitdump_code_load_t :=
  mkCodeLoad (pid d) gettid start start size (code_index d).

(** The debug info when opcodes have been recorded, then the code. *)
Definition block_records (d : buxn_jit_perf_hook_data_t) (resolve : nat -> Z)
    (l : list buxn_jit_addr_mapping_t) (addr start size : Z) : list dump_record :=
  match l with
  | [] => [CodeLoad (stamp (ticks d)) (block_load d start size) (block_name addr d) (read_code start size)]
  | _ => [DebugInfo (stamp (ticks d)) start (block_entries d resolve l start size);
          CodeLoad (stamp (S (ticks d))) (block_load d start size) (block_name addr d) (read_code start size)]
  end.

(** What the hook relies on: a sorted table that covers the opcodes, a name
    that fits its buffer, and sizes that fit the fields of the format. *)
Record block_ok (d : buxn_jit_perf_hook_data_t) (resolve : nat -> Z)
    (l : list buxn_jit_addr_mapping_t) (addr start size : Z) : Prop := {
  bo_sorted : symtab_sorted (symtab d);
  bo_covered : Forall (fun m => is_Some (covering (symtab d) (AddrMapping.addr m))) l;
  bo_entries : Forall entry_ok (block_entries d resolve l start size);
  bo_load : load_ok (block_load d start size);
  bo_addr : is_u16 addr;
  bo_name : (length (block_name addr d) < 512)%nat;
  bo_code : 16 + 40 + 512 + size < 2 ^ 32;
  bo_info : 16 + Z.of_nat (length (debug_info_bytes (mkDebugInfo 0 0) ++
    concat (entry_bytes <$> block_entries d resolve l start size))) < 2 ^ 32;
}.

Lemma stamp_range n : is_u64 (stamp n).
Proof.
  unfold stamp, is_u64. destruct (clock_gettime n) as [[s t]|]; [apply Z.mod_pos_bound; lia|lia].
Qed.

Lemma block_name_no_nul addr d : is_u16 addr -> no_nul (block_name addr d).
Proof.
  intros Ha. unfold block_name. destruct (closest_name addr d) as [a l] eqn:E.
  assert (no_nul a) as Hna.
  { unfold closest_name in E. repeat case_match; simplify_eq; apply (bool_decide_unpack _); by vm_compute. }
  rewrite !no_nul_app. split_and!; [apply (bool_decide_unpack _); by vm_compute| |done|apply c_string_no_nul].
  apply hex4_no_nul. mlia.
Qed.

Lemma rec_hdr_length h : length (rec_hdr_bytes h) = 16%nat.
Proof. unfold rec_hdr_bytes. by rewrite !length_app, !le_length. Qed.
Lemma code_load_length c : length (code_load_bytes c) = 40%nat.
Proof. unfold code_load_bytes. by rewrite !length_app, !le_length. Qed.
Lemma debug_info_length i : length (debug_info_bytes i) = 16%nat.
Proof. unfold debug_info_bytes. by rewrite !length_app, !le_length. Qed.
Lemma entry_bytes_length e : Z.of_nat (length (entry_bytes e)) = 16 + Z.of_nat (length (snd e)) + 1.
Proof. unfold entry_bytes, debug_entry_bytes. rewrite !length_app, !le_length. simpl. lia. Qed.

(** ** The loops *)

(** [d0] with other values of what the loops change. *)
Definition vary (d0 : buxn_jit_perf_hook_data_t) (ms : mapping_list) (h : nat) (n : Z) (dump : option (list Z)) :=
  mkPerf (map_file d0) dump (pid d0) (code_index d0) ms (label_map d0) (symtab d0) (ticks d0) h n.

Definition entries_size (es : list dump_entry) : Z := Z.of_nat (length (concat (entry_bytes <$> es))).

Lemma entries_size_snoc es e :
  entries_size (es ++ [e]) = entries_size es + (16 + Z.of_nat (length (snd e)) + 1).
Proof.
  unfold entries_size. rewrite fmap_app, concat_app, length_app, Nat2Z.inj_add, list_fmap_singleton. f_equal.
  cbn [concat]. by rewrite app_nil_r, entry_bytes_length.
Qed.

Lemma wp_find_sym address s d (Q : dbg_sym -> buxn_jit_perf_hook_data_t -> Prop) :
  symtab_sorted (symtab d) -> (hint d <= length (symtab d))%nat -> covering (symtab d) address = Some s ->
  (forall h, (h <= length (symtab d))%nat -> Q s (set_hint (fun _ => h) d)) ->
  wp (find_sym address) Q d.
Proof.
  intros Hs Hh Hc HQ. unfold find_sym. apply wp_bind, wp_gets, wp_bind, wp_gets.
  destruct (find_symbol_spec (symtab d) address (hint d)) as (h & -> & Hh' & _); [done|done|].
  rewrite Hc. apply wp_bind, wp_modify, wp_ret. by apply HQ.
Qed.

Context (d0 : buxn_jit_perf_hook_data_t) (resolve : nat -> Z).
Context (Hsorted : symtab_sorted (symtab d0)).

(** Both loops with [n0] the size and [f0] the file before them. *)
Definition sized (n0 : Z) (done : list buxn_jit_addr_mapping_t) (d : buxn_jit_perf_hook_data_t) : Prop :=
  exists ms h, (h <= length (symtab d0))%nat /\
    d = vary d0 ms h (u32 (n0 + entries_size (entry_of (symtab d0) resolve <$> done))) (dump_file d0).

Definition written (n : Z) (f0 : list Z) (done : list buxn_jit_addr_mapping_t) (d : buxn_jit_perf_hook_data_t) : Prop :=
  exists ms h, (h <= length (symtab d0))%nat /\
    d = vary d0 ms h n (Some (f0 ++ concat (entry_bytes <$> (entry_of (symtab d0) resolve <$> done)))).

Lemma add_entry_size_ok n0 done m d :
  is_Some (covering (symtab d0) (AddrMapping.addr m)) -> sized n0 done d ->
  wp (add_entry_size m) (fun _ d' => maps_of d' = maps_of d /\ sized n0 (done ++ [m]) d') d.
Proof.
  intros [s Hs] (ms & h & Hh & ->). unfold add_entry_size. apply wp_bind.
  eapply wp_find_sym; [done..|]. intros h' Hh'. apply wp_modify. split; [done|].
  exists ms, h'. split; [done|]. unfold vary, set_hint, set_size_acc. cbn. f_equal.
  rewrite fmap_app, list_fmap_singleton, entries_size_snoc. unfold entry_of at 3. rewrite Hs. cbn [snd].
  unfold sizeof_debug_entry. mlia.
Qed.

Lemma write_entry_ok n f0 done m d :
  is_Some (covering (symtab d0) (AddrMapping.addr m)) -> written n f0 done d ->
  wp (write_entry resolve m) (fun _ d' => maps_of d' = maps_of d /\ written n f0 (done ++ [m]) d') d.
Proof.
  intros [s Hs] (ms & h & Hh & ->). unfold write_entry. apply wp_bind.
  eapply wp_find_sym; [done..|]. intros h' Hh'. apply wp_bind, wp_modify, wp_modify. split; [done|].
  exists ms, h'. split; [done|]. unfold vary, set_hint, set_dump_file. cbn. do 2 f_equal.
  rewrite !fmap_app, concat_app, <- !app_assoc, !list_fmap_singleton. do 2 f_equal. cbn [concat].
  unfold entry_of. rewrite Hs. unfold entry_bytes. cbn [fst snd]. by rewrite app_nil_r.
Qed.

End Block.

Section Records.
Context `{DbgSymtab} `{PerfHost}.
Context (d0 : buxn_jit_perf_hook_data_t) (resolve : nat -> Z).

(** ** The two records *)

Lemma info_total l start size :
  let es := block_entries d0 resolve l start size in
  u32 (16 + 16 + 16 + 1 + entries_size (entry_of (symtab d0) resolve <$> l)) =
    u32 (16 + Z.of_nat (length (debug_info_bytes (mkDebugInfo start (Z.of_nat (length es))) ++ concat (entry_bytes <$> es)))).
Proof.
  intros es. rewrite length_app, debug_info_length, Nat2Z.inj_add. fold (entries_size es).
  subst es. unfold block_entries. rewrite entries_size_snoc. cbn. f_equal. lia.
Qed.

Definition info_bytes (l : list buxn_jit_addr_mapping_t) (start size : Z) : list Z :=
  let es := block_entries d0 resolve l start size in
  let body := debug_info_bytes (mkDebugInfo start (Z.of_nat (length es))) ++ concat (entry_bytes <$> es) in
  rec_hdr_bytes (mkRecHdr 2 (16 + Z.of_nat (length body)) (stamp (ticks d0))) ++ body.

Lemma info_bytes_eq l start size :
  16 + Z.of_nat (length (debug_info_bytes (mkDebugInfo 0 0) ++
    concat (entry_bytes <$> block_entries d0 resolve l start size))) < 2 ^ 32 ->
  info_bytes l start size =
    rec_hdr_bytes (mkRecHdr 2 (u32 (49 + entries_size (entry_of (symtab d0) resolve <$> l))) (stamp (ticks d0))) ++
    debug_info_bytes (mkDebugInfo start (Z.of_nat (length l) + 1)) ++
    concat (entry_bytes <$> (entry_of (symtab d0) resolve <$> l)) ++
    debug_entry_bytes (mkDebugEntry (start + size - 1) 0 0) ++ [0].
Proof.
  intros Hlen. change 49 with (16 + 16 + 16 + 1). rewrite info_total with (start := start) (size := size).
  unfold info_bytes. rewrite length_app, debug_info_length in *.
  unfold u32. rewrite Z.mod_small by lia. f_equal.
  unfold block_entries. rewrite fmap_app, concat_app, list_fmap_singleton, length_app, length_fmap.
  cbn [concat length]. rewrite app_nil_r. do 3 f_equal. lia.
Qed.

(** What the two loops leave, the size computed by the first one being that of
    the record. *)
Lemma wp_write_debug_info l u v addr start size dump (Q : unit -> buxn_jit_perf_hook_data_t -> Prop) :
  block_ok d0 resolve l addr start size -> l <> [] -> Mapped (addr_mappings d0) l u v ->
  dump_file d0 = Some dump ->
  (forall ms h n, Mapped ms [] [] (reverse u ++ v) ->
     Q tt (set_ticks S (vary d0 ms h n (Some (dump ++ info_bytes l start size))))) ->
  wp (write_debug_info resolve start size) Q d0.
Proof.
  intros [Hsort Hcov _ _ _ _ _ Hinfo] Hl Hm Hdump HQ. rewrite Forall_forall in Hcov.
  set (d1 := set_ticks S d0). unfold write_debug_info. apply wp_bind, wp_gets. rewrite (mp_len _ _ _ _ Hm).
  destruct (Z.leb_spec (Z.of_nat (length l)) 0) as [|_]; [by destruct l|].
  apply wp_bind. unfold perf_jitdump_timestamp. apply wp_bind, wp_gets, wp_bind, wp_modify, wp_ret.
  do 4 apply wp_bind, wp_modify. apply wp_bind.
  eapply (wp_walk_mappings _ (sized d1 resolve 49) l); [|exact Hm| |].
  { intros done m rest t E Ht. apply add_entry_size_ok; [done| |done]. apply Hcov. rewrite E. set_solver. }
  { exists (addr_mappings d0), 0%nat. split; [simpl; lia|done]. }
  intros t Et (ms & h & Hh & ->). cbn in Et. subst ms.
  apply wp_bind, wp_gets. do 3 apply wp_bind, wp_modify. apply wp_bind.
  set (head := rec_hdr_bytes (mkRecHdr 2 (u32 (49 + entries_size (entry_of (symtab d0) resolve <$> l))) (stamp (ticks d0))) ++
    debug_info_bytes (mkDebugInfo start (Z.of_nat (length l) + 1))).
  eapply (wp_drain_mappings _ (written d1 resolve _ (dump ++ head)) l); [| |exact Hm| |].
  { intros done m rest t E Ht. apply write_entry_ok; [done| |done]. apply Hcov. rewrite E. set_solver. }
  { intros f done t (ms & h' & Hh' & ->). by exists (f ms), h'. }
  { exists (addr_mappings d0), 0%nat. split; [simpl; lia|]. unfold vary, head, set_hint, set_dump_file. cbn.
    rewrite Hdump. cbn. by rewrite app_nil_r, <- app_assoc. }
  intros t Hm' _ (ms & h' & Hh' & ->). cbn in Hm'. apply wp_bind, wp_modify, wp_modify.
  assert (Some ((((dump ++ head) ++ concat (entry_bytes <$> (entry_of (symtab d0) resolve <$> l))) ++
    debug_entry_bytes (mkDebugEntry (start + size - 1) 0 0)) ++ [0]) = Some (dump ++ info_bytes l start size)) as Ef.
  { rewrite info_bytes_eq by done. unfold head. by rewrite <- !app_assoc. }
  specialize (HQ ms h' (u32 (49 + entries_size (entry_of (symtab d0) resolve <$> l))) Hm').
  rewrite <- Ef in HQ. exact HQ.
Qed.

Definition load_bytes (d : buxn_jit_perf_hook_data_t) (full : list Z) (start size : Z) : list Z :=
  rec_hdr_bytes (mkRecHdr 0 (u32 (16 + 40 + (Z.of_nat (length full) + 1) + size)) (stamp (ticks d))) ++
  code_load_bytes (block_load d start size) ++ (full ++ [0]) ++ read_code start size.

Lemma wp_fwrite_dump l d dump (Q : unit -> buxn_jit_perf_hook_data_t -> Prop) :
  dump_file d = Some dump -> Q tt (set_dump_file (fun _ => Some (dump ++ l)) d) -> wp (fwrite_dump l) Q d.
Proof. intros Hd HQ. apply wp_modify. destruct d. cbn in *. by subst. Qed.

Lemma wp_write_code_load d full start size dump (Q : unit -> buxn_jit_perf_hook_data_t -> Prop) :
  (length full < 512)%nat -> dump_file d = Some dump ->
  Q tt (set_dump_file (fun _ => Some (dump ++ load_bytes d full start size))
         (set_ticks S (set_code_index (fun n => u32 (n + 1)) d))) ->
  wp (write_code_load full start size) Q d.
Proof.
  intros Hfull Hdump HQ. unfold write_code_load. apply wp_bind, wp_gets, wp_bind, wp_gets, wp_bind, wp_modify.
  apply wp_bind. unfold perf_jitdump_timestamp. apply wp_bind, wp_gets, wp_bind, wp_modify, wp_ret.
  apply wp_bind. eapply wp_fwrite_dump; [exact Hdump|]. apply wp_bind. eapply wp_fwrite_dump; [done|].
  apply wp_bind, wp_assert; [lia|]. apply wp_bind. eapply wp_fwrite_dump; [done|]. eapply wp_fwrite_dump; [done|].
  unfold name_buf. rewrite take_ge by lia. unfold load_bytes in HQ. rewrite !app_assoc in *. exact HQ.
Qed.

(** Reading the two records back. *)
Lemma p_records_one b r : p_record b = Some (r, []) -> p_records (length b) b = Some [r].
Proof. destruct b as [|x b]; [done|]. intros E. cbn [length p_records]. rewrite E. cbn. by destruct (length b). Qed.

Lemma read_load_bytes d l addr start size full :
  block_ok d resolve l addr start size -> (length full < 512)%nat -> no_nul full -> 0 <= size ->
  forall d', pid d' = pid d -> code_index d' = code_index d ->
  p_records (length (load_bytes d' full start size)) (load_bytes d' full start size) =
    Some [CodeLoad (stamp (ticks d')) (block_load d start size) full (read_code start size)].
Proof.
  intros [_ _ _ Hload _ _ Hcode _] Hfull Hnul Hsize d' Ep Ei.
  assert (block_load d' start size = block_load d start size) as Eb by (unfold block_load; congruence).
  assert (length (read_code start size) = Z.to_nat size) as Hmem by (unfold read_code; by rewrite length_fmap, length_seqZ).
  apply p_records_one. unfold load_bytes. rewrite Eb.
  rewrite <- (app_nil_r (code_load_bytes _ ++ _)).
  apply p_record_bytes; [done|apply Z.mod_pos_bound; lia|apply stamp_range| |].
  - unfold u32. rewrite Z.mod_small by lia. rewrite !length_app, code_load_length, Hmem. simpl. lia.
  - cbn [Z.eqb]. apply p_code_load_bytes; [done|done|]. cbn. rewrite Hmem. lia.
Qed.

Lemma read_info_bytes l addr start size :
  block_ok d0 resolve l addr start size ->
  p_records (length (info_bytes l start size)) (info_bytes l start size) =
    Some [DebugInfo (stamp (ticks d0)) start (block_entries d0 resolve l start size)].
Proof.
  intros [_ _ Hes Hload _ _ _ Hinfo]. apply p_records_one. unfold info_bytes.
  rewrite length_app, debug_info_length in Hinfo |- *.
  set (es := block_entries _ _ _ _ _) in *.
  rewrite <- (app_nil_r (debug_info_bytes _ ++ _)).
  apply p_record_bytes; [done|unfold is_u32; lia|apply stamp_range| |].
  - by rewrite length_app, debug_info_length.
  - apply p_debug_info_bytes; [apply Hload| |done]. unfold is_u64.
    assert (Z.of_nat (length es) <= entries_size es); [|unfold entries_size in *; lia].
    clear. induction es as [|e es IH] using rev_ind; [done|].
    rewrite entries_size_snoc, length_app. simpl. lia.
Qed.
End Records.

(** ** The component's theorems *)

Section Correct.
Context `{DbgSymtab} `{PerfHost}.

(** A fresh hook has a readable file with the header and no record. *)
Lemma init_perf_readable process labels syms :
  is_u32 process -> is_u32 PERF_EM ->
  exists d, buxn_jit_init_perf_hook (true, true) process labels syms = Ok d /\
    Mapped (addr_mappings d) [] [] [] /\
    (f ← dump_file d; read_dump f) = Some (mkHdr 0x4A695444 1 40 PERF_EM 0 process (stamp 0) 0, []).
Proof.
  intros Hp He. eexists. split; [reflexivity|]. split; [apply mapped_empty|]. cbn.
  unfold hdr_bytes, read_dump, p_hdr. cbn. rewrite <- (app_nil_r (le 8 0)).
  do 6 (rewrite p_int_4 by done; cbn). rewrite p_int_8 by apply stamp_range. cbn.
  by rewrite p_int_8.
Qed.

(** The part of [buxn_jit_perf_end_block] on the dump file. *)
Lemma wp_dump_block d resolve l u v addr start size dump h rs :
  Mapped (addr_mappings d) l u v -> block_ok d resolve l addr start size -> 0 <= size ->
  dump_file d = Some dump -> read_dump dump = Some (h, rs) ->
  wp (write_debug_info resolve start size ;;; write_code_load (block_name addr d) start size)
    (fun _ d' => exists dump', dump_file d' = Some dump' /\
       read_dump dump' = Some (h, rs ++ block_records d resolve l addr start size) /\
       Mapped (addr_mappings d') [] [] (reverse u ++ v)) d.
Proof.
  intros Hm Hok Hsize Hdump Hread. pose proof (bo_name _ _ _ _ _ _ Hok) as Hfull.
  assert (no_nul (block_name addr d)) as Hnul by (apply block_name_no_nul, Hok).
  pose proof (read_load_bytes _ _ _ _ _ _ _ Hok Hfull Hnul Hsize) as Hload.
  apply wp_bind. destruct l as [|m l].
  - unfold write_debug_info. apply wp_bind, wp_gets. rewrite (mp_len _ _ _ _ Hm). apply wp_ret.
    eapply wp_write_code_load; [done..|]. eexists. split; [done|].
    pose proof (mapped_nil _ _ _ Hm) as ->. split; [|exact Hm].
    apply read_dump_app; [done|]. by apply Hload.
  - eapply (wp_write_debug_info d resolve (m :: l) u v addr); [done..|]. intros ms hi n Hms.
    eapply wp_write_code_load; [done|done|]. eexists. split; [done|]. split; [|done].
    change (block_records d resolve (m :: l) addr start size) with
      ([DebugInfo (stamp (ticks d)) start (block_entries d resolve (m :: l) start size)] ++
       [CodeLoad (stamp (S (ticks d))) (block_load d start size) (block_name addr d) (read_code start size)]).
    rewrite (app_assoc rs). apply read_dump_app; [apply read_dump_app; [done|]|].
    + by eapply read_info_bytes.
    + by apply (Hload (set_ticks S (vary d ms hi n (Some (dump ++ info_bytes d resolve (m :: l) start size))))).
Qed.

(** C24: The end of a block adds to a readable jitdump file the records of that
    block: when opcodes have been recorded, a debug info record with one entry
    per opcode, in order, with the line, column and file of the symbol that
    covers it, closed by the entry of the last byte; then the code load record
    with the name of the block and its code.  Every total_size is the size of
    its record, and the recorded mappings are gone, their chunks back in the
    pool. *)
Theorem perf_end_block_roundtrip d resolve l u v addr start size dump h rs :
  Mapped (addr_mappings d) l u v -> block_ok d resolve l addr start size -> 0 <= size ->
  dump_file d = Some dump -> read_dump dump = Some (h, rs) ->
  exists d' dump', buxn_jit_perf_end_block resolve addr start size d = Ok (tt, d') /\
    dump_file d' = Some dump' /\
    read_dump dump' = Some (h, rs ++ block_records d resolve l addr start size) /\
    Mapped (addr_mappings d') [] [] (reverse u ++ v).
Proof.
  intros Hm Hok Hsize Hdump Hread.
  match goal with |- exists d' dump', _ /\ @?R d' dump' =>
    assert (wp (buxn_jit_perf_end_block resolve addr start size) (fun _ d' => exists dump', R d' dump') d) as Hwp end.
  2:{ apply wp_elim in Hwp as ([] & d' & E & dump' & Hpost). by exists d', dump'. }
  unfold buxn_jit_perf_end_block. apply wp_bind, wp_gets, wp_bind, wp_gets.
  destruct (map_file d) as [mf|] eqn:Emf.
  - apply wp_bind, wp_modify, wp_bind, wp_gets. cbn [dump_file set_map_file]. rewrite Hdump.
    apply (wp_dump_block (set_map_file _ d) resolve l u v addr start size dump); [done| |done..].
    destruct Hok. by split.
  - apply wp_bind, wp_ret, wp_bind, wp_gets. rewrite Hdump. by eapply wp_dump_block.
Qed.
End Correct.

(** ** Witnesses: one block with one opcode *)

Definition demo_host : PerfHost := {|
  clock_gettime := fun n => Some (5, Z.of_nat n);
  gettid := 42;
  memory_at := fun a => a mod 256;
  PERF_EM := 62;
|}.

#[local] Existing Instances demo_symtab demo_host.

Definition demo_header : perf_jitdump_hdr_t := mkHdr 0x4A695444 1 40 62 0 7 5000000000 0.

Definition demo_perf (labels : option buxn_label_map_t) (ms : mapping_list) : buxn_jit_perf_hook_data_t :=
  mkPerf (Some []) (Some (hdr_bytes demo_header)) 7 0 ms labels demo_symbols 1 0 0.

Lemma demo_block_ok : block_ok (demo_perf None demo_maps) (fun m => 0x4000 + Z.of_nat m) [mkMapping 3 0x101] 0x100 0x4000 8.
Proof.
  split; [apply demo_sorted|by repeat constructor|..].
  - repeat constructor; apply (bool_decide_unpack _); vm_compute; exact I.
  - apply (bool_decide_unpack _). vm_compute. exact I.
  - apply (bool_decide_unpack _). vm_compute. exact I.
  - apply (bool_decide_unpack _). vm_compute. exact I.
  - done.
  - vm_compute. done.
Qed.

Lemma perf_end_block_roundtrip_witness :
  exists d' dump', buxn_jit_perf_end_block (fun m => 0x4000 + Z.of_nat m) 0x100 0x4000 8 (demo_perf None demo_maps) = Ok (tt, d') /\
    dump_file d' = Some dump' /\
    read_dump dump' = Some (demo_header, [] ++
      block_records (demo_perf None demo_maps) (fun m => 0x4000 + Z.of_nat m) [mkMapping 3 0x101] 0x100 0x4000 8) /\
    Mapped (addr_mappings d') [] [] (reverse [0%nat] ++ []).
Proof.
  apply (perf_end_block_roundtrip (demo_perf None demo_maps) _ [mkMapping 3 0x101] [0%nat] [] 0x100 0x4000 8
           (hdr_bytes demo_header) demo_header []).
  - apply demo_mapped.
  - apply demo_block_ok.
  - lia.
  - reflexivity.
  - vm_compute. reflexivity.
Defined.

(** A label of 501 characters: [name_len] is what [snprintf] would have written,
    and [fwrite] reads beyond the 512 bytes of [name]. *)
Definition long_label : buxn_label_map_t := mkLabelMap 1 [mkLabel 0x100 (replicate 501 0x61)].

Theorem perf_long_label_overread :
  buxn_jit_perf_end_block (fun m => 0x4000 + Z.of_nat m) 0x100 0x4000 8 (demo_perf (Some long_label) empty_maps) =
    AssertFailed "fwrite reads past name[512]".
Proof. vm_compute. reflexivity. Qed.

(** An opcode that no symbol covers: the result of [buxn_dbg_find_symbol] is
    dereferenced without a test. *)
Theorem perf_null_symbol :
  buxn_jit_perf_end_block (fun m => 0x4000 + Z.of_nat m) 0x100 0x4000 8
    (demo_perf None (mkMaps [mkChunk None [mkMapping 3 0x300]] 1 (Some 0%nat) (Some 0%nat) None)) =
    AssertFailed "sym is NULL".
Proof. vm_compute. reflexivity. Qed.

(** Without a dump file the recorded mappings are never given back. *)
Theorem perf_keeps_mappings (d : buxn_jit_perf_hook_data_t) resolve addr start size :
  dump_file d = None ->
  exists d', buxn_jit_perf_end_block resolve addr start size d = Ok (tt, d') /\
    addr_mappings d' = addr_mappings d.
Proof.
  intros Hd. destruct d as [[mf|] df p ci ms lm tab tk hi sz]; cbn in Hd; subst; by eexists.
Qed.
