(* ===== verification/GdbHook.v ===== *)
(** * The gdb hook (src/src/gdb/hook.c)

    Blocks of debug information registered with gdb: every block holds an
    entry of the doubly linked list that starts at [__jit_debug_descriptor],
    shared by all hooks of the process, and is also on its hook's own list.
    Blocks are never freed; the address of an entry is that of its block. *)
From S2P Require Import Prelude Bytes Pointers AddrMapping LabelMap.
Local Open Scope jit_scope.

(** ** Data *)

Inductive jit_actions_t := JIT_NOACTION | JIT_REGISTER_FN | JIT_UNREGISTER_FN.

Record buxn_jit_dbg_line_mapping_t := mkLine { line : Z; line_pc : Z; file : list Z }.

(** [name] is [None] when [name.str] is NULL. *)
Record buxn_jit_dbg_info_t := mkInfo {
  info_addr : Z; start : Z; size : Z;
  info_name : option (list Z);
  line_mappings : list buxn_jit_dbg_line_mapping_t;
}.

Record buxn_jit_gdb_info_block_t := mkInfoBlock {
  block_next : option nat;
  next_entry : option nat;
  prev_entry : option nat;
  debug_info : buxn_jit_dbg_info_t;
}.

Definition set_next_entry (p : option nat) (b : buxn_jit_gdb_info_block_t) :=
  mkInfoBlock (block_next b) p (prev_entry b) (debug_info b).
Definition set_prev_entry (p : option nat) (b : buxn_jit_gdb_info_block_t) :=
  mkInfoBlock (block_next b) (next_entry b) p (debug_info b).
Definition set_block_next (p : option nat) (b : buxn_jit_gdb_info_block_t) :=
  mkInfoBlock p (next_entry b) (prev_entry b) (debug_info b).

Section GdbHook.
Context `{DbgSymtab}.

(** The process ([info_blocks], the descriptor and what gdb was told) and one
    hook's data ([blocks], [label_map], [symtab], [addr_mappings]); [acc] is
    the array [mappings] being filled and [hint] the local [index_hint]. *)
Record gdb_state := mkGdb {
  info_blocks : list buxn_jit_gdb_info_block_t;
  action_flag : jit_actions_t;
  relevant_entry : option nat;
  first_entry : option nat;
  events : list (jit_actions_t * option nat);
  blocks : option nat;
  label_map : option buxn_label_map_t;
  symtab : list dbg_sym;
  addr_mappings : mapping_list;
  hint : nat;
  acc : list buxn_jit_dbg_line_mapping_t;
}.

Definition eta_gdb (d : gdb_state) : gdb_state :=
  mkGdb (info_blocks d) (action_flag d) (relevant_entry d) (first_entry d) (events d) (blocks d)
    (label_map d) (symtab d) (addr_mappings d) (hint d) (acc d).
Definition set_info_blocks f d : gdb_state := ltac:(record_set eta_gdb info_blocks f d).
Definition set_action_flag f d : gdb_state := ltac:(record_set eta_gdb action_flag f d).
Definition set_relevant_entry f d : gdb_state := ltac:(record_set eta_gdb relevant_entry f d).
Definition set_first_entry f d : gdb_state := ltac:(record_set eta_gdb first_entry f d).
Definition set_events f d : gdb_state := ltac:(record_set eta_gdb events f d).
Definition set_blocks f d : gdb_state := ltac:(record_set eta_gdb blocks f d).
Definition set_addr_mappings f d : gdb_state := ltac:(record_set eta_gdb addr_mappings f d).
Definition set_hint f d : gdb_state := ltac:(record_set eta_gdb hint f d).
Definition set_acc f d : gdb_state := ltac:(record_set eta_gdb acc f d).

#[export] Instance gdb_maps : HasMaps gdb_state.
Proof. refine {| maps_of := addr_mappings; on_maps := set_addr_mappings |}. done. Defined.

#[local] Abbreviation G := (M gdb_state).

(** gdb's breakpoint: it looks at the flag and the relevant entry. *)
Definition jit_debug_register_code : G unit :=
  modify (fun d => set_events (fun l => l ++ [(action_flag d, relevant_entry d)]) d).

Definition load_block (p : option nat) : G (nat * buxn_jit_gdb_info_block_t) := deref info_blocks p.
Definition store_block (i : nat) (f : buxn_jit_gdb_info_block_t -> buxn_jit_gdb_info_block_t) : G unit :=
  modify (set_info_blocks (alter f i)).

(** ** Recording opcodes *)

(** The opcodes worth a line: the entry and those with a call and a return. *)
Definition gdb_records (entry pc opcode : Z) : bool :=
  let base_opcode := Z.land opcode 0x1f in
  (pc =? entry) || (opcode =? 0x60) || (base_opcode =? 0x0e) || (base_opcode =? 0x16) || (base_opcode =? 0x17).

Definition buxn_jit_gdb_jit_opcode (m : nat) (entry pc opcode : Z) : G unit :=
  if negb (gdb_records entry pc opcode) then ret tt else record_mapping (mkMapping m pc).

(** ** The end of a block *)

Definition gdb_find_sym (address : Z) : G dbg_sym :=
  tab <-- gets symtab ;;
  h <-- gets hint ;;
  match buxn_dbg_find_symbol tab address h with
  | Ok (Some s, h') => modify (set_hint (fun _ => h')) ;;; ret s
  | Ok (None, _) => fun _ => AssertFailed "sym is NULL"
  | AssertFailed e => fun _ => AssertFailed e
  | OutOfFuel => out_of_fuel
  end.

Definition add_line (resolve : nat -> Z) (m : buxn_jit_addr_mapping_t) : G unit :=
  s <-- gdb_find_sym (AddrMapping.addr m) ;;
  modify (set_acc (fun l => l ++ [mkLine (sym_line s) (resolve (mark m)) (c_string (sym_filename s))])).

(** The name given to the block, if its label map has one for it. *)
Definition gdb_block_name (addr : Z) (labels : option buxn_label_map_t) : option (list Z) :=
  match labels with
  | None => None
  | Some map =>
      e ← buxn_pc_to_label map addr;
      Some ((if LabelMap.addr e =? addr then chars "@" else chars "~") ++ name e)
  end.

Definition collect_lines (resolve : nat -> Z) : G unit :=
  n <-- gets (fun d => maps_len (addr_mappings d)) ;;
  modify (set_acc (fun _ => [])) ;;;
  if n <=? 0 then ret tt
  else
    modify (set_hint (fun _ => 0%nat)) ;;;
    drain_mappings (add_line resolve).

(** The part of [buxn_jit_gdb_end_block] under the mutex. *)
Definition register_entry (block : nat) : G unit :=
  first <-- gets first_entry ;;
  store_block block (set_next_entry first) ;;;
  match first with
  | None => ret tt
  | Some _ => e <-- load_block first ;; store_block (fst e) (set_prev_entry (Some block))
  end ;;;
  modify (set_first_entry (fun _ => Some block)) ;;;
  modify (set_action_flag (fun _ => JIT_REGISTER_FN)) ;;;
  modify (set_relevant_entry (fun _ => Some block)) ;;;
  jit_debug_register_code ;;;
  modify (set_action_flag (fun _ => JIT_NOACTION)).

Definition buxn_jit_gdb_end_block (resolve : nat -> Z) (addr code_start code_size : Z) : G unit :=
  block <-- gets (fun d => length (info_blocks d)) ;;
  name <-- gets (fun d => gdb_block_name addr (label_map d)) ;;
  collect_lines resolve ;;;
  lines <-- gets acc ;;
  modify (set_info_blocks (fun l => l ++
    [mkInfoBlock None None None (mkInfo addr code_start code_size name lines)])) ;;;
  mine <-- gets blocks ;;
  store_block block (set_block_next mine) ;;;
  modify (set_blocks (fun _ => Some block)) ;;;
  register_entry block.

(** ** Cleanup *)

Definition unlink_entry (b : buxn_jit_gdb_info_block_t) : G unit :=
  match next_entry b with
  | None => ret tt
  | Some _ => e <-- load_block (next_entry b) ;; store_block (fst e) (set_prev_entry (prev_entry b))
  end ;;;
  match prev_entry b with
  | None => ret tt
  | Some _ => e <-- load_block (prev_entry b) ;; store_block (fst e) (set_next_entry (next_entry b))
  end.

Fixpoint cleanup_blocks (fuel : nat) (itr : option nat) : G unit :=
  match itr with
  | None => ret tt
  | Some _ =>
      match fuel with
      | O => out_of_fuel
      | S fuel =>
          b <-- load_block itr ;;
          unlink_entry (snd b) ;;;
          modify (set_relevant_entry (fun _ => itr)) ;;;
          jit_debug_register_code ;;;
          cleanup_blocks fuel (block_next (snd b))
      end
  end.

Definition buxn_jit_cleanup_gdb_hook : G unit :=
  n <-- gets (fun d => length (info_blocks d)) ;;
  itr <-- gets blocks ;;
  modify (set_action_flag (fun _ => JIT_UNREGISTER_FN)) ;;;
  cleanup_blocks n itr ;;;
  modify (set_action_flag (fun _ => JIT_NOACTION)).

(** [buxn_jit_init_gdb_hook] for a hook of the process [d]. *)
Definition buxn_jit_init_gdb_hook (labels : option buxn_label_map_t) (syms : list dbg_sym) (d : gdb_state) : gdb_state :=
  mkGdb (info_blocks d) (action_flag d) (relevant_entry d) (first_entry d) (events d) None labels syms
    empty_maps 0 [].
End GdbHook.
