(* ===== verification/GdbCorrect.v ===== *)
(** * The registration list of the gdb hook

    [dseg]: a segment of the doubly linked list.  Registering a block puts it
    in front; unlinking one closes the gap.  The head of the list is only ever
    written by a registration, so a cleanup that unlinks the first block
    leaves it behind. *)
From S2P Require Import Prelude Bytes Pointers AddrMapping LabelMap GdbHook.
Local Open Scope jit_scope.

(** ** Doubly linked segments *)

(** From [p], whose first block points back to [pp], through [ids] to the
    pointer [e]; [l] is the last block visited, or [pp]. *)
Fixpoint dseg (h : list buxn_jit_gdb_info_block_t) (pp p : option nat) (ids : list nat) (l e : option nat) : Prop :=
  match ids with
  | [] => p = e /\ pp = l
  | i :: ids => p = Some i /\ exists b, h !! i = Some b /\ prev_entry b = pp /\ dseg h (Some i) (next_entry b) ids l e
  end.

(** The whole list from a head. *)
Definition dlist (h : list buxn_jit_gdb_info_block_t) (p : option nat) (ids : list nat) : Prop :=
  exists l, dseg h None p ids l None.

Lemma dseg_app h pp p u v l e :
  dseg h pp p (u ++ v) l e <-> exists m q, dseg h pp p u m q /\ dseg h m q v l e.
Proof.
  revert pp p. induction u as [|i u IH]; intros pp p; cbn [dseg app].
  - split; [intros Hv; by exists pp, p|]. by intros (m & q & [-> ->] & Hv).
  - split.
    + intros (-> & b & Hb & Hpp & Hs). apply IH in Hs as (m & q & Hu & Hv). exists m, q.
      split; [|done]. split; [done|]. by exists b.
    + intros (m & q & (-> & b & Hb & Hpp & Hu) & Hv). split; [done|]. exists b.
      split_and!; [done|done|]. apply IH. by exists m, q.
Qed.

(** Blocks keep their links. *)
Lemma dseg_frame h h' pp p ids l e :
  (forall i b, i ∈ ids -> h !! i = Some b ->
     exists b', h' !! i = Some b' /\ next_entry b' = next_entry b /\ prev_entry b' = prev_entry b) ->
  dseg h pp p ids l e -> dseg h' pp p ids l e.
Proof.
  revert pp p. induction ids as [|i ids IH]; intros pp p Hf; cbn [dseg]; [done|].
  intros (-> & b & Hb & <- & Hs). split; [done|].
  destruct (Hf i b) as (b' & Hb' & En & Ep); [by left|done|].
  exists b'. rewrite En. split_and!; [done|done|]. apply IH; [|done]. intros j c Hj. apply Hf. by right.
Qed.

Lemma dseg_alter_out h pp p ids l e f i : i ∉ ids -> dseg h pp p ids l e -> dseg (alter f i h) pp p ids l e.
Proof.
  intros Hi. apply dseg_frame. intros j b Hj Hb. exists b. split; [|done].
  rewrite list_lookup_alter_ne; [done|]. by intros ->.
Qed.

(** The last block of a segment gets another successor. *)
Lemma dseg_set_next h pp p u j l e q :
  dseg h pp p (u ++ [j]) l e -> j ∉ u ->
  dseg (alter (set_next_entry q) j h) pp p (u ++ [j]) l q.
Proof.
  intros (m & r & Hu & Hj)%dseg_app Hn. apply dseg_app. exists m, r. split; [by apply dseg_alter_out|].
  destruct Hj as (-> & b & Hb & Hp & _ & Hl). split; [done|]. exists (set_next_entry q b).
  rewrite list_lookup_alter_eq, Hb. by repeat split.
Qed.

(** The first block of a segment gets another predecessor. *)
Lemma dseg_set_prev h pp p k v l e pp' :
  dseg h pp p (k :: v) l e -> k ∉ v -> dseg (alter (set_prev_entry pp') k h) pp' p (k :: v) l e.
Proof.
  intros (-> & b & Hb & Hp & Hv) Hk. split; [done|]. exists (set_prev_entry pp' b).
  rewrite list_lookup_alter_eq, Hb. split_and!; [done|done|]. by apply dseg_alter_out.
Qed.

Lemma dseg_last h pp p u j l e : dseg h pp p (u ++ [j]) l e -> l = Some j.
Proof. intros (m & r & _ & (_ & b & _ & _ & _ & <-))%dseg_app. done. Qed.

Lemma dseg_lookup h pp p ids l e i : dseg h pp p ids l e -> i ∈ ids -> exists b, h !! i = Some b.
Proof.
  revert pp p. induction ids as [|j ids IH]; intros pp p; [set_solver|].
  intros (_ & b & Hb & _ & Hs) [->|Hi]%elem_of_cons; eauto.
Qed.

Lemma dlist_head h p ids : dlist h p ids -> p = head ids.
Proof. intros [l Hl]. destruct ids; cbn in Hl; naive_solver. Qed.

(** ** Registration *)

Section Gdb.
Context `{DbgSymtab}.

(** The blocks [ids] of the process in list order, the hook's own [mine]. *)
Record Registered (d : gdb_state) (ids mine : list nat) : Prop := {
  rg_list : dlist (info_blocks d) (first_entry d) ids;
  rg_mine : seg block_next (info_blocks d) (blocks d) mine None;
  rg_unique : NoDup ids;
  rg_mine_unique : NoDup mine;
  rg_sub : forall i, i ∈ mine -> i ∈ ids;
  rg_flag : action_flag d = JIT_NOACTION;
}.

Definition infos (d : gdb_state) : list buxn_jit_dbg_info_t := debug_info <$> info_blocks d.

Lemma wp_load_block i b (Q : nat * buxn_jit_gdb_info_block_t -> gdb_state -> Prop) d :
  info_blocks d !! i = Some b -> Q (i, b) d -> wp (load_block (Some i)) Q d.
Proof. apply wp_deref. Qed.

(** Linking a fresh block in front of the list. *)
Lemma wp_register_entry d ids new nb (Q : unit -> gdb_state -> Prop) :
  dlist (info_blocks d) (first_entry d) ids -> NoDup ids -> new ∉ ids ->
  info_blocks d !! new = Some nb -> prev_entry nb = None ->
  (forall h,
     dlist h (Some new) (new :: ids) -> block_next <$> h = block_next <$> info_blocks d ->
     debug_info <$> h = debug_info <$> info_blocks d ->
     Q tt (set_events (fun l => l ++ [(JIT_REGISTER_FN, Some new)])
            (set_action_flag (fun _ => JIT_NOACTION) (set_relevant_entry (fun _ => Some new)
              (set_first_entry (fun _ => Some new) (set_info_blocks (fun _ => h) d)))))) ->
  wp (register_entry new) Q d.
Proof.
  intros Hl Hnd Hnew Hnb Hprev HQ. pose proof (dlist_head _ _ _ Hl) as Hhead. destruct Hl as [l Hl].
  unfold register_entry. apply wp_bind, wp_gets, wp_bind, wp_modify. rewrite Hhead in *.
  set (h1 := alter (set_next_entry (head ids)) new (info_blocks d)).
  assert (dseg h1 None (head ids) ids l None) as Hl1 by by apply dseg_alter_out.
  assert (h1 !! new = Some (set_next_entry (head ids) nb)) as Hnb1
    by (unfold h1; by rewrite list_lookup_alter_eq, Hnb).
  apply wp_bind. destruct ids as [|k ids]; cbn [head] in *.
  - apply wp_ret. do 3 apply wp_bind, wp_modify. apply wp_bind, wp_modify, wp_modify.
    apply (HQ h1); [|by apply fmap_alter_same..].
    exists (Some new). split; [done|]. by eexists.
  - apply NoDup_cons in Hnd as [Hk Hnd].
    destruct Hl1 as (_ & bk & Hbk & Hpk & Hs). apply wp_bind. eapply wp_load_block; [exact Hbk|].
    apply wp_modify. do 3 apply wp_bind, wp_modify. apply wp_bind, wp_modify, wp_modify.
    apply (HQ (alter (set_prev_entry (Some new)) k h1)); [|unfold h1; by rewrite !fmap_alter_same by done..].
    exists l. split; [done|]. exists (set_next_entry (Some k) nb).
    rewrite list_lookup_alter_ne by set_solver. split_and!; [done|done|].
    cbn [next_entry set_next_entry]. apply (dseg_set_prev _ None); [|done]. split; [done|]. eauto.
Qed.

(** ** The lines of a block *)

Definition line_of (tab : list dbg_sym) (resolve : nat -> Z) (m : buxn_jit_addr_mapping_t) : buxn_jit_dbg_line_mapping_t :=
  match covering tab (AddrMapping.addr m) with
  | Some s => mkLine (sym_line s) (resolve (mark m)) (c_string (sym_filename s))
  | None => mkLine 0 0 []
  end.

(** [d0] with other values of what [collect_lines] changes. *)
Definition collected (d0 : gdb_state) (ms : mapping_list) (h : nat) (a : list buxn_jit_dbg_line_mapping_t) : gdb_state :=
  set_acc (fun _ => a) (set_hint (fun _ => h) (set_addr_mappings (fun _ => ms) d0)).

Lemma wp_collect_lines resolve d l u v (Q : unit -> gdb_state -> Prop) :
  Mapped (addr_mappings d) l u v -> symtab_sorted (symtab d) ->
  Forall (fun m => is_Some (covering (symtab d) (AddrMapping.addr m))) l ->
  (forall ms h v', Mapped ms [] [] v' -> Q tt (collected d ms h (line_of (symtab d) resolve <$> l))) ->
  wp (collect_lines resolve) Q d.
Proof.
  intros Hm Hsort Hcov HQ. rewrite Forall_forall in Hcov. unfold collect_lines.
  apply wp_bind, wp_gets, wp_bind, wp_modify. rewrite (mp_len _ _ _ _ Hm).
  destruct (Z.leb_spec (Z.of_nat (length l)) 0) as [Hl|Hl].
  - destruct l; [|simpl in Hl; lia]. pose proof (mapped_nil _ _ _ Hm) as ->. apply wp_ret.
    exact (HQ (addr_mappings d) (hint d) v Hm).
  - apply wp_bind, wp_modify.
    eapply (wp_drain_mappings _ (fun done t => exists ms h, (h <= length (symtab d))%nat /\
      t = collected d ms h (line_of (symtab d) resolve <$> done)) l); [| |exact Hm| |].
    + intros done m rest t E (ms & h & Hh & ->).
      destruct (Hcov m) as [s Hs]; [rewrite E; set_solver|].
      unfold add_line, gdb_find_sym. apply wp_bind, wp_bind, wp_gets, wp_bind, wp_gets.
      destruct (find_symbol_spec (symtab d) (AddrMapping.addr m) h) as (h' & E' & Hh' & _); [done|done|].
      cbn [symtab hint collected set_acc set_hint set_addr_mappings]. rewrite E', Hs.
      apply wp_bind, wp_modify, wp_ret, wp_modify. split; [done|]. exists ms, h'. split; [done|].
      rewrite fmap_app, list_fmap_singleton. unfold line_of at 3. by rewrite Hs.
    + intros f done t (ms & h & Hh & ->). by exists (f ms), h.
    + exists (addr_mappings d), 0%nat. split; [lia|done].
    + intros t Hm' _ (ms & h & Hh & ->). by apply (HQ ms h (reverse u ++ v)).
Qed.

(** ** Unlinking *)

(** The block after the gap points back over it. *)
Lemma unlink_next d i e p a m b l (K : M gdb_state unit) (Q : unit -> gdb_state -> Prop) :
  NoDup (a ++ i :: b) -> dseg (info_blocks d) None p a m (Some i) ->
  dseg (info_blocks d) (Some i) (next_entry e) b l None ->
  (forall h l', dseg h None p a m (Some i) -> dseg h m (next_entry e) b l' None ->
     block_next <$> h = block_next <$> info_blocks d -> debug_info <$> h = debug_info <$> info_blocks d ->
     wp K Q (set_info_blocks (fun _ => h) d)) ->
  wp (match next_entry e with
      | None => ret tt
      | Some _ => f <-- load_block (next_entry e) ;; store_block (fst f) (set_prev_entry m)
      end ;;; K) Q d.
Proof.
  intros Hnd Ha Hb HK. apply NoDup_app in Hnd as (Hna & Hab & [Hib Hnb]%NoDup_cons). apply wp_bind.
  destruct b as [|k b].
  - destruct Hb as [Hq _]. rewrite Hq in *. apply wp_ret.
    assert (d = set_info_blocks (fun _ => info_blocks d) d) as -> by by destruct d.
    by apply (HK _ m).
  - pose proof Hb as (Hq & f & Hf & _ & _). rewrite Hq in *. apply wp_bind.
    eapply wp_load_block; [exact Hf|]. apply wp_modify. apply NoDup_cons in Hnb as [Hk _].
    apply (HK (alter (set_prev_entry m) k (info_blocks d)) l); [| |by apply fmap_alter_same..].
    + apply dseg_alter_out; [|done]. intros Hin. apply (Hab k Hin). right. by left.
    + by eapply dseg_set_prev.
Qed.

(** Taking a block out of the list keeps the others linked in order. *)
Lemma wp_unlink_entry d p a i b e (Q : unit -> gdb_state -> Prop) :
  dlist (info_blocks d) p (a ++ i :: b) -> NoDup (a ++ i :: b) -> info_blocks d !! i = Some e ->
  (forall h, dlist h (head (a ++ b)) (a ++ b) ->
     block_next <$> h = block_next <$> info_blocks d -> debug_info <$> h = debug_info <$> info_blocks d ->
     Q tt (set_info_blocks (fun _ => h) d)) ->
  wp (unlink_entry e) Q d.
Proof.
  intros [l Hl] Hnd He HQ. apply dseg_app in Hl as (m & q & Ha & (-> & e' & He' & Hprev & Hb)).
  assert (e' = e) as -> by congruence. subst m. unfold unlink_entry. apply unlink_next with (i := i) (p := p) (a := a) (b := b) (l := l); [done..|].
  intros h l' Ha' Hb' E1 E2. apply NoDup_app in Hnd as (Hna & Hab & _).
  destruct a as [|j a _] using rev_ind.
  - destruct Ha' as [-> Hm]. rewrite <- Hm in *. apply wp_ret, HQ; [|done..].
    assert (dlist h (next_entry e) b) as Hd by by eexists.
    cbn. by rewrite <- (dlist_head _ _ _ Hd).
  - pose proof (dseg_last _ _ _ _ _ _ _ Ha') as Hm. rewrite Hm in *.
    destruct (dseg_lookup _ _ _ _ _ _ j Ha') as [f Hf]; [set_solver|].
    apply wp_bind. eapply wp_load_block; [exact Hf|]. apply wp_modify.
    apply (HQ (alter (set_next_entry (next_entry e)) j h)); [|by rewrite fmap_alter_same..].
    assert (dlist (alter (set_next_entry (next_entry e)) j h) p ((a ++ [j]) ++ b)) as Hd.
    { exists l'. apply dseg_app. exists (Some j), (next_entry e). split.
      - eapply dseg_set_next; [done|]. apply NoDup_app in Hna as (_ & Hna & _). intros Hj. apply (Hna j Hj). by left.
      - apply dseg_alter_out; [|done]. intros Hj. apply (Hab j); set_solver. }
    by rewrite <- (dlist_head _ _ _ Hd).
Qed.

(** ** The loop of the cleanup *)

(** The blocks of [ids] that are not in [mine]. *)
Definition others (mine ids : list nat) : list nat :=
  List.filter (fun i => negb (bool_decide (i ∈ mine))) ids.

Lemma others_nil ids : others [] ids = ids.
Proof.
  induction ids as [|i ids IH]; [done|]. unfold others in *. cbn [List.filter].
  by rewrite bool_decide_false, IH by set_solver.
Qed.

Lemma others_cons i mine a b :
  NoDup (a ++ i :: b) -> others (i :: mine) (a ++ i :: b) = others mine (a ++ b).
Proof.
  intros (_ & Hab & [Hib _]%NoDup_cons)%NoDup_app.
  assert (forall l : list nat, i ∉ l -> others (i :: mine) l = others mine l) as Hf.
  { intros l Hi. apply List.filter_ext_in. intros j Hj%list_elem_of_In. f_equal. apply bool_decide_ext.
    rewrite elem_of_cons. split; [|by right]. by intros [->|]. }
  unfold others in *. rewrite !List.filter_app. cbn [List.filter].
  rewrite bool_decide_true by by left. cbn [negb]. rewrite !Hf; [done|done|].
  intros Hi. apply (Hab i Hi). by left.
Qed.

Lemma elem_of_remove {A : Type} (i j : A) a b : j ∈ a ++ i :: b -> j <> i -> j ∈ a ++ b.
Proof. rewrite !elem_of_app, elem_of_cons. naive_solver. Qed.

Definition unregistered (d : gdb_state) (mine : list nat) (d' : gdb_state) : Prop :=
  events d' = events d ++ ((fun i => (JIT_UNREGISTER_FN, Some i)) <$> mine) /\
  infos d' = infos d /\ first_entry d' = first_entry d.

Lemma wp_cleanup_blocks fuel mine : forall itr ids d,
  (length mine <= fuel)%nat -> seg block_next (info_blocks d) itr mine None -> NoDup mine ->
  dlist (info_blocks d) (head ids) ids -> NoDup ids -> (forall i, i ∈ mine -> i ∈ ids) ->
  action_flag d = JIT_UNREGISTER_FN ->
  wp (cleanup_blocks fuel itr) (fun _ d' => unregistered d mine d' /\
    dlist (info_blocks d') (head (others mine ids)) (others mine ids)) d.
Proof.
  revert fuel. induction mine as [|i mine IH]; intros fuel itr ids d Hfuel Hseg Hnm Hl Hnd Hsub Hflag.
  - cbn in Hseg. rewrite Hseg. rewrite others_nil.
    destruct fuel; apply wp_ret; (split; [|done]); split_and!; try done; by rewrite app_nil_r.
  - destruct fuel as [|fuel]; simpl in Hfuel; [lia|]. destruct Hseg as (-> & e & He & Hseg).
    apply NoDup_cons in Hnm as [Him Hnm].
    destruct (list_elem_of_split ids i) as (a & b & ->); [apply Hsub; by left|].
    cbn [cleanup_blocks]. apply wp_bind. eapply wp_load_block; [done|]. cbn [snd]. apply wp_bind.
    eapply wp_unlink_entry; [done..|]. intros h Hh E1 E2. apply wp_bind, wp_modify, wp_bind, wp_modify.
    set (d1 := set_events _ _). rewrite others_cons by done.
    eapply wp_mono; [apply (IH fuel _ (a ++ b) d1)|].
    + lia.
    + eapply seg_frame; [|exact Hseg]. intros j c _ Hc. by eapply fmap_lookup_eq.
    + done.
    + done.
    + apply NoDup_app in Hnd as (Hna & Hab & [_ Hnb]%NoDup_cons). apply NoDup_app. split_and!; [done| |done].
      intros j Hj Hjb. apply (Hab j Hj). by right.
    + intros j Hj. apply (elem_of_remove i); [apply Hsub; by right|]. by intros ->.
    + done.
    + intros _ d' [(Ev & Ei & Ef) Hd']. split; [|done]. split_and!; [|by rewrite Ei|by rewrite Ef].
      rewrite Ev. unfold d1. cbn. by rewrite Hflag, <- app_assoc.
Qed.

Lemma seg_in_heap h p u i : seg block_next h p u None -> i ∈ u -> (i < length h)%nat.
Proof. intros Hs Hi. destruct (seg_lookup _ _ _ _ _ _ Hs Hi) as [c Hc]. by eapply lookup_lt_Some. Qed.

Lemma nodup_length u n : NoDup u -> (forall i, i ∈ u -> (i < n)%nat) -> (length u <= n)%nat.
Proof.
  intros Hnd Hu. rewrite <- (length_seq n 0). apply submseteq_length, NoDup_submseteq; [done|].
  intros i Hi. apply elem_of_seq. specialize (Hu i Hi). lia.
Qed.
End Gdb.

(** ** The component's theorems *)

Section Correct.
Context `{DbgSymtab}.

Lemma registered_lt d ids mine i : Registered d ids mine -> i ∈ ids -> (i < length (info_blocks d))%nat.
Proof.
  intros [[l Hl] _ _ _ _ _] Hi. destruct (dseg_lookup _ _ _ _ _ _ _ Hl Hi) as [b Hb].
  by eapply lookup_lt_Some.
Qed.

(** C25: The end of a block registers it: one new block in front of gdb's list,
    which stays properly doubly linked, and of the hook's own; gdb is told once
    with the block as the relevant entry; the block describes the code: its
    name comes from the closest label, and it has a line for each recorded
    opcode, in order, with the file of the symbol that covers it.  Nothing
    recorded is left for the next block. *)
Theorem gdb_end_block_correct d ids mine l u v resolve addr code_start code_size :
  Registered d ids mine -> Mapped (addr_mappings d) l u v -> symtab_sorted (symtab d) ->
  Forall (fun m => is_Some (covering (symtab d) (AddrMapping.addr m))) l ->
  exists d' v', buxn_jit_gdb_end_block resolve addr code_start code_size d = Ok (tt, d') /\
    let new := length (info_blocks d) in
    Registered d' (new :: ids) (new :: mine) /\
    events d' = events d ++ [(JIT_REGISTER_FN, Some new)] /\
    infos d' = infos d ++ [mkInfo addr code_start code_size (gdb_block_name addr (label_map d))
      (line_of (symtab d) resolve <$> l)] /\
    Mapped (addr_mappings d') [] [] v'.
Proof.
  intros Hreg Hm Hsort Hcov. set (new := length (info_blocks d)).
  match goal with |- exists d' v', _ /\ @?R d' v' =>
    assert (wp (buxn_jit_gdb_end_block resolve addr code_start code_size) (fun _ d' => exists v', R d' v') d) as Hwp end.
  2:{ apply wp_elim in Hwp as ([] & d' & E & v' & Hpost). by exists d', v'. }
  pose proof (fun i => registered_lt d ids mine i Hreg) as Hlt. destruct Hreg as [[x Hl] Hmine Hu Hmu Hsub Hflag].
  unfold buxn_jit_gdb_end_block. apply wp_bind, wp_gets, wp_bind, wp_gets, wp_bind.
  eapply wp_collect_lines; [done..|]. intros ms hi v' Hms.
  apply wp_bind, wp_gets, wp_bind, wp_modify, wp_bind, wp_gets, wp_bind, wp_modify, wp_bind, wp_modify. fold new.
  set (nb := mkInfoBlock None None None _).
  set (h := alter (set_block_next (blocks d)) new (info_blocks d ++ [nb])).
  destruct (fresh_cell (info_blocks d) ids (set_block_next (blocks d)) nb Hlt) as (Hnew & Hnb & Hkeep).
  fold new h in Hnew, Hnb, Hkeep.
  eapply (wp_register_entry _ ids new); [|done|done|exact Hnb|done|].
  { exists x. eapply dseg_frame; [|exact Hl]. intros i b Hi Hb. exists b. split; [by apply Hkeep|done]. }
  intros h' Hl' E1 E2. exists v'.
  change (block_next <$> h' = block_next <$> h) in E1. change (debug_info <$> h' = debug_info <$> h) in E2.
  split; [split; try done|split; [done|split; [|exact Hms]]].
  - change (seg block_next h' (Some new) (new :: mine) None). split; [done|].
    destruct (fmap_lookup_eq _ _ _ _ _ E1 Hnb) as (c & Hc & E). exists c. split; [done|]. rewrite E.
    cbn. eapply seg_frame; [|exact Hmine]. intros i b Hi Hb. eapply fmap_lookup_eq; [done|]. auto.
  - by apply NoDup_cons.
  - apply NoDup_cons. auto.
  - intros i. rewrite !elem_of_cons. naive_solver.
  - unfold infos. cbn [info_blocks set_info_blocks]. change (debug_info <$> h' = infos d ++ [debug_info nb]).
    rewrite E2. unfold h. rewrite fmap_alter_same by done. unfold infos. by rewrite fmap_app.
Qed.

(** C26: The cleanup of a hook tells gdb about each of its blocks once and takes
    them out of the list: the blocks of the other hooks stay linked in order.
    The head of the list is not written, so it still leads to that list when
    the block in front belongs to another hook. *)
Theorem gdb_cleanup_correct d ids mine :
  Registered d ids mine ->
  exists d', buxn_jit_cleanup_gdb_hook d = Ok (tt, d') /\ unregistered d mine d' /\
    action_flag d' = JIT_NOACTION /\
    dlist (info_blocks d') (head (others mine ids)) (others mine ids) /\
    ((forall i, head ids = Some i -> i ∉ mine) -> dlist (info_blocks d') (first_entry d') (others mine ids)).
Proof.
  intros [Hl Hmine Hu Hmu Hsub Hflag]. pose proof (dlist_head _ _ _ Hl) as Hhead.
  match goal with |- exists d', _ /\ @?R d' =>
    assert (wp buxn_jit_cleanup_gdb_hook (fun _ d' => R d') d) as Hwp end.
  2:{ apply wp_elim in Hwp as ([] & d' & E & Hpost). by exists d'. }
  unfold buxn_jit_cleanup_gdb_hook. apply wp_bind, wp_gets, wp_bind, wp_gets, wp_bind, wp_modify, wp_bind.
  eapply wp_mono; [apply (wp_cleanup_blocks _ mine _ ids)|].
  - apply nodup_length; [done|]. intros i Hi. by eapply seg_in_heap.
  - exact Hmine.
  - done.
  - by rewrite <- Hhead.
  - done.
  - done.
  - done.
  - intros _ d' [Hun Hd']. apply wp_modify. split_and!; [done|done|exact Hd'|].
    intros Hfront. assert (first_entry d' = first_entry d) as Ef by apply Hun.
    cbn [first_entry set_action_flag info_blocks]. rewrite Ef, Hhead.
    destruct ids as [|i ids]; [exact Hd'|]. specialize (Hfront i eq_refl).
    assert (head (others mine (i :: ids)) = Some i) as Eh.
    { unfold others. cbn [List.filter]. by rewrite bool_decide_false. }
    rewrite Eh in Hd'. exact Hd'.
Qed.
End Correct.

(** ** Witnesses: two hooks of one process *)

#[local] Existing Instance demo_symtab.

Definition demo_labels : option buxn_label_map_t := Some (mkLabelMap 1 [mkLabel 0x100 (chars "main")]).

(** A process in which another hook has registered one block. *)
Definition other_block : buxn_jit_gdb_info_block_t :=
  mkInfoBlock None None None (mkInfo 0x200 0x5000 4 None []).

Definition demo_gdb (ms : mapping_list) : gdb_state :=
  mkGdb [other_block] JIT_NOACTION (Some 0%nat) (Some 0%nat) [(JIT_REGISTER_FN, Some 0%nat)] None demo_labels
    demo_symbols ms 0 [].

Lemma demo_registered ms : Registered (demo_gdb ms) [0%nat] [].
Proof.
  split; try done.
  - exists (Some 0%nat). split; [done|]. by eexists.
  - repeat constructor. set_solver.
  - constructor.
  - set_solver.
Qed.

Lemma gdb_end_block_correct_witness :
  exists d' v', buxn_jit_gdb_end_block (fun m => 0x4000 + Z.of_nat m) 0x100 0x4000 8 (demo_gdb demo_maps) = Ok (tt, d') /\
    let new := length (info_blocks (demo_gdb demo_maps)) in
    Registered d' (new :: [0%nat]) (new :: []) /\
    events d' = events (demo_gdb demo_maps) ++ [(JIT_REGISTER_FN, Some new)] /\
    infos d' = infos (demo_gdb demo_maps) ++ [mkInfo 0x100 0x4000 8 (gdb_block_name 0x100 (label_map (demo_gdb demo_maps)))
      (line_of demo_symbols (fun m => 0x4000 + Z.of_nat m) <$> [mkMapping 3 0x101])] /\
    Mapped (addr_mappings d') [] [] v'.
Proof.
  apply (gdb_end_block_correct (demo_gdb demo_maps) [0%nat] [] [mkMapping 3 0x101] [0%nat] []).
  - apply demo_registered.
  - apply demo_mapped.
  - apply demo_sorted.
  - repeat constructor. eexists. reflexivity.
Defined.

(** The hook registers a block behind which the other hook's block stays. *)
Definition demo_two : gdb_state :=
  match buxn_jit_gdb_end_block (fun _ => 0) 0x100 0x4000 8 (demo_gdb empty_maps) with
  | Ok (_, d) => d
  | _ => demo_gdb empty_maps
  end.

Lemma demo_two_registered : Registered demo_two [1%nat; 0%nat] [1%nat].
Proof.
  split; try done.
  - exists (Some 0%nat). split; [done|]. eexists. split_and!; [done|done|]. split; [done|]. by eexists.
  - split; [done|]. by eexists.
  - apply (bool_decide_unpack _). vm_compute. exact I.
  - apply (bool_decide_unpack _). vm_compute. exact I.
  - intros i. rewrite !elem_of_cons. naive_solver.
Qed.

Lemma gdb_cleanup_correct_witness :
  exists d', buxn_jit_cleanup_gdb_hook demo_two = Ok (tt, d') /\ unregistered demo_two [1%nat] d' /\
    action_flag d' = JIT_NOACTION /\
    dlist (info_blocks d') (head (others [1%nat] [1%nat; 0%nat])) (others [1%nat] [1%nat; 0%nat]) /\
    ((forall i, head [1%nat; 0%nat] = Some i -> i ∉ [1%nat]) ->
      dlist (info_blocks d') (first_entry d') (others [1%nat] [1%nat; 0%nat])).
Proof. apply (gdb_cleanup_correct demo_two [1%nat; 0%nat] [1%nat]). apply demo_two_registered. Defined.

(** After the cleanup of the hook that registered last,
    [__jit_debug_descriptor.first_entry] still is its unregistered block 1, and
    not block 0, the only one left. *)
Theorem gdb_cleanup_keeps_head :
  first_entry demo_two = Some 1%nat /\
  exists d', buxn_jit_cleanup_gdb_hook demo_two = Ok (tt, d') /\
    first_entry d' = Some 1%nat /\ others [1%nat] [1%nat; 0%nat] = [0%nat].
Proof. split; [reflexivity|]. eexists. split; [reflexivity|]. split; reflexivity. Qed.
