(* ===== verification/GdbReader.v ===== *)
(** * The gdb reader (src/src/gdb/reader.c)

    The plugin gdb loads: it reads the debug information of a block, tells gdb
    about its symbol tables, lines and code ranges through callbacks, and
    unwinds frames (x86-64).  Objects and symbol tables are opaque to the
    reader; the calls it makes are the trace [calls]. *)
From S2P Require Import Prelude Bytes Pointers GdbHook.
Local Open Scope jit_scope.

Definition uintptr (x : Z) : Z := x mod 2 ^ 64.
Definition sizeof_uintptr : Z := 8.

(** A string of the target: its length and address. *)
Record buxn_jit_dbg_str_t := mkStr { str_len : Z; str : Z }.

Record reader_line := mkRLine { rl_line : Z; rl_pc : Z; rl_file : buxn_jit_dbg_str_t }.

(** [buxn_jit_dbg_info_t] as it is copied out of the target: its strings and
    arrays are still addresses there. *)
Record reader_info := mkRInfo {
  ri_addr : Z; ri_start : Z; ri_size : Z; ri_name : buxn_jit_dbg_str_t;
  num_line_mappings : Z; mappings : Z;
}.

(** The target's memory ([target_read] of characters, of line mappings and of
    pointers, [None] for a failure) and the registers of the frame. *)
Class GdbTarget := {
  read_chars : Z -> Z -> option (list Z);
  read_lines : Z -> Z -> option (list reader_line);
  read_word : Z -> option Z;
  reg_get : Z -> Z;
}.

(** gdb's callbacks, with the values passed to them. *)
Inductive gdb_call :=
  | ObjectOpen
  | SymtabOpen (file : list Z)
  | LineMappingAdd (lines : list (Z * Z))
  | BlockOpen (begin finish : Z) (name : list Z)
  | SymtabClose
  | ObjectClose
  | RegSet (reg value : Z).

Inductive gdb_status := GDB_FAIL | GDB_SUCCESS.

Section Reader.
Context `{GdbTarget}.

Record buxn_jit_dbg_reader_t := mkReader {
  dbg_info : list reader_info;
  calls : list gdb_call;
}.

#[local] Abbreviation R := (M buxn_jit_dbg_reader_t).

Definition call (c : gdb_call) : R unit := modify (fun r => mkReader (dbg_info r) (calls r ++ [c])).

(** ** Lookup *)

Definition in_block (pc : Z) (info : reader_info) : bool :=
  (ri_start info <=? pc) && (pc <=? uintptr (ri_start info + ri_size info)).

Definition buxn_jit_gdb_lookup_dbg_info (pc : Z) (r : buxn_jit_dbg_reader_t) : option reader_info :=
  List.find (in_block pc) (dbg_info r).

(** ** Reading a block *)

(** [name_buf]: the formatted address followed by the name when it can be
    read.  The terminator goes to index [len + name.len] of 256. *)
Definition read_block_name (info : reader_info) : R (list Z) :=
  let buf := chars "uxn:0x" ++ hex4 (ri_addr info) in
  let len := Z.of_nat (length buf) in
  if 0 <? str_len (ri_name info) then
    match read_chars (str (ri_name info)) (Z.min (256 - 1 - len) (str_len (ri_name info))) with
    | Some name =>
        assert_that (len + str_len (ri_name info) <? 256) "write past name_buf[256]" ;;;
        ret (c_string (buf ++ name))
    | None => ret buf
    end
  else ret buf.

(** The variables of the loop over the mappings: the current symbol table is
    open, its first pc, the address of its file name, its lines so far. *)
Record line_state := mkLines { code_start : Z; previous_file : Z; gdb_mappings : list (Z * Z) }.

(** Close the current symbol table at [finish]. *)
Definition close_symtab (name : list Z) (finish : Z) (s : line_state) : R unit :=
  match gdb_mappings s with
  | [] => ret tt
  | _ => call (LineMappingAdd (gdb_mappings s))
  end ;;;
  call (BlockOpen (code_start s) finish name) ;;;
  call SymtabClose.

(** The loop; the result is what [end_read_mapping] starts from.  When a file
    name cannot be read that label is reached with the table just closed. *)
Fixpoint read_mappings (name : list Z) (l : list reader_line) (s : line_state) : R line_state :=
  match l with
  | [] => ret s
  | m :: l =>
      if negb (str (rl_file m) =? previous_file s) then
        close_symtab name (uintptr (rl_pc m - 1)) s ;;;
        let s := mkLines (code_start s) (previous_file s) [] in
        match read_chars (str (rl_file m)) (str_len (rl_file m)) with
        | None => ret s
        | Some filename =>
            call (SymtabOpen (c_string filename)) ;;;
            read_mappings name l (mkLines (rl_pc m) (str (rl_file m)) [(rl_line m, rl_pc m)])
        end
      else
        read_mappings name l (mkLines (code_start s) (previous_file s) (gdb_mappings s ++ [(rl_line m, rl_pc m)]))
  end.

Definition buxn_jit_gdb_read (info : reader_info) : R gdb_status :=
  modify (fun r => mkReader (dbg_info r ++ [info]) (calls r)) ;;;
  name <-- read_block_name info ;;
  let finish := uintptr (ri_start info + ri_size info) in
  call ObjectOpen ;;;
  call (SymtabOpen (chars "uxn")) ;;;
  (if 0 <? num_line_mappings info then
     let s := mkLines (ri_start info) 0 [] in
     st <-- match read_lines (mappings info) (num_line_mappings info) with
            | None => ret s
            | Some l => read_mappings name l s
            end ;;
     close_symtab name finish st
   else
     call (BlockOpen (ri_start info) finish name) ;;;
     call SymtabClose) ;;;
  call ObjectClose ;;;
  ret GDB_SUCCESS.

(** ** Frames *)

Definition DWARF_REG_SP : Z := 7.
Definition DWARF_REG_PC : Z := 16.

(** [BUXN_JIT_CHECK(buxn_jit_read_target(cb, sp + sizeof(uintptr_t), &prev_pc, ...));
    prev_sp = sp + sizeof(uintptr_t) * 2;] *)
Definition pop_frame (sp : Z) : option (Z * Z) :=
  prev_pc ← read_word (uintptr (sp + sizeof_uintptr));
  Some (prev_pc, uintptr (sp + sizeof_uintptr * 2)).

Definition buxn_jit_gdb_unwind : R gdb_status :=
  let sp := reg_get DWARF_REG_SP in
  let pc := reg_get DWARF_REG_PC in
  info <-- gets (buxn_jit_gdb_lookup_dbg_info pc) ;;
  let frame :=
    '(prev_pc, prev_sp) ← pop_frame sp;
    match info with
    | Some _ => pop_frame prev_sp
    | None => Some (prev_pc, prev_sp)
    end in
  match frame with
  | None => ret GDB_FAIL
  | Some (prev_pc, prev_sp) =>
      call (RegSet DWARF_REG_SP prev_sp) ;;;
      call (RegSet DWARF_REG_PC prev_pc) ;;;
      ret GDB_SUCCESS
  end.

(** The code and stack addresses of the frame's id. *)
Definition buxn_jit_gdb_get_frame_id (r : buxn_jit_dbg_reader_t) : Z * Z :=
  let pc := reg_get DWARF_REG_PC in
  (match buxn_jit_gdb_lookup_dbg_info pc r with Some info => ri_start info | None => pc end,
   reg_get DWARF_REG_SP).

Definition gdb_init_reader : buxn_jit_dbg_reader_t := mkReader [] [].
End Reader.

(** ** What gdb makes of the calls *)

(** The lines with the file of the table they were added to; [None] when the
    calls do not make sense: a table opened or closed twice, lines or a range
    given without one. *)
Fixpoint attributed (current : option (list Z)) (l : list gdb_call) : option (list (list Z * (Z * Z))) :=
  match l, current with
  | [], None => Some []
  | SymtabOpen f :: l, None => attributed (Some f) l
  | LineMappingAdd ls :: l, Some f => r ← attributed current l; Some (((fun x => (f, x)) <$> ls) ++ r)
  | BlockOpen _ _ _ :: l, Some _ => attributed current l
  | SymtabClose :: l, Some _ => attributed None l
  | ObjectOpen :: l, None => attributed None l
  | ObjectClose :: l, None => attributed None l
  | _, _ => None
  end.

Fixpoint ranges (l : list gdb_call) : list (Z * Z) :=
  match l with
  | [] => []
  | BlockOpen b e _ :: l => (b, e) :: ranges l
  | _ :: l => ranges l
  end.

(** Ranges one after the other, from [b] to [e]. *)
Fixpoint consecutive (b : Z) (l : list (Z * Z)) (e : Z) : Prop :=
  match l with
  | [] => False
  | [(x, y)] => x = b /\ y = e
  | (x, y) :: l => x = b /\ consecutive (y + 1) l e
  end.

Section Correct.
Context `{GdbTarget}.

(** What the reader needs of a line: a file that can be read, an address. *)
Definition line_ok (m : reader_line) : Prop :=
  str (rl_file m) <> 0 /\ is_Some (read_chars (str (rl_file m)) (str_len (rl_file m))) /\
  0 < rl_pc m < 2 ^ 64.

Definition file_of (m : reader_line) : list Z :=
  match read_chars (str (rl_file m)) (str_len (rl_file m)) with Some f => c_string f | None => [] end.

Definition same_strings (l : list reader_line) : Prop :=
  forall m n, m ∈ l -> n ∈ l -> str (rl_file m) = str (rl_file n) -> file_of m = file_of n.

Definition attribution (m : reader_line) : list Z * (Z * Z) := (file_of m, (rl_line m, rl_pc m)).

(** The calls that close a table. *)
Definition closing (name : list Z) (finish : Z) (s : line_state) : list gdb_call :=
  match gdb_mappings s with [] => [] | _ => [LineMappingAdd (gdb_mappings s)] end ++
  [BlockOpen (code_start s) finish name; SymtabClose].

Lemma wp_close_symtab name finish s r (Q : unit -> buxn_jit_dbg_reader_t -> Prop) :
  Q tt (mkReader (dbg_info r) (calls r ++ closing name finish s)) -> wp (close_symtab name finish s) Q r.
Proof.
  intros HQ. unfold close_symtab, closing in *. destruct s as [c p [|g gs]]; cbn [gdb_mappings] in *.
  - apply wp_bind, wp_ret, wp_bind, wp_modify, wp_modify. cbn. by rewrite <- app_assoc.
  - apply wp_bind, wp_modify, wp_bind, wp_modify, wp_modify. cbn. by rewrite <- !app_assoc.
Qed.

Lemma attributed_closing name finish s f l :
  attributed (Some f) (closing name finish s ++ l) =
    (r ← attributed None l; Some (((fun x => (f, x)) <$> gdb_mappings s) ++ r)).
Proof.
  unfold closing. destruct (gdb_mappings s) as [|g gs]; cbn; [|done].
  by destruct (attributed None l).
Qed.

Lemma ranges_closing name finish s l : ranges (closing name finish s ++ l) = (code_start s, finish) :: ranges l.
Proof. unfold closing. by destruct (gdb_mappings s). Qed.

Lemma consecutive_cons b y l e : l <> [] -> consecutive b ((b, y) :: l) e <-> consecutive (y + 1) l e.
Proof. destruct l as [|[x z] l]; [done|]. cbn. naive_solver. Qed.

(** The calls of the loop and of the close at [end_read_mapping]: they
    attribute the pending lines to the current file and the others to theirs,
    and their ranges go on from the current table. *)
Lemma wp_read_mappings name finish l : forall s f r,
  Forall line_ok l -> same_strings l -> (forall m, m ∈ l -> str (rl_file m) = previous_file s -> file_of m = f) ->
  wp (read_mappings name l s) (fun s' r' => dbg_info r' = dbg_info r /\ exists new,
    calls r' = calls r ++ new /\
    let tail := closing name finish s' ++ [ObjectClose] in
    attributed (Some f) (new ++ tail) = Some (((fun x => (f, x)) <$> gdb_mappings s) ++ (attribution <$> l)) /\
    consecutive (code_start s) (ranges (new ++ tail)) finish) r.
Proof.
  induction l as [|m l IH]; intros s f r Hok Hsame Hf; cbn [read_mappings].
  - apply wp_ret. split; [done|]. exists []. split; [by rewrite app_nil_r|]. cbn [app].
    rewrite attributed_closing, ranges_closing. by cbn.
  - apply Forall_cons in Hok as [(Hstr & [file Hfile] & Hpc) Hok].
    assert (same_strings l) as Hsame' by (intros a b Ha Hb; apply Hsame; by right).
    destruct (Z.eqb_spec (str (rl_file m)) (previous_file s)) as [Eq|Ne]; cbn [negb].
    + eapply wp_mono; [apply (IH _ f r); [done|done|intros; apply Hf; [by right|done]]|].
      intros s' r' (Ed & new & Ec & Ea & Er). split; [done|]. exists new. split; [done|]. cbn [gdb_mappings code_start] in *.
      split; [|done]. rewrite Ea, fmap_app, <- app_assoc. cbn. unfold attribution at 2. rewrite (Hf m); [done|by left|done].
    + apply wp_bind. eapply wp_close_symtab. rewrite Hfile. apply wp_bind, wp_modify.
      set (r1 := mkReader _ _). eapply wp_mono; [apply (IH _ (file_of m) r1); [done|done|]|].
      { intros n Hn E. symmetry. apply Hsame; [by left|by right|done]. }
      intros s' r' (Ed & new & Ec & Ea & Er). split; [done|].
      exists (closing name (uintptr (rl_pc m - 1)) s ++ SymtabOpen (file_of m) :: new).
      assert (file_of m = c_string file) as Efile by (unfold file_of; by rewrite Hfile).
      split; [rewrite Ec; unfold r1; cbn; by rewrite Efile, <- !app_assoc|].
      rewrite <- app_assoc, attributed_closing, ranges_closing. cbn [app attributed ranges].
      rewrite Ea. split; [by unfold attribution at 2|].
      apply consecutive_cons.
      * destruct (ranges (new ++ _)); [done|done].
      * replace (uintptr (rl_pc m - 1) + 1) with (rl_pc m) by (unfold uintptr; rewrite Z.mod_small by lia; lia).
        exact Er.
Qed.

Definition short_name (info : reader_info) : Prop := str_len (ri_name info) <= 245.

Lemma wp_read_block_name info r (Q : list Z -> buxn_jit_dbg_reader_t -> Prop) :
  short_name info -> (forall name, Q name r) -> wp (read_block_name info) Q r.
Proof.
  intros Hs HQ. unfold read_block_name, short_name in *.
  destruct (0 <? _); [|by apply wp_ret]. destruct (read_chars _ _); [|by apply wp_ret].
  apply wp_bind, wp_assert; [|by apply wp_ret].
  change (Z.of_nat (length (chars "uxn:0x" ++ hex4 (ri_addr info)))) with 10. lia.
Qed.

(** The lines of a block as the reader gets them. *)
Definition block_lines (info : reader_info) : option (list reader_line) :=
  if 0 <? num_line_mappings info then read_lines (mappings info) (num_line_mappings info) else Some [].

(** C27: Reading a block whose data can be read: the calls make sense to gdb, every
    line is given once, in order, in the table of the file it belongs to, and
    the ranges given follow one another from the start of the code to its end,
    however often the file changes. *)
Theorem gdb_read_correct info l r :
  short_name info -> block_lines info = Some l -> Forall line_ok l -> same_strings l ->
  exists r' new, buxn_jit_gdb_read info r = Ok (GDB_SUCCESS, r') /\
    dbg_info r' = dbg_info r ++ [info] /\ calls r' = calls r ++ new /\
    attributed None new = Some (attribution <$> l) /\
    consecutive (ri_start info) (ranges new) (uintptr (ri_start info + ri_size info)).
Proof.
  intros Hname Hl Hok Hsame. set (finish := uintptr (ri_start info + ri_size info)).
  match goal with |- exists r' new, _ /\ @?P r' new =>
    assert (wp (buxn_jit_gdb_read info) (fun st r' => st = GDB_SUCCESS /\ exists new, P r' new) r) as Hwp end.
  2:{ apply wp_elim in Hwp as (st & r' & E & -> & new & Hpost). by exists r', new. }
  unfold buxn_jit_gdb_read. apply wp_bind, wp_modify, wp_bind. apply wp_read_block_name; [done|]. intros name.
  apply wp_bind, wp_modify, wp_bind, wp_modify. set (r1 := mkReader _ _). cbv zeta.
  unfold block_lines in Hl. destruct (0 <? num_line_mappings info).
  - rewrite Hl. apply wp_bind, wp_bind.
    eapply wp_mono; [apply (wp_read_mappings name finish l _ (chars "uxn")); [done|done|]|].
    { intros m Hm E. rewrite Forall_forall in Hok. by destruct (Hok m Hm). }
    intros s' r2 (Ed & new & Ec & Ea & Er). apply wp_close_symtab, wp_bind, wp_modify, wp_ret.
    split; [done|]. exists ([ObjectOpen; SymtabOpen (chars "uxn")] ++ new ++ closing name finish s' ++ [ObjectClose]).
    split; [exact Ed|]. split; [cbn; rewrite Ec; unfold r1; cbn; by rewrite <- !app_assoc|].
    split; [exact Ea|exact Er].
  - injection Hl as <-. apply wp_bind, wp_bind, wp_modify, wp_modify, wp_bind, wp_modify, wp_ret. split; [done|].
    exists [ObjectOpen; SymtabOpen (chars "uxn"); BlockOpen (ri_start info) finish name; SymtabClose; ObjectClose].
    split_and!; try done. cbn. by rewrite <- !app_assoc.
Qed.
End Correct.

(** ** Witnesses and findings: a target with two files *)

(** Characters at 0x10 and 0x20, a name at 0x30, two lines at 0x40. *)
Definition demo_target : GdbTarget := {|
  read_chars := fun a n =>
    if a =? 0x10 then Some (chars "a.tal") else if a =? 0x20 then Some (chars "b.tal")
    else if a =? 0x30 then Some (replicate (Z.to_nat n) 0x61) else None;
  read_lines := fun a n =>
    if a =? 0x40 then Some [mkRLine 1 0x4004 (mkStr 5 0x10); mkRLine 7 0x4010 (mkStr 5 0x20)]
    else if a =? 0x50 then Some [mkRLine 1 0x4004 (mkStr 5 0x60)] else None;
  read_word := fun a => Some (a + 1);
  reg_get := fun r => if r =? 16 then 0x4020 else 0x7000;
|}.

#[local] Existing Instance demo_target.

Definition demo_info (name_len lines : Z) : reader_info :=
  mkRInfo 0x100 0x4000 0x20 (mkStr name_len 0x30) 2 lines.

Lemma gdb_read_correct_witness :
  exists r' new, buxn_jit_gdb_read (demo_info 4 0x40) gdb_init_reader = Ok (GDB_SUCCESS, r') /\
    dbg_info r' = dbg_info gdb_init_reader ++ [demo_info 4 0x40] /\ calls r' = calls gdb_init_reader ++ new /\
    attributed None new = Some (attribution <$>
      [mkRLine 1 0x4004 (mkStr 5 0x10); mkRLine 7 0x4010 (mkStr 5 0x20)]) /\
    consecutive 0x4000 (ranges new) (uintptr (0x4000 + 0x20)).
Proof.
  apply (gdb_read_correct (demo_info 4 0x40)).
  - unfold short_name. cbn. lia.
  - reflexivity.
  - repeat constructor; try discriminate; eexists; reflexivity.
  - intros m n Hm Hn. rewrite !elem_of_cons in Hm, Hn.
    destruct Hm as [->|[->|Hm]], Hn as [->|[->|Hn]]; try (by inversion Hm); try (by inversion Hn); done.
Defined.

(** A name of 246 characters, as the hook makes of a label of 245, puts the
    terminator beyond the 256 bytes of [name_buf]. *)
Theorem reader_long_name :
  buxn_jit_gdb_read (demo_info 246 0x40) gdb_init_reader = AssertFailed "write past name_buf[256]".
Proof. vm_compute. reflexivity. Qed.

(** When a file name cannot be read, the table just closed is given a range and
    closed again: the calls do not make sense to gdb. *)
Theorem reader_closes_twice :
  exists r', buxn_jit_gdb_read (demo_info 4 0x50) gdb_init_reader = Ok (GDB_SUCCESS, r') /\
    attributed None (calls r') = None.
Proof. eexists. split; vm_compute; reflexivity. Qed.

(** Of two adjacent blocks the first answers for the first instruction of the
    second: the end of a range is taken as part of it. *)
Theorem lookup_end_inclusive :
  let second := mkRInfo 0x110 0x4020 0x20 (mkStr 0 0) 0 0 in
  buxn_jit_gdb_lookup_dbg_info 0x4020 (mkReader [demo_info 4 0x40; second] []) = Some (demo_info 4 0x40) /\
  fst (buxn_jit_gdb_get_frame_id (mkReader [demo_info 4 0x40; second] [])) = 0x4000.
Proof. split; reflexivity. Qed.
