(* ===== verification/Cli.v ===== *)
(** * The command line (src/src/cli.c)

    What the host program does around the JIT: the arguments and the standard
    input as console events, the order of the run and its exit code, loading
    the ROM, the dispatch of device accesses, and the stack dump.  The devices
    and the virtual machine are the interface [CliHost]. *)
From S2P Require Import Prelude Bytes Pointers.
Local Open Scope jit_scope.

(** buxn's virtual machine and devices, and the JIT, on the state [T] of all.
    A call of the JIT returns, fails an assertion, or does not return, which is
    [OutOfFuel]: a ROM may loop for ever. *)
Class CliHost (T : Type) := {
  buxn_jit_execute : Z -> M T unit;
  buxn_vm_dev_load2 : Z -> T -> Z;
  buxn_system_exit_code : T -> Z;
  buxn_console_should_send_input : T -> bool;
  set_console : Z -> Z -> T -> T;
  BUXN_RESET_VECTOR : Z;
  BUXN_CONSOLE_STDIN : Z;
  BUXN_CONSOLE_ARG : Z;
  BUXN_CONSOLE_ARG_SEP : Z;
  BUXN_CONSOLE_END : Z;
}.

Section Cli.
Context `{CliHost T}.

(** The machine and the console events it was sent. *)
Record cli_state := mkCli { machine : T; sent : list (Z * Z) }.

Definition on_machine (f : T -> T) (s : cli_state) : cli_state := mkCli (f (machine s)) (sent s).

#[local] Abbreviation C := (M cli_state).

(** A computation on the machine after which [l] has been sent. *)
Definition at_machine {A} (l : list (Z * Z)) (f : M T A) : C A :=
  fun s => (fun r => (fst r, mkCli (snd r) (sent s ++ l))) <$> f (machine s).

Definition call_jit (pc : Z) : C unit := at_machine [] (buxn_jit_execute pc).

(** ** Console events *)

Definition buxn_console_send_data_jit (type value : Z) : C unit :=
  modify (fun s => mkCli (set_console type value (machine s)) (sent s ++ [(type, value)])) ;;;
  vector_addr <-- gets (fun s => buxn_vm_dev_load2 0x10 (machine s)) ;;
  call_jit vector_addr.

Definition buxn_console_send_input_jit (c : Z) : C unit := buxn_console_send_data_jit BUXN_CONSOLE_STDIN (u8 c).
Definition buxn_console_send_input_end_jit : C unit := buxn_console_send_data_jit BUXN_CONSOLE_END 0.

Definition newline : Z := 10.

(** The inner loop over the characters of [argv[0]], with [argc] arguments
    left. *)
Fixpoint send_arg (argc : nat) (arg : list Z) : C unit :=
  match arg with
  | ch :: arg =>
      if ch =? 0 then
        buxn_console_send_data_jit (if Nat.eqb argc 1 then BUXN_CONSOLE_END else BUXN_CONSOLE_ARG_SEP) newline
      else buxn_console_send_data_jit BUXN_CONSOLE_ARG (u8 ch) ;;; send_arg argc arg
  | [] => fun _ => AssertFailed "argument without NUL"
  end.

Fixpoint buxn_console_send_args_jit (argv : list (list Z)) : C unit :=
  match argv with
  | [] => ret tt
  | arg :: argv' => send_arg (length argv) arg ;;; buxn_console_send_args_jit argv'
  end.

(** ** The run *)

(** The loop on the standard input. *)
Fixpoint input_loop (input : list Z) : C unit :=
  code <-- gets (fun s => buxn_system_exit_code (machine s)) ;;
  wanted <-- gets (fun s => buxn_console_should_send_input (machine s)) ;;
  if (code <? 0) && wanted then
    match input with
    | ch :: input => buxn_console_send_input_jit ch ;;; input_loop input
    | [] => buxn_console_send_input_end_jit
    end
  else ret tt.

(** [boot] after the reset vector, to the exit code. *)
Definition after_reset (argv : list (list Z)) (input : list Z) : C Z :=
  code <-- gets (fun s => buxn_system_exit_code (machine s)) ;;
  if 0 <? code then ret code
  else
    buxn_console_send_args_jit argv ;;;
    code <-- gets (fun s => buxn_system_exit_code (machine s)) ;;
    if 0 <? code then ret code
    else
      input_loop input ;;;
      code <-- gets (fun s => buxn_system_exit_code (machine s)) ;;
      ret (if code <? 0 then 0 else code).

Definition boot_run (argv : list (list Z)) (input : list Z) : C Z :=
  call_jit BUXN_RESET_VECTOR ;;; after_reset argv input.
End Cli.

(** ** Loading the ROM *)

(** [fread(read_pos, 1, 1024, rom_file)]: the bytes delivered and the rest. *)
Definition fread_1024 (file : list Z) : list Z * list Z := (take 1024 file, drop 1024 file).

Fixpoint write_bytes (l : list Z) (pos : Z) (memory : Z -> Z) : Z -> Z :=
  match l with
  | [] => memory
  | b :: l => write_bytes l (pos + 1) (fun a => if a =? pos then b else memory a)
  end.

(** The loop; every iteration but the last consumes the file, whose length is
    enough fuel.  The result has the position after the last byte written. *)
Fixpoint read_rom (fuel : nat) (file : list Z) (read_pos memory_size : Z) (memory : Z -> Z) : res ((Z -> Z) * Z) :=
  if read_pos <? memory_size then
    let '(bytes, rest) := fread_1024 file in
    match bytes with
    | [] => Ok (memory, read_pos)
    | _ =>
        match fuel with
        | O => OutOfFuel
        | S fuel =>
            read_rom fuel rest (read_pos + Z.of_nat (length bytes)) memory_size (write_bytes bytes read_pos memory)
        end
    end
  else Ok (memory, read_pos).

(** ** Device accesses *)

Inductive device_id := BUXN_DEVICE_SYSTEM | BUXN_DEVICE_CONSOLE | BUXN_DEVICE_DATETIME | OTHER_DEVICE.

Class Devices (T : Type) := {
  buxn_device_id : Z -> device_id;
  buxn_system_dei : Z -> M T Z;
  buxn_console_dei : Z -> M T Z;
  buxn_datetime_dei : Z -> M T Z;
  buxn_system_deo : Z -> M T unit;
  buxn_console_deo : Z -> M T unit;
  device_byte : Z -> T -> Z;
}.

Definition buxn_vm_dei `{Devices T} (address : Z) : M T Z :=
  match buxn_device_id address with
  | BUXN_DEVICE_SYSTEM => buxn_system_dei address
  | BUXN_DEVICE_CONSOLE => buxn_console_dei address
  | BUXN_DEVICE_DATETIME => buxn_datetime_dei address
  | OTHER_DEVICE => gets (device_byte address)
  end.

Definition buxn_vm_deo `{Devices T} (address : Z) : M T unit :=
  match buxn_device_id address with
  | BUXN_DEVICE_SYSTEM => buxn_system_deo address
  | BUXN_DEVICE_CONSOLE => buxn_console_deo address
  | _ => ret tt
  end.

(** ** The stack dump *)

Definition hex_upper (d : Z) : Z := if d <? 10 then 0x30 + d else 0x41 + (d - 10).

(** [" %02hhX"] *)
Definition dump_byte (b : Z) : list Z := [0x20; hex_upper (u8 b / 16); hex_upper (u8 b mod 16)].

(** What [buxn_system_debug] prints, the stacks given up to their pointers. *)
Definition buxn_system_debug (ws rs : list Z) (value : Z) : list Z :=
  if value =? 0 then []
  else chars "WST" ++ concat (dump_byte <$> ws) ++ [newline] ++
       chars "RST" ++ concat (dump_byte <$> rs) ++ [newline].

(** ** Console output *)

(** What a stream has passed on, and what is in its buffer. *)
Record stream := mkStream { passed : list Z; buffered : list Z }.

Definition fputc (b : Z) (s : stream) : stream := mkStream (passed s) (buffered s ++ [u8 b]).
Definition fflush (s : stream) : stream := mkStream (passed s ++ buffered s) [].

Record streams := mkStreams { stdout : stream; stderr : stream }.

Definition buxn_console_handle_write (b : Z) (s : streams) : streams :=
  mkStreams (fflush (fputc b (stdout s))) (stderr s).

(** It is the other stream that is flushed. *)
Definition buxn_console_handle_error (b : Z) (s : streams) : streams :=
  mkStreams (fflush (stdout s)) (fputc b (stderr s)).

Lemma handle_write_passes b s :
  let s' := buxn_console_handle_write b s in
  passed (stdout s') = passed (stdout s) ++ buffered (stdout s) ++ [u8 b] /\ buffered (stdout s') = [] /\
  stderr s' = stderr s.
Proof. done. Qed.

(** A byte for the error stream stays in its buffer, if the stream has one. *)
Lemma handle_error_keeps b s :
  let s' := buxn_console_handle_error b s in
  passed (stderr s') = passed (stderr s) /\ buffered (stderr s') = buffered (stderr s) ++ [u8 b] /\
  buffered (stdout s') = [].
Proof. done. Qed.

(** ** The events of a run *)

Section Run.
Context `{CliHost T}.

(** What is sent for the arguments. *)
Fixpoint arg_events (argv : list (list Z)) : list (Z * Z) :=
  match argv with
  | [] => []
  | [arg] => ((fun ch => (BUXN_CONSOLE_ARG, u8 ch)) <$> c_string arg) ++ [(BUXN_CONSOLE_END, newline)]
  | arg :: argv => ((fun ch => (BUXN_CONSOLE_ARG, u8 ch)) <$> c_string arg) ++
                   (BUXN_CONSOLE_ARG_SEP, newline) :: arg_events argv
  end.

(** The machine takes one event, and several. *)
Definition deliver (e : Z * Z) : M T unit :=
  modify (set_console (fst e) (snd e)) ;;;
  vector_addr <-- gets (buxn_vm_dev_load2 0x10) ;;
  buxn_jit_execute vector_addr.

Definition delivered (l : list (Z * Z)) : M cli_state unit := at_machine l (for_each deliver l).

Definition terminated (arg : list Z) : Prop := exists l r, arg = l ++ 0 :: r /\ no_nul l.

Lemma at_machine_bind {A B} l r (f : M T A) (g : A -> M T B) s :
  (x <-- at_machine l f ;; at_machine r (g x)) s = at_machine (l ++ r) (bind f g) s.
Proof.
  unfold bind, at_machine. destruct (f (machine s)) as [[x t]| |]; [|done..]. cbn.
  by rewrite app_assoc.
Qed.

Lemma delivered_app l r s : delivered (l ++ r) s = (delivered l ;;; delivered r) s.
Proof.
  unfold delivered. rewrite (at_machine_bind l r _ (fun _ => for_each deliver r)).
  unfold at_machine. by rewrite for_each_app.
Qed.

Lemma delivered_nil s : delivered [] s = Ok (tt, s).
Proof. destruct s. unfold delivered, at_machine. cbn. by rewrite app_nil_r. Qed.

Lemma send_data_delivers type value s :
  buxn_console_send_data_jit type value s = delivered [(type, value)] s.
Proof.
  unfold delivered, buxn_console_send_data_jit, call_jit, at_machine, for_each, deliver, bind, modify, gets, ret.
  cbn. destruct (buxn_jit_execute _ _) as [[[] t]| |]; cbn; by rewrite ?app_nil_r.
Qed.

Lemma bind_ext {S A B} (m m' : M S A) (k : A -> M S B) s : m s = m' s -> bind m k s = bind m' k s.
Proof. unfold bind. by intros ->. Qed.

(** [l] is delivered and then what is delivered from there. *)
Lemma bind_delivered (m : M cli_state unit) l r s :
  (forall t, for_each deliver l (machine s) = Ok (tt, t) ->
    m (mkCli t (sent s ++ l)) = delivered r (mkCli t (sent s ++ l))) ->
  (delivered l ;;; m) s = delivered (l ++ r) s.
Proof.
  intros Hm. rewrite delivered_app. unfold bind.
  assert (delivered l s = (fun r => (fst r, mkCli (snd r) (sent s ++ l))) <$> for_each deliver l (machine s)) as ->
    by done.
  destruct (for_each deliver l (machine s)) as [[[] t]| |]; [|done..]. by apply Hm.
Qed.

Lemma send_arg_delivers argc arg s :
  terminated arg ->
  send_arg argc arg s = delivered (((fun ch => (BUXN_CONSOLE_ARG, u8 ch)) <$> c_string arg) ++
    [(if Nat.eqb argc 1 then BUXN_CONSOLE_END else BUXN_CONSOLE_ARG_SEP, newline)]) s.
Proof.
  intros (l & r & -> & Hl). rewrite c_string_app by done. revert s.
  induction Hl as [|ch l Hch _ IH]; intros s; cbn [send_arg app fmap list_fmap].
  - apply send_data_delivers.
  - destruct (Z.eqb_spec ch 0); [done|]. rewrite (bind_ext _ _ _ _ (send_data_delivers _ _ s)).
    apply (bind_delivered _ [_]). intros t _. apply IH.
Qed.

Lemma send_args_delivers argv s :
  Forall terminated argv -> buxn_console_send_args_jit argv s = delivered (arg_events argv) s.
Proof.
  intros Ha. revert s. induction Ha as [|arg argv Harg _ IH]; intros s; cbn [buxn_console_send_args_jit].
  - by rewrite delivered_nil.
  - rewrite (bind_ext _ _ _ _ (send_arg_delivers _ arg s Harg)), (bind_delivered _ _ _ _ (fun _ _ => IH _)), <- app_assoc.
    destruct argv; [by rewrite app_nil_r|done].
Qed.

Definition running (t : T) : bool := (buxn_system_exit_code t <? 0) && buxn_console_should_send_input t.

(** The input delivered from a machine: characters while it runs and wants
    them, then the end of the input; none after one that does not return. *)
Fixpoint input_events (input : list Z) (t : T) : list (Z * Z) :=
  if running t then
    match input with
    | [] => [(BUXN_CONSOLE_END, 0)]
    | ch :: input =>
        let e := (BUXN_CONSOLE_STDIN, u8 ch) in
        e :: match deliver e t with Ok (_, t) => input_events input t | _ => [] end
    end
  else [].

Lemma input_loop_delivers input s : input_loop input s = delivered (input_events input (machine s)) s.
Proof.
  revert s. induction input as [|ch input IH]; intros s; cbn [input_loop input_events]; unfold running.
  all: unfold bind at 1, gets at 1; unfold bind at 1, gets at 1.
  all: destruct ((buxn_system_exit_code (machine s) <? 0) && buxn_console_should_send_input (machine s));
    [|by rewrite delivered_nil].
  - apply send_data_delivers.
  - unfold buxn_console_send_input_jit. rewrite (bind_ext _ _ _ _ (send_data_delivers _ _ s)). set (e := (_, _)).
    apply (bind_delivered _ [e]). intros t Ht. rewrite IH. cbn [for_each] in Ht. unfold bind in Ht.
    destruct (deliver e _) as [[[] t']| |]; [|done..]. by injection Ht as ->.
Qed.

(** *** The specification of a run *)

(** The events for a machine that has run its reset vector. *)
Definition run_events (argv : list (list Z)) (input : list Z) (t : T) : list (Z * Z) :=
  if 0 <? buxn_system_exit_code t then []
  else
    arg_events argv ++
    match for_each deliver (arg_events argv) t with
    | Ok (_, t) => if 0 <? buxn_system_exit_code t then [] else input_events input t
    | _ => []
    end.

(** The reset vector, the events, and the exit code of the machine or 0. *)
Definition run_spec (argv : list (list Z)) (input : list Z) : M cli_state Z :=
  call_jit BUXN_RESET_VECTOR ;;;
  events <-- gets (fun s => run_events argv input (machine s)) ;;
  delivered events ;;;
  gets (fun s => Z.max 0 (buxn_system_exit_code (machine s))).

Lemma after_reset_spec argv input s :
  Forall terminated argv ->
  after_reset argv input s =
    (delivered (run_events argv input (machine s)) ;;;
     gets (fun s => Z.max 0 (buxn_system_exit_code (machine s)))) s.
Proof.
  intros Ha. unfold after_reset, run_events. unfold bind at 1, gets at 1.
  destruct (Z.ltb_spec 0 (buxn_system_exit_code (machine s))) as [Hc|Hc].
  { rewrite (bind_ext _ (ret tt) _ _ (delivered_nil s)). unfold bind, ret, gets. by rewrite Z.max_r by lia. }
  rewrite (bind_ext _ _ _ _ (send_args_delivers argv s Ha)).
  rewrite (bind_ext _ _ _ _ (delivered_app _ _ s)). unfold bind.
  assert (delivered (arg_events argv) s = (fun r => (fst r, mkCli (snd r) (sent s ++ arg_events argv))) <$>
    for_each deliver (arg_events argv) (machine s)) as -> by done.
  destruct (for_each _ _ _) as [[[] t]| |]; [|done..]. cbn [fmap res_fmap fst snd].
  set (s1 := mkCli t _). change t with (machine s1). unfold gets. destruct (Z.ltb_spec 0 (buxn_system_exit_code (machine s1))).
  - rewrite delivered_nil. unfold ret. by rewrite Z.max_r by lia.
  - rewrite input_loop_delivers. destruct (delivered _ s1) as [[[] s2]| |]; [|done..].
    unfold ret. do 2 f_equal. case_match; lia.
Qed.

Lemma boot_run_spec argv input s : Forall terminated argv -> boot_run argv input s = run_spec argv input s.
Proof.
  intros Ha. unfold boot_run, run_spec. unfold bind at 1. symmetry. unfold bind at 1.
  destruct (call_jit _ s) as [[[] s1]| |]; [|done..]. by rewrite after_reset_spec.
Qed.
End Run.

(** ** What the ROM loader writes *)

Lemma write_bytes_app l r pos memory :
  write_bytes (l ++ r) pos memory = write_bytes r (pos + Z.of_nat (length l)) (write_bytes l pos memory).
Proof.
  revert pos memory. induction l as [|b l IH]; intros pos memory; cbn [write_bytes app length].
  - f_equal. lia.
  - rewrite IH. f_equal. lia.
Qed.

Lemma write_bytes_at l pos memory a :
  write_bytes l pos memory a =
    if (pos <=? a) && (a <? pos + Z.of_nat (length l)) then nth (Z.to_nat (a - pos)) l 0 else memory a.
Proof.
  revert pos memory. induction l as [|b l IH]; intros pos memory; cbn [write_bytes length].
  - destruct (Z.leb_spec pos a), (Z.ltb_spec a (pos + Z.of_nat 0)); cbn in *; (done || lia).
  - rewrite IH. destruct (Z.leb_spec (pos + 1) a), (Z.ltb_spec a (pos + 1 + Z.of_nat (length l))),
      (Z.leb_spec pos a), (Z.ltb_spec a (pos + Z.of_nat (S (length l)))), (Z.eqb_spec a pos); cbn; try lia; try done.
    + by replace (Z.to_nat (a - pos)) with (S (Z.to_nat (a - (pos + 1)))) by lia.
    + by replace (Z.to_nat (a - pos)) with 0%nat by lia.
Qed.

(** The bytes the loop reads: whole blocks of 1024 until the end of the memory
    is reached or passed. *)
Definition rom_bytes (file : list Z) (read_pos memory_size : Z) : nat :=
  Nat.min (length file) (1024 * Z.to_nat ((memory_size - read_pos + 1023) / 1024)).

Lemma take_first_block {A} (l : list A) n k :
  take n l ++ take k (drop n l) = take (length (take n l) + k) l.
Proof.
  rewrite length_take. destruct (decide (n <= length l)%nat).
  - by rewrite Nat.min_l, take_take_drop.
  - by rewrite Nat.min_r, drop_ge, take_nil, app_nil_r, !take_ge by lia.
Qed.

Lemma read_rom_spec fuel file read_pos memory_size memory :
  (length file <= fuel)%nat ->
  let n := rom_bytes file read_pos memory_size in
  read_rom fuel file read_pos memory_size memory =
    Ok (write_bytes (take n file) read_pos memory, read_pos + Z.of_nat n).
Proof.
  revert file read_pos memory. induction fuel as [|fuel IH]; intros file pos memory Hf n; subst n; unfold rom_bytes.
  - destruct file; [|simpl in Hf; lia]. cbn. destruct (pos <? memory_size); by rewrite Z.add_0_r.
  - cbn [read_rom]. destruct (Z.ltb_spec pos memory_size).
    2:{ replace (Z.to_nat ((memory_size - pos + 1023) / 1024)) with 0%nat; [|mlia].
        rewrite Nat.mul_0_r, Nat.min_0_r. cbn. by rewrite Z.add_0_r. }
    cbn [fread_1024]. unfold fread_1024.
    destruct (take 1024 file) as [|b l] eqn:E.
    { destruct file; [|done]. cbn. by rewrite Z.add_0_r. }
    rewrite <- E. rewrite IH by (rewrite length_drop; destruct file; [done|]; simpl in *; lia).
    set (k := rom_bytes (drop 1024 file) (pos + Z.of_nat (length (take 1024 file))) memory_size).
    assert (Nat.min (length file) (1024 * Z.to_nat ((memory_size - pos + 1023) / 1024)) = (length (take 1024 file) + k)%nat) as ->.
    { subst k. unfold rom_bytes. rewrite length_take, length_drop. mlia. }
    do 2 f_equal; [|lia]. rewrite <- write_bytes_app. f_equal.
    apply take_first_block.
Qed.

(** C31: Loading always ends.  The bytes of the file go to the memory from 0x100 on
    in order and nothing else is written; all of the file is loaded when it
    fits.  The last block may go past the end of the memory, by at most 1023
    bytes. *)
Theorem read_rom_correct file memory_size memory :
  0x100 <= memory_size ->
  let n := rom_bytes file 0x100 memory_size in
  exists memory', read_rom (length file) file 0x100 memory_size memory = Ok (memory', 0x100 + Z.of_nat n) /\
    (forall a, memory' a = if (0x100 <=? a) && (a <? 0x100 + Z.of_nat n)
       then nth (Z.to_nat (a - 0x100)) file 0 else memory a) /\
    (Z.of_nat (length file) <= memory_size - 0x100 -> n = length file) /\
    0x100 + Z.of_nat n < memory_size + 1024.
Proof.
  intros Hsize n. eexists. split; [by apply read_rom_spec|]. fold n.
  assert (n <= length file)%nat as Hn by (unfold n, rom_bytes; lia).
  split_and!.
  - intros a. rewrite write_bytes_at, length_take, Nat.min_l by done.
    destruct (Z.leb_spec 0x100 a), (Z.ltb_spec a (0x100 + Z.of_nat n)); cbn; try done.
    rewrite <- (take_drop n file) at 2. rewrite app_nth1; [done|]. rewrite length_take. lia.
  - intros Hfit. unfold n, rom_bytes. mlia.
  - unfold n, rom_bytes. mlia.
Qed.

Lemma read_rom_correct_witness :
  let n := rom_bytes [1; 2; 3] 0x100 0x10000 in
  exists memory', read_rom (length [1; 2; 3]) [1; 2; 3] 0x100 0x10000 (fun _ => 0) = Ok (memory', 0x100 + Z.of_nat n) /\
    (forall a, memory' a = if (0x100 <=? a) && (a <? 0x100 + Z.of_nat n)
       then nth (Z.to_nat (a - 0x100)) [1; 2; 3] 0 else 0) /\
    (Z.of_nat (length [1; 2; 3]) <= 0x10000 - 0x100 -> n = length [1; 2; 3]) /\
    0x100 + Z.of_nat n < 0x10000 + 1024.
Proof. apply (read_rom_correct [1; 2; 3] 0x10000 (fun _ => 0)). lia. Defined.

Lemma rom_bytes_banks file banks :
  0 < banks -> banks * 0x10000 <= Z.of_nat (length file) ->
  Z.of_nat (rom_bytes file 0x100 (banks * 0x10000)) = banks * 0x10000.
Proof.
  intros Hb Hf. unfold rom_bytes.
  replace ((banks * 0x10000 - 0x100 + 1023) / 1024) with (banks * 64) by mlia. lia.
Qed.

(** C37: The ROM loader passes the end.  For a memory of whole banks of 64 KiB, as
    buxn's is, and a file of that size or larger, the loader writes 256 bytes of
    the file past the end of the memory. *)
Theorem read_rom_overflow file banks memory :
  0 < banks -> banks * 0x10000 <= Z.of_nat (length file) ->
  exists memory', read_rom (length file) file 0x100 (banks * 0x10000) memory =
      Ok (memory', banks * 0x10000 + 0x100) /\
    forall i, 0 <= i < 0x100 ->
      memory' (banks * 0x10000 + i) = nth (Z.to_nat (banks * 0x10000 + i - 0x100)) file 0.
Proof.
  intros Hb Hf. pose proof (rom_bytes_banks file banks Hb Hf) as Hn. eexists.
  rewrite read_rom_spec by done. rewrite Hn. split; [do 2 f_equal; lia|]. intros i Hi.
  rewrite write_bytes_at, length_take, Nat.min_l by lia.
  rewrite (proj2 (Z.leb_le _ _)), (proj2 (Z.ltb_lt _ _)) by lia. cbn [andb].
  set (n := rom_bytes _ _ _) in *. rewrite <- (take_drop n file) at 2.
  rewrite app_nth1; [done|]. rewrite length_take. lia.
Qed.

Definition full_bank : list Z := replicate (Z.to_nat 0x10000) 7.

Lemma read_rom_overflow_witness :
  exists memory', read_rom (length full_bank) full_bank 0x100 (1 * 0x10000) (fun _ => 0) =
      Ok (memory', 1 * 0x10000 + 0x100) /\
    forall i, 0 <= i < 0x100 ->
      memory' (1 * 0x10000 + i) = nth (Z.to_nat (1 * 0x10000 + i - 0x100)) full_bank 0.
Proof.
  apply (read_rom_overflow full_bank 1 (fun _ => 0)); [lia|].
  unfold full_bank. rewrite length_replicate. lia.
Defined.

(** A program that asks to exit with code 0 at its reset vector is still sent
    its arguments: only a positive code is tested for. *)
Definition exit_zero : CliHost Z := {|
  buxn_jit_execute := fun _ => modify (fun n => n + 1);
  buxn_vm_dev_load2 := fun _ _ => 0x200;
  buxn_system_exit_code := fun _ => 0;
  buxn_console_should_send_input := fun _ => true;
  set_console := fun _ _ n => n;
  BUXN_RESET_VECTOR := 0x100;
  BUXN_CONSOLE_STDIN := 1;
  BUXN_CONSOLE_ARG := 2;
  BUXN_CONSOLE_ARG_SEP := 3;
  BUXN_CONSOLE_END := 4;
|}.

Theorem args_after_exit :
  boot_run (H := exit_zero) [[0x61; 0]] [] (mkCli 0 []) = Ok (0, mkCli 3 [(2, 0x61); (4, 10)]).
Proof. reflexivity. Qed.
