(* ===== verification/Boot.v ===== *)
(** * Starting and stopping the host program (boot and main of src/src/cli.c)

    The files that are opened, what the hooks are configured with, the ROM in
    memory, the session of Cli.v, and the order in which everything is released.
    Each call that acquires, uses or releases something is an [action];
    [lifetime] follows what is held, and what the rest is left pointing to.  A
    call of the JIT that does not return makes the run not return.  The reader
    of the .dbg file, the virtual machine and the files of the system are
    interfaces. *)
From S2P Require Import Prelude Bytes LabelMap Cli.
Local Open Scope jit_scope.

Inductive hook_kind := GdbHook | PerfHook.

#[export] Instance hook_kind_eq_dec : EqDecision hook_kind.
Proof. solve_decision. Defined.

(** [BUXN_CLI_WITH_GDB_HOOK] and [BUXN_CLI_WITH_PERF_HOOK] *)
Inductive platform := Linux | FreeBSD | OtherPlatform.

Definition with_gdb_hook (p : platform) : bool := match p with Linux | FreeBSD => true | OtherPlatform => false end.
Definition with_perf_hook (p : platform) : bool := match p with Linux => true | _ => false end.

(** The files of the system, and libraries: buxn's reader of debug symbols,
    and its virtual machine [T] after [buxn_vm_reset], with [MEMORY_SIZE] bytes
    of memory, and [buxn_console_init]. *)
Class BootHost (T : Type) := {
  boot_cli :: CliHost T;
  file_at : list Z -> option (list Z);
  dbg_symtab : Type;
  buxn_dbg_read_symtab_header : list Z -> bool;
  buxn_dbg_read_symtab : list Z -> option dbg_symtab;
  buxn_vm_reset : T;
  MEMORY_SIZE : Z;
  vm_memory_of : T -> Z -> Z;
  with_memory : (Z -> Z) -> T -> T;
  buxn_console_init : list (list Z) -> T -> T;
  boot_platform : platform;
}.

Section Boot.
Context {T : Type} {BH : BootHost T}.

Inductive action :=
  | PrintUsage
  | PrintOpenError
  | OpenFile (path : list Z)
  | ReadFile (path : list Z)
  | CloseFile (path : list Z)
  | MallocVm
  | FreeVm
  | InitPool
  | CleanupPool
  | InitArena
  | ResetArena
  | NewArrays
  | FreeArrays
  | InitHook (k : hook_kind) (labels : buxn_label_map_t) (symtab : option dbg_symtab)
  | CleanupHook (k : hook_kind)
  | InitJit (hooks : list hook_kind)
  | InitConsole (argv : list (list Z))
  | CleanupJit
  | RunSession (hooks : list hook_kind)
  | PrintStats.

Record boot_state := mkBoot { actions : list action; console : @cli_state T }.

#[local] Abbreviation B := (M boot_state).

Definition act (a : action) : B unit := modify (fun s => mkBoot (actions s ++ [a]) (console s)).

(** [fopen(path, "rb")] *)
Definition fopen (path : list Z) : B (option (list Z)) :=
  match file_at path with
  | Some bytes => act (OpenFile path) ;;; ret (Some bytes)
  | None => ret None
  end.

(** [snprintf(buf, size, "%s" ext, path)] *)
Definition snprintf_path (size : nat) (path ext : list Z) : list Z := take (size - 1) (path ++ ext).

Definition path_with (rom_path ext : list Z) : list Z := snprintf_path (length rom_path + 5) rom_path ext.

(** ** The symbol file and the debug file *)

Definition read_sym_file (rom_path : list Z) : B buxn_label_map_t :=
  let sym_path := path_with rom_path (chars ".sym") in
  sym_file <-- fopen sym_path ;;
  match sym_file with
  | Some bytes => act (ReadFile sym_path) ;;; act (CloseFile sym_path) ;;; ret (read_label_map bytes)
  | None => ret (mkLabelMap 0 [])
  end.

Definition read_dbg_file (rom_path : list Z) : B (option dbg_symtab) :=
  let dbg_path := path_with rom_path (chars ".dbg") in
  dbg_file <-- fopen dbg_path ;;
  match dbg_file with
  | Some bytes =>
      act (ReadFile dbg_path) ;;;
      let symtab := if buxn_dbg_read_symtab_header bytes then buxn_dbg_read_symtab bytes else None in
      act (CloseFile dbg_path) ;;; ret symtab
  | None => ret None
  end.

(** ** boot *)

Definition hooks_of (p : platform) : list hook_kind :=
  (if with_gdb_hook p then [GdbHook] else []) ++ (if with_perf_hook p then [PerfHook] else []).

(** What is done to the machine, and the session. *)
Definition lift {A} (f : M (@cli_state T) A) : B A :=
  fun s =>
    match f (console s) with
    | Ok (a, c) => Ok (a, mkBoot (actions s) c)
    | AssertFailed e => AssertFailed e
    | OutOfFuel => OutOfFuel
    end.

Definition on_vm (f : T -> T) : B unit := lift (modify (on_machine f)).

(** The ROM goes to the memory from [BUXN_RESET_VECTOR] on. *)
Definition load_rom (rom_path rom : list Z) : B unit :=
  act (ReadFile rom_path) ;;;
  memory <-- gets (fun s => vm_memory_of (machine (console s))) ;;
  match read_rom (length rom) rom BUXN_RESET_VECTOR MEMORY_SIZE memory with
  | Ok (memory, _) => on_vm (with_memory memory)
  | AssertFailed e => fun _ => AssertFailed e
  | OutOfFuel => fun _ => OutOfFuel
  end.

Definition boot (argv : list (list Z)) (rom_path rom input : list Z) : B Z :=
  act MallocVm ;;; on_vm (fun _ => buxn_vm_reset) ;;;
  act InitPool ;;; act InitArena ;;; act NewArrays ;;;
  label_map <-- read_sym_file rom_path ;;
  symtab <-- read_dbg_file rom_path ;;
  when (with_gdb_hook boot_platform) (act (InitHook GdbHook label_map symtab)) ;;;
  when (with_perf_hook boot_platform) (act (InitHook PerfHook label_map symtab)) ;;;
  act (InitJit (hooks_of boot_platform)) ;;;
  load_rom rom_path rom ;;;
  act (CloseFile rom_path) ;;;
  act (InitConsole argv) ;;; on_vm (buxn_console_init argv) ;;;
  act (RunSession (hooks_of boot_platform)) ;;;
  exit_code <-- lift (boot_run argv input) ;;
  act PrintStats ;;;
  act FreeArrays ;;;
  act CleanupJit ;;;
  when (with_perf_hook boot_platform) (act (CleanupHook PerfHook)) ;;;
  when (with_gdb_hook boot_platform) (act (CleanupHook GdbHook)) ;;;
  act ResetArena ;;; act CleanupPool ;;; act FreeVm ;;;
  ret exit_code.

(** The path is [argv[1]]. *)
Definition main (argv : list (list Z)) (input : list Z) : B Z :=
  match argv with
  | _ :: rom_path :: args =>
      rom_file <-- fopen rom_path ;;
      match rom_file with
      | Some rom => boot args rom_path rom input
      | None => act PrintOpenError ;;; ret 1
      end
  | _ => act PrintUsage ;;; ret 1
  end.
End Boot.

(** ** Lifetimes *)

Inductive resource :=
  | RFile (path : list Z)
  | RVm
  | RPool
  | RArena
  | RArrays
  | RHook (k : hook_kind)
  | RJit.

#[export] Instance resource_eq_dec : EqDecision resource.
Proof. solve_decision. Defined.

(** What a resource holds pointers to while it is held.  The hooks are allocated
    in the arena and keep the label map; the JIT points to the virtual machine
    and, through the composite hook, to the hooks; the virtual machine points to
    the JIT through its user data. *)
Definition points_to (r : resource) : list resource :=
  match r with
  | RVm => [RJit]
  | RArena => [RPool]
  | RHook _ => [RArena; RArrays]
  | RJit => [RVm; RArena; RHook GdbHook; RHook PerfHook]
  | _ => []
  end.

Definition acquire (r : resource) (uses held : list resource) : option (list resource) :=
  if bool_decide (r ∉ held) && bool_decide (uses ⊆ held) then Some (r :: held) else None.

(** What is released may not be pointed to by anything held, except by what is
    [left] with a dangling pointer. *)
Definition release (r : resource) (left held : list resource) : option (list resource) :=
  if bool_decide (r ∈ held) && bool_decide (Forall (fun x => r ∈ points_to x -> x ∈ left) held)
  then Some (base.filter (fun x => x <> r) held) else None.

Definition use (rs held : list resource) : option (list resource) :=
  if bool_decide (rs ⊆ held) then Some held else None.

Section Lifetimes.
Context {T : Type} {BH : BootHost T}.

(** The resources held after an action; none when it acquires what is held,
    releases what is not or is still pointed to, or reads what is gone.  The
    session compiles code: the hooks read the label map.  The label arrays are
    freed while the hooks still point to them, and the JIT while the virtual
    machine does; the cleanup of a hook reads its data in the arena, not the
    labels, and that of the JIT its list of blocks. *)
Definition lifetime (held : list resource) (a : action) : option (list resource) :=
  match a with
  | PrintUsage | PrintOpenError => Some held
  | OpenFile p => acquire (RFile p) [] held
  | ReadFile p => use [RFile p] held
  | CloseFile p => release (RFile p) [] held
  | MallocVm => acquire RVm [] held
  | FreeVm => release RVm [] held
  | InitPool => acquire RPool [] held
  | CleanupPool => release RPool [] held
  | InitArena => acquire RArena [RPool] held
  | ResetArena => held ← use [RPool] held; release RArena [] held
  | NewArrays => acquire RArrays [] held
  | FreeArrays => release RArrays [RHook GdbHook; RHook PerfHook] held
  | InitHook k _ _ => acquire (RHook k) [RArena; RArrays] held
  | CleanupHook k => held ← use [RArena] held; release (RHook k) [] held
  | InitJit hooks => acquire RJit ([RVm; RArena] ++ (RHook <$> hooks)) held
  | CleanupJit => held ← use [RArena] held; release RJit [RVm] held
  | InitConsole _ => use [RVm] held
  | RunSession hooks => use ([RVm; RArena; RArrays; RJit] ++ (RHook <$> hooks)) held
  | PrintStats => use [RArena; RJit] held
  end.

Definition lifetimes (l : list action) (held : list resource) : option (list resource) :=
  fold_left (fun o a => held ← o; lifetime held a) l (Some held).

Lemma lifetimes_app l r held : lifetimes (l ++ r) held = held ← lifetimes l held; lifetimes r held.
Proof.
  unfold lifetimes. rewrite fold_left_app. destruct (fold_left _ l _); [done|].
  cbn. by induction r.
Qed.

Lemma lifetimes_cons a l held : lifetimes (a :: l) held = held ← lifetime held a; lifetimes l held.
Proof. apply (lifetimes_app [a]). Qed.

Lemma acquire_some r uses held : r ∉ held -> uses ⊆ held -> acquire r uses held = Some (r :: held).
Proof. intros. unfold acquire. by rewrite !bool_decide_true. Qed.

Lemma release_some r held : r ∈ held -> Forall (fun x => r ∉ points_to x) held ->
  release r [] held = Some (base.filter (fun x => x <> r) held).
Proof.
  intros Hr Hn. unfold release. rewrite !bool_decide_true; [done| |done].
  eapply Forall_impl; [exact Hn|]. by intros x.
Qed.

Lemma use_some rs held : rs ⊆ held -> use rs held = Some held.
Proof. intros. unfold use. by rewrite bool_decide_true. Qed.
End Lifetimes.

Section Correct.
Context {T : Type} {BH : BootHost T}.

Lemma path_with_app rom_path ext : length ext = 4%nat -> path_with rom_path ext = rom_path ++ ext.
Proof.
  intros He. unfold path_with, snprintf_path. apply take_ge. rewrite length_app. lia.
Qed.

(** ** What boot does *)

Definition sym_of (rom_path : list Z) : buxn_label_map_t :=
  from_option read_label_map (mkLabelMap 0 []) (file_at (rom_path ++ chars ".sym")).

Definition symtab_of (rom_path : list Z) : option dbg_symtab :=
  bytes ← file_at (rom_path ++ chars ".dbg");
  if buxn_dbg_read_symtab_header bytes then buxn_dbg_read_symtab bytes else None.

(** A file is read between its opening and its closing, if it is there. *)
Definition reading (path : list Z) : list action :=
  match file_at path with Some _ => [OpenFile path; ReadFile path; CloseFile path] | None => [] end.

(** The hooks and the JIT; the session and what follows it. *)
Definition opening (p : platform) (lm : buxn_label_map_t) (st : option dbg_symtab) : list action :=
  ((fun k => InitHook k lm st) <$> hooks_of p) ++ [InitJit (hooks_of p)].

Definition closing (p : platform) (argv : list (list Z)) : list action :=
  [InitConsole argv; RunSession (hooks_of p); PrintStats; FreeArrays; CleanupJit] ++
  (CleanupHook <$> rev (hooks_of p)) ++ [ResetArena; CleanupPool; FreeVm].

Definition boot_actions (argv : list (list Z)) (rom_path : list Z) : list action :=
  let lm := sym_of rom_path in let st := symtab_of rom_path in let p := boot_platform in
  [MallocVm; InitPool; InitArena; NewArrays] ++
  reading (rom_path ++ chars ".sym") ++ reading (rom_path ++ chars ".dbg") ++
  opening p lm st ++ [ReadFile rom_path; CloseFile rom_path] ++ closing p argv.

Lemma act_bind {A} a (k : unit -> M boot_state A) l c :
  bind (act a) k (mkBoot l c) = k tt (mkBoot (l ++ [a]) c).
Proof. done. Qed.

Lemma on_vm_bind {A} f (k : unit -> M boot_state A) l c :
  bind (on_vm f) k (mkBoot l c) = k tt (mkBoot l (on_machine f c)).
Proof. done. Qed.

Lemma read_sym_bind {A} rom_path (k : buxn_label_map_t -> M boot_state A) l c :
  bind (read_sym_file rom_path) k (mkBoot l c) =
    k (sym_of rom_path) (mkBoot (l ++ reading (rom_path ++ chars ".sym")) c).
Proof.
  unfold read_sym_file, sym_of, reading, fopen, bind. rewrite path_with_app by done.
  destruct (file_at _); cbn; [by rewrite <- !app_assoc|]. by rewrite app_nil_r.
Qed.

Lemma read_dbg_bind {A} rom_path (k : option dbg_symtab -> M boot_state A) l c :
  bind (read_dbg_file rom_path) k (mkBoot l c) =
    k (symtab_of rom_path) (mkBoot (l ++ reading (rom_path ++ chars ".dbg")) c).
Proof.
  unfold read_dbg_file, symtab_of, reading, fopen, bind. rewrite path_with_app by done.
  destruct (file_at _); cbn; [by rewrite <- !app_assoc|]. by rewrite app_nil_r.
Qed.

Lemma when_bind {A} (b : bool) a (k : unit -> M boot_state A) l c :
  bind (when b (act a)) k (mkBoot l c) = k tt (mkBoot (l ++ if b then [a] else []) c).
Proof. destruct b; [done|]. unfold when, bind, ret. by rewrite app_nil_r. Qed.

Lemma load_rom_bind {A} rom_path rom (k : unit -> M boot_state A) l c :
  bind (load_rom rom_path rom) k (mkBoot l c) =
    k tt (mkBoot (l ++ [ReadFile rom_path]) (on_machine
      (with_memory (write_bytes (take (rom_bytes rom BUXN_RESET_VECTOR MEMORY_SIZE) rom)
         BUXN_RESET_VECTOR (vm_memory_of (machine c)))) c)).
Proof.
  unfold load_rom, bind at 1. rewrite act_bind. unfold bind, gets. cbn [machine console].
  by rewrite read_rom_spec.
Qed.

(** The machine when the first instruction is run. *)
Definition loaded_machine (argv : list (list Z)) (memory : Z -> Z) : T :=
  buxn_console_init argv (with_memory memory buxn_vm_reset).

(** The session on the machine with the ROM. *)
Definition boot_session (argv : list (list Z)) (rom input : list Z) (c : @cli_state T) : res (Z * cli_state) :=
  let memory := write_bytes (take (rom_bytes rom BUXN_RESET_VECTOR MEMORY_SIZE) rom)
    BUXN_RESET_VECTOR (vm_memory_of buxn_vm_reset) in
  run_spec argv input (mkCli (loaded_machine argv memory) (sent c)).

(** When the session returns, everything is released; if not, neither does
    the program. *)
Lemma boot_spec argv rom_path rom input l c :
  Forall terminated argv ->
  boot argv rom_path rom input (mkBoot l c) =
    (fun r => (fst r, mkBoot (l ++ boot_actions argv rom_path) (snd r))) <$> boot_session argv rom input c.
Proof.
  intros Ha. unfold boot.
  rewrite act_bind, on_vm_bind, !act_bind, read_sym_bind, read_dbg_bind, !when_bind, act_bind, load_rom_bind,
    !act_bind, on_vm_bind, act_bind.
  unfold bind at 1, lift at 1. cbn [console actions]. rewrite boot_run_spec by done.
  unfold boot_session, loaded_machine. cbn [machine sent on_machine].
  destruct (run_spec _ _ _) as [[code c']| |]; [|done..]. cbn [fmap res_fmap fst snd].
  rewrite !act_bind, !when_bind, !act_bind. unfold ret. do 2 f_equal. f_equal.
  unfold boot_actions, opening, closing. rewrite <- !app_assoc. by destruct boot_platform.
Qed.

(** ** Everything is released *)

Lemma file_not_needed path x : RFile path ∉ points_to x.
Proof. intros Hx. destruct x; cbn in Hx; rewrite ?list_elem_of_In in Hx; cbn in Hx; intuition discriminate. Qed.

Lemma close_lifetimes path l r :
  RFile path ∉ l -> RFile path ∉ r ->
  lifetimes [ReadFile path; CloseFile path] (l ++ RFile path :: r) = Some (l ++ r).
Proof.
  intros Hl Hr. assert (RFile path ∈ l ++ RFile path :: r) as Hin by (apply elem_of_app; right; by left).
  unfold lifetimes. cbn [fold_left mbind option_bind lifetime].
  rewrite use_some by (by intros x ->%list_elem_of_singleton). cbn [mbind option_bind].
  rewrite release_some; [|done|].
  - rewrite filter_app, filter_cons_False by auto.
    by rewrite !filter_all by (by intros x Hx ->).
  - rewrite Forall_forall. intros x _. apply file_not_needed.
Qed.

Lemma reading_lifetimes path held : RFile path ∉ held -> lifetimes (reading path) held = Some held.
Proof.
  intros Hn. unfold reading. destruct (file_at path); [|done].
  rewrite lifetimes_cons. cbn [lifetime]. rewrite acquire_some by (done || by intros x ?%elem_of_nil).
  by apply (close_lifetimes path [] held); [apply not_elem_of_nil|].
Qed.

Lemma ext_differs (path ext : list Z) : ext <> [] -> path ++ ext <> path.
Proof.
  intros He E. apply (f_equal length) in E. rewrite length_app in E. destruct ext; [done|]. simpl in E. lia.
Qed.

(** While the session runs. *)
Definition session_holds (p : platform) : list resource :=
  RJit :: (RHook <$> rev (hooks_of p)) ++ [RArrays; RArena; RPool; RVm].

Lemma rom_not_held rom_path p : RFile rom_path ∉ session_holds p.
Proof. intros Hin%list_elem_of_In. destruct p; cbn in Hin; intuition discriminate. Qed.

Lemma opening_lifetimes rom_path p lm st :
  lifetimes (opening p lm st) [RArrays; RArena; RPool; RVm; RFile rom_path] =
    Some (session_holds p ++ [RFile rom_path]).
Proof. by destruct p. Qed.

Lemma closing_lifetimes argv p : lifetimes (closing p argv) (session_holds p) = Some [].
Proof. by destruct p. Qed.

Lemma boot_lifetimes argv rom_path : lifetimes (boot_actions argv rom_path) [RFile rom_path] = Some [].
Proof.
  assert (forall ext, ext <> [] -> RFile (rom_path ++ ext) ∉ [RArrays; RArena; RPool; RVm; RFile rom_path]) as Hext.
  { intros ext He Hin. apply list_elem_of_In in Hin. cbn in Hin. pose proof (ext_differs rom_path ext He). intuition congruence. }
  unfold boot_actions. rewrite lifetimes_app.
  change (lifetimes [MallocVm; InitPool; InitArena; NewArrays] [RFile rom_path]) with
    (Some [RArrays; RArena; RPool; RVm; RFile rom_path]).
  cbn [mbind option_bind]. rewrite !lifetimes_app, reading_lifetimes by (by apply Hext).
  cbn [mbind option_bind]. rewrite lifetimes_app, reading_lifetimes by (by apply Hext).
  cbn [mbind option_bind]. rewrite lifetimes_app, opening_lifetimes. cbn [mbind option_bind].
  rewrite lifetimes_app, close_lifetimes by (apply rom_not_held || apply not_elem_of_nil).
  cbn [mbind option_bind]. rewrite app_nil_r. apply closing_lifetimes.
Qed.

(** The hooks are configured with the labels and the debug symbols. *)
Lemma boot_hooks argv rom_path k lm st :
  InitHook k lm st ∈ boot_actions argv rom_path <->
  k ∈ hooks_of boot_platform /\ lm = sym_of rom_path /\ st = symtab_of rom_path.
Proof.
  assert (forall path, InitHook k lm st ∉ reading path) as Hr.
  { intros path Hin. unfold reading in Hin. destruct (file_at path); apply list_elem_of_In in Hin; cbn in Hin;
      intuition discriminate. }
  unfold boot_actions. rewrite !elem_of_app. unfold opening, closing. rewrite !list_elem_of_In.
  split.
  - intros [Hin|[Hin|[Hin|[Hin|[Hin|Hin]]]]].
    + cbn in Hin. intuition discriminate.
    + by apply list_elem_of_In, Hr in Hin.
    + by apply list_elem_of_In, Hr in Hin.
    + destruct boot_platform; cbn in *; intuition (congruence || (injection H; auto)).
    + cbn in Hin. intuition discriminate.
    + destruct boot_platform; cbn in Hin; intuition discriminate.
  - intros (Hk & -> & ->). right. right. right. left. apply in_or_app. left.
    apply list_elem_of_In, list_elem_of_fmap. exists k. split; [done|by apply list_elem_of_In].
Qed.

Lemma main_found exe rom_path args input c0 rom :
  Forall terminated args -> file_at rom_path = Some rom ->
  main (exe :: rom_path :: args) input (mkBoot [] c0) =
    (fun r => (fst r, mkBoot (OpenFile rom_path :: boot_actions args rom_path) (snd r))) <$>
    boot_session args rom input c0.
Proof.
  intros Ha Ef. unfold main, fopen. rewrite Ef. unfold bind at 1. rewrite act_bind. unfold ret at 1.
  by rewrite boot_spec.
Qed.

(** C30: A run of the host program, from [main] to its exit code.  Without a ROM
    that can be opened the exit code is 1 and nothing is run.  Otherwise the
    session of [run_spec] runs on a reset machine with the ROM in memory and the
    arguments after the path.  When each of its calls of the JIT returns, so does
    the program, with the exit code of the machine (0 when it has none); when
    one does not, because the ROM loops, or fails an assertion, the program does
    the same.  Exactly the hooks of the platform were configured, with the
    labels and debug symbols of the files next to the ROM.  On every path that
    ends what was acquired is released, once and after its last use.  What
    is released is no longer pointed to, but for two pointers that are not
    followed any more: the hooks' to the label arrays and the machine's to the
    JIT ([lifetime]). *)
Theorem main_correct exe rom_path args input c0 :
  Forall terminated args ->
  let run := main (exe :: rom_path :: args) input (mkBoot [] c0) in
  match file_at rom_path with
  | None => exists s, run = Ok (1, s) /\ console s = c0 /\ lifetimes (actions s) [] = Some []
  | Some rom =>
      match boot_session args rom input c0 with
      | Ok (code, c) =>
          exists s, run = Ok (code, s) /\ console s = c /\ lifetimes (actions s) [] = Some [] /\
            forall k lm st, InitHook k lm st ∈ actions s <->
              k ∈ hooks_of boot_platform /\ lm = sym_of rom_path /\ st = symtab_of rom_path
      | AssertFailed e => run = AssertFailed e
      | OutOfFuel => run = OutOfFuel
      end
  end.
Proof.
  intros Ha run. destruct (file_at rom_path) as [rom|] eqn:Ef.
  - subst run. rewrite (main_found _ _ _ _ _ rom) by done.
    destruct (boot_session args rom input c0) as [[code c]| |]; [|done..].
    eexists. split; [reflexivity|]. cbn [actions console fst snd]. split; [done|]. split.
    + rewrite lifetimes_cons. apply boot_lifetimes.
    + intros k lm st. rewrite elem_of_cons. rewrite <- boot_hooks. split; [by intros [|]|by right].
  - subst run. unfold main, fopen. rewrite Ef. eexists. split; [reflexivity|]. by split.
Qed.
End Correct.

(** ** Witness: a machine that counts the events, on Linux

    It does not return when its first opcode is 0x40. *)

#[local] Instance counting_host : BootHost (Z * (Z -> Z)) := {|
  boot_cli := {|
    buxn_jit_execute _ t := if snd t 0x100 =? 0x40 then OutOfFuel else Ok (tt, (fst t + 1, snd t));
    buxn_vm_dev_load2 _ _ := 0x200;
    buxn_system_exit_code t := if fst t <? 4 then -1 else snd t 0x101;
    buxn_console_should_send_input _ := true;
    set_console _ _ t := t;
    BUXN_RESET_VECTOR := 0x100;
    BUXN_CONSOLE_STDIN := 1;
    BUXN_CONSOLE_ARG := 2;
    BUXN_CONSOLE_ARG_SEP := 3;
    BUXN_CONSOLE_END := 4;
  |};
  file_at path :=
    if decide (path = chars "a.rom") then Some [7; 8; 9]
    else if decide (path = chars "loop.rom") then Some [0x40; 0xff; 0xfd]
    else if decide (path = chars "a.rom.sym") then Some ([1; 0] ++ chars "main" ++ [0]) else None;
  dbg_symtab := unit;
  buxn_dbg_read_symtab_header _ := true;
  buxn_dbg_read_symtab _ := None;
  buxn_vm_reset := (0, fun _ => 0);
  MEMORY_SIZE := 0x10000;
  vm_memory_of := snd;
  with_memory f t := (fst t, f);
  buxn_console_init _ t := t;
  boot_platform := Linux;
|}.

Definition no_machine : @cli_state (Z * (Z -> Z)) := mkCli (0, fun _ => 0) [].

(** What [main_correct] says of a session's result. *)
Definition main_as (rom_path : list Z) (args : list (list Z)) (input : list Z) : Prop :=
  let run := main (chars "buxn" :: rom_path :: args) input (mkBoot [] no_machine) in
  match file_at rom_path with
  | None => exists s, run = Ok (1, s) /\ console s = no_machine /\ lifetimes (actions s) [] = Some []
  | Some rom =>
      match boot_session args rom input no_machine with
      | Ok (code, c) =>
          exists s, run = Ok (code, s) /\ console s = c /\ lifetimes (actions s) [] = Some [] /\
            forall k lm st, InitHook k lm st ∈ actions s <->
              k ∈ hooks_of boot_platform /\ lm = sym_of rom_path /\ st = symtab_of rom_path
      | AssertFailed e => run = AssertFailed e
      | OutOfFuel => run = OutOfFuel
      end
  end.

(** The first ROM sees four events and exits with the code 8; the second one
    loops. *)
Lemma main_correct_witness :
  (fun r => (fst r, fst (machine (snd r)), sent (snd r))) <$> boot_session [[0x61; 0]] [7; 8; 9] [0x62; 0x63] no_machine =
    Ok (8, 4, [(2, 0x61); (4, newline); (1, 0x62)]) /\
  boot_session [] [0x40; 0xff; 0xfd] [] no_machine = OutOfFuel /\
  main_as (chars "a.rom") [[0x61; 0]] [0x62; 0x63] /\ main_as (chars "loop.rom") [] [].
Proof.
  split; [vm_compute; reflexivity|]. split; [vm_compute; reflexivity|]. split.
  - apply (main_correct (chars "buxn") (chars "a.rom") [[0x61; 0]] [0x62; 0x63] no_machine).
    constructor; [|constructor]. exists [0x61], []. split; [reflexivity|]. repeat constructor. discriminate.
  - apply (main_correct (chars "buxn") (chars "loop.rom") [] [] no_machine). constructor.
Defined.
