(* ===== verification/HostRun.v ===== *)
(** * A session of the host program

    src/src/cli.c runs a ROM by calls of [buxn_jit_execute], one for the reset
    vector and one for each console event.  [jit_host] is this host with the
    compiled code of JitRun.v, on the memory of the virtual machine; [uxn_host]
    runs the specification instead.  Both are hosts each of whose calls returns
    ([Returns]): a call that does not end within the fuel, or fails, gives a
    machine that has given up.  [hosts_in_step]: two such hosts whose machines
    correspond send the same events and exit alike. *)
From S2P Require Import Prelude Bytes Pointers Lir Hamt Jit Queues StackCache Uxn MicroOps Opcodes Compile Invariant CacheSafety OpcodeSafety BlockSafety JitSafety Machine StackSim StepSim MemSim UxnControl UxnDevices HostSim JumpSim DeviceSim BlockFlow LinkedRun Trampoline Session SessionInv JitRun Cli.
Local Open Scope jit_scope.

(** ** Hosts whose calls return *)

(** A host each of whose calls of the JIT returns a machine, which may be one
    that has given up. *)
Class Returns (T : Type) `{CliHost T} := {
  execute : Z -> T -> T;
  execute_returns pc t : buxn_jit_execute pc t = Ok (tt, execute pc t);
}.

Section Returning.
Context `{Returns T}.

(** The machine after one event. *)
Definition after (t : T) (e : Z * Z) : T :=
  let t := set_console (fst e) (snd e) t in execute (buxn_vm_dev_load2 0x10 t) t.

Lemma deliver_after e t : deliver e t = Ok (tt, after t e).
Proof. unfold deliver, bind, modify, gets. by rewrite execute_returns. Qed.

Lemma deliver_all_after l t : for_each deliver l t = Ok (tt, fold_left after l t).
Proof.
  revert t. induction l as [|e l IH]; intros t; [done|]. cbn [for_each fold_left]. unfold bind.
  by rewrite deliver_after.
Qed.

Lemma input_events_after ch input t :
  input_events (ch :: input) t =
    if running t then
      let e := (BUXN_CONSOLE_STDIN, u8 ch) in e :: input_events input (after t e)
    else [].
Proof. cbn [input_events]. by rewrite deliver_after. Qed.

Lemma run_events_after argv input t :
  run_events argv input t =
    if 0 <? buxn_system_exit_code t then []
    else let t1 := fold_left after (arg_events argv) t in
      arg_events argv ++ (if 0 <? buxn_system_exit_code t1 then [] else input_events input t1).
Proof. unfold run_events. by rewrite deliver_all_after. Qed.

(** The run returns. *)
Lemma boot_run_returns argv input t :
  Forall terminated argv ->
  let t0 := execute BUXN_RESET_VECTOR t in
  let l := run_events argv input t0 in
  let t' := fold_left after l t0 in
  boot_run argv input (mkCli t []) = Ok (Z.max 0 (buxn_system_exit_code t'), mkCli t' l).
Proof.
  intros Ha t0 l t'. rewrite boot_run_spec by done. unfold run_spec, call_jit, delivered, at_machine, bind, gets.
  cbn. rewrite execute_returns. cbn. by rewrite deliver_all_after.
Qed.
End Returning.

(** ** Two hosts in step *)

Section InStep.
Context {T1 T2 : Type} {H1 : CliHost T1} {H2 : CliHost T2} {R1 : Returns T1} {R2 : Returns T2}.
Context (Sim : T1 -> T2 -> Prop) (gone1 : T1 -> Prop) (gone2 : T2 -> Prop).

(** In step, or one of them has given up. *)
Definition steps (t1 : T1) (t2 : T2) : Prop := Sim t1 t2 \/ gone1 t1 \/ gone2 t2.

Record in_step : Prop := {
  is_reset : @BUXN_RESET_VECTOR T1 _ = @BUXN_RESET_VECTOR T2 _;
  is_stdin : @BUXN_CONSOLE_STDIN T1 _ = @BUXN_CONSOLE_STDIN T2 _;
  is_arg : @BUXN_CONSOLE_ARG T1 _ = @BUXN_CONSOLE_ARG T2 _;
  is_sep : @BUXN_CONSOLE_ARG_SEP T1 _ = @BUXN_CONSOLE_ARG_SEP T2 _;
  is_end : @BUXN_CONSOLE_END T1 _ = @BUXN_CONSOLE_END T2 _;
  is_code : forall t1 t2, Sim t1 t2 -> buxn_system_exit_code t1 = buxn_system_exit_code t2;
  is_wants : forall t1 t2, Sim t1 t2 ->
    buxn_console_should_send_input t1 = buxn_console_should_send_input t2;
  is_execute : forall t1 t2, Sim t1 t2 ->
    steps (execute BUXN_RESET_VECTOR t1) (execute BUXN_RESET_VECTOR t2);
  is_deliver : forall t1 t2 e, Sim t1 t2 -> steps (after t1 e) (after t2 e);
  is_gone1 : forall t e, gone1 t -> gone1 (after t e);
  is_gone2 : forall t e, gone2 t -> gone2 (after t e);
}.

Hypothesis Hs : in_step.

Lemma steps_deliver t1 t2 e : steps t1 t2 -> steps (after t1 e) (after t2 e).
Proof.
  intros [Hr|[Hg|Hg]]; [by apply is_deliver|right; left; by apply is_gone1|right; right; by apply is_gone2].
Qed.

Lemma gone_delivered l1 l2 t1 t2 :
  gone1 t1 \/ gone2 t2 -> gone1 (fold_left after l1 t1) \/ gone2 (fold_left after l2 t2).
Proof.
  intros [Hg|Hg]; [left; revert t1 Hg; induction l1 as [|e l IH]|right; revert t2 Hg; induction l2 as [|e l IH]];
    intros t Hg; [done|by apply IH, is_gone1|done|by apply IH, is_gone2].
Qed.

Lemma steps_delivered l t1 t2 : steps t1 t2 -> steps (fold_left after l t1) (fold_left after l t2).
Proof. revert t1 t2. induction l as [|e l IH]; intros t1 t2 Ht; [done|]. by apply IH, steps_deliver. Qed.

Lemma in_step_args argv : arg_events (T := T1) argv = arg_events (T := T2) argv.
Proof.
  induction argv as [|arg argv IH]; [done|]. cbn [arg_events]. rewrite IH, (is_arg Hs), (is_sep Hs), (is_end Hs).
  done.
Qed.

(** The same events reach both machines, which stay in step. *)
Definition same_events (l1 l2 : list (Z * Z)) (t1 : T1) (t2 : T2) : Prop :=
  (l1 = l2 /\ Sim (fold_left after l1 t1) (fold_left after l2 t2)) \/
  gone1 (fold_left after l1 t1) \/ gone2 (fold_left after l2 t2).
Lemma same_events_app l1 l2 k1 k2 t1 t2 :
  same_events l1 l2 t1 t2 ->
  (Sim (fold_left after l1 t1) (fold_left after l2 t2) ->
   same_events k1 k2 (fold_left after l1 t1) (fold_left after l2 t2)) ->
  same_events (l1 ++ k1) (l2 ++ k2) t1 t2.
Proof.
  unfold same_events. rewrite !fold_left_app. intros [[-> Hr]|Hg] Hk; [|right; by apply gone_delivered].
  destruct (Hk Hr) as [[-> Hr2]|Hg]; [by left|by right].
Qed.

Lemma same_events_some l t1 t2 : steps t1 t2 -> same_events l l t1 t2.
Proof. intros Ht. apply (steps_delivered l) in Ht as [Hr|Hg]; [by left|by right]. Qed.

Lemma in_step_input input t1 t2 :
  Sim t1 t2 -> same_events (input_events input t1) (input_events input t2) t1 t2.
Proof.
  revert t1 t2. induction input as [|ch input IH]; intros t1 t2 Hr; rewrite ?input_events_after; cbn [input_events]; unfold running;
    rewrite (is_code Hs t1 t2 Hr), (is_wants Hs t1 t2 Hr);
    (destruct ((buxn_system_exit_code t2 <? 0) && buxn_console_should_send_input t2); [|by left]).
  - rewrite (is_end Hs). apply same_events_some. by left.
  - rewrite (is_stdin Hs). set (e := (BUXN_CONSOLE_STDIN, u8 ch)).
    apply (same_events_app [e] [e]); [apply same_events_some; by left|apply IH].
Qed.

Lemma in_step_events argv input t1 t2 :
  Sim t1 t2 -> same_events (run_events argv input t1) (run_events argv input t2) t1 t2.
Proof.
  intros Hr. rewrite !run_events_after, (is_code Hs t1 t2 Hr), in_step_args.
  destruct (0 <? _); [by left|]. apply same_events_app; [apply same_events_some; by left|]. intros Hr2.
  rewrite (is_code Hs _ _ Hr2). destruct (0 <? _); [by left|]. by apply in_step_input.
Qed.

(** Both runs end; unless a machine has given up they sent the same events,
    return the same exit code, and the machines are still in step. *)
Theorem hosts_in_step argv input t1 t2 :
  Forall terminated argv -> Sim t1 t2 ->
  exists c1 s1 c2 s2,
    boot_run argv input (mkCli t1 []) = Ok (c1, s1) /\ boot_run argv input (mkCli t2 []) = Ok (c2, s2) /\
    ((c1 = c2 /\ sent s1 = sent s2 /\ Sim (machine s1) (machine s2)) \/
     gone1 (machine s1) \/ gone2 (machine s2)).
Proof.
  intros Ha Hr. do 4 eexists. split; [by apply boot_run_returns|]. split; [by apply boot_run_returns|].
  cbn [machine sent]. rewrite (is_reset Hs). destruct (is_execute Hs t1 t2 Hr) as [Hr1|Hg].
  - destruct (in_step_events argv input _ _ Hr1) as [[E Hr2]|Hg]; [left|right; exact Hg].
    split; [by rewrite (is_code Hs _ _ Hr2)|]. split; [exact E|exact Hr2].
  - right. by apply gone_delivered.
Qed.
End InStep.

(** ** The hosts *)

(** What buxn's host library does on the memory of the virtual machine:
    the exit code, whether input is listened to, a short of the device page, a
    console event, and the interpreter from an address of the zero page. *)
Class Front := {
  f_exit_code : (Z -> Z) -> Z;
  f_wants_input : (Z -> Z) -> bool;
  f_load2 : Z -> (Z -> Z) -> Z;
  f_set_console : Z -> Z -> (Z -> Z) -> Z -> Z;
  f_interpret : Z -> (Z -> Z) -> Z -> Z;
  f_stdin : Z;
  f_arg : Z;
  f_arg_sep : Z;
  f_end : Z;
}.

(** The same for the specification. *)
Class FrontModel {DM : DevModel} := {
  s_exit_code : uxn -> Z;
  s_wants_input : uxn -> bool;
  s_load2 : Z -> uxn -> Z;
  s_set_console : Z -> Z -> uxn -> uxn;
  s_interpret : Z -> uxn -> uxn;
}.

Section Hosts.
Context {Lay : VmLayout} {SL : Sljit} {SP : SljitSpec} {HO : Host} {vmb : Z} {LS : LayoutSpec vmb}.
Context {VM : BuxnVm} {CG : CodeGen} {DM : DevModel} {HS : HostSpec vmb}.

#[local] Abbreviation Held := (Held (vmb := vmb)).

Context {FR : Front} {FM : FrontModel}.

Class FrontSpec := {
  front_exit_code mm u : Held mm u -> f_exit_code mm = s_exit_code u;
  front_wants_input mm u : Held mm u -> f_wants_input mm = s_wants_input u;
  front_load2 mm u a : Held mm u -> f_load2 a mm = s_load2 a u /\ is_u16 (s_load2 a u);
  front_set_console mm u type value : Held mm u ->
    Held (f_set_console type value mm) (s_set_console type value u);
  front_interpret mm u pc : 0 <= pc < 256 -> Held mm u -> Held (f_interpret pc mm) (s_interpret pc u);
}.

Context (prog : Z -> Z) (h : option buxn_jit_hook_t) (fuel : nat).

(** *** Compiled code *)

(** The addresses the JIT was asked for, and the memory.  [Unplain]: an opcode
    compiled on the way does not pass the check of [plain_execute].  [Stuck]:
    the compiled code does not return, or [Trampoline failed]. *)
Inductive jit_state :=
  | Ready (asked : list Z) (mm : Z -> Z)
  | Unplain
  | Stuck.

Definition on_memory (f : (Z -> Z) -> Z -> Z) (st : jit_state) : jit_state :=
  match st with Ready asked mm => Ready asked (f mm) | o => o end.

Definition from_memory {A} (f : (Z -> Z) -> A) (dummy : A) (st : jit_state) : A :=
  match st with Ready _ mm => f mm | _ => dummy end.

(** The machine when the function of a block is called: its argument is in the
    first saved register. *)
Definition called (mm : Z -> Z) : mach :=
  mkMach (fun r => if decide (r = BUXN_JIT_S_VM) then vmb else wrap (clobber r)) mm (0, 0).

(** [buxn_jit_execute] *)
Definition jit_execute (pc : Z) (st : jit_state) : jit_state :=
  match st with
  | Ready asked mm =>
      if plain_execute prog h fuel (S fuel) asked pc (called mm) then
        match execute_fn prog h fuel (S fuel) asked pc (called mm) with
        | (Done next m, asked) =>
            if 0xffff <? next then Ready asked (mem m)
            else if u16 next <=? 0xff then Ready asked (f_interpret (u16 next) (mem m))
            else Stuck
        | _ => Stuck
        end
      else Unplain
  | o => o
  end.

Definition jit_host : CliHost jit_state := {|
  buxn_jit_execute pc st := Ok (tt, jit_execute pc st);
  buxn_vm_dev_load2 a := from_memory (f_load2 a) 0;
  buxn_system_exit_code := from_memory f_exit_code 0;
  buxn_console_should_send_input := from_memory f_wants_input false;
  set_console type value := on_memory (f_set_console type value);
  Cli.BUXN_RESET_VECTOR := Jit.BUXN_RESET_VECTOR;
  BUXN_CONSOLE_STDIN := f_stdin;
  BUXN_CONSOLE_ARG := f_arg;
  BUXN_CONSOLE_ARG_SEP := f_arg_sep;
  BUXN_CONSOLE_END := f_end;
|}.

#[export] Instance jit_returns : @Returns jit_state jit_host :=
  @Build_Returns jit_state jit_host jit_execute (fun _ _ => eq_refl).

(** *** The specification *)

(** uxn reads its program from its memory.  The bytes an opcode consists of
    are those of the program the JIT compiles. *)
Definition intact (s : vm) : bool :=
  forallb (fun i => vm_ram s (u16 (vm_pc s + i)) =? prog (u16 (vm_pc s + i))) [0; 1; 2].

Definition stopped (s : vm) : bool :=
  match opcode_name (vm_ram s (u16 (vm_pc s))) with BRK => true | _ => false end.

(** The state in which the machine stops, within [k] steps; none when it has
    changed an opcode it reaches. *)
Fixpoint uxn_run (k : nat) (u : uxn) : option uxn :=
  if vm_pc (u_vm u) <? 256 then Some u
  else if negb (intact (u_vm u)) then None
  else if stopped (u_vm u) then Some u
  else match k with O => None | S k => u' ← uxn_tick (vm_ram (u_vm u)) u; uxn_run k u' end.

Definition uxn_execute (pc : Z) (o : option uxn) : option uxn :=
  u ← o;
  u' ← uxn_run fuel (on_vm (with_pc pc) u);
  Some (if vm_pc (u_vm u') <? 256 then s_interpret (vm_pc (u_vm u')) u' else u').

Definition uxn_host : CliHost (option uxn) := {|
  buxn_jit_execute pc o := Ok (tt, uxn_execute pc o);
  buxn_vm_dev_load2 a := from_option (s_load2 a) 0;
  buxn_system_exit_code := from_option s_exit_code 0;
  buxn_console_should_send_input := from_option s_wants_input false;
  set_console type value := fmap (s_set_console type value);
  Cli.BUXN_RESET_VECTOR := Jit.BUXN_RESET_VECTOR;
  BUXN_CONSOLE_STDIN := f_stdin;
  BUXN_CONSOLE_ARG := f_arg;
  BUXN_CONSOLE_ARG_SEP := f_arg_sep;
  BUXN_CONSOLE_END := f_end;
|}.

#[export] Instance uxn_returns : @Returns (option uxn) uxn_host :=
  @Build_Returns (option uxn) uxn_host uxn_execute (fun _ _ => eq_refl).

(** ** The two in step *)

Context {FS : FrontSpec}.
Hypothesis Hreset : Jit.BUXN_RESET_VECTOR = 256.
Hypothesis Hprog : forall a, is_u8 (prog a).

Lemma intact_at s i : intact s = true -> 0 <= i < 3 -> vm_ram s (u16 (vm_pc s + i)) = prog (u16 (vm_pc s + i)).
Proof.
  unfold intact. cbn [forallb]. rewrite !andb_true_iff, !Z.eqb_eq. intros (H0 & H1 & H2 & _) Hi.
  assert (i = 0 \/ i = 1 \/ i = 2) as [->|[->| ->]] by lia; done.
Qed.

Lemma intact_tick u : intact (u_vm u) = true -> uxn_tick (vm_ram (u_vm u)) u = uxn_tick prog u.
Proof.
  intros Hi. pose proof (intact_at (u_vm u) 0 Hi ltac:(lia)) as E0. rewrite Z.add_0_r in E0.
  unfold uxn_tick, vm_tick. rewrite E0. destruct (negb _); [|done].
  destruct (vm_pc (u_vm u) <? 256); [done|].
  assert (immediate_target (vm_ram (u_vm u)) (u16 (vm_pc (u_vm u) + 1)) =
    immediate_target prog (u16 (vm_pc (u_vm u) + 1))) as Ei.
  { unfold immediate_target. assert (forall x, u16 (u16 x) = u16 x) as Hu by (intros x; apply u16_id, u16_range).
    assert (u16 (u16 (vm_pc (u_vm u) + 1) + 1) = u16 (vm_pc (u_vm u) + 2)) as -> by mlia.
    by rewrite Hu, (intact_at _ 1), (intact_at _ 2) by (done || lia). }
  destruct (opcode_name _); cbn [vm_exec with_pc vm_pc]; by rewrite ?Ei.
Qed.

Lemma uxn_run_ticks k u u' : uxn_run k u = Some u' ->
  exists n, (n <= k)%nat /\ uxn_ticks prog n u = Some u' /\ stops prog (u_vm u').
Proof.
  assert (forall n u1, n = O -> uxn_ticks prog n u1 = Some u1) as H0 by (by intros n u1 ->).
  revert u. induction k as [|k IH]; intros u; cbn [uxn_run]; destruct (Z.ltb_spec (vm_pc (u_vm u)) 256) as [Hz|Hz];
    try (intros [= <-]; exists O; split; [lia|]; split; [by apply H0|by left]).
  all: destruct (intact (u_vm u)) eqn:Ei; cbn [negb]; [|done].
  all: pose proof (intact_at (u_vm u) 0 Ei ltac:(lia)) as E0; rewrite Z.add_0_r in E0.
  all: unfold stopped; rewrite E0; destruct (decide (opcode_name (prog (u16 (vm_pc (u_vm u)))) = BRK)) as [Eb|Eb];
    try (rewrite Eb; intros [= <-]; exists O; split; [lia|]; split; [by apply H0|by right]).
  - by destruct (opcode_name _).
  - rewrite intact_tick by done. destruct (uxn_tick prog u) as [u1|] eqn:Et.
    + intros Hr. assert (uxn_run k u1 = Some u') as (n & Hn & Ht & Hs)%IH by (by destruct (opcode_name _)).
      exists (S n). split; [lia|]. split; [|done]. cbn [uxn_ticks]. by rewrite Et.
    + by destruct (opcode_name _).
Qed.

Lemma uxn_run_stops k u u' : uxn_run k u = Some u' -> 256 <= vm_pc (u_vm u') -> stopped (u_vm u') = true.
Proof.
  revert u. induction k as [|k IH]; intros u; cbn [uxn_run]; destruct (Z.ltb_spec (vm_pc (u_vm u)) 256) as [Hz|Hz];
    try (intros [= <-]; lia); destruct (negb _); try done; destruct (stopped (u_vm u)) eqn:Es; try (by intros [= <-]).
  destruct (uxn_tick _ u) as [u1|]; [apply IH|done].
Qed.

Definition alike_states (st : jit_state) (o : option uxn) : Prop :=
  exists asked mm u, st = Ready asked mm /\ o = Some u /\ Held mm u /\ Forall is_u16 asked.

Lemma called_words mm : words (called mm).
Proof.
  intros r. cbn. case_decide; [|apply word_wrap]. pose proof lay_vmb.
  destruct (lay_bounds _ (stack_region false)). cbn [fst snd] in *. unfold is_word. lia.
Qed.

(** A call on whose way every opcode compiled is plain, when the specification
    stops: the code returns, never with a value between. *)
Lemma execute_exits pc asked mm u u' :
  is_u16 pc -> Forall is_u16 asked -> Held mm u -> uxn_run fuel (on_vm (with_pc pc) u) = Some u' ->
  plain_execute prog h fuel (S fuel) asked pc (called mm) = true ->
  exists asked' mm', Forall is_u16 asked' /\ Held mm' u' /\ 0 <= exit_value (u_vm u') /\
    jit_execute pc (Ready asked mm) =
      Ready asked' (if vm_pc (u_vm u') <? 256 then f_interpret (vm_pc (u_vm u')) mm' else mm').
Proof.
  intros Hpc Ha [Him Hw] (k & Hk & Ht & Hs)%uxn_run_ticks Ep. cbn [jit_execute]. rewrite Ep.
  set (u1 := on_vm (with_pc pc) u) in *.
  assert (Finished (vmb := vmb) u' (execute_fn prog h fuel (S fuel) asked (vm_pc (u_vm u1)) (called mm)))
    as (m' & asked' & E & Hv & Hh & Ha').
  { apply (execute_fn_sim prog h u' Hreset Hs Hprog (S fuel) fuel k); [done|lia|done|done|apply called_words|done| |done|done].
    split; [by apply image_pc|done]. }
  change (vm_pc (u_vm u1)) with pc in E. rewrite E. exists asked', (mem m'). split; [done|]. split; [done|]. split; [done|].
  unfold exit_value in *. destruct (Z.ltb_spec (vm_pc (u_vm u')) 256) as [Hz|Hz]; [|done].
  by rewrite (proj2 (Z.ltb_ge _ _)), u16_id, (proj2 (Z.leb_le _ _)) by (unfold is_u16; lia).
Qed.

Lemma execute_alike pc st o : is_u16 pc -> alike_states st o ->
  let st' := jit_execute pc st in let o' := uxn_execute pc o in
  alike_states st' o' \/ st' = Unplain \/ o' = None.
Proof.
  intros Hpc (asked & mm & u & -> & -> & Hh & Ha). cbv zeta. unfold uxn_execute. cbn [mbind option_bind].
  destruct (uxn_run fuel _) as [u'|] eqn:Er; [|by right; right].
  destruct (plain_execute prog h fuel (S fuel) asked pc (called mm)) eqn:Ep;
    [|right; left; cbn [jit_execute]; by rewrite Ep].
  destruct (execute_exits pc asked mm u u' Hpc Ha Hh Er Ep) as (asked' & mm' & Ha' & Hh' & Hv & ->). left.
  cbn [mbind option_bind]. do 3 eexists. split; [done|]. split; [done|]. split; [|done].
  unfold exit_value in Hv. destruct (Z.ltb_spec (vm_pc (u_vm u')) 256); [by apply front_interpret|done].
Qed.

Lemma jit_in_step : in_step (H1 := jit_host) (H2 := uxn_host) alike_states (fun st => st = Unplain) (fun o => o = None).
Proof.
  split; try reflexivity; unfold steps; cbn [buxn_system_exit_code buxn_console_should_send_input buxn_jit_execute].
  - intros st o (asked & mm & u & -> & -> & Hh & _). by apply front_exit_code.
  - intros st o (asked & mm & u & -> & -> & Hh & _). by apply front_wants_input.
  - intros st o Hr. apply execute_alike; [|done]. cbn. by rewrite Hreset.
  - intros st o [type value] (asked & mm & u & -> & -> & Hh & Ha). 
    pose proof (front_set_console mm u type value Hh) as Hh2. destruct (front_load2 _ _ 0x10 Hh2) as [E Hu].
    change (after (H := jit_host) (Ready asked mm) (type, value)) with
      (jit_execute (f_load2 0x10 (f_set_console type value mm)) (Ready asked (f_set_console type value mm))).
    change (after (H := uxn_host) (Some u) (type, value)) with
      (uxn_execute (s_load2 0x10 (s_set_console type value u)) (Some (s_set_console type value u))).
    rewrite E. apply execute_alike; [done|]. by do 3 eexists.
  - by intros st e ->.
  - by intros o e ->.
Qed.
End Hosts.
