(* ===== verification/HostCorrect.v ===== *)
(** * The host program under the JIT implements uxn

    [session_refines]: what src/src/cli.c does with a ROM it has loaded, run
    by compiled code and run by the specification.  The witness is a program
    that echoes what the console sends and exits at the end of the input. *)
From S2P Require Import Prelude Bytes Lir Hamt Jit Queues StackCache Uxn MicroOps Opcodes Compile Concrete Machine StackSim StepSim MemSim UxnControl UxnDevices HostSim JumpSim DeviceSim LinkedRun Trampoline Session JitRun SimCorrect Console Cli HostRun.
Local Open Scope jit_scope.

Section Refinement.
Context {Lay : VmLayout} {SL : Sljit} {SP : SljitSpec} {HO : Host} {vmb : Z} {LS : LayoutSpec vmb}.
Context {VM : BuxnVm} {CG : CodeGen} {DM : DevModel} {HS : HostSpec vmb}.
Context {FR : Front} {FM : FrontModel} {FS : FrontSpec (vmb := vmb)}.

(** C1: A session under the JIT.  With a state of uxn in memory, the host program
    runs the reset vector, sends the arguments and the input, and ends; run
    by the specification of uxn it ends as well.  The specification reads its
    opcodes from its memory.  Unless it does not stop within the fuel or reaches
    an opcode that is not the one of the program [prog] any more, or compiled code
    on the way does not pass [plain_execute], the two sessions send the same
    console events, exit with the same code, and the memory holds the final
    state of the specification, everything its devices printed included. *)
Theorem session_refines prog h fuel argv input asked mm u :
  Jit.BUXN_RESET_VECTOR = 256 -> (forall a, is_u8 (prog a)) -> Forall terminated argv ->
  Forall is_u16 asked -> Held (vmb := vmb) mm u ->
  exists c1 s1 c2 s2,
    boot_run (H := jit_host (vmb := vmb) prog h fuel) argv input (mkCli (Ready asked mm) []) = Ok (c1, s1) /\
    boot_run (H := uxn_host prog fuel) argv input (mkCli (Some u) []) = Ok (c2, s2) /\
    (machine s1 <> Unplain -> forall u', machine s2 = Some u' ->
       c1 = c2 /\ sent s1 = sent s2 /\
       exists asked' mm', machine s1 = Ready asked' mm' /\ Held (vmb := vmb) mm' u').
Proof.
  intros Hr Hp Ha Hk Hh.
  destruct (hosts_in_step _ _ _ (jit_in_step prog h fuel Hr Hp) argv input (Ready asked mm) (Some u) Ha)
    as (c1 & s1 & c2 & s2 & E1 & E2 & Hst); [by exists asked, mm, u|].
  exists c1, s1, c2, s2. split; [exact E1|]. split; [exact E2|]. intros Hu u' Eu.
  destruct Hst as [(Hc & Hl & asked' & mm' & u2 & E & E' & Hh' & _)|[|]]; [|done|congruence].
  split; [done|]. split; [done|]. exists asked', mm'. split; [done|]. by assert (u2 = u') as -> by congruence.
Qed.

(** C23: Leaving compiled code.  Let the specification stop, within the fuel,
    when it runs from [pc] in the state [u] that is in memory, and let every
    opcode compiled on the way pass [plain_execute].  Then [buxn_jit_execute]
    returns: "Trampoline failed" is not reached, nor is code entered that
    does not return.  After a BRK the memory holds the last state; at an address
    of the zero page the interpreter is called with this address, on a memory
    that holds the last state. *)
Theorem execute_leaves prog h fuel pc asked mm u u' :
  Jit.BUXN_RESET_VECTOR = 256 -> (forall a, is_u8 (prog a)) -> Forall is_u16 asked -> is_u16 pc ->
  Held (vmb := vmb) mm u -> uxn_run prog fuel (on_vm (with_pc pc) u) = Some u' ->
  plain_execute prog h fuel (S fuel) asked pc (called (vmb := vmb) mm) = true ->
  exists asked' mm', Forall is_u16 asked' /\ Held (vmb := vmb) mm' u' /\
    ((stopped (u_vm u') = true /\ 256 <= vm_pc (u_vm u') /\
      jit_execute (vmb := vmb) prog h fuel pc (Ready asked mm) = Ready asked' mm') \/
     (0 <= vm_pc (u_vm u') < 256 /\
      jit_execute (vmb := vmb) prog h fuel pc (Ready asked mm) =
        Ready asked' (f_interpret (vm_pc (u_vm u')) mm'))).
Proof.
  intros Hr Hp Ha Hpc Hh Er Ep.
  destruct (execute_exits prog h fuel Hr Hp pc asked mm u u' Hpc Ha Hh Er Ep) as (asked' & mm' & Ha' & Hh' & Hv & ->).
  exists asked', mm'. split; [done|]. split; [done|]. unfold exit_value in Hv.
  destruct (Z.ltb_spec (vm_pc (u_vm u')) 256) as [Hz|Hz]; [by right|left].
  split; [by apply (uxn_run_stops prog fuel _ _ Er)|done].
Qed.
End Refinement.

(** ** Witness on the host of Console.v *)

#[local] Existing Instances layout_ref vm_ref codegen_ref sljit_ref sljit_ref_spec layout_ref_spec
  console_host console_model console_spec.

Definition device_page : Z := 4096 + 592.

Definition code_of (b : Z) : Z := if b =? 0 then -1 else Z.land b 0x7f.
Definition short_of (hi lo : Z) : Z := u16 (hi * 256 + lo).

(** The exit code is read from the byte 0x0f, events arrive in 0x17 and 0x12,
    and the zero page holds a BRK. *)
Definition console_front : Front := {|
  f_exit_code mm := code_of (mm (device_page + 0x0f));
  f_wants_input mm := negb (short_of (mm (device_page + 0x10)) (mm (device_page + 0x11)) =? 0);
  f_load2 a mm := short_of (mm (device_page + u8 a)) (mm (device_page + u8 (a + 1)));
  f_set_console type value mm x :=
    if x =? device_page + 0x12 then u8 value else if x =? device_page + 0x17 then u8 type else mm x;
  f_interpret pc mm := mm;
  f_stdin := 1;
  f_arg := 2;
  f_arg_sep := 3;
  f_end := 4;
|}.

Definition console_front_model : FrontModel := {|
  s_exit_code u := code_of (page_of (u_dev u) 0x0f);
  s_wants_input u := negb (short_of (page_of (u_dev u) 0x10) (page_of (u_dev u) 0x11) =? 0);
  s_load2 a u := short_of (page_of (u_dev u) (u8 a)) (page_of (u_dev u) (u8 (a + 1)));
  s_set_console type value := on_dev (fun d => dev_write 0x12 (u8 value) (dev_write 0x17 (u8 type) d));
  s_interpret pc u := u;
|}.

#[local] Existing Instances console_front console_front_model.

Lemma page_write_image a v mm s : is_u8 a -> is_u8 v -> Image (vmb := 4096) mm s ->
  Image (vmb := 4096) (fun x => if x =? device_page + a then v else mm x) s.
Proof.
  intros Ha Hv [Hb Hst Hram]. unfold is_u8 in Ha. split.
  - intros x. case_match; [done|apply Hb].
  - intros r. rewrite (proj2 (Z.eqb_neq _ _)) by (destruct r; cbn; unfold device_page; lia).
    eapply stk_mem; [|apply Hst]. intros x Hx.
    rewrite (proj2 (Z.eqb_neq _ _)); [done|]. unfold is_u8 in Hx. unfold base, device_page; destruct r; cbn; lia.
  - intros y Hy. unfold is_u16 in Hy. rewrite (proj2 (Z.eqb_neq _ _)) by (unfold device_page; cbn; lia).
    by apply Hram.
Qed.

Lemma page_write_held a v mm u : is_u8 a -> is_u8 v -> Held (vmb := 4096) mm u ->
  Held (vmb := 4096) (fun x => if x =? device_page + a then v else mm x) (on_dev (dev_write a v) u).
Proof.
  intros Ha Hv [Him Hw]. split; [by apply page_write_image|]. exact (world_write mm (u_dev u) a v Ha Hv Hw).
Qed.

Lemma held_page mm u a : Held (vmb := 4096) mm u -> is_u8 a -> mm (device_page + a) = page_of (u_dev u) a.
Proof. intros [_ [Hp _]] Ha. by apply Hp. Qed.

Definition console_front_spec : FrontSpec (vmb := 4096).
Proof.
  split.
  - intros mm u Hh. cbn. by rewrite (held_page mm u).
  - intros mm u Hh. cbn. by rewrite !(held_page mm u).
  - intros mm u a Hh. cbn. rewrite !(held_page mm u) by (done || apply u8_range). split; [done|apply u16_range].
  - intros mm u type value Hh. exact (page_write_held 0x12 (u8 value) _ _ ltac:(done) (u8_range _)
      (page_write_held 0x17 (u8 type) _ _ ltac:(done) (u8_range _) Hh)).
  - done.
Defined.

#[local] Existing Instance console_front_spec.

(** [;on-console #10 DEO2k BRK @on-console #12 DEI DUP #00 EQU ?end #18 DEO BRK
    @end POP #83 #0f DEO BRK]: the two copies DUP makes share a register. *)
Definition echo : list Z :=
  [0xa0; 1; 7; 0x80; 0x10; 0x37; 0; 0x80; 0x12; 0x16; 0x06; 0x80; 0; 0x08; 0x20; 0; 4;
   0x80; 0x18; 0x17; 0; 0x02; 0x80; 0x83; 0x80; 0x0f; 0x17; 0].

Definition echo_start : uxn := mkUxn _ (start_state echo) silent_console.
Definition hi_arg : list Z := [0x68; 0x69; 0].
Definition ok_input : list Z := [0x6f; 0x6b].

#[local] Abbreviation jit_session :=
  (boot_run (H := jit_host (vmb := 4096) (rom echo) None 20) [hi_arg] ok_input
     (mkCli (Ready [] (mem (start_mach echo []))) [])).
#[local] Abbreviation uxn_session :=
  (boot_run (H := uxn_host (rom echo) 20) [hi_arg] ok_input (mkCli (Some echo_start) [])).

(** Two characters of an argument and the newline after it, two of the input
    and its end; five bytes are echoed, then the exit code 3. *)
Lemma session_refines_witness :
  match uxn_session with
  | Ok (c, s) => c = 3 /\ sent s = [(2, 0x68); (2, 0x69); (4, 10); (1, 0x6f); (1, 0x6b); (4, 0)] /\
      (fun u => printed (u_dev u)) <$> machine s = Some [0x6b; 0x6f; 10; 0x69; 0x68]
  | _ => False
  end /\
  match jit_session with Ok (_, s) => match machine s with Ready _ _ => True | _ => False end | _ => False end /\
  exists c1 s1 c2 s2, jit_session = Ok (c1, s1) /\ uxn_session = Ok (c2, s2) /\
    (machine s1 <> Unplain -> forall u', machine s2 = Some u' ->
       c1 = c2 /\ sent s1 = sent s2 /\
       exists asked' mm', machine s1 = Ready asked' mm' /\ Held (vmb := 4096) mm' u').
Proof.
  split; [vm_compute; split; [|split]; reflexivity|]. split; [vm_compute; exact I|].
  apply (session_refines (vmb := 4096) (rom echo) None 20 [hi_arg] ok_input [] (mem (start_mach echo [])) echo_start).
  - reflexivity.
  - apply rom_byte.
  - repeat constructor. exists [0x68; 0x69], []. split; [reflexivity|]. repeat constructor; discriminate.
  - constructor.
  - split; [apply start_image|apply start_world].
Defined.

(** [;0020 JMP2]: a jump to the zero page. *)
Definition leave : list Z := [0xa0; 0; 0x20; 0x2c].

Definition leave_start : uxn := mkUxn _ (start_state leave) silent_console.
Definition leave_end : uxn := default leave_start (uxn_run (rom leave) 5 (on_vm (with_pc 256) leave_start)).

Lemma execute_leaves_witness :
  vm_pc (u_vm leave_end) = 0x20 /\
  exists asked' mm', Forall is_u16 asked' /\ Held (vmb := 4096) mm' leave_end /\
    ((stopped (u_vm leave_end) = true /\ 256 <= vm_pc (u_vm leave_end) /\
      jit_execute (vmb := 4096) (rom leave) None 5 256 (Ready [] (mem (start_mach leave []))) = Ready asked' mm') \/
     (0 <= vm_pc (u_vm leave_end) < 256 /\
      jit_execute (vmb := 4096) (rom leave) None 5 256 (Ready [] (mem (start_mach leave []))) =
        Ready asked' (f_interpret (vm_pc (u_vm leave_end)) mm'))).
Proof.
  split; [vm_compute; reflexivity|].
  apply (execute_leaves (vmb := 4096) (rom leave) None 5 256 [] (mem (start_mach leave [])) leave_start leave_end).
  - reflexivity.
  - apply rom_byte.
  - constructor.
  - split; [discriminate|reflexivity].
  - split; [apply start_image|apply start_world].
  - apply some_default. vm_compute. reflexivity.
  - vm_compute. reflexivity.
Defined.
